(** * Dynamic-topology remesher (blenkernel/intern/dyntopo.c)

    A shallow embedding of the edge queue, the collapse pass, the bulk
    subdivide pass, the valence cleanup and the driver of
    [BKE_pbvh_bmesh_update_topology], followed by the properties of the
    specification that were checked against it.

    Conventions.
    - A C [float] is an IEEE-754 binary32 value: [spec_float] of the
      Standard Library at precision 24 and exponent bound 128.  The few
      places where the C code computes in [double] use precision 53 and
      exponent bound 1024.
    - Pointers to mesh elements are identities: a [BMVert *] is a
      [positive], a [BMFace *] is a [positive], a [BMEdge *] is the
      unordered pair of its end points (the mesh never holds two edges
      between the same vertices), a [BMLoop *] is a face with a corner
      index.
    - The undo log ([BM_log_*]) only records events and is left out. *)

From Stdlib Require Import ZArith List Bool Lia.
From Stdlib Require Import SpecFloat.
From stdpp Require Import gmap list.

Local Open Scope Z_scope.

(* ===================================================================== *)
(** ** C [float] and [double] *)
(* ===================================================================== *)

Definition f32 : Type := spec_float.
Definition f64 : Type := spec_float.

Definition f32_add : f32 -> f32 -> f32 := SFadd 24 128.
Definition f32_sub : f32 -> f32 -> f32 := SFsub 24 128.
Definition f32_mul : f32 -> f32 -> f32 := SFmul 24 128.
Definition f32_div : f32 -> f32 -> f32 := SFdiv 24 128.
Definition f32_sqrt : f32 -> f32 := SFsqrt 24 128.
Definition f32_neg : f32 -> f32 := SFopp.

Definition f64_add : f64 -> f64 -> f64 := SFadd 53 1024.
Definition f64_mul : f64 -> f64 -> f64 := SFmul 53 1024.
Definition f64_div : f64 -> f64 -> f64 := SFdiv 53 1024.

(** [a < b], [a <= b], [a == b] of C; [a > b] is [f_lt b a].  Every
    comparison with a NaN is false. *)
Definition f_lt (a b : spec_float) : bool := SFltb a b.
Definition f_le (a b : spec_float) : bool := SFleb a b.
Definition f_eq (a b : spec_float) : bool := SFeqb a b.
Definition f_gt (a b : spec_float) : bool := SFltb b a.
Definition f_ge (a b : spec_float) : bool := SFleb b a.

(** The binary32 (binary64) value nearest to [m * 2^e]: how a literal of
    the source is read. *)
Definition f32_lit (m e : Z) : f32 := binary_normalize 24 128 m e false.
Definition f64_lit (m e : Z) : f64 := binary_normalize 53 1024 m e false.

(** Conversions between the two formats: widening is exact, narrowing
    rounds to nearest even. *)
Definition f64_of_f32 (x : f32) : f64 :=
  match x with
  | S754_finite s m e => binary_normalize 53 1024 (cond_Zopp s (Zpos m)) e s
  | _ => x
  end.

Definition f32_of_f64 (x : f64) : f32 :=
  match x with
  | S754_finite s m e => binary_normalize 24 128 (cond_Zopp s (Zpos m)) e s
  | _ => x
  end.

(** [(int)x]: truncation toward zero.  The conversion of a NaN, an
    infinity or a value outside [int] is undefined in C; the driver only
    converts values between 1024 and 20480, and the model answers 0 for
    a NaN or an infinity. *)
Definition f32_to_int (x : f32) : Z :=
  match x with
  | S754_finite s m e =>
      cond_Zopp s (if 0 <=? e then Z.shiftl (Zpos m) e else Z.shiftr (Zpos m) (- e))
  | _ => 0
  end.

Definition f32_zero : f32 := S754_zero false.
Definition f32_one : f32 := f32_lit 1 0.
Definition f32_half : f32 := f32_lit 1 (-1).

(** [MAX2], [MIN2] of BLI_utildefines.h and [max_ff] of BLI_math: the
    plain conditional expressions. *)
Definition MAX2 (a b : f32) : f32 := if f_gt a b then a else b.
Definition MIN2 (a b : f32) : f32 := if f_lt a b then a else b.
Definition max_ff (a b : f32) : f32 := if f_gt a b then a else b.

(** [fmin] of the C library: the smaller argument, the other one when
    one of them is a NaN. *)
Definition fmin (a b : f32) : f32 :=
  match a, b with
  | S754_nan, _ => b
  | _, S754_nan => a
  | _, _ => if f_lt b a then b else a
  end.

Definition square_f (a : f32) : f32 := f32_mul a a.

(* ===================================================================== *)
(** ** Vectors (BLI_math_vector) *)
(* ===================================================================== *)

Record vec3 : Type := V3 { vx : f32; vy : f32; vz : f32 }.

Definition zero_v3 : vec3 := V3 f32_zero f32_zero f32_zero.

(** Modelled from the spec: the vector helpers of BLI_math, which the
    remesher calls and which are declared outside these sources; each is
    the textbook formula evaluated left to right in binary32. *)
Definition dot_v3v3 (a b : vec3) : f32 :=
  f32_add (f32_add (f32_mul (vx a) (vx b)) (f32_mul (vy a) (vy b)))
          (f32_mul (vz a) (vz b)).

Definition sub_v3_v3v3 (a b : vec3) : vec3 :=
  V3 (f32_sub (vx a) (vx b)) (f32_sub (vy a) (vy b)) (f32_sub (vz a) (vz b)).

Definition add_v3_v3v3 (a b : vec3) : vec3 :=
  V3 (f32_add (vx a) (vx b)) (f32_add (vy a) (vy b)) (f32_add (vz a) (vz b)).

Definition mul_v3_fl (a : vec3) (f : f32) : vec3 :=
  V3 (f32_mul (vx a) f) (f32_mul (vy a) f) (f32_mul (vz a) f).

Definition len_squared_v3v3 (a b : vec3) : f32 :=
  let d := sub_v3_v3v3 b a in dot_v3v3 d d.

Definition len_v3v3 (a b : vec3) : f32 := f32_sqrt (len_squared_v3v3 a b).

Definition mid_v3_v3v3 (a b : vec3) : vec3 :=
  V3 (f32_mul f32_half (f32_add (vx a) (vx b)))
     (f32_mul f32_half (f32_add (vy a) (vy b)))
     (f32_mul f32_half (f32_add (vz a) (vz b))).

Definition normalize_v3 (a : vec3) : vec3 :=
  let d := dot_v3v3 a a in
  if f_gt d (f32_lit 13937966 (-140)) then mul_v3_fl a (f32_div f32_one (f32_sqrt d))
  else zero_v3.

Definition cross_v3_v3v3 (a b : vec3) : vec3 :=
  V3 (f32_sub (f32_mul (vy a) (vz b)) (f32_mul (vz a) (vy b)))
     (f32_sub (f32_mul (vz a) (vx b)) (f32_mul (vx a) (vz b)))
     (f32_sub (f32_mul (vx a) (vy b)) (f32_mul (vy a) (vx b))).

(** The unit normal of the triangle [v1 v2 v3]. *)
Definition normal_tri_v3 (v1 v2 v3 : vec3) : vec3 :=
  normalize_v3 (cross_v3_v3v3 (sub_v3_v3v3 v1 v2) (sub_v3_v3v3 v2 v3)).

Definition v3_of_Z (x y z : Z) : vec3 := V3 (f32_lit x 0) (f32_lit y 0) (f32_lit z 0).

(* ===================================================================== *)
(** ** Flag bits *)
(* ===================================================================== *)

(** Modelled from the spec: the flag constants live in headers outside
    these sources (bmesh_class.h, DNA_meshdata_types.h, BKE_pbvh.h); what
    matters below is that each is one bit of its own. *)
Definition BM_ELEM_HIDDEN : Z := 2.
Definition BM_ELEM_SEAM : Z := 4.
Definition BM_ELEM_SMOOTH : Z := 8.
Definition BM_ELEM_TAG : Z := 16.
Definition BM_ELEM_DRAW : Z := 32.
Definition BM_ELEM_TAG_ALT : Z := 64.

Definition DYNVERT_BOUNDARY : Z := 1.
Definition DYNVERT_FSET_BOUNDARY : Z := 4.
Definition DYNVERT_NEED_BOUNDARY : Z := 8.
Definition DYNVERT_NEED_TRIANGULATE : Z := 16.
Definition DYNVERT_NEED_DISK_SORT : Z := 32.
Definition DYNVERT_NEED_VALENCE : Z := 64.
Definition DYNVERT_FSET_CORNER : Z := 128.
Definition DYNVERT_CORNER : Z := 256.
Definition DYNVERT_SEAM_BOUNDARY : Z := 512.
Definition DYNVERT_SHARP_BOUNDARY : Z := 1024.
Definition DYNVERT_SEAM_CORNER : Z := 2048.
Definition DYNVERT_SHARP_CORNER : Z := 4096.

Definition PBVH_Leaf : Z := 1.
Definition PBVH_UpdateNormals : Z := 2.
Definition PBVH_UpdateBB : Z := 4.
Definition PBVH_UpdateDrawBuffers : Z := 16.
Definition PBVH_FullyHidden : Z := 1024.
Definition PBVH_UpdateTopology : Z := 8192.
Definition PBVH_UpdateTris : Z := 131072.
Definition PBVH_RebuildNodeVerts : Z := 262144.
Definition PBVH_UpdateOtherVerts : Z := 2097152.
Definition PBVH_UpdateOriginalBB : Z := 8.
Definition PBVH_RebuildDrawBuffers : Z := 512.
Definition PBVH_UpdateCurvatureDir : Z := 65536.
Definition PBVH_UpdateTriAreas : Z := 524288.

Definition DYNTOPO_NODE_NONE : Z := -1.

(** The definitions at the head of dyntopo.c. *)
Definition DYNVERT_VALENCE_TEMP : Z := Z.shiftl 1 14.
Definition DYNVERT_SMOOTH_BOUNDARY : Z :=
  Z.lor (Z.lor DYNVERT_BOUNDARY DYNVERT_FSET_BOUNDARY) DYNVERT_SHARP_BOUNDARY.
Definition DYNVERT_ALL_BOUNDARY : Z :=
  Z.lor (Z.lor (Z.lor DYNVERT_BOUNDARY DYNVERT_FSET_BOUNDARY) DYNVERT_SHARP_BOUNDARY)
        DYNVERT_SEAM_BOUNDARY.
Definition DYNVERT_SMOOTH_CORNER : Z :=
  Z.lor (Z.lor DYNVERT_CORNER DYNVERT_FSET_CORNER) DYNVERT_SHARP_CORNER.
Definition DYNVERT_ALL_CORNER : Z :=
  Z.lor (Z.lor (Z.lor DYNVERT_CORNER DYNVERT_FSET_CORNER) DYNVERT_SHARP_CORNER)
        DYNVERT_SEAM_CORNER.
Definition DYNTOPO_MAX_ITER : Z := 4096.
Definition EVEN_EDGELEN_THRESHOLD : f32 := f32_lit 10066330 (-23).
Definition EVEN_GENERATION_SCALE : f32 := f32_lit 9227469 (-23).
Definition DEPTH_START_LIMIT : Z := 5.
Definition DYNTOPO_SAFE_SMOOTH_FAC : f32 := f32_lit 13421773 (-28).
Definition SPLIT_TAG : Z := BM_ELEM_TAG_ALT.

(** [x & flag] read as a C truth value, [x | flag], [x & ~flag]. *)
Definition flag_test (x flag : Z) : bool := negb (Z.land x flag =? 0).
Definition flag_enable (x flag : Z) : Z := Z.lor x flag.
Definition flag_disable (x flag : Z) : Z := Z.land x (Z.lnot flag).

Definition NEED_ALL : Z :=
  Z.lor (Z.lor DYNVERT_NEED_BOUNDARY DYNVERT_NEED_DISK_SORT) DYNVERT_NEED_VALENCE.

(* ===================================================================== *)
(** ** The mesh *)
(* ===================================================================== *)

Definition vert : Type := positive.
Definition face : Type := positive.

(** A vertex with the custom-data layers the remesher reads: the paint
    mask, the owning leaf and the [MDynTopoVert] annotation. *)
Record BMVert : Type := mkBMVert {
  co : vec3;
  no : vec3;
  v_hflag : Z;
  v_mask : f32;
  v_node : Z;
  mv_flag : Z;
  mv_valence : Z;
  mv_stroke_id : Z;
  mv_origco : vec3;
  mv_origno : vec3;
  mv_origmask : f32
}.

Record BMEdge : Type := mkBMEdge { e_v1 : vert; e_v2 : vert; e_hflag : Z }.

(** A face is the cycle of its corner vertices, read from [l_first]
    along [l->next]. *)
Record BMFace : Type := mkBMFace {
  f_verts : list vert;
  f_no : vec3;
  f_hflag : Z;
  f_node : Z;
  f_index : Z
}.

Record BMLoop : Type := mkBMLoop { l_f : face; l_i : nat }.

(** The edges are kept in creation order, which is the order of every
    disk cycle; the faces are kept in creation order, which is the order
    of every radial cycle. *)
Record BMesh : Type := mkBMesh {
  bm_verts : gmap vert BMVert;
  bm_edges : list BMEdge;
  bm_faces : list (face * BMFace);
  bm_next : positive
}.

Definition set_co (v : BMVert) (x : vec3) : BMVert :=
  mkBMVert x (no v) (v_hflag v) (v_mask v) (v_node v) (mv_flag v) (mv_valence v)
           (mv_stroke_id v) (mv_origco v) (mv_origno v) (mv_origmask v).
Definition set_no (v : BMVert) (x : vec3) : BMVert :=
  mkBMVert (co v) x (v_hflag v) (v_mask v) (v_node v) (mv_flag v) (mv_valence v)
           (mv_stroke_id v) (mv_origco v) (mv_origno v) (mv_origmask v).
Definition set_v_hflag (v : BMVert) (x : Z) : BMVert :=
  mkBMVert (co v) (no v) x (v_mask v) (v_node v) (mv_flag v) (mv_valence v)
           (mv_stroke_id v) (mv_origco v) (mv_origno v) (mv_origmask v).
Definition set_v_mask (v : BMVert) (x : f32) : BMVert :=
  mkBMVert (co v) (no v) (v_hflag v) x (v_node v) (mv_flag v) (mv_valence v)
           (mv_stroke_id v) (mv_origco v) (mv_origno v) (mv_origmask v).
Definition set_v_node (v : BMVert) (x : Z) : BMVert :=
  mkBMVert (co v) (no v) (v_hflag v) (v_mask v) x (mv_flag v) (mv_valence v)
           (mv_stroke_id v) (mv_origco v) (mv_origno v) (mv_origmask v).
Definition set_mv_flag (v : BMVert) (x : Z) : BMVert :=
  mkBMVert (co v) (no v) (v_hflag v) (v_mask v) (v_node v) x (mv_valence v)
           (mv_stroke_id v) (mv_origco v) (mv_origno v) (mv_origmask v).
Definition set_mv_valence (v : BMVert) (x : Z) : BMVert :=
  mkBMVert (co v) (no v) (v_hflag v) (v_mask v) (v_node v) (mv_flag v) x
           (mv_stroke_id v) (mv_origco v) (mv_origno v) (mv_origmask v).
Definition set_origdata (v : BMVert) (sid : Z) : BMVert :=
  mkBMVert (co v) (no v) (v_hflag v) (v_mask v) (v_node v) (mv_flag v) (mv_valence v)
           sid (co v) (no v) (v_mask v).

Definition set_e_hflag (e : BMEdge) (x : Z) : BMEdge := mkBMEdge (e_v1 e) (e_v2 e) x.

Definition set_f_node (f : BMFace) (x : Z) : BMFace :=
  mkBMFace (f_verts f) (f_no f) (f_hflag f) x (f_index f).
Definition set_f_hflag (f : BMFace) (x : Z) : BMFace :=
  mkBMFace (f_verts f) (f_no f) x (f_node f) (f_index f).
Definition set_f_no (f : BMFace) (x : vec3) : BMFace :=
  mkBMFace (f_verts f) x (f_hflag f) (f_node f) (f_index f).

Definition set_bm_verts (m : BMesh) (x : gmap vert BMVert) : BMesh :=
  mkBMesh x (bm_edges m) (bm_faces m) (bm_next m).
Definition set_bm_edges (m : BMesh) (x : list BMEdge) : BMesh :=
  mkBMesh (bm_verts m) x (bm_faces m) (bm_next m).
Definition set_bm_faces (m : BMesh) (x : list (face * BMFace)) : BMesh :=
  mkBMesh (bm_verts m) (bm_edges m) x (bm_next m).

(** Reading through a pointer.  A pointer to an element that is not in
    the mesh is a dangling pointer; the model reads a blank element
    there. *)
Definition BMVert_blank : BMVert :=
  mkBMVert zero_v3 zero_v3 0 f32_zero DYNTOPO_NODE_NONE 0 0 0 zero_v3 zero_v3 f32_zero.
Definition BMFace_blank : BMFace := mkBMFace [] zero_v3 0 DYNTOPO_NODE_NONE 0.

Definition vget (m : BMesh) (v : vert) : BMVert := default BMVert_blank (bm_verts m !! v).

Fixpoint face_find (fs : list (face * BMFace)) (f : face) : option BMFace :=
  match fs with
  | [] => None
  | (g, r) :: tl => if Pos.eqb g f then Some r else face_find tl f
  end.

Definition fget (m : BMesh) (f : face) : BMFace := default BMFace_blank (face_find (bm_faces m) f).

Definition vert_update (m : BMesh) (v : vert) (g : BMVert -> BMVert) : BMesh :=
  set_bm_verts m (alter g v (bm_verts m)).

Definition face_update (m : BMesh) (f : face) (g : BMFace -> BMFace) : BMesh :=
  set_bm_faces m (map (fun p => if Pos.eqb (fst p) f then (fst p, g (snd p)) else p) (bm_faces m)).

Definition mv_flag_enable (m : BMesh) (v : vert) (flag : Z) : BMesh :=
  vert_update m v (fun r => set_mv_flag r (flag_enable (mv_flag r) flag)).

Definition mv_flag_disable (m : BMesh) (v : vert) (flag : Z) : BMesh :=
  vert_update m v (fun r => set_mv_flag r (flag_disable (mv_flag r) flag)).

(* ===================================================================== *)
(** ** Walking the mesh *)
(* ===================================================================== *)

(** A [BMEdge *]: the end points in the order the edge stores them. *)
Definition edge : Type := (vert * vert)%type.

Definition edge_is (e : BMEdge) (a b : vert) : bool :=
  (Pos.eqb (e_v1 e) a && Pos.eqb (e_v2 e) b) || (Pos.eqb (e_v1 e) b && Pos.eqb (e_v2 e) a).

Definition edge_key (e : BMEdge) : edge := (e_v1 e, e_v2 e).

Definition edge_eqb (a b : edge) : bool :=
  (Pos.eqb (fst a) (fst b) && Pos.eqb (snd a) (snd b))
  || (Pos.eqb (fst a) (snd b) && Pos.eqb (snd a) (fst b)).

Definition edge_has_vert (e : BMEdge) (v : vert) : bool :=
  Pos.eqb (e_v1 e) v || Pos.eqb (e_v2 e) v.

(** Modelled from the spec: [BM_edge_exists] of the mesh library, the
    existence query of section 4.1: the edge between two distinct
    vertices, if the mesh has one. *)
Definition BM_edge_exists (m : BMesh) (a b : vert) : option edge :=
  if Pos.eqb a b then None
  else option_map edge_key (find (fun e => edge_is e a b) (bm_edges m)).

Definition eget (m : BMesh) (e : edge) : BMEdge :=
  default (mkBMEdge (fst e) (snd e) 0) (find (fun r => edge_is r (fst e) (snd e)) (bm_edges m)).

Definition edge_update (m : BMesh) (e : edge) (g : BMEdge -> BMEdge) : BMesh :=
  set_bm_edges m (map (fun r => if edge_is r (fst e) (snd e) then g r else r) (bm_edges m)).

Definition BM_edge_other_vert (e : edge) (v : vert) : vert :=
  if Pos.eqb (fst e) v then snd e else fst e.

Definition loop_eqb (a b : BMLoop) : bool :=
  Pos.eqb (l_f a) (l_f b) && Nat.eqb (l_i a) (l_i b).

Definition face_len (m : BMesh) (f : face) : nat := length (f_verts (fget m f)).

Definition BM_FACE_FIRST_LOOP (f : face) : BMLoop := mkBMLoop f 0.

Definition loop_v (m : BMesh) (l : BMLoop) : vert :=
  nth (l_i l) (f_verts (fget m (l_f l))) 1%positive.

Definition loop_next (m : BMesh) (l : BMLoop) : BMLoop :=
  mkBMLoop (l_f l) (Nat.modulo (l_i l + 1) (face_len m (l_f l))).

Definition loop_prev (m : BMesh) (l : BMLoop) : BMLoop :=
  mkBMLoop (l_f l)
           (Nat.modulo (l_i l + face_len m (l_f l) - 1) (face_len m (l_f l))).

(** [l->e]: the edge from the corner of [l] to the next corner. *)
Definition loop_e (m : BMesh) (l : BMLoop) : edge :=
  let a := loop_v m l in
  let b := loop_v m (loop_next m l) in
  default (a, b) (BM_edge_exists m a b).

(** The loops of a face, from [l_first] along [l->next]. *)
Definition face_loops (m : BMesh) (f : face) : list BMLoop :=
  map (mkBMLoop f) (seq 0 (face_len m f)).

(** The radial cycle of an edge, from [e->l]. *)
Definition edge_loops (m : BMesh) (e : edge) : list BMLoop :=
  flat_map (fun p => List.filter (fun l => edge_eqb (loop_e m l) e) (face_loops m (fst p)))
           (bm_faces m).

Definition edge_l (m : BMesh) (e : edge) : option BMLoop := head (edge_loops m e).

Fixpoint cyc_after {A : Type} (eqb : A -> A -> bool) (x first : A) (l : list A) : A :=
  match l with
  | [] => x
  | y :: tl =>
      if eqb y x then match tl with [] => first | z :: _ => z end
      else cyc_after eqb x first tl
  end.

Definition radial_next (m : BMesh) (l : BMLoop) : BMLoop :=
  let c := edge_loops m (loop_e m l) in
  cyc_after loop_eqb l (default l (head c)) c.

(** The loops [l_edge, l_edge->radial_next, ...] up to, and without,
    [l_end], for a loop [l_end] whose radial successor is [l_edge]. *)
Fixpoint split_at_loop (x : BMLoop) (l : list BMLoop) : list BMLoop * list BMLoop :=
  match l with
  | [] => ([], [])
  | y :: tl =>
      if loop_eqb y x then ([], tl)
      else let (a, b) := split_at_loop x tl in (y :: a, b)
  end.

Definition radial_others (m : BMesh) (l_end : BMLoop) : list BMLoop :=
  let (before, after) := split_at_loop l_end (edge_loops m (loop_e m l_end)) in
  after ++ before.

(** The disk cycle of a vertex, from [v->e]. *)
Definition vert_edges (m : BMesh) (v : vert) : list edge :=
  map edge_key (List.filter (fun e => edge_has_vert e v) (bm_edges m)).

Definition vert_e (m : BMesh) (v : vert) : option edge := head (vert_edges m v).

(** [BM_LOOPS_OF_VERT_ITER_BEGIN]: for every edge of the disk cycle,
    the loops of its radial cycle whose corner is at [v]. *)
Definition loops_of_vert (m : BMesh) (v : vert) : list BMLoop :=
  flat_map (fun e => List.filter (fun l => Pos.eqb (loop_v m l) v) (edge_loops m e))
           (vert_edges m v).

Definition faces_of_vert (m : BMesh) (v : vert) : list face := map l_f (loops_of_vert m v).

Definition BM_edge_is_wire (m : BMesh) (e : edge) : bool :=
  match edge_l m e with None => true | Some _ => false end.

Definition BM_elem_flag_test_edge (m : BMesh) (e : edge) (flag : Z) : bool :=
  flag_test (e_hflag (eget m e)) flag.

(* ===================================================================== *)
(** ** Mesh primitives (component C1 of the spec) *)
(* ===================================================================== *)

(** Modelled from the spec: [BM_face_kill], [BM_edge_kill],
    [BM_vert_kill], [BM_edge_create] and [BM_face_create] of the mesh
    library, as section 4.1 describes them: killing a face leaves its
    edges and vertices, killing an edge kills the faces around it,
    killing a vertex kills the edges around it. *)
Definition BM_face_kill (m : BMesh) (f : face) : BMesh :=
  set_bm_faces m (List.filter (fun p => negb (Pos.eqb (fst p) f)) (bm_faces m)).

Definition BM_edge_kill (m : BMesh) (e : edge) : BMesh :=
  let m1 := fold_left BM_face_kill (map l_f (edge_loops m e)) m in
  set_bm_edges m1 (List.filter (fun r => negb (edge_is r (fst e) (snd e))) (bm_edges m1)).

Definition BM_vert_kill (m : BMesh) (v : vert) : BMesh :=
  let m1 := fold_left BM_edge_kill (vert_edges m v) m in
  set_bm_verts m1 (delete v (bm_verts m1)).

Definition BM_edge_create (m : BMesh) (a b : vert) (example : option edge) : BMesh :=
  let base := Z.lor BM_ELEM_SMOOTH BM_ELEM_DRAW in
  let fl := match example with
            | Some ex => Z.lor base (e_hflag (eget m ex))
            | None => base
            end in
  set_bm_edges m (bm_edges m ++ [mkBMEdge a b fl]).

Definition BM_face_create (m : BMesh) (vs : list vert) (example : option face)
  : BMesh * face :=
  let f := bm_next m in
  let r := match example with
           | Some ex => mkBMFace vs (f_no (fget m ex)) (f_hflag (fget m ex))
                                 (f_node (fget m ex)) 0
           | None => mkBMFace vs zero_v3 0 DYNTOPO_NODE_NONE 0
           end in
  (mkBMesh (bm_verts m) (bm_edges m) (bm_faces m ++ [(f, r)]) (Pos.succ f), f).

(* ===================================================================== *)
(** ** The spatial hierarchy as the remesher sees it *)
(* ===================================================================== *)

Record PBVHNode : Type := mkPBVHNode {
  n_flag : Z;
  n_bm_faces : list face;
  n_bm_unique_verts : list vert
}.

Record PBVH : Type := mkPBVH {
  bm : BMesh;
  nodes : list PBVHNode;
  bm_min_edge_len : f32;
  bm_max_edge_len : f32;
  stroke_id : Z
}.

Definition set_bm (p : PBVH) (m : BMesh) : PBVH :=
  mkPBVH m (nodes p) (bm_min_edge_len p) (bm_max_edge_len p) (stroke_id p).
Definition set_nodes (p : PBVH) (ns : list PBVHNode) : PBVH :=
  mkPBVH (bm p) ns (bm_min_edge_len p) (bm_max_edge_len p) (stroke_id p).

Definition set_n_flag (n : PBVHNode) (x : Z) : PBVHNode :=
  mkPBVHNode x (n_bm_faces n) (n_bm_unique_verts n).
Definition set_n_bm_faces (n : PBVHNode) (x : list face) : PBVHNode :=
  mkPBVHNode (n_flag n) x (n_bm_unique_verts n).
Definition set_n_bm_unique_verts (n : PBVHNode) (x : list vert) : PBVHNode :=
  mkPBVHNode (n_flag n) (n_bm_faces n) x.

(** [pbvh->nodes + ni], or the null pointer for an index that names no
    node. *)
Definition node_at (p : PBVH) (ni : Z) : option PBVHNode :=
  if ni <? 0 then None else nodes p !! Z.to_nat ni.

Definition node_update (p : PBVH) (ni : Z) (g : PBVHNode -> PBVHNode) : PBVH :=
  if ni <? 0 then p else set_nodes p (alter g (Z.to_nat ni) (nodes p)).

Definition node_flag_enable (p : PBVH) (ni : Z) (flag : Z) : PBVH :=
  node_update p ni (fun n => set_n_flag n (flag_enable (n_flag n) flag)).

Definition node_flag_disable (p : PBVH) (ni : Z) (flag : Z) : PBVH :=
  node_update p ni (fun n => set_n_flag n (flag_disable (n_flag n) flag)).

(** The table sets of a node: insertion keeps one copy of each key. *)
Definition tgset_add (x : positive) (s : list positive) : list positive :=
  if existsb (Pos.eqb x) s then s else s ++ [x].
Definition tgset_remove (x : positive) (s : list positive) : list positive :=
  List.filter (fun y => negb (Pos.eqb y x)) s.

Definition pbvh_vert_update (p : PBVH) (v : vert) (g : BMVert -> BMVert) : PBVH :=
  set_bm p (vert_update (bm p) v g).
Definition pbvh_mv_flag_enable (p : PBVH) (v : vert) (flag : Z) : PBVH :=
  set_bm p (mv_flag_enable (bm p) v flag).

Definition pbvh_bmesh_node_index_from_face (p : PBVH) (f : face) : Z := f_node (fget (bm p) f).
Definition pbvh_bmesh_node_index_from_vert (p : PBVH) (v : vert) : Z := v_node (vget (bm p) v).

(* ===================================================================== *)
(** ** Collaborators *)
(* ===================================================================== *)

(** The functions of other modules that the remesher calls and whose
    results it does not constrain: the recomputation of the boundary and
    corner bits of a vertex, the plane projection and closest-point
    helpers of the projected brush, n-gon triangulation, the leaf split of
    the hierarchy, the rebuild of a leaf's triangle cache and the random
    number generator.  They are parameters of the model. *)
Class Collaborators : Type := {
  bke_pbvh_update_vert_boundary : BMesh -> vert -> Z;
  project_plane_normalized_v3_v3v3 : vec3 -> vec3 -> vec3;
  closest_on_tri_to_point_v3 : vec3 -> vec3 -> vec3 -> vec3 -> vec3;
  pbvh_triangulate_ngon : PBVH -> face -> PBVH;
  pbvh_bmesh_node_limit_ensure : PBVH -> Z -> PBVH;
  BKE_pbvh_bmesh_check_tris : PBVH -> Z -> PBVH;
  BLI_rng_get_float : Z -> nat -> f32
}.

(* ===================================================================== *)
(** ** Vertex annotation (component C2 of the spec) *)
(* ===================================================================== *)

(** Modelled from the spec: [pbvh_check_vert_boundary],
    [BKE_pbvh_bmesh_update_valence], [BKE_pbvh_bmesh_check_valence],
    [BKE_pbvh_bmesh_mark_update_valence] and
    [BKE_pbvh_bmesh_check_origdata] of the hierarchy module, by section
    4.2: the lazy restoration of the boundary bits, of the cached valence
    and of the original-data snapshot. *)
Definition pbvh_check_vert_boundary `{Collaborators} (p : PBVH) (v : vert) : PBVH :=
  if flag_test (mv_flag (vget (bm p) v)) DYNVERT_NEED_BOUNDARY then
    let keep := flag_disable (mv_flag (vget (bm p) v))
                  (Z.lor (Z.lor DYNVERT_ALL_BOUNDARY DYNVERT_ALL_CORNER) DYNVERT_NEED_BOUNDARY) in
    let bits := Z.land (bke_pbvh_update_vert_boundary (bm p) v)
                  (Z.lor DYNVERT_ALL_BOUNDARY DYNVERT_ALL_CORNER) in
    pbvh_vert_update p v (fun r => set_mv_flag r (Z.lor keep bits))
  else p.

Definition BKE_pbvh_bmesh_update_valence (p : PBVH) (v : vert) : PBVH :=
  pbvh_vert_update p v (fun r =>
    set_mv_valence (set_mv_flag r (flag_disable (mv_flag r) DYNVERT_NEED_VALENCE))
                   (Z.of_nat (length (vert_edges (bm p) v)))).

Definition BKE_pbvh_bmesh_check_valence (p : PBVH) (v : vert) : PBVH :=
  if flag_test (mv_flag (vget (bm p) v)) DYNVERT_NEED_VALENCE
  then BKE_pbvh_bmesh_update_valence p v else p.

Definition BKE_pbvh_bmesh_mark_update_valence (p : PBVH) (v : vert) : PBVH :=
  pbvh_mv_flag_enable p v DYNVERT_NEED_VALENCE.

Definition BKE_pbvh_bmesh_check_origdata (p : PBVH) (v : vert) (sid : Z) : PBVH :=
  if mv_stroke_id (vget (bm p) v) =? sid then p
  else pbvh_vert_update p v (fun r => set_origdata r sid).

(* ===================================================================== *)
(** ** Leaf membership (component C3 of the spec) *)
(* ===================================================================== *)

Fixpoint use_count_loop (m : BMesh) (ni : Z) (fs : list face) (count_max count : Z) : Z :=
  match fs with
  | [] => count
  | f :: tl =>
      if f_node (fget m f) =? ni then
        if count + 1 =? count_max then count + 1
        else use_count_loop m ni tl count_max (count + 1)
      else use_count_loop m ni tl count_max count
  end.

Definition pbvh_bmesh_node_vert_use_count_at_most (p : PBVH) (ni : Z) (v : vert)
  (count_max : Z) : Z :=
  use_count_loop (bm p) ni (faces_of_vert (bm p) v) count_max 0.

Definition pbvh_bmesh_node_vert_use_count_is_equal (p : PBVH) (ni : Z) (v : vert) (n : Z)
  : bool :=
  pbvh_bmesh_node_vert_use_count_at_most p ni v (n + 1) =? n.

(** The node of the first face around [v] that is not the owner of
    [v]; the answer is the null pointer when that face has no node. *)
Definition pbvh_bmesh_vert_other_node_find (p : PBVH) (v : vert) : option Z :=
  let cur := pbvh_bmesh_node_index_from_vert p v in
  match find (fun f => negb (f_node (fget (bm p) f) =? cur)) (faces_of_vert (bm p) v) with
  | Some f => let ni := f_node (fget (bm p) f) in
              match node_at p ni with Some _ => Some ni | None => None end
  | None => None
  end.

Definition pbvh_bmesh_vert_ownership_transfer (p : PBVH) (new_owner : Z) (v : vert) : PBVH :=
  let cur := pbvh_bmesh_node_index_from_vert p v in
  let p1 := match node_at p cur with
            | Some _ =>
                node_update (node_flag_enable p cur (Z.lor PBVH_UpdateDrawBuffers PBVH_UpdateBB))
                  cur (fun n => set_n_bm_unique_verts n (tgset_remove v (n_bm_unique_verts n)))
            | None => p
            end in
  let p2 := pbvh_vert_update p1 v (fun r => set_v_node r new_owner) in
  let p3 := node_update p2 new_owner
              (fun n => set_n_bm_unique_verts n (tgset_add v (n_bm_unique_verts n))) in
  node_flag_enable p3 new_owner
    (Z.lor (Z.lor PBVH_UpdateDrawBuffers PBVH_UpdateBB) PBVH_UpdateOtherVerts).

Definition vert_remove_updateflag : Z :=
  Z.lor (Z.lor (Z.lor (Z.lor PBVH_UpdateDrawBuffers PBVH_UpdateBB) PBVH_UpdateTris)
               PBVH_UpdateNormals) PBVH_UpdateOtherVerts.

Fixpoint vert_remove_loop (p : PBVH) (fs : list face) (prev : Z) : PBVH :=
  match fs with
  | [] => p
  | f :: tl =>
      let fi := pbvh_bmesh_node_index_from_face p f in
      if fi =? DYNTOPO_NODE_NONE then vert_remove_loop p tl prev
      else if negb (prev =? fi)
           then vert_remove_loop (node_flag_enable p fi vert_remove_updateflag) tl fi
           else vert_remove_loop p tl prev
  end.

Definition pbvh_bmesh_vert_remove (p : PBVH) (v : vert) : PBVH :=
  let cur := pbvh_bmesh_node_index_from_vert p v in
  let p1 := match node_at p cur with
            | Some _ =>
                node_flag_enable
                  (node_update p cur
                     (fun n => set_n_bm_unique_verts n (tgset_remove v (n_bm_unique_verts n))))
                  cur vert_remove_updateflag
            | None => p
            end in
  let p2 := pbvh_vert_update p1 v (fun r => set_v_node r DYNTOPO_NODE_NONE) in
  vert_remove_loop p2 (faces_of_vert (bm p2) v) DYNTOPO_NODE_NONE.

Definition BM_vert_face_count_is_equal (m : BMesh) (v : vert) (n : nat) : bool :=
  Nat.eqb (length (faces_of_vert m v)) n.

Definition face_remove_vert (p : PBVH) (fi : Z) (ensure_ownership_transfer : bool)
  (v : vert) : PBVH :=
  if pbvh_bmesh_node_vert_use_count_is_equal p fi v 1 then
    if pbvh_bmesh_node_index_from_vert p v =? fi then
      match pbvh_bmesh_vert_other_node_find p v with
      | Some new_node => pbvh_bmesh_vert_ownership_transfer p new_node v
      | None =>
          if ensure_ownership_transfer && negb (BM_vert_face_count_is_equal (bm p) v 1)
          then node_flag_enable (pbvh_bmesh_vert_remove p v) fi PBVH_RebuildNodeVerts
          else p
      end
    else p
  else p.

Definition pbvh_bmesh_face_remove (p : PBVH) (f : face)
  (check_verts ensure_ownership_transfer : bool) : PBVH :=
  let fi := pbvh_bmesh_node_index_from_face p f in
  match node_at p fi with
  | None => p
  | Some n =>
      if negb (flag_test (n_flag n) PBVH_Leaf) then p
      else
        let p1 := if check_verts
                  then fold_left (fun p' l => face_remove_vert p' fi ensure_ownership_transfer
                                                (loop_v (bm p) l))
                                 (face_loops (bm p) f) p
                  else p in
        let p2 := node_update p1 fi
                    (fun n' => set_n_bm_faces n' (tgset_remove f (n_bm_faces n'))) in
        let p3 := set_bm p2 (face_update (bm p2) f (fun r => set_f_node r DYNTOPO_NODE_NONE)) in
        node_flag_enable p3 fi
          (Z.lor (Z.lor (Z.lor PBVH_UpdateDrawBuffers PBVH_UpdateNormals) PBVH_UpdateTris)
                 PBVH_UpdateOtherVerts)
  end.

Definition BKE_pbvh_bmesh_remove_face (p : PBVH) (f : face) : PBVH :=
  pbvh_bmesh_face_remove p f true true.

(** [bmesh_edge_create_log]: the existing edge, else a new one that
    also takes the flags of the example. *)
Definition bmesh_edge_create_log (p : PBVH) (v1 v2 : vert) (e_example : option edge)
  : PBVH * edge :=
  match BM_edge_exists (bm p) v1 v2 with
  | Some e => (p, e)
  | None => (set_bm p (BM_edge_create (bm p) v1 v2 e_example), (v1, v2))
  end.

Definition tri_corner (vs : list vert) (i : nat) : vert := nth i vs 1%positive.

Definition bm_edges_from_tri (p : PBVH) (v_tri : list vert) : PBVH * list edge :=
  let '(p1, e0) := bmesh_edge_create_log p (tri_corner v_tri 0) (tri_corner v_tri 1) None in
  let '(p2, e1) := bmesh_edge_create_log p1 (tri_corner v_tri 1) (tri_corner v_tri 2) None in
  let '(p3, e2) := bmesh_edge_create_log p2 (tri_corner v_tri 2) (tri_corner v_tri 0) None in
  (p3, [e0; e1; e2]).

Definition bm_edges_from_tri_example (p : PBVH) (v_tri : list vert) (e_tri : list edge)
  : PBVH * list edge :=
  let '(p1, e0) := bmesh_edge_create_log p (tri_corner v_tri 0) (tri_corner v_tri 1)
                     (e_tri !! 0%nat) in
  let '(p2, e1) := bmesh_edge_create_log p1 (tri_corner v_tri 1) (tri_corner v_tri 2)
                     (e_tri !! 1%nat) in
  let '(p3, e2) := bmesh_edge_create_log p2 (tri_corner v_tri 2) (tri_corner v_tri 0)
                     (e_tri !! 2%nat) in
  (p3, [e0; e1; e2]).

(** [bmesh_face_create_edge_log]: without an edge array the three edges
    are looked up or created first. *)
Definition bmesh_face_create_edge_log (p : PBVH) (v_tri : list vert) (have_e_tri : bool)
  (f_example : option face) : PBVH * face :=
  let p1 := if have_e_tri then p else fst (bm_edges_from_tri p v_tri) in
  let '(m, f) := BM_face_create (bm p1) v_tri f_example in
  let m1 := match f_example with
            | Some ex => face_update m f (fun r => set_f_hflag r (f_hflag (fget m ex)))
            | None => m
            end in
  (set_bm p1 m1, f).

Definition face_create_vert (node_index : Z) (ensure_verts : bool) (p : PBVH) (v : vert)
  : PBVH :=
  let p1 :=
    if ensure_verts && (pbvh_bmesh_node_index_from_vert p v =? DYNTOPO_NODE_NONE) then
      node_flag_enable
        (pbvh_vert_update
           (node_update p node_index
              (fun n => set_n_bm_unique_verts n (tgset_add v (n_bm_unique_verts n))))
           v (fun r => set_v_node r node_index))
        node_index
        (Z.lor (Z.lor (Z.lor PBVH_UpdateDrawBuffers PBVH_UpdateBB) PBVH_UpdateTris)
               PBVH_UpdateOtherVerts)
    else p in
  pbvh_mv_flag_enable p1 v NEED_ALL.

Definition pbvh_bmesh_face_create (p : PBVH) (node_index : Z) (v_tri : list vert)
  (have_e_tri : bool) (f_example : option face) (ensure_verts : bool) : PBVH * face :=
  let '(p1, f) := bmesh_face_create_edge_log p v_tri have_e_tri f_example in
  let p2 := node_update p1 node_index
              (fun n => set_n_bm_faces n (tgset_add f (n_bm_faces n))) in
  let p3 := set_bm p2 (face_update (bm p2) f (fun r => set_f_node r node_index)) in
  let p4 := node_flag_enable p3 node_index
              (Z.lor (Z.lor (Z.lor PBVH_UpdateDrawBuffers PBVH_UpdateNormals) PBVH_UpdateTris)
                     PBVH_UpdateOtherVerts) in
  let p5 := node_flag_disable p4 node_index PBVH_FullyHidden in
  (fold_left (face_create_vert node_index ensure_verts) v_tri p5, f).

Definition pbvh_kill_vert (p : PBVH) (v : vert) : PBVH := set_bm p (BM_vert_kill (bm p) v).

(** [check_face_is_tri]: a triangle is left alone, a face of fewer than
    three corners leaves its leaf, an n-gon goes to the triangulation
    collaborator. *)
Definition check_face_is_tri `{Collaborators} (p : PBVH) (f : face) : PBVH :=
  let n := face_len (bm p) f in
  if Nat.eqb n 3 then p
  else if Nat.ltb n 3 then BKE_pbvh_bmesh_remove_face p f
  else pbvh_triangulate_ngon p f.

Definition check_vert_fan_are_tris `{Collaborators} (p : PBVH) (v : vert) : PBVH :=
  if negb (flag_test (mv_flag (vget (bm p) v)) DYNVERT_NEED_TRIANGULATE) then p
  else
    let fs := faces_of_vert (bm p) v in
    let p1 := fold_left
                (fun p' f => fold_left (fun p'' l => pbvh_mv_flag_enable p'' (loop_v (bm p) l) NEED_ALL)
                                       (face_loops (bm p) f) p')
                fs p in
    let p2 := set_bm p1 (mv_flag_disable (bm p1) v DYNVERT_NEED_TRIANGULATE) in
    fold_left check_face_is_tri fs p2.

(* ===================================================================== *)
(** ** The edge queue (component C4 of the spec) *)
(* ===================================================================== *)

(** Modelled from the spec: the [HeapSimple] container of BLI_heap_simple,
    the priority container of section 3: entries are kept in insertion
    order and the entry popped is the first one of least value. *)
Definition HeapSimple : Type := list (f32 * edge).

Definition BLI_heapsimple_insert (h : HeapSimple) (value : f32) (ptr : edge) : HeapSimple :=
  h ++ [(value, ptr)].

Definition BLI_heapsimple_is_empty (h : HeapSimple) : bool :=
  match h with [] => true | _ :: _ => false end.

Fixpoint heap_pop_from (x : f32 * edge) (tl : HeapSimple) : (f32 * edge) * HeapSimple :=
  match tl with
  | [] => (x, [])
  | y :: tl' =>
      let (b, r) := heap_pop_from y tl' in
      if f_lt (fst b) (fst x) then (b, x :: r) else (x, tl)
  end.

Definition BLI_heapsimple_pop_min (h : HeapSimple) : option (edge * HeapSimple) :=
  match h with
  | [] => None
  | x :: tl => let (b, r) := heap_pop_from x tl in Some (snd b, r)
  end.

(** The two in-range predicates are held by the queue as function
    pointers chosen by [use_projected]; the field records the choice. *)
Record EdgeQueue : Type := mkEdgeQueue {
  heap : HeapSimple;
  elems : list edge;
  totelems : Z;
  center : vec3;
  center_proj : vec3;
  radius_squared : f32;
  limit_len_squared : f32;
  limit_len : f32;
  use_projected : bool;
  view_normal : vec3;
  use_view_normal : bool
}.

(** The mask callback reads the mesh; an absent callback is [None]. *)
Record EdgeQueueContext : Type := mkEdgeQueueContext {
  q : EdgeQueue;
  mask_cb : option (BMesh -> vert -> f32);
  cd_vert_mask_offset : Z;
  avg_elen : f32;
  max_elen : f32;
  min_elen : f32;
  totedge : f32;
  val34_verts : list vert
}.

Definition set_q (c : EdgeQueueContext) (x : EdgeQueue) : EdgeQueueContext :=
  mkEdgeQueueContext x (mask_cb c) (cd_vert_mask_offset c) (avg_elen c) (max_elen c)
                     (min_elen c) (totedge c) (val34_verts c).
Definition set_val34_verts (c : EdgeQueueContext) (x : list vert) : EdgeQueueContext :=
  mkEdgeQueueContext (q c) (mask_cb c) (cd_vert_mask_offset c) (avg_elen c) (max_elen c)
                     (min_elen c) (totedge c) x.
Definition set_heap (x : EdgeQueue) (h : HeapSimple) : EdgeQueue :=
  mkEdgeQueue h (elems x) (totelems x) (center x) (center_proj x) (radius_squared x)
              (limit_len_squared x) (limit_len x) (use_projected x) (view_normal x)
              (use_view_normal x).

Definition edge_queue_insert_val34_vert (p : PBVH) (c : EdgeQueueContext) (v : vert)
  : PBVH * EdgeQueueContext :=
  if flag_test (mv_flag (vget (bm p) v)) DYNVERT_VALENCE_TEMP then (p, c)
  else (pbvh_mv_flag_enable p v DYNVERT_VALENCE_TEMP, set_val34_verts c (val34_verts c ++ [v])).

Definition maskcb_get (m : BMesh) (c : EdgeQueueContext) (e : edge) : f32 :=
  match mask_cb c with
  | Some cb => f32_mul (f32_add (cb m (fst e)) (cb m (snd e))) f32_half
  | None => f32_one
  end.

Definition calc_weighted_edge_split (m : BMesh) (v1 v2 : vert) : f32 :=
  len_squared_v3v3 (co (vget m v1)) (co (vget m v2)).

Definition calc_weighted_edge_collapse (m : BMesh) (v1 v2 : vert) : f32 :=
  len_squared_v3v3 (co (vget m v1)) (co (vget m v2)).

Definition BM_edge_calc_length_squared (m : BMesh) (e : edge) : f32 :=
  len_squared_v3v3 (co (vget m (fst e))) (co (vget m (snd e))).

Definition edge_queue_vert_in_sphere (m : BMesh) (x : EdgeQueue) (v : vert) : bool :=
  f_le (len_squared_v3v3 (center x) (co (vget m v))) (radius_squared x).

Definition dist_to_tri_sphere_simple (p v1 v2 v3 : vec3) : f32 :=
  let dis := len_squared_v3v3 p v1 in
  let dis := fmin dis (len_squared_v3v3 p v2) in
  let dis := fmin dis (len_squared_v3v3 p v3) in
  let dis := fmin dis (len_squared_v3v3 p (mul_v3_fl (add_v3_v3v3 v1 v2) f32_half)) in
  let dis := fmin dis (len_squared_v3v3 p (mul_v3_fl (add_v3_v3v3 v2 v3) f32_half)) in
  let dis := fmin dis (len_squared_v3v3 p (mul_v3_fl (add_v3_v3v3 v3 v1) f32_half)) in
  fmin dis (len_squared_v3v3 p
              (mul_v3_fl (add_v3_v3v3 (add_v3_v3v3 v1 v2) v3)
                         (f32_div f32_one (f32_lit 3 0)))).

Definition edge_queue_tri_in_sphere (m : BMesh) (x : EdgeQueue) (f : face) : bool :=
  let l := BM_FACE_FIRST_LOOP f in
  f_le (dist_to_tri_sphere_simple (center x)
          (co (vget m (loop_v m l)))
          (co (vget m (loop_v m (loop_next m l))))
          (co (vget m (loop_v m (loop_prev m l)))))
       (radius_squared x).

Definition edge_queue_tri_in_circle `{Collaborators} (m : BMesh) (x : EdgeQueue) (f : face)
  : bool :=
  let vs := f_verts (fget m f) in
  let t0 := project_plane_normalized_v3_v3v3 (co (vget m (tri_corner vs 0))) (view_normal x) in
  let t1 := project_plane_normalized_v3_v3v3 (co (vget m (tri_corner vs 1))) (view_normal x) in
  let t2 := project_plane_normalized_v3_v3v3 (co (vget m (tri_corner vs 2))) (view_normal x) in
  let c := closest_on_tri_to_point_v3 (center_proj x) t0 t1 t2 in
  f_le (len_squared_v3v3 (center_proj x) c) (radius_squared x).

Definition edge_queue_vert_in_circle `{Collaborators} (m : BMesh) (x : EdgeQueue) (v : vert)
  : bool :=
  let c := project_plane_normalized_v3_v3v3 (co (vget m v)) (view_normal x) in
  f_le (len_squared_v3v3 (center_proj x) c) (radius_squared x).

Definition edge_queue_tri_in_range `{Collaborators} (m : BMesh) (x : EdgeQueue) (f : face)
  : bool :=
  if use_projected x then edge_queue_tri_in_circle m x f else edge_queue_tri_in_sphere m x f.

Definition edge_queue_vert_in_range `{Collaborators} (m : BMesh) (x : EdgeQueue) (v : vert)
  : bool :=
  if use_projected x then edge_queue_vert_in_circle m x v else edge_queue_vert_in_sphere m x v.

Record EdgeQueueThreadData : Type := mkEdgeQueueThreadData {
  td_node : Z;
  td_edges : list edge;
  td_val34_verts : list vert
}.

Definition edge_thread_data_insert (st : PBVH * EdgeQueueThreadData) (e : edge)
  : PBVH * EdgeQueueThreadData :=
  let (p, td) := st in
  (set_bm p (edge_update (bm p) e (fun r => set_e_hflag r (flag_enable (e_hflag r) BM_ELEM_TAG))),
   mkEdgeQueueThreadData (td_node td) (td_edges td ++ [e]) (td_val34_verts td)).

(** [edge_queue_insert]: unless the mask layer exists and an end point
    is hidden, the edge length enters the statistics and the pair of end
    points enters the heap and the element array. *)
Definition edge_queue_insert (m : BMesh) (c : EdgeQueueContext) (e : edge) (priority : f32)
  : EdgeQueueContext :=
  let v1 := vget m (fst e) in
  let v2 := vget m (snd e) in
  if (cd_vert_mask_offset c =? -1)
     || negb (flag_test (Z.lor (v_hflag v1) (v_hflag v2)) BM_ELEM_HIDDEN)
  then
    let dis := len_v3v3 (co v1) (co v2) in
    let x := q c in
    let els := elems x ++ [e] in
    mkEdgeQueueContext
      (mkEdgeQueue (BLI_heapsimple_insert (heap x) priority e) els (totelems x + 1)
                   (center x) (center_proj x) (radius_squared x) (limit_len_squared x)
                   (limit_len x) (use_projected x) (view_normal x) (use_view_normal x))
      (mask_cb c) (cd_vert_mask_offset c)
      (f32_add (avg_elen c) dis) (MAX2 (max_elen c) dis) (MIN2 (min_elen c) dis)
      (f32_add (totedge c) f32_one) (val34_verts c)
  else c.

(** A loop body that may give up: the recursive scans below are written
    with a bound on the nesting depth, and [None] reports that the bound
    was reached. *)
Fixpoint fold_opt {A S : Type} (f : S -> A -> option S) (l : list A) (s : S) : option S :=
  match l with
  | [] => Some s
  | x :: tl => match f s x with
               | Some s' => fold_opt f tl s'
               | None => None
               end
  end.

Definition scan_state : Type := (PBVH * EdgeQueueThreadData)%type.

(** [short_edge_queue_edge_add_recursive_2].  Every call that goes on
    tags an edge that was not tagged, so the nesting depth is at most
    the number of edges; [fuel] bounds it. *)
Fixpoint short_edge_queue_edge_add_recursive_2 (fuel : nat) (c : EdgeQueueContext)
  (st : scan_state) (l_edge l_end : BMLoop) (len_sq limit_len : f32) (depth : Z)
  : option scan_state :=
  match fuel with
  | O => None
  | S fuel' =>
      let m := bm (fst st) in
      if flag_test (e_hflag (eget m (loop_e m l_edge))) BM_ELEM_TAG then Some st
      else if (DEPTH_START_LIMIT <? depth) && use_view_normal (q c)
              && f_lt (dot_v3v3 (f_no (fget m (l_f l_edge))) (view_normal (q c))) f32_zero
      then Some st
      else
        let st1 := edge_thread_data_insert st (loop_e m l_edge) in
        if loop_eqb (radial_next m l_edge) l_edge then Some st1
        else
          let len_sq_cmp := f32_mul len_sq EVEN_EDGELEN_THRESHOLD in
          let limit_len' := f32_mul limit_len EVEN_GENERATION_SCALE in
          let limit_len_sq := square_f limit_len' in
          fold_opt
            (fun s l_iter =>
               fold_opt
                 (fun s' l_adj =>
                    let m' := bm (fst s') in
                    let e := loop_e m' l_adj in
                    let len_sq_other := calc_weighted_edge_collapse m' (fst e) (snd e) in
                    if f_gt len_sq_other (max_ff len_sq_cmp limit_len_sq) then
                      short_edge_queue_edge_add_recursive_2 fuel' c s'
                        (radial_next m' l_adj) l_adj len_sq_other limit_len' (depth + 1)
                    else Some s')
                 [loop_next m l_iter; loop_prev m l_iter] s)
            (radial_others m l_end) st1
  end.

Fixpoint long_edge_queue_edge_add_recursive_2 (fuel : nat) (c : EdgeQueueContext)
  (st : scan_state) (l_edge l_end : BMLoop) (len_sq limit_len : f32) (depth : Z)
  : option scan_state :=
  match fuel with
  | O => None
  | S fuel' =>
      let m := bm (fst st) in
      if flag_test (e_hflag (eget m (loop_e m l_edge))) BM_ELEM_TAG then Some st
      else if (DEPTH_START_LIMIT <? depth) && use_view_normal (q c)
              && f_lt (dot_v3v3 (f_no (fget m (l_f l_edge))) (view_normal (q c))) f32_zero
      then Some st
      else
        let st1 := edge_thread_data_insert st (loop_e m l_edge) in
        if loop_eqb (radial_next m l_edge) l_edge then Some st1
        else
          let len_sq_cmp := f32_mul len_sq EVEN_EDGELEN_THRESHOLD in
          let limit_len' := f32_mul limit_len EVEN_GENERATION_SCALE in
          let limit_len_sq := square_f limit_len' in
          fold_opt
            (fun s l_iter =>
               fold_opt
                 (fun s' l_adj =>
                    let m' := bm (fst s') in
                    let e := loop_e m' l_adj in
                    let w := maskcb_get m' c e in
                    let len_sq_other :=
                      f32_mul (calc_weighted_edge_split m' (fst e) (snd e)) (f32_mul w w) in
                    if f_gt len_sq_other (max_ff len_sq_cmp limit_len_sq) then
                      long_edge_queue_edge_add_recursive_2 fuel' c s'
                        (radial_next m' l_adj) l_adj len_sq_other limit_len' (depth + 1)
                    else Some s')
                 [loop_next m l_iter; loop_prev m l_iter] s)
            (radial_others m l_end) st1
  end.

Definition scan_fuel (p : PBVH) : nat := S (length (bm_edges (bm p))).

(** The first loop of both scans: the tag of every edge of every face
    of the leaf is cleared. *)
Definition clear_face_edge_tags (p : PBVH) (f : face) : PBVH :=
  fold_left
    (fun p' l => set_bm p' (edge_update (bm p') (loop_e (bm p') l)
                              (fun r => set_e_hflag r (flag_disable (e_hflag r) BM_ELEM_TAG))))
    (face_loops (bm p) f) p.

Definition node_faces (p : PBVH) (ni : Z) : list face :=
  match node_at p ni with Some n => n_bm_faces n | None => [] end.

(** The body of the loop over the edges of a face in
    [short_edge_queue_task_cb]. *)
Definition short_edge_queue_task_loop (c : EdgeQueueContext) (s : scan_state)
  (l_iter : BMLoop) : option scan_state :=
  let m' := bm (fst s) in
  let e := loop_e m' l_iter in
  let w := maskcb_get m' c e in
  if f_eq w f32_zero then Some s
  else
    let len_sq := f32_div (calc_weighted_edge_collapse m' (fst e) (snd e)) (f32_mul w w) in
    if f_lt len_sq (limit_len_squared (q c)) then
      short_edge_queue_edge_add_recursive_2 (scan_fuel (fst s)) c s
        (radial_next m' l_iter) l_iter len_sq (limit_len (q c)) 0
    else Some s.

(** One turn of the second loop of [short_edge_queue_task_cb]. *)
Definition short_edge_queue_task_face `{Collaborators} (c : EdgeQueueContext)
  (st : scan_state) (f : face) : option scan_state :=
  let m := bm (fst st) in
  if use_view_normal (q c) && f_lt (dot_v3v3 (f_no (fget m f)) (view_normal (q c))) f32_zero
  then Some st
  else if edge_queue_tri_in_range m (q c) f then
    fold_opt (short_edge_queue_task_loop c) (face_loops m f) st
  else Some st.

Definition short_edge_queue_task_cb `{Collaborators} (c : EdgeQueueContext) (st : scan_state)
  : option scan_state :=
  let (p, td) := st in
  let fs := node_faces p (td_node td) in
  let p1 := fold_left clear_face_edge_tags fs p in
  fold_opt (short_edge_queue_task_face c) fs (p1, td).

(** [surface_smooth_v_safe]: the vertex moves a little toward the
    average of its neighbours of the same smooth-boundary class, along
    the tangent plane. *)
Definition surface_smooth_v_safe `{Collaborators} (p : PBVH) (v : vert) : PBVH :=
  match vert_e (bm p) v with
  | None => p
  | Some _ =>
      let p1 := pbvh_check_vert_boundary p v in
      let m := bm p1 in
      let r := vget m v in
      let bound1 := flag_test (mv_flag r) DYNVERT_SMOOTH_BOUNDARY in
      if flag_test (mv_flag r) DYNVERT_SMOOTH_CORNER then p1
      else
        let '(acc, tot) :=
          fold_left
            (fun (a : vec3 * f32) e =>
               let v2 := BM_edge_other_vert e v in
               let bound2 := flag_test (mv_flag (vget m v2)) DYNVERT_SMOOTH_BOUNDARY in
               if negb (eqb bound1 bound2) then a
               else
                 let tan := sub_v3_v3v3 (co (vget m v2)) (co r) in
                 let d := dot_v3v3 tan (no r) in
                 let tan' := add_v3_v3v3 tan
                               (mul_v3_fl (no r) (f32_mul (f32_neg d) (f32_lit 16609444 (-24)))) in
                 (add_v3_v3v3 (fst a) tan', f32_add (snd a) f32_one))
            (vert_edges m v) (zero_v3, f32_zero) in
        if f_eq tot f32_zero then p1
        else
          let avg := mul_v3_fl acc (f32_div f32_one tot) in
          pbvh_vert_update p1 v
            (fun r' => set_co r' (add_v3_v3v3 (co r) (mul_v3_fl avg DYNTOPO_SAFE_SMOOTH_FAC)))
  end.

(** The state of the subdivide scan also counts the random numbers
    drawn so far by the task. *)
Definition long_scan_state : Type := (PBVH * EdgeQueueThreadData * nat)%type.

Definition long_edge_queue_task_loop `{Collaborators} (c : EdgeQueueContext) (seed : Z)
  (s : long_scan_state) (l_iter : BMLoop) : option long_scan_state :=
  let '(p, td, drawn) := s in
  let v := loop_v (bm p) l_iter in
  let mv := vget (bm p) v in
  let td1 := if (mv_valence mv <? 5) || flag_test (mv_flag mv) DYNVERT_NEED_VALENCE
             then mkEdgeQueueThreadData (td_node td) (td_edges td) (td_val34_verts td ++ [v])
             else td in
  let p1 := if f_gt (BLI_rng_get_float seed drawn) (f32_lit 3 (-2))
            then surface_smooth_v_safe p v else p in
  let m := bm p1 in
  let e := loop_e m l_iter in
  let w := maskcb_get m c e in
  let len_sq := f32_mul (BM_edge_calc_length_squared m e) (f32_mul w w) in
  if f_gt len_sq (limit_len_squared (q c)) then
    match long_edge_queue_edge_add_recursive_2 (scan_fuel p1) c (p1, td1)
            (radial_next m l_iter) l_iter len_sq (limit_len (q c)) 0 with
    | Some (p2, td2) => Some (p2, td2, S drawn)
    | None => None
    end
  else Some (p1, td1, S drawn).

(** One turn of the second loop of [long_edge_queue_task_cb]. *)
Definition long_edge_queue_task_face `{Collaborators} (c : EdgeQueueContext) (seed : Z)
  (s : long_scan_state) (f : face) : option long_scan_state :=
  let m := bm (fst (fst s)) in
  if use_view_normal (q c) && f_lt (dot_v3v3 (f_no (fget m f)) (view_normal (q c))) f32_zero
  then Some s
  else if edge_queue_tri_in_range m (q c) f then
    fold_opt (long_edge_queue_task_loop c seed) (face_loops m f) s
  else Some s.

Definition long_edge_queue_task_cb `{Collaborators} (c : EdgeQueueContext) (seed : Z)
  (st : scan_state) : option scan_state :=
  let (p, td) := st in
  let fs := node_faces p (td_node td) in
  let p1 := fold_left clear_face_edge_tags fs p in
  option_map fst (fold_opt (long_edge_queue_task_face c seed) fs (p1, td, O)).

Definition edge_queue_init `{Collaborators} (x : EdgeQueue) (use_projected_ use_frontface : bool)
  (center_ view_normal_ : vec3) (radius : f32) : EdgeQueue :=
  mkEdgeQueue (heap x) (elems x) (totelems x) center_
    (if use_projected_ then project_plane_normalized_v3_v3v3 center_ view_normal_
     else center_proj x)
    (f32_mul radius radius) (limit_len_squared x) (limit_len x) use_projected_ view_normal_
    use_frontface.

(** The leaves a queue is built from. *)
Definition topology_leaf (n : PBVHNode) : bool :=
  flag_test (n_flag n) PBVH_Leaf && flag_test (n_flag n) PBVH_UpdateTopology
  && negb (flag_test (n_flag n) PBVH_FullyHidden).

Definition queue_tasks (p : PBVH) : list EdgeQueueThreadData :=
  map (fun i => mkEdgeQueueThreadData (Z.of_nat i) [] [])
      (List.filter (fun i => match nodes p !! i with
                             | Some n => topology_leaf n
                             | None => false
                             end)
                   (seq 0 (length (nodes p)))).

(** The tasks of the parallel range, run one after the other in the
    order of their leaves. *)
Fixpoint run_tasks (task : nat -> scan_state -> option scan_state) (i : nat) (p : PBVH)
  (tds : list EdgeQueueThreadData) : option (PBVH * list EdgeQueueThreadData) :=
  match tds with
  | [] => Some (p, [])
  | td :: tl =>
      match task i (p, td) with
      | Some (p1, td1) =>
          match run_tasks task (S i) p1 tl with
          | Some (p2, r) => Some (p2, td1 :: r)
          | None => None
          end
      | None => None
      end
  end.

Definition merge_state : Type := (PBVH * EdgeQueueContext)%type.

(** The body of the merge loop of [short_edge_queue_create]. *)
Definition short_edge_queue_merge_edge `{Collaborators} (st : merge_state) (e : edge)
  : merge_state :=
  let (p, c) := st in
  let p1 := pbvh_check_vert_boundary p (fst e) in
  let p2 := pbvh_check_vert_boundary p1 (snd e) in
  let fl1 := mv_flag (vget (bm p2) (fst e)) in
  let fl2 := mv_flag (vget (bm p2) (snd e)) in
  if flag_test fl1 DYNVERT_ALL_CORNER || flag_test fl2 DYNVERT_ALL_CORNER then (p2, c)
  else if negb (Z.land fl1 DYNVERT_ALL_BOUNDARY =? Z.land fl2 DYNVERT_ALL_BOUNDARY) then (p2, c)
  else
    let w := calc_weighted_edge_collapse (bm p2) (fst e) (snd e) in
    let w2 := maskcb_get (bm p2) c e in
    let w' := if f_gt w2 f32_zero then f32_div w (f32_mul w2 w2) else f32_lit 100000 0 in
    let p3 := set_bm p2 (edge_update (bm p2) e
                           (fun r => set_e_hflag r (flag_disable (e_hflag r) BM_ELEM_TAG))) in
    (p3, edge_queue_insert (bm p3) c e w').

Definition short_edge_queue_create `{Collaborators} (c : EdgeQueueContext) (p : PBVH)
  (center_ view_normal_ : vec3) (radius : f32) (use_frontface use_projected_ : bool)
  : option merge_state :=
  let q0 := mkEdgeQueue [] [] 0 center_ (center_proj (q c)) (f32_mul radius radius)
              (f32_mul (bm_min_edge_len p) (bm_min_edge_len p)) (bm_min_edge_len p)
              (use_projected (q c)) view_normal_ use_frontface in
  let c1 := set_q c (edge_queue_init q0 use_projected_ use_frontface center_ view_normal_ radius) in
  match run_tasks (fun _ => short_edge_queue_task_cb c1) 0 p (queue_tasks p) with
  | None => None
  | Some (p1, tds) =>
      Some (fold_left (fun st td => fold_left short_edge_queue_merge_edge (td_edges td) st)
                      tds (p1, c1))
  end.

Definition long_edge_queue_merge_vert (st : merge_state) (v : vert) : merge_state :=
  let (p, c) := st in
  let p1 := if flag_test (mv_flag (vget (bm p) v)) DYNVERT_NEED_VALENCE
            then BKE_pbvh_bmesh_update_valence p v else p in
  if mv_valence (vget (bm p1) v) <? 5 then edge_queue_insert_val34_vert p1 c v else (p1, c).

(** The body of the merge loop of [long_edge_queue_create]. *)
Definition long_edge_queue_merge_edge `{Collaborators} (st : merge_state) (e : edge)
  : merge_state :=
  let (p, c) := st in
  let p0 := set_bm p (edge_update (bm p) e
                        (fun r => set_e_hflag r (flag_disable (e_hflag r) BM_ELEM_TAG))) in
  let p1 := if flag_test (mv_flag (vget (bm p0) (fst e))) DYNVERT_NEED_VALENCE
            then BKE_pbvh_bmesh_update_valence p0 (fst e) else p0 in
  let p2 := if flag_test (mv_flag (vget (bm p1) (snd e))) DYNVERT_NEED_VALENCE
            then BKE_pbvh_bmesh_update_valence p1 (snd e) else p1 in
  let low1 := mv_valence (vget (bm p2) (fst e)) <? 5 in
  let low2 := mv_valence (vget (bm p2) (snd e)) <? 5 in
  let st3 := if low1 then edge_queue_insert_val34_vert p2 c (fst e) else (p2, c) in
  let st4 := if low2 then edge_queue_insert_val34_vert (fst st3) (snd st3) (snd e) else st3 in
  let p5 := check_vert_fan_are_tris (fst st4) (fst e) in
  let p6 := check_vert_fan_are_tris p5 (snd e) in
  let w := f32_neg (calc_weighted_edge_split (bm p6) (fst e) (snd e)) in
  let w2 := maskcb_get (bm p6) (snd st4) e in
  (p6, edge_queue_insert (bm p6) (snd st4) e (f32_mul w (f32_mul w2 w2))).

Definition long_edge_queue_create `{Collaborators} (c : EdgeQueueContext) (p : PBVH)
  (center_ view_normal_ : vec3) (radius : f32) (use_frontface use_projected_ : bool)
  (seed : Z) : option merge_state :=
  let q0 := mkEdgeQueue [] [] 0 (center (q c)) (center_proj (q c)) (f32_mul radius radius)
              (f32_mul (bm_max_edge_len p) (bm_max_edge_len p)) (bm_max_edge_len p)
              (use_projected (q c)) (view_normal (q c)) (use_view_normal (q c)) in
  let c1 := set_q c (edge_queue_init q0 use_projected_ use_frontface center_ view_normal_ radius) in
  match run_tasks (fun i => long_edge_queue_task_cb c1 (seed + Z.of_nat i)) 0 p (queue_tasks p)
  with
  | None => None
  | Some (p1, tds) =>
      Some (fold_left
              (fun st td =>
                 fold_left long_edge_queue_merge_edge (td_edges td)
                           (fold_left long_edge_queue_merge_vert (td_val34_verts td) st))
              tds (p1, c1))
  end.

(* ===================================================================== *)
(** ** The collapse pass (component C6 of the spec) *)
(* ===================================================================== *)

(** The deleted-vertex map: a vertex that was merged points to the
    vertex it was merged into, a vertex that was removed points to the
    null pointer ([None]). *)
Definition deleted_map : Type := gmap vert (option vert).

(** [bm_vert_hash_lookup_chain].  The C loop runs until it leaves the
    map; a chain without a cycle has at most as many links as the map
    has keys, and [None] reports a walk that did not end within that
    bound. *)
Fixpoint lookup_chain_loop (fuel : nat) (d : deleted_map) (v : vert) : option (option vert) :=
  match fuel with
  | O => None
  | S fuel' =>
      match d !! v with
      | None => Some (Some v)
      | Some None => Some None
      | Some (Some v') => lookup_chain_loop fuel' d v'
      end
  end.

Definition bm_vert_hash_lookup_chain (d : deleted_map) (v : vert) : option (option vert) :=
  lookup_chain_loop (S (size d)) d v.

Definition DYNTOPO_MASK (m : BMesh) (v : vert) : f32 := v_mask (vget m v).

(** Modelled from the spec: [CustomData_bmesh_interp] of the attribute
    store on the vertex layers the model carries: the paint mask of the
    destination becomes the weighted sum of the sources; the annotation
    of the destination is kept. *)
Definition CustomData_bmesh_interp_vert (p : PBVH) (src1 src2 dst : vert) (w1 w2 : f32)
  : PBVH :=
  let a := v_mask (vget (bm p) src1) in
  let b := v_mask (vget (bm p) src2) in
  pbvh_vert_update p dst
    (fun r => set_v_mask r (f32_add (f32_add f32_zero (f32_mul a w1)) (f32_mul b w2))).

(** [bm_face_exists_tri_from_loop_vert]. *)
Definition bm_face_exists_tri_from_loop_vert (m : BMesh) (l_radial_first : BMLoop)
  (v_opposite : vert) : option face :=
  option_map l_f
    (find (fun l => Pos.eqb (loop_v m (loop_prev m l)) v_opposite)
          (radial_others m l_radial_first)).

(** The seam test at the head of [pbvh_bmesh_collapse_edge]: for each
    end point, whether its disk cycle has a seam edge other than [e]. *)
Definition vert_has_other_seam (m : BMesh) (e : edge) (v : vert) : bool :=
  existsb (fun e2 => negb (edge_eqb e2 e) && BM_elem_flag_test_edge m e2 BM_ELEM_SEAM)
          (vert_edges m v).

Definition collapse_seam_count (m : BMesh) (e : edge) (v1 v2 : vert) : Z :=
  (if vert_has_other_seam m e v1 then 1 else 0) + (if vert_has_other_seam m e v2 then 1 else 0).

(** The vertex to delete and the vertex to keep, in this order. *)
Definition collapse_choose (m : BMesh) (v1 v2 : vert) : vert * vert :=
  if f_lt (DYNTOPO_MASK m v1) (DYNTOPO_MASK m v2) then (v1, v2) else (v2, v1).

(** One turn of [while ((l_adj = e->l))]: the flags of the other two
    edges of the face are merged and spread over the three edges, the
    corners are marked, the face leaves its leaf and dies. *)
Definition collapse_remove_adjacent (p : PBVH) (e : edge) (f_adj : face) : PBVH :=
  let m := bm p in
  let ls := face_loops m f_adj in
  let eflag := fold_left
                 (fun acc l => let e2 := loop_e m l in
                               if negb (edge_eqb e2 e)
                               then Z.lor acc (flag_disable (e_hflag (eget m e2)) BM_ELEM_HIDDEN)
                               else acc)
                 ls 0 in
  let p1 := fold_left (fun p' l => pbvh_mv_flag_enable p' (loop_v m l) NEED_ALL) ls p in
  let p2 := fold_left
              (fun p' l => set_bm p' (edge_update (bm p') (loop_e m l)
                                        (fun r => set_e_hflag r (Z.lor (e_hflag r) eflag))))
              ls p1 in
  let p3 := pbvh_bmesh_face_remove p2 f_adj true true in
  set_bm p3 (BM_face_kill (bm p3) f_adj).

Fixpoint collapse_remove_adjacent_all (fuel : nat) (p : PBVH) (e : edge) : PBVH :=
  match fuel with
  | O => p
  | S fuel' =>
      match edge_l (bm p) e with
      | None => p
      | Some l_adj => collapse_remove_adjacent_all fuel' (collapse_remove_adjacent p e (l_f l_adj)) e
      end
  end.

Definition pbvh_bmesh_copy_facedata (p : PBVH) (dest src : face) : PBVH :=
  set_bm p (face_update (bm p) dest (fun r => set_f_hflag r (f_hflag (fget (bm p) src)))).

(** One turn of the loop over the loops of [v_del]: the face is
    rebuilt on [v_conn], unless that triangle exists already, and is
    queued for deletion. *)
Definition collapse_rewrite_loop (v_del v_conn : vert) (st : PBVH * list face) (l : BMLoop)
  : PBVH * list face :=
  let (p, deleted_faces) := st in
  let m := bm p in
  let f := l_f l in
  let st1 :=
    match bm_face_exists_tri_from_loop_vert m (loop_next m l) v_conn with
    | Some existing_face =>
        if existsb (Pos.eqb existing_face) deleted_faces then (p, deleted_faces)
        else (p, deleted_faces ++ [existing_face])
    | None =>
        let vn := loop_v m (loop_next m l) in
        let vp := loop_v m (loop_prev m l) in
        let old_tri := [v_del; vn; vp] in
        let v_tri := [v_conn; vn; vp] in
        let mark := Z.lor (Z.lor DYNVERT_NEED_BOUNDARY DYNVERT_NEED_DISK_SORT)
                          DYNVERT_NEED_TRIANGULATE in
        let p1 := pbvh_mv_flag_enable (pbvh_mv_flag_enable p vn mark) vp mark in
        let ni := pbvh_bmesh_node_index_from_face p1 f in
        let '(p2, e_tri) := bm_edges_from_tri p1 old_tri in
        let '(p3, _) := bm_edges_from_tri_example p2 v_tri e_tri in
        let '(p4, f2) := pbvh_bmesh_face_create p3 ni v_tri true (Some f) false in
        (pbvh_bmesh_copy_facedata p4 f2 f, deleted_faces)
    end in
  (fst st1, snd st1 ++ [f]).

(** The last loop over the corners of a deleted face: a corner other
    than [v_del] that has no edge left leaves its leaf, enters the
    deleted-vertex map with the null pointer and is killed.  The state
    carries [v_conn], which becomes the null pointer when it is the
    vertex killed. *)
Definition collapse_delete_orphan (v_del : vert) (s : PBVH * deleted_map * option vert)
  (v : vert) : PBVH * deleted_map * option vert :=
  let '(p', d', vc) := s in
  if negb (Pos.eqb v v_del)
     && match vert_e (bm p') v with None => true | Some _ => false end
  then
    let p'' := pbvh_bmesh_vert_remove p' v in
    let vc' := match vc with
               | Some w => if Pos.eqb v w then None else vc
               | None => None
               end in
    (pbvh_kill_vert p'' v, <[v := None]> d', vc')
  else s.

(** One turn of the loop over the faces queued for deletion: the face
    leaves its leaf and dies, its edges that became wire edges die, its
    corners that became isolated die. *)
Definition collapse_delete_face (v_del : vert)
  (st : PBVH * deleted_map * option vert) (f_del : face) : PBVH * deleted_map * option vert :=
  let '(p, d, v_conn) := st in
  let m := bm p in
  let v_tri := map (loop_v m) (face_loops m f_del) in
  let e_tri := map (loop_e m) (face_loops m f_del) in
  let p1 := fold_left (fun p' _ => pbvh_mv_flag_enable p' v_del NEED_ALL) (face_loops m f_del) p in
  let p2 := pbvh_bmesh_face_remove p1 f_del true true in
  let p3 := set_bm p2 (BM_face_kill (bm p2) f_del) in
  let p4 := fold_left
              (fun p' e => if BM_edge_is_wire (bm p') e
                           then set_bm p' (BM_edge_kill (bm p') e) else p')
              e_tri p3 in
  fold_left (collapse_delete_orphan v_del) v_tri (p4, d, v_conn).

(** After the seam test and the choice of the two roles: the vertex
    data are blended into [v_conn], [v_del] leaves its leaf, the faces
    around the edge and the edge die, and every remaining face of
    [v_del] is rebuilt on [v_conn] and queued for deletion. *)
Definition collapse_rewrite (p : PBVH) (e : edge) (v_del v_conn : vert) : PBVH * list face :=
  let ni_conn := v_node (vget (bm p) v_conn) in
  let p1 := CustomData_bmesh_interp_vert p v_del v_conn v_conn f32_half f32_half in
  let p2 := pbvh_vert_update p1 v_conn (fun r => set_v_node r ni_conn) in
  let p3 := pbvh_bmesh_vert_remove p2 v_del in
  let p4 := collapse_remove_adjacent_all (S (length (bm_faces (bm p3)))) p3 e in
  let p5 := set_bm p4 (BM_edge_kill (bm p4) e) in
  let p6 := fold_left (fun p' _ => pbvh_mv_flag_enable p' v_del NEED_ALL)
                      (loops_of_vert (bm p5) v_del) p5 in
  let p7 := fold_left (fun p' _ => pbvh_mv_flag_enable p' v_conn NEED_ALL)
                      (loops_of_vert (bm p6) v_conn) p6 in
  fold_left (collapse_rewrite_loop v_del v_conn) (loops_of_vert (bm p7) v_del) (p7, []).

(** The end of [pbvh_bmesh_collapse_edge]: [v_conn], if it is still
    there, moves to the middle of the edge and takes the sum of the
    normals; [v_del] enters the deleted-vertex map, pointing to [v_conn]
    or to the null pointer; the neighbourhood of [v_conn] is marked;
    [v_del] is killed. *)
Definition collapse_finish (p9 : PBVH) (d1 : deleted_map) (vc : option vert) (v_del : vert)
  : PBVH * deleted_map :=
  let p10 :=
    match vc with
    | Some w =>
        let del := vget (bm p9) v_del in
        pbvh_vert_update p9 w
          (fun r => set_no (set_co r (mid_v3_v3v3 (co r) (co del)))
                           (normalize_v3 (add_v3_v3v3 (no r) (no del))))
    | None => p9
    end in
  let d2 := <[v_del := vc]> d1 in
  let p11 :=
    match vc with
    | Some w =>
        let m := bm p10 in
        let pa :=
          fold_left
            (fun p' l =>
               let v2 := BM_edge_other_vert (loop_e m l) w in
               node_flag_enable (pbvh_mv_flag_enable p' v2 NEED_ALL)
                 (pbvh_bmesh_node_index_from_face p' (l_f l))
                 (Z.lor (Z.lor (Z.lor (Z.lor PBVH_UpdateDrawBuffers PBVH_UpdateNormals)
                                      PBVH_UpdateBB) PBVH_UpdateTris) PBVH_UpdateOtherVerts))
            (loops_of_vert m w) p10 in
        pbvh_mv_flag_enable pa w NEED_ALL
    | None => p10
    end in
  (pbvh_kill_vert p11 v_del, d2).

(** Everything [pbvh_bmesh_collapse_edge] does once the seam test has
    let the edge through and the two roles are assigned. *)
Definition pbvh_bmesh_collapse_edge_body (p : PBVH) (e : edge) (v_del v_conn : vert)
  (d : deleted_map) : PBVH * deleted_map :=
  let '(p8, deleted_faces) := collapse_rewrite p e v_del v_conn in
  let '(p9, d1, vc) :=
    fold_left (collapse_delete_face v_del) deleted_faces (p8, d, Some v_conn) in
  collapse_finish p9 d1 vc v_del.

(** The first statements of [pbvh_bmesh_collapse_edge]: the fans of
    both end points are made of triangles and their original-data
    snapshots are brought up to date. *)
Definition collapse_prelude `{Collaborators} (p : PBVH) (e : edge) : PBVH :=
  let p1 := check_vert_fan_are_tris p (fst e) in
  let p2 := check_vert_fan_are_tris p1 (snd e) in
  let p3 := BKE_pbvh_bmesh_check_origdata p2 (fst e) (stroke_id p2) in
  BKE_pbvh_bmesh_check_origdata p3 (snd e) (stroke_id p3).

Definition pbvh_bmesh_collapse_edge `{Collaborators} (p : PBVH) (e : edge) (v1 v2 : vert)
  (d : deleted_map) : PBVH * deleted_map :=
  let p4 := collapse_prelude p e in
  if BM_elem_flag_test_edge (bm p4) e BM_ELEM_SEAM
     && (collapse_seam_count (bm p4) e v1 v2 <? 2)
  then (p4, d)
  else
    let (v_del, v_conn) := collapse_choose (bm p4) v1 v2 in
    pbvh_bmesh_collapse_edge_body p4 e v_del v_conn d.

(** The test [e->l && e->l != e->l->radial_next->radial_next]: the
    edge has a loop and its radial cycle does not come back to that loop
    after two steps, which is the case of three or more loops. *)
Definition radial_longer_than_two (m : BMesh) (e : edge) : bool :=
  match edge_l m e with
  | Some l => negb (loop_eqb l (radial_next m (radial_next m l)))
  | None => false
  end.

(** What becomes of one entry popped from the heap. *)
Inductive pop_result : Type :=
| PopSkipped
| PopCollapsed (e : edge) (v1 v2 : vert).

(** The tests between the pop and the call of
    [pbvh_bmesh_collapse_edge]; [None] is a chain walk that did not
    end. *)
Definition collapse_pop_decide (p : PBVH) (d : deleted_map) (min_len_squared : f32)
  (pr : edge) : option pop_result :=
  match bm_vert_hash_lookup_chain d (fst pr) with
  | None => None
  | Some None => Some PopSkipped
  | Some (Some v1) =>
      match bm_vert_hash_lookup_chain d (snd pr) with
      | None => None
      | Some None => Some PopSkipped
      | Some (Some v2) =>
          if Pos.eqb v1 v2 then Some PopSkipped
          else
            match BM_edge_exists (bm p) v1 v2 with
            | None => Some PopSkipped
            | Some e =>
                let m := bm p in
                if radial_longer_than_two m e then Some PopSkipped
                else if f_ge (calc_weighted_edge_collapse m v1 v2) min_len_squared
                then Some PopSkipped
                else if (v_node (vget m (fst e)) =? DYNTOPO_NODE_NONE)
                        || (v_node (vget m (snd e)) =? DYNTOPO_NODE_NONE)
                then Some PopSkipped
                else Some (PopCollapsed e v1 v2)
            end
      end
  end.

Record collapse_state : Type := mkCollapseState {
  cs_pbvh : PBVH;
  cs_ctx : EdgeQueueContext;
  cs_deleted_verts : deleted_map;
  cs_any_collapsed : bool;
  cs_step : Z
}.

(** The state after a popped entry was skipped: the entry is off the
    heap and the step is counted. *)
Definition pop_skip_state (s : collapse_state) (rest : HeapSimple) : collapse_state :=
  mkCollapseState (cs_pbvh s) (set_q (cs_ctx s) (set_heap (q (cs_ctx s)) rest))
                  (cs_deleted_verts s) (cs_any_collapsed s) (cs_step s + 1).

(** One turn of the loop of [pbvh_bmesh_collapse_short_edges], for the
    pair just popped. *)
Definition collapse_pop_step `{Collaborators} (s : collapse_state) (pr : edge)
  (rest : HeapSimple) : option collapse_state :=
  let p := cs_pbvh s in
  let c := set_q (cs_ctx s) (set_heap (q (cs_ctx s)) rest) in
  let min_len_squared := f32_mul (bm_min_edge_len p) (bm_min_edge_len p) in
  match collapse_pop_decide p (cs_deleted_verts s) min_len_squared pr with
  | None => None
  | Some PopSkipped => Some (pop_skip_state s rest)
  | Some (PopCollapsed e v1 v2) =>
      let (p', d') := pbvh_bmesh_collapse_edge p e v1 v2 (cs_deleted_verts s) in
      Some (mkCollapseState p' c d' true (cs_step s + 1))
  end.

Fixpoint collapse_loop `{Collaborators} (fuel : nat) (max_steps : Z) (s : collapse_state)
  : option collapse_state :=
  match BLI_heapsimple_pop_min (heap (q (cs_ctx s))) with
  | None => Some s
  | Some (pr, rest) =>
      if max_steps <? cs_step s then
        Some (mkCollapseState (cs_pbvh s) (cs_ctx s) (cs_deleted_verts s) (cs_any_collapsed s)
                              (cs_step s + 1))
      else
        match fuel with
        | O => None
        | S fuel' =>
            match collapse_pop_step s pr rest with
            | Some s' => collapse_loop fuel' max_steps s'
            | None => None
            end
        end
  end.

(** [pbvh_bmesh_collapse_short_edges]: every turn takes one entry off
    the heap, so the number of entries bounds the number of turns. *)
Definition pbvh_bmesh_collapse_short_edges `{Collaborators} (c : EdgeQueueContext) (p : PBVH)
  (max_steps : Z) : option (PBVH * EdgeQueueContext * bool) :=
  match collapse_loop (length (heap (q c))) max_steps (mkCollapseState p c ∅ false 0) with
  | Some s => Some (cs_pbvh s, cs_ctx s, cs_any_collapsed s)
  | None => None
  end.

(* ===================================================================== *)
(** ** Valence cleanup (component C7 of the spec) *)
(* ===================================================================== *)

Definition loop_co (m : BMesh) (l : BMLoop) : vec3 := co (vget m (loop_v m l)).

Definition nth_loop (ls : list BMLoop) (i : nat) : BMLoop := nth i ls (mkBMLoop 1%positive 0).

(** The two candidate diagonals of the quadrilateral [ls[0..3]]: [th1]
    is the dot product of the normals of the triangles on the diagonal
    from [ls[0]] to [ls[2]], [th2] that of the triangles on the diagonal
    from [ls[1]] to [ls[3]]. *)
Definition valence4_th1 (m : BMesh) (ls : list BMLoop) : f32 :=
  dot_v3v3
    (normal_tri_v3 (loop_co m (nth_loop ls 0)) (loop_co m (nth_loop ls 1)) (loop_co m (nth_loop ls 2)))
    (normal_tri_v3 (loop_co m (nth_loop ls 0)) (loop_co m (nth_loop ls 2)) (loop_co m (nth_loop ls 3))).

Definition valence4_th2 (m : BMesh) (ls : list BMLoop) : f32 :=
  dot_v3v3
    (normal_tri_v3 (loop_co m (nth_loop ls 1)) (loop_co m (nth_loop ls 2)) (loop_co m (nth_loop ls 3)))
    (normal_tri_v3 (loop_co m (nth_loop ls 1)) (loop_co m (nth_loop ls 3)) (loop_co m (nth_loop ls 0))).

(** [ls] after the test [th1 > th2]: rotated by one place when the
    test holds.  The triangles are then built on [ls[0] ls[1] ls[2]]
    and [ls[0] ls[2] ls[3]]. *)
Definition valence4_order (m : BMesh) (ls : list BMLoop) : list BMLoop :=
  if f_gt (valence4_th1 m ls) (valence4_th2 m ls)
  then map (fun j => nth_loop ls (Nat.modulo (j + 1) 4)) (seq 0 4)
  else ls.

Definition list_set {A : Type} (l : list A) (i : nat) (x : A) : list A := <[i := x]> l.

(** The inner loop of the fan walk, over [k < j]; the answer is the
    fan and whether it was found bad. *)
Fixpoint fan_check_inner (m : BMesh) (v : vert) (j : nat) (ks : list nat) (ls : list BMLoop)
  : list BMLoop * bool :=
  match ks with
  | [] => (ls, false)
  | k :: tl =>
      let lk := nth_loop ls k in
      let lj := nth_loop ls j in
      let same := Pos.eqb (loop_v m lk) (loop_v m lj) in
      if same && Pos.eqb (loop_v m (loop_next m lj)) v then (ls, true)
      else
        let ls1 := if same then list_set ls j (loop_next m lj) else ls in
        if negb (loop_eqb lk (radial_next m (radial_next m lk))) then (ls1, true)
        else if Pos.eqb (l_f lk) (l_f (nth_loop ls1 j)) then (ls1, true)
        else fan_check_inner m v j tl ls1
  end.

(** The fan walk, for [j] running over [js]; it stops as bad at an edge
    that is not shared by exactly two loops. *)
Fixpoint fan_walk (m : BMesh) (v : vert) (js : list nat) (l : BMLoop) (ls : list BMLoop)
  (bad : bool) : list BMLoop * bool :=
  match js with
  | [] => (ls, bad)
  | j :: tl =>
      let ls1 := ls ++ [if Pos.eqb (loop_v m l) v then loop_next m l else l] in
      let l1 := radial_next m (loop_prev m l) in
      let l2 := if Pos.eqb (loop_v m l1) v then l1 else loop_next m l1 in
      if loop_eqb (radial_next m l2) l2
         || negb (loop_eqb (radial_next m (radial_next m l2)) l2)
      then (ls1, true)
      else
        let (ls2, bad2) := fan_check_inner m v j (seq 0 j) ls1 in
        fan_walk m v tl l2 ls2 (bad || bad2)
  end.

(** The part of the loop body of [cleanup_valence_3_4] that follows
    the fan walk: the vertex and its faces leave their leaves, the fan
    is rebuilt as one or two triangles, the vertex is killed.  [vs3] is
    the fourth slot of the array [vs], which the C code compares
    without having written it. *)
Definition cleanup_tessellate (p : PBVH) (n : Z) (v : vert) (val : Z) (ls : list BMLoop)
  (vs3 : vert) : PBVH :=
  let ni := v_node (vget (bm p) v) in
  let p0 :=
    if ni <? 0 then
      fold_left
        (fun p' f =>
           let ni2 := f_node (fget (bm p') f) in
           if negb (ni2 =? DYNTOPO_NODE_NONE)
           then node_update p' ni2
                  (fun nd => set_n_bm_unique_verts nd (tgset_remove v (n_bm_unique_verts nd)))
           else p')
        (faces_of_vert (bm p) v) p
    else p in
  let p1 := pbvh_bmesh_vert_remove p0 v in
  let p2 := fold_left
              (fun p' f => if negb (f_node (fget (bm p') f) =? DYNTOPO_NODE_NONE)
                           then pbvh_bmesh_face_remove p' f true true else p')
              (faces_of_vert (bm p1) v) p1 in
  match vert_e (bm p2) v with
  | None => p2
  | Some e0 =>
      let m := bm p2 in
      let example := option_map l_f (edge_l m e0) in
      let ls' := if val =? 4 then valence4_order m ls else ls in
      let vs0 := loop_v m (nth_loop ls' 0) in
      let vs1 := loop_v m (nth_loop ls' 1) in
      let vs2 := loop_v m (nth_loop ls' 2) in
      let p3 := BKE_pbvh_bmesh_mark_update_valence
                  (BKE_pbvh_bmesh_mark_update_valence
                     (BKE_pbvh_bmesh_mark_update_valence p2 vs0) vs1) vs2 in
      let '(p4, f1) :=
        if negb (Pos.eqb vs0 vs1) && negb (Pos.eqb vs1 vs2) && negb (Pos.eqb vs0 vs2) then
          let '(pa, f) := pbvh_bmesh_face_create p3 n [vs0; vs1; vs2] false example true in
          (set_bm pa (face_update (bm pa) f
                        (fun r => set_f_no r (normal_tri_v3 (co (vget (bm pa) vs0))
                                                            (co (vget (bm pa) vs1))
                                                            (co (vget (bm pa) vs2))))),
           Some f)
        else (p3, None) in
      let p5 :=
        if (val =? 4) && negb (Pos.eqb vs0 vs2) && negb (Pos.eqb vs2 vs3)
           && negb (Pos.eqb vs0 vs3)
        then
          let w0 := loop_v (bm p4) (nth_loop ls' 0) in
          let w1 := loop_v (bm p4) (nth_loop ls' 2) in
          let w2 := loop_v (bm p4) (nth_loop ls' 3) in
          let pb := BKE_pbvh_bmesh_mark_update_valence
                      (BKE_pbvh_bmesh_mark_update_valence
                         (BKE_pbvh_bmesh_mark_update_valence p4 w0) w1) w2 in
          let example2 := match vert_e (bm pb) v with
                          | Some e1 => option_map l_f (edge_l (bm pb) e1)
                          | None => None
                          end in
          let '(pc, f2) := pbvh_bmesh_face_create pb n [w0; w1; w2] false example2 true in
          set_bm pc (face_update (bm pc) f2
                       (fun r => set_f_no r (normal_tri_v3 (co (vget (bm pc) w0))
                                                           (co (vget (bm pc) w1))
                                                           (co (vget (bm pc) w2)))))
        else p4 in
      pbvh_kill_vert p5 v
  end.

(** The loop body of [cleanup_valence_3_4] for the watch-list vertex
    [v]; the boolean tells whether the mesh was modified. *)
Definition cleanup_valence_vert `{Collaborators} (p : PBVH) (center_ : vec3) (rsqr : f32)
  (v : vert) (vs3 : vert) : PBVH * bool :=
  let n := v_node (vget (bm p) v) in
  if n =? DYNTOPO_NODE_NONE then (p, false)
  else if f_ge (len_squared_v3v3 (co (vget (bm p) v)) center_) rsqr
          || match vert_e (bm p) v with None => true | Some _ => false end
  then (p, false)
  else
    let p1 := BKE_pbvh_bmesh_check_valence (check_vert_fan_are_tris p v) v in
    let val := mv_valence (vget (bm p1) v) in
    if negb (val =? 4) && negb (val =? 3) then (p1, false)
    else
      let p2 := pbvh_check_vert_boundary p1 v in
      if flag_test (mv_flag (vget (bm p2) v)) DYNVERT_ALL_BOUNDARY then (p2, false)
      else
        let m := bm p2 in
        match vert_e m v with
        | None => (p2, false)
        | Some e0 =>
            match edge_l m e0 with
            | None => (p2, false)
            | Some l0 =>
                let l := if Pos.eqb (loop_v m l0) v then l0 else loop_next m l0 in
                let (ls, bad) := fan_walk m v (seq 0 (Z.to_nat val)) l [] false in
                if bad then (p2, false)
                else (cleanup_tessellate p2 n v val ls vs3, true)
            end
        end.

(** [cleanup_valence_3_4] over the watch list.  [vs3] gives, for each
    turn, the value found in the unwritten slot. *)
Definition cleanup_valence_3_4 `{Collaborators} (c : EdgeQueueContext) (p : PBVH)
  (center_ : vec3) (radius : f32) (vs3 : vert -> vert) : PBVH * bool :=
  let radius2 := f32_of_f64 (f64_mul (f64_of_f32 radius) (f64_lit 5 (-2))) in
  let rsqr := f32_mul radius2 radius2 in
  fold_left
    (fun (st : PBVH * bool) v =>
       let (p', b) := cleanup_valence_vert (fst st) center_ rsqr v (vs3 v) in
       (p', snd st || b))
    (val34_verts c) (p, false).

(* ===================================================================== *)
(** ** The bulk subdivide pass (component C5 of the spec) *)
(* ===================================================================== *)

(** The table [splitmap]: a row is [numverts] followed by, for each
    corner, the corner it is connected to or -1.  Entries a row does not
    list are zero, as in C. *)
Definition splitmap : list (list Z) :=
  [ [-1]; [4; 2; -1; -1; -1]; [4; -1; 3; -1; -1]; [-1]; [4; -1; -1; 0; -1];
    [5; 2; -1; 4; -1; -1]; [-1]; [-1]; [4; -1; -1; -1; 1]; [5; 2; -1; -1; 0; -1];
    [5; -1; 3; -1; 0; -1]; [-1]; [-1]; [-1]; [-1]; [-1]; [-1]; [-1];
    [5; -1; 3; -1; -1; 1]; [-1]; [5; -1; -1; 4; -1; 1]; [6; 2; -1; 4; -1; 0; -1];
    [-1]; [-1]; [-1]; [-1]; [-1]; [-1]; [-1]; [-1]; [-1]; [-1]; [-1]; [-1]; [-1];
    [-1]; [-1]; [-1]; [-1]; [-1]; [-1]; [-1]; [6; -1; 3; -1; 5; -1; 1; -1] ].

Definition splitmap_size : Z := 43.

Definition splitmap_at (mask : Z) (k : nat) : Z :=
  nth k (nth (Z.to_nat mask) splitmap []) 0.

(** [mask |= 1 << j] for every [j] whose loop passes the test. *)
Fixpoint tag_mask (j : Z) (tags : list bool) (mask : Z) : Z :=
  match tags with
  | [] => mask
  | t :: tl => tag_mask (j + 1) tl (if t then Z.lor mask (Z.shiftl 1 j) else mask)
  end.

(** The mask of the third loop of [pbvh_split_edges], stored in the
    index of the face: the loops whose edge carries the split tag. *)
Definition split_edge_mask (m : BMesh) (f : face) : Z :=
  tag_mask 0 (map (fun l => flag_test (e_hflag (eget m (loop_e m l))) SPLIT_TAG)
                  (face_loops m f)) 0.

(** The mask of the last loop of [pbvh_split_edges], used to index
    [splitmap]: the loops whose vertex carries the split tag. *)
Definition split_vert_mask (m : BMesh) (f : face) : Z :=
  tag_mask 0 (map (fun l => flag_test (v_hflag (vget m (loop_v m l))) SPLIT_TAG)
                  (face_loops m f)) 0.

(** What the last loop of [pbvh_split_edges] finds for a face. *)
Inductive split_lookup : Type :=
| SplitmapError (mask : Z)
| SplitNoPattern (mask : Z)
| SplitLenMismatch (mask : Z)
| SplitPattern (mask : Z) (n : Z) (cuts : list (nat * Z)).

(** The head of the body of the last loop: the mask, the bound test,
    the row and its length test, and the list of the cuts [(j, pat[j+1])]
    the row asks for.  The cuts themselves are made by [BM_face_split]
    of the mesh library. *)
Definition split_face_lookup (m : BMesh) (f : face) : split_lookup :=
  let mask := split_vert_mask m f in
  if splitmap_size <=? mask then SplitmapError mask
  else
    let n := splitmap_at mask 0 in
    if n <? 0 then SplitNoPattern mask
    else if negb (n =? Z.of_nat (face_len m f)) then SplitLenMismatch mask
    else SplitPattern mask n
           (List.filter (fun jc => negb (snd jc <? 0))
              (map (fun j => (j, splitmap_at mask (S j))) (seq 0 (Z.to_nat n)))).

Definition edge_is_pair (x y a b : vert) : bool :=
  (Pos.eqb x a && Pos.eqb y b) || (Pos.eqb x b && Pos.eqb y a).

Fixpoint split_cycle (a b nv first : vert) (vs : list vert) : list vert :=
  match vs with
  | [] => []
  | x :: tl =>
      let nxt := match tl with y :: _ => y | [] => first end in
      if edge_is_pair x nxt a b then x :: nv :: split_cycle a b nv first tl
      else x :: split_cycle a b nv first tl
  end.

(** Modelled from the spec: [BM_log_edge_split_do] of the log
    collaborator (sections 4.5 and 6): the edge is split at its middle,
    the new vertex takes the place between the two end points in every
    face around the edge, and the edge is replaced by its two halves. *)
Definition BM_log_edge_split_do (m : BMesh) (e : edge) : BMesh * vert :=
  let nv := bm_next m in
  let a := fst e in
  let b := snd e in
  let ra := vget m a in
  let rb := vget m b in
  let r := mkBMVert (mid_v3_v3v3 (co ra) (co rb)) (normalize_v3 (add_v3_v3v3 (no ra) (no rb)))
             (v_hflag ra)
             (f32_add (f32_add f32_zero (f32_mul (v_mask ra) f32_half)) (f32_mul (v_mask rb) f32_half))
             (v_node ra) (mv_flag ra) 0 (mv_stroke_id ra)
             (mid_v3_v3v3 (co ra) (co rb)) (normalize_v3 (add_v3_v3v3 (no ra) (no rb)))
             f32_zero in
  let fl := e_hflag (eget m e) in
  let edges' := flat_map (fun x => if edge_is x a b
                                   then [mkBMEdge nv a fl; mkBMEdge nv b fl] else [x])
                         (bm_edges m) in
  let faces' := map (fun (pf : face * BMFace) =>
                       let g := snd pf in
                       (fst pf, mkBMFace (split_cycle a b nv (hd nv (f_verts g)) (f_verts g))
                                         (f_no g) (f_hflag g) (f_node g) (f_index g)))
                    (bm_faces m) in
  (mkBMesh (<[nv := r]> (bm_verts m)) edges' faces' (Pos.succ nv), nv).

Definition node_updateflag : Z :=
  fold_left Z.lor
    [PBVH_UpdateOriginalBB; PBVH_UpdateNormals; PBVH_UpdateOtherVerts; PBVH_UpdateCurvatureDir;
     PBVH_UpdateTriAreas; PBVH_UpdateDrawBuffers; PBVH_RebuildDrawBuffers; PBVH_UpdateTris;
     PBVH_UpdateNormals] PBVH_UpdateBB.

(** First loop: the split tags of everything around the edges are
    cleared. *)
Definition split_clear_tags `{Collaborators} (p : PBVH) (e : edge) : PBVH :=
  let p1 := check_vert_fan_are_tris (check_vert_fan_are_tris p (fst e)) (snd e) in
  fold_left
    (fun p' l =>
       let f := l_f l in
       let p'' :=
         fold_left
           (fun pa l2 =>
              let m := bm pa in
              let m1 := edge_update m (loop_e m l2)
                          (fun r => set_e_hflag r (flag_disable (e_hflag r) SPLIT_TAG)) in
              let m2 := vert_update m1 (loop_v m l2)
                          (fun r => set_v_hflag r (flag_disable (v_hflag r) SPLIT_TAG)) in
              pbvh_mv_flag_enable (set_bm pa m2) (loop_v m l2) NEED_ALL)
           (face_loops (bm p') f) p' in
       set_bm p'' (face_update (bm p'') f
                     (fun r => set_f_hflag r (flag_disable (f_hflag r) SPLIT_TAG))))
    (edge_loops (bm p1) e) p1.

(** Second loop: the edge is tagged and the faces around it are
    collected once each. *)
Definition split_tag_edge (st : PBVH * list face) (e : edge) : PBVH * list face :=
  let (p, faces) := st in
  let p1 := set_bm p (edge_update (bm p) e
                        (fun r => set_e_hflag r (flag_enable (e_hflag r) SPLIT_TAG))) in
  fold_left
    (fun (s : PBVH * list face) l =>
       let f := l_f l in
       if negb (flag_test (f_hflag (fget (bm (fst s)) f)) SPLIT_TAG) then
         (set_bm (fst s) (face_update (bm (fst s)) f
                            (fun r => set_f_hflag r (flag_enable (f_hflag r) SPLIT_TAG))),
          snd s ++ [f])
       else s)
    (edge_loops (bm p1) e) (p1, faces).

(** Third loop: the mask over the tagged edges goes to the index of
    the face. *)
Definition split_store_edge_mask (p : PBVH) (f : face) : PBVH :=
  let mask := split_edge_mask (bm p) f in
  set_bm p (face_update (bm p) f
              (fun r => mkBMFace (f_verts r) (f_no r) (f_hflag r) (f_node r) mask)).

Definition first_owned_face (p : PBVH) (v : vert) : option Z :=
  option_map (fun f => f_node (fget (bm p) f))
    (find (fun f => negb (f_node (fget (bm p) f) =? DYNTOPO_NODE_NONE))
          (faces_of_vert (bm p) v)).

(** Fourth loop: a tagged edge is split and its midpoint is tagged and
    given an owner. *)
Definition split_do_edge (p : PBVH) (e : edge) : PBVH :=
  if negb (flag_test (e_hflag (eget (bm p) e)) SPLIT_TAG) then p
  else
    let v1 := fst e in
    let v2 := snd e in
    let p0 := set_bm p (edge_update (bm p) e
                          (fun r => set_e_hflag r (flag_disable (e_hflag r) SPLIT_TAG))) in
    let p1 := if negb (mv_stroke_id (vget (bm p0) v1) =? stroke_id p0)
              then BKE_pbvh_bmesh_check_origdata p0 v1 (stroke_id p0) else p0 in
    let p2 := if negb (mv_stroke_id (vget (bm p1) v2) =? stroke_id p1)
              then BKE_pbvh_bmesh_check_origdata p1 v2 (stroke_id p1) else p1 in
    let (m3, newv) := BM_log_edge_split_do (bm p2) e in
    let p3 := pbvh_vert_update (set_bm p2 m3) newv
                (fun r => mkBMVert (co r) (no r) (flag_enable (v_hflag r) SPLIT_TAG) (v_mask r)
                                   DYNTOPO_NODE_NONE (flag_enable (mv_flag r) NEED_ALL)
                                   (mv_valence r) (stroke_id p2) (mv_origco r) (mv_origno r)
                                   (mv_origmask r)) in
    let ni0 := v_node (vget (bm p3) v1) in
    let ni1 := if ni0 =? DYNTOPO_NODE_NONE then v_node (vget (bm p3) v2) else ni0 in
    let ni :=
      match first_owned_face p3 newv with
      | Some x => x
      | None =>
          if negb (ni1 =? DYNTOPO_NODE_NONE) then ni1
          else match first_owned_face p3 v1 with
               | Some x => x
               | None => default DYNTOPO_NODE_NONE (first_owned_face p3 v2)
               end
      end in
    if negb (ni =? DYNTOPO_NODE_NONE) then
      match node_at p3 ni with
      | Some nd =>
          if negb (flag_test (n_flag nd) PBVH_Leaf) then p3
          else
            pbvh_vert_update
              (node_update (node_flag_enable p3 ni node_updateflag) ni
                 (fun n' => set_n_bm_unique_verts n' (tgset_add newv (n_bm_unique_verts n'))))
              newv (fun r => set_v_node r ni)
      | None => p3
      end
    else p3.

(** [pbvh_split_edges] up to the table look-up of its last loop: the
    state reached and, for each collected face, what the look-up
    finds. *)
Definition pbvh_split_edges_lookup `{Collaborators} (p : PBVH) (edges : list edge)
  : PBVH * list (face * split_lookup) :=
  let p1 := fold_left split_clear_tags edges p in
  let (p2, faces) := fold_left split_tag_edge edges (p1, []) in
  let p3 := fold_left split_store_edge_mask faces p2 in
  let p4 := fold_left split_do_edge edges p3 in
  (p4, map (fun f => (f, split_face_lookup (bm p4) f)) faces).

(* ===================================================================== *)
(** ** The driver (component C9 of the spec) *)
(* ===================================================================== *)

Definition EdgeQueue_blank : EdgeQueue :=
  mkEdgeQueue [] [] 0 zero_v3 zero_v3 f32_zero f32_zero f32_zero false zero_v3 false.

(** The context as [BKE_pbvh_bmesh_update_topology] initialises it. *)
Definition eq_ctx_init (cb : option (BMesh -> vert -> f32)) (mask_offset : Z)
  : EdgeQueueContext :=
  mkEdgeQueueContext EdgeQueue_blank cb mask_offset f32_zero
    (f32_neg (f32_lit (10 ^ 17) 0)) (f32_lit (10 ^ 17) 0) f32_zero [].

(** The ratio computed under [SKINNY_EDGE_FIX] after the short-edge
    queue is built.  The divisor is computed in [double]. *)
Definition collapse_ratio (c : EdgeQueueContext) (min_edge_len : f32) : f32 :=
  if f_gt (totedge c) f32_zero then
    let avg := f32_div (avg_elen c) (totedge c) in
    let emax := if f_eq (max_elen c) f32_zero then f32_lit 13743895 (-37) else max_elen c in
    if f_gt min_edge_len f32_zero && f_gt avg f32_zero then
      let ratio :=
        f32_of_f64
          (f64_div (f64_of_f32 avg)
             (f64_add (f64_mul (f64_of_f32 min_edge_len) (f64_lit 1 (-1)))
                      (f64_mul (f64_of_f32 emax) (f64_lit 1 (-1))))) in
      MIN2 (MAX2 ratio (f32_lit 1 (-2))) (f32_lit 5 0)
    else f32_one
  else f32_one.

Definition collapse_max_steps (ratio : f32) : Z :=
  f32_to_int (f32_mul (f32_lit DYNTOPO_MAX_ITER 0) ratio).

(** The collapse phase of the driver. *)
Definition update_topology_collapse `{Collaborators} (c : EdgeQueueContext) (p : PBVH)
  (center_ view_normal_ : vec3) (radius : f32) (use_frontface use_projected_ : bool)
  : option (PBVH * EdgeQueueContext * bool) :=
  match short_edge_queue_create c p center_ view_normal_ radius use_frontface use_projected_ with
  | None => None
  | Some (p1, c1) =>
      let ratio := collapse_ratio c1 (bm_min_edge_len p1) in
      pbvh_bmesh_collapse_short_edges c1 p1 (collapse_max_steps ratio)
  end.







(** The ratio as the specification words it: the average edge length
    over the mean of the minimum target length and the maximum observed
    length, clamped to the interval from 0.25 to 5. *)
Definition spec_ratio (avg min_target max_observed : f32) : f32 :=
  let r := f32_of_f64
             (f64_div (f64_of_f32 avg)
                (f64_add (f64_mul (f64_lit 1 (-1)) (f64_of_f32 min_target))
                         (f64_mul (f64_lit 1 (-1)) (f64_of_f32 max_observed)))) in
  MIN2 (MAX2 r (f32_lit 1 (-2))) (f32_lit 5 0).

(* ===================================================================== *)
(** ** Concrete meshes *)
(* ===================================================================== *)

(** Collaborators that do nothing: enough for meshes of triangles whose
    boundary bits are up to date. *)
Definition plain_collaborators : Collaborators :=
  {| bke_pbvh_update_vert_boundary := fun _ _ => 0;
     project_plane_normalized_v3_v3v3 := fun a _ => a;
     closest_on_tri_to_point_v3 := fun _ a _ _ => a;
     pbvh_triangulate_ngon := fun p _ => p;
     pbvh_bmesh_node_limit_ensure := fun p _ => p;
     BKE_pbvh_bmesh_check_tris := fun p _ => p;
     BLI_rng_get_float := fun _ _ => f32_zero |}.

(** A vertex at [c], unmasked, owned by leaf 0, with its annotation up
    to date. *)
Definition vert_at (c : vec3) (valence : Z) : BMVert :=
  mkBMVert c (v3_of_Z 0 0 1) 0 f32_zero 0 0 valence 0 c (v3_of_Z 0 0 1) f32_zero.

(** Coordinates in quarters. *)
Definition quarters (x y z : Z) : vec3 := V3 (f32_lit x (-2)) (f32_lit y (-2)) (f32_lit z (-2)).

Definition leaf_of (fs : list face) (vs : list vert) : PBVHNode :=
  mkPBVHNode (Z.lor PBVH_Leaf PBVH_UpdateTopology) fs vs.

(** One small triangle: vertices 1, 2, 3 at (0,0,0), (1/4,0,0) and
    (1/4,1/4,0), in one leaf; the minimum edge length is 1. *)
Definition tri_mesh : BMesh :=
  mkBMesh
    (<[1%positive := vert_at (quarters 0 0 0) 2]>
       (<[2%positive := vert_at (quarters 1 0 0) 2]>
          (<[3%positive := vert_at (quarters 1 1 0) 2]> ∅)))
    [mkBMEdge 1%positive 2%positive 0; mkBMEdge 2%positive 3%positive 0;
     mkBMEdge 3%positive 1%positive 0]
    [(1%positive, mkBMFace [1%positive; 2%positive; 3%positive] (v3_of_Z 0 0 1) 0 0 0)]
    4%positive.

Definition tri_pbvh : PBVH :=
  mkPBVH tri_mesh [leaf_of [1%positive] [1%positive; 2%positive; 3%positive]]
         f32_one (f32_lit 2 0) 0.

(** A mask callback that answers 1 at vertex 2 and 0 elsewhere. *)
Definition mask_only_2 : BMesh -> vert -> f32 :=
  fun _ v => if Pos.eqb v 2%positive then f32_one else f32_zero.

Definition tri_ctx : EdgeQueueContext := eq_ctx_init (Some mask_only_2) 0.

(** The same triangle with vertex 2 hidden. *)
Definition tri_mesh_hidden : BMesh :=
  vert_update tri_mesh 2%positive (fun r => set_v_hflag r BM_ELEM_HIDDEN).



(** A triangle shrunk to a point: the three vertices are at the
    origin. *)
Definition point_mesh : BMesh :=
  mkBMesh
    (<[1%positive := vert_at zero_v3 2]>
       (<[2%positive := vert_at zero_v3 2]>
          (<[3%positive := vert_at zero_v3 2]> ∅)))
    [mkBMEdge 1%positive 2%positive 0; mkBMEdge 2%positive 3%positive 0;
     mkBMEdge 3%positive 1%positive 0]
    [(1%positive, mkBMFace [1%positive; 2%positive; 3%positive] (v3_of_Z 0 0 1) 0 0 0)]
    4%positive.

Definition point_pbvh : PBVH :=
  mkPBVH point_mesh [leaf_of [1%positive] [1%positive; 2%positive; 3%positive]]
         f32_one (f32_lit 2 0) 0.

(** The short-edge queue of that mesh, for a brush of radius 10 at the
    origin and no mask callback. *)
Definition point_queue : option merge_state :=
  @short_edge_queue_create plain_collaborators (eq_ctx_init None 0) point_pbvh zero_v3
    (v3_of_Z 0 0 1) (f32_lit 10 0) false false.

(** The short-edge queue of the small triangle, with the callback that
    masks every vertex but vertex 2. *)
Definition tri_queue : option merge_state :=
  @short_edge_queue_create plain_collaborators tri_ctx tri_pbvh zero_v3
    (v3_of_Z 0 0 1) (f32_lit 10 0) false false.

Definition tri_queue_ctx : EdgeQueueContext := snd (default (tri_pbvh, tri_ctx) tri_queue).
Definition point_queue_ctx : EdgeQueueContext :=
  snd (default (point_pbvh, eq_ctx_init None 0) point_queue).

(** A hierarchy of two leaves marked for a topology update, the second
    of them fully hidden. *)
Definition hidden_leaf_pbvh : PBVH :=
  mkPBVH tri_mesh
    [leaf_of [1%positive] [1%positive; 2%positive; 3%positive];
     mkPBVHNode (Z.lor (Z.lor PBVH_Leaf PBVH_UpdateTopology) PBVH_FullyHidden) [] []]
    f32_one (f32_lit 2 0) 0.



(** Two states that differ at most in the original-data snapshots of
    their vertices: same edges, same faces, same leaves, the same
    vertices with the same position, normal, flags, mask, owner and
    annotation flags. *)
Definition same_but_origdata (p p' : PBVH) : Prop :=
  bm_edges (bm p') = bm_edges (bm p)
  /\ bm_faces (bm p') = bm_faces (bm p)
  /\ nodes p' = nodes p
  /\ forall v,
       (bm_verts (bm p') !! v = None <-> bm_verts (bm p) !! v = None)
       /\ co (vget (bm p') v) = co (vget (bm p) v)
       /\ no (vget (bm p') v) = no (vget (bm p) v)
       /\ v_hflag (vget (bm p') v) = v_hflag (vget (bm p) v)
       /\ v_mask (vget (bm p') v) = v_mask (vget (bm p) v)
       /\ v_node (vget (bm p') v) = v_node (vget (bm p) v)
       /\ mv_flag (vget (bm p') v) = mv_flag (vget (bm p) v).

(** A strip of six triangles around the seam 1 - 2 - 3 - 4: vertex 5
    lies on one side of the seam and vertex 6 on the other. *)
Definition seam_mesh : BMesh :=
  mkBMesh
    (<[1%positive := vert_at (quarters 0 0 0) 3]>
       (<[2%positive := vert_at (quarters 1 0 0) 4]>
          (<[3%positive := vert_at (quarters 2 0 0) 4]>
             (<[4%positive := vert_at (quarters 3 0 0) 3]>
                (<[5%positive := vert_at (quarters 1 1 0) 4]>
                   (<[6%positive := vert_at (quarters 2 (-1) 0) 4]> ∅))))))
    [mkBMEdge 1%positive 2%positive BM_ELEM_SEAM; mkBMEdge 2%positive 3%positive BM_ELEM_SEAM;
     mkBMEdge 3%positive 4%positive BM_ELEM_SEAM;
     mkBMEdge 1%positive 5%positive 0; mkBMEdge 2%positive 5%positive 0;
     mkBMEdge 3%positive 5%positive 0; mkBMEdge 4%positive 5%positive 0;
     mkBMEdge 1%positive 6%positive 0; mkBMEdge 2%positive 6%positive 0;
     mkBMEdge 3%positive 6%positive 0; mkBMEdge 4%positive 6%positive 0]
    [(1%positive, mkBMFace [1%positive; 2%positive; 5%positive] (v3_of_Z 0 0 1) 0 0 0);
     (2%positive, mkBMFace [2%positive; 3%positive; 5%positive] (v3_of_Z 0 0 1) 0 0 0);
     (3%positive, mkBMFace [3%positive; 4%positive; 5%positive] (v3_of_Z 0 0 1) 0 0 0);
     (4%positive, mkBMFace [2%positive; 1%positive; 6%positive] (v3_of_Z 0 0 1) 0 0 0);
     (5%positive, mkBMFace [3%positive; 2%positive; 6%positive] (v3_of_Z 0 0 1) 0 0 0);
     (6%positive, mkBMFace [4%positive; 3%positive; 6%positive] (v3_of_Z 0 0 1) 0 0 0)]
    7%positive.

Definition seam_pbvh : PBVH :=
  mkPBVH seam_mesh
    [leaf_of [1%positive; 2%positive; 3%positive; 4%positive; 5%positive; 6%positive]
             [1%positive; 2%positive; 3%positive; 4%positive; 5%positive; 6%positive]]
    f32_one (f32_lit 2 0) 0.









(** A fan of four triangles around vertex 5, at the origin; the ring
    is 1, 2, 3, 4 at (1,0,0), (0,1,1), (-1,0,0) and (0,-1,0): the
    quadrilateral is folded along the diagonal from 1 to 3. *)
Definition fan_mesh : BMesh :=
  mkBMesh
    (<[1%positive := vert_at (v3_of_Z 1 0 0) 3]>
       (<[2%positive := vert_at (v3_of_Z 0 1 1) 3]>
          (<[3%positive := vert_at (v3_of_Z (-1) 0 0) 3]>
             (<[4%positive := vert_at (v3_of_Z 0 (-1) 0) 3]>
                (<[5%positive := vert_at (v3_of_Z 0 0 0) 4]> ∅)))))
    [mkBMEdge 5%positive 1%positive 0; mkBMEdge 5%positive 2%positive 0;
     mkBMEdge 5%positive 3%positive 0; mkBMEdge 5%positive 4%positive 0;
     mkBMEdge 1%positive 2%positive 0; mkBMEdge 2%positive 3%positive 0;
     mkBMEdge 3%positive 4%positive 0; mkBMEdge 4%positive 1%positive 0]
    [(1%positive, mkBMFace [5%positive; 1%positive; 2%positive] (v3_of_Z 0 0 1) 0 0 0);
     (2%positive, mkBMFace [5%positive; 2%positive; 3%positive] (v3_of_Z 0 0 1) 0 0 0);
     (3%positive, mkBMFace [5%positive; 3%positive; 4%positive] (v3_of_Z 0 0 1) 0 0 0);
     (4%positive, mkBMFace [5%positive; 4%positive; 1%positive] (v3_of_Z 0 0 1) 0 0 0)]
    6%positive.

Definition fan_pbvh : PBVH :=
  mkPBVH fan_mesh
    [leaf_of [1%positive; 2%positive; 3%positive; 4%positive]
             [1%positive; 2%positive; 3%positive; 4%positive; 5%positive]]
    f32_one (f32_lit 2 0) 0.


Definition fan_cleaned : PBVH * bool :=
  @cleanup_valence_vert plain_collaborators fan_pbvh zero_v3 (f32_lit 100 0) 5%positive
    5%positive.

(** The three edges of the small triangle, and what the subdivide pass
    finds when all three are split, when only the first is, and when only
    the last is. *)
Definition tri_split_all : PBVH * list (face * split_lookup) :=
  @pbvh_split_edges_lookup plain_collaborators tri_pbvh
    [(1%positive, 2%positive); (2%positive, 3%positive); (3%positive, 1%positive)].

Definition tri_split_first : PBVH * list (face * split_lookup) :=
  @pbvh_split_edges_lookup plain_collaborators tri_pbvh [(1%positive, 2%positive)].

Definition tri_split_last : PBVH * list (face * split_lookup) :=
  @pbvh_split_edges_lookup plain_collaborators tri_pbvh [(3%positive, 1%positive)].

(* ===================================================================== *)
(** ** Invariants of the bookkeeping *)
(* ===================================================================== *)

(** The deleted-vertex map has no cycle: some rank goes down along
    every link from a merged vertex to the vertex it was merged into. *)
Definition chain_ranked_by (rk : vert -> nat) (d : deleted_map) : Prop :=
  forall v w, d !! v = Some (Some w) -> (rk w < rk v)%nat.

Definition chain_ranked (d : deleted_map) : Prop := exists rk, chain_ranked_by rk d.

(** What the deletion loops of one collapse keep true of the map and of
    the vertex carried as [v_conn]: the map has no cycle, [v_del] is not
    a key, and [v_conn] is the null pointer or is not a key. *)
Definition collapse_chain_inv (v_del v_conn : vert) (s : PBVH * deleted_map * option vert) : Prop :=
  chain_ranked (snd (fst s))
  /\ snd (fst s) !! v_del = None
  /\ (snd s = None \/ (snd s = Some v_conn /\ snd (fst s) !! v_conn = None)).


(** The temporary mark of the watch list of low-valence vertices. *)
Definition val34_marked (p : PBVH) (v : vert) : bool :=
  flag_test (mv_flag (vget (bm p) v)) DYNVERT_VALENCE_TEMP.

(** The watch list lists no vertex twice and lists exactly the vertices
    that carry the temporary mark. *)
Definition val34_inv (st : merge_state) : Prop :=
  NoDup (val34_verts (snd st))
  /\ forall v, val34_marked (fst st) v = true <-> In v (val34_verts (snd st)).

(** The loop of [BKE_pbvh_bmesh_update_topology] that takes the
    temporary mark off every vertex of the watch list. *)
Definition untag_val34_verts (c : EdgeQueueContext) (p : PBVH) : PBVH :=
  fold_left
    (fun p' v => pbvh_vert_update p' v
                   (fun r => set_mv_flag r (flag_disable (mv_flag r) DYNVERT_VALENCE_TEMP)))
    (val34_verts c) p.

(** The corners of a face of [n] corners that a mask marks, and the
    test that no two neighbouring corners (around the face) are both
    marked. *)
Definition mask_bits (mask : Z) (n : nat) : list nat :=
  List.filter (fun j => Z.testbit mask (Z.of_nat j)) (seq 0 n).

Definition no_adjacent_bits (mask : Z) (n : nat) : bool :=
  forallb (fun j => negb (Z.testbit mask (Z.of_nat j)
                          && Z.testbit mask (Z.of_nat (Nat.modulo (j + 1) n))))
          (seq 0 n).

(** The row of [splitmap] that cuts off, at every marked corner [j],
    the triangle of the corners [j], [j+1] and [j+2]. *)
Definition clip_row (mask : Z) (n : nat) : list Z :=
  map (fun j => if Z.testbit mask (Z.of_nat j) then Z.of_nat (Nat.modulo (j + 2) n) else -1)
      (seq 0 n).

(* ===================================================================== *)
(** ** The loop of the subdivide pass *)
(* ===================================================================== *)

(** The tests of [pbvh_bmesh_subdivide_long_edges] on an entry popped
    from the heap: the edge between the two vertices, when it still
    exists and both its end points have an owner. *)
Definition subdivide_pop_decide (p : PBVH) (pr : edge) : option edge :=
  match BM_edge_exists (bm p) (fst pr) (snd pr) with
  | None => None
  | Some e =>
      if (v_node (vget (bm p) (fst e)) =? DYNTOPO_NODE_NONE)
         || (v_node (vget (bm p) (snd e)) =? DYNTOPO_NODE_NONE)
      then None
      else Some e
  end.

Record subdivide_state : Type := mkSubdivideState {
  ss_heap : HeapSimple;
  ss_edges : list edge;
  ss_any_subdivided : bool;
  ss_step : Z
}.

(** The while loop of [pbvh_bmesh_subdivide_long_edges]: it only
    collects the edges to split; the mesh is not touched before the call
    of [pbvh_split_edges] that follows the loop. *)
Fixpoint subdivide_collect_loop (fuel : nat) (p : PBVH) (max_steps : Z) (s : subdivide_state)
  : option subdivide_state :=
  match BLI_heapsimple_pop_min (ss_heap s) with
  | None => Some s
  | Some (pr, rest) =>
      if max_steps <? ss_step s then
        Some (mkSubdivideState (ss_heap s) (ss_edges s) (ss_any_subdivided s) (ss_step s + 1))
      else
        match fuel with
        | O => None
        | S fuel' =>
            match subdivide_pop_decide p pr with
            | None =>
                subdivide_collect_loop fuel' p max_steps
                  (mkSubdivideState rest (ss_edges s) (ss_any_subdivided s) (ss_step s + 1))
            | Some e =>
                subdivide_collect_loop fuel' p max_steps
                  (mkSubdivideState rest (ss_edges s ++ [e]) true (ss_step s + 1))
            end
        end
  end.

(** The edges handed to [pbvh_split_edges], the heap left behind and
    the value returned. *)
Definition pbvh_bmesh_subdivide_collect (c : EdgeQueueContext) (p : PBVH) (max_steps : Z)
  : option subdivide_state :=
  subdivide_collect_loop (length (heap (q c))) p max_steps
    (mkSubdivideState (heap (q c)) [] false 0).

(* ===================================================================== *)
(** ** Well-formed meshes and the measure of the scans *)
(* ===================================================================== *)

(** The side of a face that starts at the corner [l] has its edge. *)
Definition loop_has_edge (m : BMesh) (l : BMLoop) : bool :=
  match BM_edge_exists m (loop_v m l) (loop_v m (loop_next m l)) with
  | Some _ => true
  | None => false
  end.

(** Every side of every face of the mesh has its edge, as in a mesh the
    library built. *)
Definition sides_have_edges (m : BMesh) : bool :=
  forallb (fun fr => forallb (loop_has_edge m) (face_loops m (fst fr))) (bm_faces m).

(** A loop of a face of the mesh. *)
Definition loop_valid (m : BMesh) (l : BMLoop) : Prop := (l_i l < face_len m (l_f l))%nat.

Definition edge_tagged (m : BMesh) (e : edge) : bool :=
  flag_test (e_hflag (eget m e)) BM_ELEM_TAG.

(** The number of edges that do not carry [BM_ELEM_TAG]. *)
Definition untagged_edges (m : BMesh) : nat :=
  length (List.filter (fun r => negb (flag_test (e_hflag r) BM_ELEM_TAG)) (bm_edges m)).

(** The same faces, the same edges, whatever their flags, and the same
    next name. *)
Definition same_topology (m m' : BMesh) : Prop :=
  bm_faces m' = bm_faces m /\ map edge_key (bm_edges m') = map edge_key (bm_edges m)
  /\ bm_next m' = bm_next m.

(** What a scan keeps while it runs, against the mesh [p0] it started
    from: faces, edges and leaves stay, at most [k] edges are untagged,
    and the edges collected so far are distinct, tagged edges of the
    mesh. *)
Definition scan_inv (p0 : PBVH) (k : nat) (st : scan_state) : Prop :=
  same_topology (bm p0) (bm (fst st))
  /\ nodes (fst st) = nodes p0
  /\ (untagged_edges (bm (fst st)) <= k)%nat
  /\ NoDup (td_edges (snd st))
  /\ (forall e, In e (td_edges (snd st)) ->
        edge_tagged (bm (fst st)) e = true /\ In e (map edge_key (bm_edges (bm p0)))).

(** What a step of a scan does to the state [st]: it keeps the
    invariant, the vertices, the leaf of the task and its list of
    low-valence vertices. *)
Definition scan_post (p0 : PBVH) (k : nat) (st st' : scan_state) : Prop :=
  scan_inv p0 k st'
  /\ bm_verts (bm (fst st')) = bm_verts (bm (fst st))
  /\ td_node (snd st') = td_node (snd st)
  /\ td_val34_verts (snd st') = td_val34_verts (snd st).

(** The flag update of [edge_thread_data_insert]. *)
Definition tag_edge_record (r : BMEdge) : BMEdge :=
  set_e_hflag r (flag_enable (e_hflag r) BM_ELEM_TAG).

(** The vertices of the mesh, as a set. *)
Definition vdom (p : PBVH) : gset vert := dom (bm_verts (bm p)).

(** The book-keeping of the deleted-vertex map against the vertices
    [V0] and the keys [D0] at the start: no vertex is created, every
    vertex that vanished is a key, no key is lost and every new key is
    the key of a vertex that is gone. *)
Definition kills_recorded (V0 D0 : gset vert) (p : PBVH) (d : deleted_map) : Prop :=
  vdom p ⊆ V0
  /\ V0 ∖ vdom p ⊆ dom d
  /\ D0 ⊆ dom d
  /\ forall v, v ∈ dom d -> v ∉ D0 -> v ∉ vdom p.

(* ===================================================================== *)
(** ** Triangle meshes *)
(* ===================================================================== *)

Definition has_edge (m : BMesh) (a b : vert) : bool :=
  match BM_edge_exists m a b with
  | Some _ => true
  | None => false
  end.

(** The face [g] is a triangle with three distinct corners, each of its
    sides has its edge, and its name is below the next name the mesh
    gives out. *)
Definition tri_ok (m : BMesh) (g : face) : bool :=
  match f_verts (fget m g) with
  | [a; b; c] =>
      negb (Pos.eqb a b) && negb (Pos.eqb b c) && negb (Pos.eqb c a)
      && has_edge m a b && has_edge m b c && has_edge m c a
  | _ => false
  end
  && Pos.ltb g (bm_next m).

(** A mesh of such triangles: what the remesher keeps between its
    passes. *)
Definition tri_mesh_ok (m : BMesh) : bool :=
  forallb (fun pf => tri_ok m (fst pf)) (bm_faces m).

(** The corners of the faces, the end points of the edges and the next
    name: the part of a mesh that flags, vertex data and leaves do not
    touch. *)
Definition fshape (m : BMesh) : list (face * list vert) :=
  map (fun pf => (fst pf, f_verts (snd pf))) (bm_faces m).

Definition ekeys (m : BMesh) : list edge := map edge_key (bm_edges m).

Definition skel (m : BMesh) : list (face * list vert) * list edge * positive :=
  (fshape m, ekeys m, bm_next m).

(** What the loop that rebuilds the faces of [v_del] on [v_conn] keeps,
    against the mesh [m7] it started from: a triangle mesh, no edge
    between the two vertices, and the faces of [m7] with their
    corners. *)
Definition collapse_rewrite_inv (m7 : BMesh) (v_del v_conn : vert) (p : PBVH) : Prop :=
  tri_mesh_ok (bm p) = true
  /\ has_edge (bm p) v_del v_conn = false
  /\ forall g, face_find (bm_faces m7) g <> None ->
               face_find (bm_faces (bm p)) g <> None
               /\ f_verts (fget (bm p) g) = f_verts (fget m7 g).

(* ===================================================================== *)
(** * Properties *)
(* ===================================================================== *)

(** ** Comparisons of floats *)

Lemma f_lt_le (a b : spec_float) : f_lt a b = true -> f_le a b = true.
Proof.
  unfold f_lt, f_le, SFltb, SFleb.
  destruct (SFcompare a b) as [[ | | ] | ]; intros H; congruence.
Qed.




(** ** Flag words *)

Lemma flag_test_lor_l (a b flag : Z) :
  flag_test a flag = true -> flag_test (Z.lor a b) flag = true.
Proof.
  unfold flag_test. rewrite !negb_true_iff, !Z.eqb_neq.
  intros Ha Hab. apply Ha.
  rewrite Z.land_lor_distr_l in Hab.
  apply Z.lor_eq_0_iff in Hab. tauto.
Qed.

Lemma flag_test_lor_r (a b flag : Z) :
  flag_test b flag = true -> flag_test (Z.lor a b) flag = true.
Proof. rewrite Z.lor_comm. apply flag_test_lor_l. Qed.

Lemma flag_test_disable (x flag : Z) : flag_test (flag_disable x flag) flag = false.
Proof.
  unfold flag_test, flag_disable. rewrite negb_false_iff, Z.eqb_eq.
  rewrite <- Z.land_assoc, (Z.land_comm (Z.lnot flag) flag), Z.land_lnot_diag.
  apply Z.land_0_r.
Qed.

(** ** The edge queue *)

(** C9.  When the paint-mask layer exists and an end point of the edge
    is hidden, [edge_queue_insert] changes nothing: the heap, the element
    array, the sum of the lengths, the minimum, the maximum and the count
    are those of before. *)
Theorem edge_queue_insert_hidden (m : BMesh) (c : EdgeQueueContext) (e : edge)
  (priority : f32) :
  cd_vert_mask_offset c <> -1 ->
  flag_test (v_hflag (vget m (fst e))) BM_ELEM_HIDDEN = true
  \/ flag_test (v_hflag (vget m (snd e))) BM_ELEM_HIDDEN = true ->
  edge_queue_insert m c e priority = c.
Proof.
  intros Hoff Hhid. unfold edge_queue_insert.
  apply Z.eqb_neq in Hoff. rewrite Hoff. simpl.
  destruct Hhid as [H1 | H2].
  - rewrite (flag_test_lor_l _ (v_hflag (vget m (snd e))) _ H1). reflexivity.
  - rewrite (flag_test_lor_r (v_hflag (vget m (fst e))) _ _ H2). reflexivity.
Qed.

Lemma edge_queue_insert_hidden_witness :
  edge_queue_insert tri_mesh_hidden tri_ctx (1%positive, 2%positive) f32_one = tri_ctx.
Proof.
  apply (edge_queue_insert_hidden tri_mesh_hidden tri_ctx (1%positive, 2%positive) f32_one).
  - vm_compute. discriminate.
  - right. vm_compute. reflexivity.
Defined.



(** ** The driver: the step budget of the collapse phase *)

Lemma SFmul_comm (prec emax : Z) (x y : spec_float) :
  SFmul prec emax x y = SFmul prec emax y x.
Proof.
  destruct x as [sx | sx | | sx mx ex], y as [sy | sy | | sy my ey]; simpl;
    rewrite ?(xorb_comm sx sy); try reflexivity.
  rewrite (Pos.mul_comm mx my), (Z.add_comm ex ey). reflexivity.
Qed.

Lemma clamp_bounds (r lo hi : f32) :
  f_lt lo hi = true -> f_le lo lo = true -> f_le hi hi = true ->
  f_le lo (MIN2 (MAX2 r lo) hi) = true /\ f_le (MIN2 (MAX2 r lo) hi) hi = true.
Proof.
  intros Hlh Hlo Hhi. unfold MIN2, MAX2, f_gt. fold (f_lt lo r).
  destruct (f_lt lo r) eqn:Hr.
  - destruct (f_lt r hi) eqn:Hrh.
    + split; apply f_lt_le; assumption.
    + split; [apply f_lt_le; assumption | assumption].
  - rewrite Hlh. split; [assumption | apply f_lt_le; assumption].
Qed.

(** C7, as the code has it.  With a non-empty queue, a positive minimum
    target length and a positive average edge length, the scale factor
    is the average edge length over the mean of the minimum target
    length and the maximum observed length (0.0001 standing in for a
    maximum of 0), clamped between 0.25 and 5; in every other case the
    factor is 1; the step budget is 4096 times the factor, truncated to
    an integer. *)
Theorem collapse_budget (c : EdgeQueueContext) (min_edge_len : f32) :
  let avg := f32_div (avg_elen c) (totedge c) in
  let emax := if f_eq (max_elen c) f32_zero then f32_lit 13743895 (-37) else max_elen c in
  let ratio := collapse_ratio c min_edge_len in
  (f_gt (totedge c) f32_zero && f_gt min_edge_len f32_zero && f_gt avg f32_zero = true ->
   ratio = spec_ratio avg min_edge_len emax
   /\ f_le (f32_lit 1 (-2)) ratio = true /\ f_le ratio (f32_lit 5 0) = true)
  /\ (f_gt (totedge c) f32_zero && f_gt min_edge_len f32_zero && f_gt avg f32_zero = false ->
      ratio = f32_one)
  /\ collapse_max_steps ratio = f32_to_int (f32_mul (f32_lit 4096 0) ratio).
Proof.
  intros avg emax ratio. subst ratio. unfold collapse_ratio. fold avg. fold emax.
  repeat split.
  - rewrite !andb_true_iff in H. destruct H as [[Ht Hm] Ha].
    rewrite Ht, Hm, Ha. simpl. unfold spec_ratio, f64_mul.
    rewrite (SFmul_comm 53 1024 (f64_lit 1 (-1)) (f64_of_f32 min_edge_len)).
    rewrite (SFmul_comm 53 1024 (f64_lit 1 (-1)) (f64_of_f32 emax)). reflexivity.
  - rewrite !andb_true_iff in H. destruct H as [[Ht Hm] Ha].
    rewrite Ht, Hm, Ha. simpl.
    apply clamp_bounds; vm_compute; reflexivity.
  - rewrite !andb_true_iff in H. destruct H as [[Ht Hm] Ha].
    rewrite Ht, Hm, Ha. simpl.
    apply clamp_bounds; vm_compute; reflexivity.
  - intros H. destruct (f_gt (totedge c) f32_zero); [| reflexivity].
    simpl in H. rewrite H. reflexivity.
Qed.

Lemma collapse_budget_witness :
  collapse_ratio tri_queue_ctx f32_one = f32_lit 13421773 (-25)
  /\ collapse_ratio tri_queue_ctx f32_one
     = spec_ratio (f32_div (avg_elen tri_queue_ctx) (totedge tri_queue_ctx)) f32_one
                  (max_elen tri_queue_ctx)
  /\ collapse_max_steps (collapse_ratio tri_queue_ctx f32_one) = 1638.
Proof.
  destruct (collapse_budget tri_queue_ctx f32_one) as [Hin [_ Hsteps]].
  split; [vm_compute; reflexivity |].
  split.
  - destruct Hin as [Heq _]; [vm_compute; reflexivity |].
    rewrite Heq. vm_compute. reflexivity.
  - rewrite Hsteps. vm_compute. reflexivity.
Defined.

(** C7 as stated fails: the queue of the triangle shrunk to a point is
    not empty, the ratio of the formula is 0.25 and its budget 1024, and
    the code takes the factor 1 and the budget 4096. *)
Lemma collapse_budget_counterexample :
  is_Some point_queue
  /\ heap (q point_queue_ctx) <> []
  /\ spec_ratio (f32_div (avg_elen point_queue_ctx) (totedge point_queue_ctx)) f32_one
                (max_elen point_queue_ctx) = f32_lit 1 (-2)
  /\ collapse_ratio point_queue_ctx f32_one = f32_one
  /\ collapse_ratio point_queue_ctx f32_one
     <> spec_ratio (f32_div (avg_elen point_queue_ctx) (totedge point_queue_ctx)) f32_one
                   (max_elen point_queue_ctx)
  /\ collapse_max_steps (collapse_ratio point_queue_ctx f32_one) = 4096.
Proof.
  split; [vm_compute; eexists; reflexivity |].
  split; [vm_compute; discriminate |].
  split; [vm_compute; reflexivity |].
  split; [vm_compute; reflexivity |].
  split; [vm_compute; discriminate | vm_compute; reflexivity].
Qed.

(** ** The driver: the dirty flag at the end of a call *)













(** ** The collapse of one edge *)

Lemma vget_vert_update (m : BMesh) (v w : vert) (g : BMVert -> BMVert) :
  vget (vert_update m v g) w
  = if decide (v = w)
    then match bm_verts m !! v with Some r => g r | None => BMVert_blank end
    else vget m w.
Proof.
  unfold vget, vert_update. simpl. rewrite lookup_alter.
  destruct (decide (v = w)) as [-> | Hne]; [| reflexivity].
  destruct (bm_verts m !! w); reflexivity.
Qed.

Lemma same_but_origdata_refl (p : PBVH) : same_but_origdata p p.
Proof. repeat split; intros; assumption. Qed.


Lemma check_origdata_same (p : PBVH) (v : vert) (sid : Z) :
  same_but_origdata p (BKE_pbvh_bmesh_check_origdata p v sid).
Proof.
  unfold BKE_pbvh_bmesh_check_origdata.
  destruct (mv_stroke_id (vget (bm p) v) =? sid); [apply same_but_origdata_refl |].
  split; [reflexivity |]. split; [reflexivity |]. split; [reflexivity |].
  intros w. simpl. split.
  - rewrite lookup_alter. destruct (decide (v = w)) as [-> | Hne]; [| tauto].
    destruct (bm_verts (bm p) !! w); simpl; split; intros; congruence.
  - rewrite vget_vert_update.
    destruct (decide (v = w)) as [-> | Hne]; [| tauto].
    unfold vget. destruct (bm_verts (bm p) !! w); simpl; tauto.
Qed.









Lemma pbvh_kill_vert_gone (p : PBVH) (v : vert) :
  bm_verts (bm (pbvh_kill_vert p v)) !! v = None.
Proof.
  unfold pbvh_kill_vert, BM_vert_kill. cbn [bm set_bm bm_verts set_bm_verts].
  apply lookup_delete_eq.
Qed.





(** ** The collapse pass: what is skipped *)




(** ** The collapse pass: edges of mask weight zero *)




(** ** The subdivide pass: the index into the pattern table *)

Lemma tag_mask_testbit (tags : list bool) :
  forall (j0 mask i : Z), 0 <= j0 -> 0 <= i ->
    Z.testbit (tag_mask j0 tags mask) i
    = Z.testbit mask i
      || ((j0 <=? i) && (i <? j0 + Z.of_nat (length tags))
          && nth (Z.to_nat (i - j0)) tags false).
Proof.
  induction tags as [| t tl IH]; intros j0 mask i Hj Hi; cbn [tag_mask length].
  - destruct (Z.to_nat (i - j0)); cbn [nth];
      rewrite andb_false_r, orb_false_r; reflexivity.
  - rewrite IH by lia.
    assert (Hbit : Z.testbit (if t then Z.lor mask (Z.shiftl 1 j0) else mask) i
                   = Z.testbit mask i || (t && (j0 =? i))).
    { destruct t.
      - rewrite Z.lor_spec, Z.shiftl_1_l, Z.pow2_bits_eqb by lia. reflexivity.
      - rewrite orb_false_r. reflexivity. }
    rewrite Hbit. destruct (Z.eq_dec j0 i) as [-> | Hne].
    + rewrite Z.eqb_refl, Z.sub_diag. cbn [Z.to_nat nth].
      replace (i + 1 <=? i) with false by (symmetry; apply Z.leb_gt; lia).
      replace (i <=? i) with true by (symmetry; apply Z.leb_le; lia).
      replace (i <? i + Z.of_nat (S (length tl))) with true
        by (symmetry; apply Z.ltb_lt; lia).
      destruct t; cbn [andb orb]; rewrite ?orb_false_r, ?orb_true_r; reflexivity.
    + replace (j0 =? i) with false by (symmetry; apply Z.eqb_neq; lia).
      rewrite andb_false_r, orb_false_r.
      destruct (Z.le_gt_cases j0 i) as [Hle | Hgt].
      * replace (Z.to_nat (i - j0)) with (S (Z.to_nat (i - (j0 + 1)))) by lia.
        cbn [nth].
        replace (j0 + 1 <=? i) with true by (symmetry; apply Z.leb_le; lia).
        replace (j0 <=? i) with true by (symmetry; apply Z.leb_le; lia).
        replace (j0 + 1 + Z.of_nat (length tl)) with (j0 + Z.of_nat (S (length tl))) by lia.
        reflexivity.
      * replace (j0 + 1 <=? i) with false by (symmetry; apply Z.leb_gt; lia).
        replace (j0 <=? i) with false by (symmetry; apply Z.leb_gt; lia).
        reflexivity.
Qed.

(** C3, as the code has it.  The index into the pattern table is a mask
    over the corners of the face as the edge splits left it: bit [j] is
    set exactly when the [j]-th corner vertex carries the split tag,
    which the midpoints created by the splits carry, and no higher bit
    is set.  The table is consulted for the masks below 43 and with that
    mask as the index; a mask of 43 or more is reported and the face is
    skipped. *)
Theorem split_index_is_corner_mask (m : BMesh) (f : face) :
  (forall j : nat,
      Z.testbit (split_vert_mask m f) (Z.of_nat j)
      = if (j <? face_len m f)%nat
        then flag_test (v_hflag (vget m (loop_v m (mkBMLoop f j)))) SPLIT_TAG
        else false)
  /\ (splitmap_size <= split_vert_mask m f ->
      split_face_lookup m f = SplitmapError (split_vert_mask m f))
  /\ (split_vert_mask m f < splitmap_size ->
      forall mask n cuts,
        split_face_lookup m f = SplitPattern mask n cuts ->
        mask = split_vert_mask m f
        /\ n = splitmap_at (split_vert_mask m f) 0
        /\ n = Z.of_nat (face_len m f)).
Proof.
  split; [| split].
  - intros j. unfold split_vert_mask.
    rewrite tag_mask_testbit by lia. rewrite Z.testbit_0_l. cbn [orb].
    rewrite length_map. unfold face_loops at 1. rewrite length_map, length_seq.
    rewrite Z.sub_0_r, Nat2Z.id, Z.add_0_l.
    replace (0 <=? Z.of_nat j) with true by (symmetry; apply Z.leb_le; lia).
    cbn [andb].
    destruct (j <? face_len m f)%nat eqn:Hj.
    + apply Nat.ltb_lt in Hj.
      replace (Z.of_nat j <? Z.of_nat (face_len m f)) with true
        by (symmetry; apply Z.ltb_lt; lia).
      cbn [andb].
      rewrite (nth_indep _ false
                 (flag_test (v_hflag (vget m (loop_v m (mkBMLoop f 0)))) SPLIT_TAG))
        by (rewrite length_map; unfold face_loops; rewrite length_map, length_seq; exact Hj).
      rewrite (map_nth (fun l => flag_test (v_hflag (vget m (loop_v m l))) SPLIT_TAG)
                 (face_loops m f) (mkBMLoop f 0) j).
      unfold face_loops.
      rewrite (map_nth (mkBMLoop f) (seq 0 (face_len m f)) 0%nat j).
      rewrite seq_nth by exact Hj. reflexivity.
    + apply Nat.ltb_ge in Hj.
      replace (Z.of_nat j <? Z.of_nat (face_len m f)) with false
        by (symmetry; apply Z.ltb_ge; lia).
      reflexivity.
  - intros Hbig. unfold split_face_lookup.
    replace (splitmap_size <=? split_vert_mask m f) with true
      by (symmetry; apply Z.leb_le; exact Hbig).
    reflexivity.
  - intros Hsmall mask n cuts Hlook. unfold split_face_lookup in Hlook.
    replace (splitmap_size <=? split_vert_mask m f) with false in Hlook
      by (symmetry; apply Z.leb_gt; exact Hsmall).
    destruct (splitmap_at (split_vert_mask m f) 0 <? 0); [discriminate |].
    destruct (splitmap_at (split_vert_mask m f) 0 =? Z.of_nat (face_len m f)) eqn:Hn;
      cbn [negb] in Hlook; [| discriminate].
    injection Hlook as <- <- _. apply Z.eqb_eq in Hn. repeat split; [exact Hn].
Qed.

Lemma split_index_is_corner_mask_witness :
  Z.testbit (split_vert_mask (bm (fst tri_split_last)) 1%positive) 3 = true
  /\ split_vert_mask (bm (fst tri_split_last)) 1%positive = 8
  /\ split_face_lookup (bm (fst tri_split_last)) 1%positive = SplitPattern 8 4 [(3%nat, 1)].
Proof.
  destruct (split_index_is_corner_mask (bm (fst tri_split_last)) 1%positive)
    as [Hbits [_ Hsmall]].
  split.
  - pose proof (Hbits 3%nat) as H3. change (Z.of_nat 3) with 3 in H3.
    rewrite H3. vm_compute. reflexivity.
  - assert (Hlook : split_face_lookup (bm (fst tri_split_last)) 1%positive
                    = SplitPattern 8 4 [(3%nat, 1)]) by (vm_compute; reflexivity).
    destruct (Hsmall ltac:(vm_compute; reflexivity) 8 4 [(3%nat, 1)] Hlook) as [Hmask _].
    split; [symmetry; exact Hmask | exact Hlook].
Defined.

(** C3 as stated fails: when the three edges of a triangle are tagged,
    the mask over the tagged edges is 7 and is stored in the index of
    the face, but the table is consulted at 42, outside the range from 0
    to 7; entry 7 of the table holds no pattern.  When only the first
    edge is tagged the table is consulted at 2, where bit 0 is clear and
    bit 1 is set. *)
Lemma split_index_counterexample :
  snd tri_split_all
  = [(1%positive, SplitPattern 42 6 [(1%nat, 3); (3%nat, 5); (5%nat, 1)])]
  /\ f_index (fget (bm (fst tri_split_all)) 1%positive) = 7
  /\ splitmap_at 7 0 = -1
  /\ snd tri_split_first = [(1%positive, SplitPattern 2 4 [(1%nat, 3)])]
  /\ f_index (fget (bm (fst tri_split_first)) 1%positive) = 1
  /\ Z.testbit 2 0 = false.
Proof.
  repeat (split; [vm_compute; reflexivity |]). vm_compute. reflexivity.
Qed.

(** ** Valence cleanup: the diagonal of a valence-4 fan *)









Lemma lookup_chain_nonkey (fuel : nat) (d : deleted_map) :
  forall v w, lookup_chain_loop fuel d v = Some (Some w) -> d !! w = None.
Proof.
  induction fuel as [| n IH]; intros v w H; cbn [lookup_chain_loop] in H; [discriminate |].
  destruct (d !! v) as [[v' | ] | ] eqn:Hv.
  - apply (IH v' w H).
  - discriminate.
  - injection H as <-. exact Hv.
Qed.

Lemma lookup_chain_skip (rk : vert -> nat) (d : deleted_map) (v : vert) :
  chain_ranked_by rk d ->
  forall (n : nat) (u : vert), (rk u < rk v)%nat ->
    lookup_chain_loop n (delete v d) u = lookup_chain_loop n d u.
Proof.
  intros Hrk n. induction n as [| n IH]; intros u Hu; cbn [lookup_chain_loop]; [reflexivity |].
  assert (Hne : v <> u) by (intros ->; lia).
  unfold deleted_map in *. rewrite (lookup_delete_ne d v u Hne).
  destruct (d !! u) as [[w | ] | ] eqn:Hd; try reflexivity.
  apply IH. pose proof (Hrk u w Hd). lia.
Qed.

Lemma chain_ranked_by_delete (rk : vert -> nat) (d : deleted_map) (v : vert) :
  chain_ranked_by rk d -> chain_ranked_by rk (delete v d).
Proof.
  intros Hrk a b Hab. unfold deleted_map in *.
  apply lookup_delete_Some in Hab. apply (Hrk a b). tauto.
Qed.

Lemma lookup_chain_ends (rk : vert -> nat) (n : nat) :
  forall (d : deleted_map) (v : vert),
    chain_ranked_by rk d -> (size d < n)%nat -> is_Some (lookup_chain_loop n d v).
Proof.
  induction n as [| n IH]; intros d v Hrk Hsz; [lia |].
  cbn [lookup_chain_loop].
  destruct (d !! v) as [[w | ] | ] eqn:Hd; try (eexists; reflexivity).
  rewrite <- (lookup_chain_skip rk d v Hrk n w (Hrk v w Hd)).
  apply IH.
  - apply chain_ranked_by_delete. exact Hrk.
  - unfold deleted_map in *.
    rewrite (map_size_delete_Some v d) by (eexists; exact Hd).
    assert (size d <> 0%nat).
    { intros H0. apply map_size_empty_inv in H0. subst d. rewrite lookup_empty in Hd. discriminate. }
    lia.
Qed.

Lemma chain_ranked_total (d : deleted_map) (v : vert) :
  chain_ranked d -> is_Some (bm_vert_hash_lookup_chain d v).
Proof.
  intros [rk Hrk]. unfold bm_vert_hash_lookup_chain.
  apply (lookup_chain_ends rk); [exact Hrk | lia].
Qed.

Lemma chain_ranked_empty : chain_ranked (∅ : deleted_map).
Proof.
  exists (fun _ => O). intros v w H. unfold deleted_map in *. rewrite lookup_empty in H. discriminate.
Qed.

Lemma chain_ranked_insert_none (d : deleted_map) (v : vert) :
  chain_ranked d -> chain_ranked (<[v := None]> d).
Proof.
  intros [rk Hrk]. exists rk. intros a b Hab. unfold deleted_map in *.
  apply lookup_insert_Some in Hab. destruct Hab as [[_ Hab] | [_ Hab]]; [discriminate |].
  apply (Hrk a b Hab).
Qed.

Lemma chain_ranked_insert_some (d : deleted_map) (a b : vert) :
  chain_ranked d -> d !! a = None -> d !! b = None -> a <> b ->
  chain_ranked (<[a := Some b]> d).
Proof.
  intros [rk Hrk] Ha Hb Hab.
  exists (fun x => if Pos.eqb x b then 0 else if Pos.eqb x a then 1 else S (S (rk x)))%nat.
  intros v w Hvw. unfold deleted_map in *.
  apply lookup_insert_Some in Hvw. destruct Hvw as [[<- Hvw] | [Hne Hvw]].
  - injection Hvw as <-. rewrite Pos.eqb_refl.
    replace (Pos.eqb a b) with false by (symmetry; apply Pos.eqb_neq; exact Hab).
    rewrite Pos.eqb_refl. lia.
  - assert (Hvb : v <> b) by (intros ->; congruence).
    replace (Pos.eqb v b) with false by (symmetry; apply Pos.eqb_neq; exact Hvb).
    replace (Pos.eqb v a) with false by (symmetry; apply Pos.eqb_neq; congruence).
    pose proof (Hrk v w Hvw).
    destruct (Pos.eqb w b); [lia |]. destruct (Pos.eqb w a); lia.
Qed.

Lemma collapse_delete_orphan_inv (v_del v_conn : vert) (s : PBVH * deleted_map * option vert)
  (v : vert) :
  collapse_chain_inv v_del v_conn s ->
  collapse_chain_inv v_del v_conn (collapse_delete_orphan v_del s v).
Proof.
  destruct s as [[p d] vc]. unfold collapse_chain_inv, collapse_delete_orphan.
  cbn [fst snd]. intros (Hrk & Hdel & Hvc).
  destruct (negb (Pos.eqb v v_del)) eqn:Hne; cbn [andb]; [| repeat split; assumption].
  destruct (vert_e (bm p) v); [repeat split; assumption |].
  cbn [fst snd]. apply negb_true_iff, Pos.eqb_neq in Hne.
  split; [apply chain_ranked_insert_none; exact Hrk |].
  unfold deleted_map in *. split; [rewrite lookup_insert_ne by congruence; exact Hdel |].
  destruct Hvc as [-> | [-> Hc]]; [left; reflexivity |].
  destruct (Pos.eqb v v_conn) eqn:Hvc; [left; reflexivity |].
  right. split; [reflexivity |]. apply Pos.eqb_neq in Hvc.
  rewrite lookup_insert_ne by congruence. exact Hc.
Qed.

Lemma collapse_delete_orphans_inv (v_del v_conn : vert) (vs : list vert) :
  forall s, collapse_chain_inv v_del v_conn s ->
            collapse_chain_inv v_del v_conn (fold_left (collapse_delete_orphan v_del) vs s).
Proof.
  induction vs as [| v vs IH]; intros s Hs; cbn [fold_left]; [exact Hs |].
  apply IH. apply collapse_delete_orphan_inv. exact Hs.
Qed.

Lemma collapse_delete_faces_inv (v_del v_conn : vert) (fs : list face) :
  forall s, collapse_chain_inv v_del v_conn s ->
            collapse_chain_inv v_del v_conn (fold_left (collapse_delete_face v_del) fs s).
Proof.
  induction fs as [| f fs IH]; intros s Hs; cbn [fold_left]; [exact Hs |].
  apply IH. destruct s as [[p d] vc]. unfold collapse_delete_face.
  apply collapse_delete_orphans_inv. exact Hs.
Qed.

Lemma collapse_body_ranked (p : PBVH) (e : edge) (v_del v_conn : vert) (d : deleted_map) :
  chain_ranked d -> d !! v_del = None -> d !! v_conn = None -> v_del <> v_conn ->
  chain_ranked (snd (pbvh_bmesh_collapse_edge_body p e v_del v_conn d)).
Proof.
  intros Hrk Hdel Hconn Hne. unfold pbvh_bmesh_collapse_edge_body.
  destruct (collapse_rewrite p e v_del v_conn) as [p8 deleted_faces].
  pose proof (collapse_delete_faces_inv v_del v_conn deleted_faces (p8, d, Some v_conn)) as Hinv.
  destruct (fold_left (collapse_delete_face v_del) deleted_faces (p8, d, Some v_conn))
    as [[p9 d1] vc].
  destruct Hinv as (Hrk1 & Hdel1 & Hvc).
  { split; [exact Hrk |]. split; [exact Hdel |]. right. split; [reflexivity | exact Hconn]. }
  cbn [fst snd] in *. unfold collapse_finish. cbn [snd].
  destruct Hvc as [-> | [-> Hc]].
  - apply chain_ranked_insert_none. exact Hrk1.
  - apply chain_ranked_insert_some; assumption.
Qed.

Lemma collapse_edge_ranked `{Collaborators} (p : PBVH) (e : edge) (v1 v2 : vert)
  (d : deleted_map) :
  chain_ranked d -> d !! v1 = None -> d !! v2 = None -> v1 <> v2 ->
  chain_ranked (snd (pbvh_bmesh_collapse_edge p e v1 v2 d)).
Proof.
  intros Hrk H1 H2 Hne. unfold pbvh_bmesh_collapse_edge.
  destruct (BM_elem_flag_test_edge (bm (collapse_prelude p e)) e BM_ELEM_SEAM
            && (collapse_seam_count (bm (collapse_prelude p e)) e v1 v2 <? 2)); [exact Hrk |].
  unfold collapse_choose.
  destruct (f_lt (DYNTOPO_MASK (bm (collapse_prelude p e)) v1)
                 (DYNTOPO_MASK (bm (collapse_prelude p e)) v2)).
  - apply collapse_body_ranked; assumption.
  - apply collapse_body_ranked; try assumption. congruence.
Qed.

Lemma collapse_pop_decide_nonkeys (p : PBVH) (d : deleted_map) (mls : f32) (pr e : edge)
  (v1 v2 : vert) :
  collapse_pop_decide p d mls pr = Some (PopCollapsed e v1 v2) ->
  d !! v1 = None /\ d !! v2 = None /\ v1 <> v2 /\ BM_edge_exists (bm p) v1 v2 = Some e.
Proof.
  unfold collapse_pop_decide, bm_vert_hash_lookup_chain.
  destruct (lookup_chain_loop (S (size d)) d (fst pr)) as [[a | ] | ] eqn:Ha; try discriminate.
  destruct (lookup_chain_loop (S (size d)) d (snd pr)) as [[b | ] | ] eqn:Hb; try discriminate.
  destruct (Pos.eqb a b) eqn:Hab; [discriminate |].
  destruct (BM_edge_exists (bm p) a b) as [e0 | ] eqn:He; [| discriminate].
  cbv zeta.
  destruct (radial_longer_than_two (bm p) e0); [discriminate |].
  destruct (f_ge (calc_weighted_edge_collapse (bm p) a b) mls); [discriminate |].
  destruct ((v_node (vget (bm p) (fst e0)) =? DYNTOPO_NODE_NONE)
            || (v_node (vget (bm p) (snd e0)) =? DYNTOPO_NODE_NONE)); [discriminate |].
  intros Heq. injection Heq as <- <- <-.
  split; [apply (lookup_chain_nonkey _ _ _ _ Ha) |].
  split; [apply (lookup_chain_nonkey _ _ _ _ Hb) |].
  split; [apply Pos.eqb_neq; exact Hab | exact He].
Qed.

Lemma collapse_pop_decide_total (p : PBVH) (d : deleted_map) (mls : f32) (pr : edge) :
  chain_ranked d -> is_Some (collapse_pop_decide p d mls pr).
Proof.
  intros Hrk. unfold collapse_pop_decide.
  destruct (chain_ranked_total d (fst pr) Hrk) as [r1 ->].
  destruct r1 as [a | ]; [| eexists; reflexivity].
  destruct (chain_ranked_total d (snd pr) Hrk) as [r2 ->].
  destruct r2 as [b | ]; [| eexists; reflexivity].
  destruct (Pos.eqb a b); [eexists; reflexivity |].
  destruct (BM_edge_exists (bm p) a b) as [e0 | ]; [| eexists; reflexivity].
  cbv zeta.
  destruct (radial_longer_than_two (bm p) e0); [eexists; reflexivity |].
  destruct (f_ge (calc_weighted_edge_collapse (bm p) a b) mls); [eexists; reflexivity |].
  destruct ((v_node (vget (bm p) (fst e0)) =? DYNTOPO_NODE_NONE)
            || (v_node (vget (bm p) (snd e0)) =? DYNTOPO_NODE_NONE)); eexists; reflexivity.
Qed.

(** One turn: it returns, the heap of the new state is the rest, the
    step is counted, the map keeps its ranking, and a turn that leaves
    the flag clear leaves the hierarchy as it was. *)
Lemma collapse_pop_step_spec `{Collaborators} (s : collapse_state) (pr : edge)
  (rest : HeapSimple) :
  chain_ranked (cs_deleted_verts s) ->
  exists s', collapse_pop_step s pr rest = Some s'
             /\ heap (q (cs_ctx s')) = rest
             /\ cs_step s' = cs_step s + 1
             /\ chain_ranked (cs_deleted_verts s')
             /\ (cs_any_collapsed s' = false ->
                 cs_any_collapsed s = false /\ cs_pbvh s' = cs_pbvh s).
Proof.
  intros Hrk. unfold collapse_pop_step.
  destruct (collapse_pop_decide_total (cs_pbvh s) (cs_deleted_verts s)
              (f32_mul (bm_min_edge_len (cs_pbvh s)) (bm_min_edge_len (cs_pbvh s))) pr Hrk)
    as [r Hr].
  rewrite Hr. destruct r as [ | e v1 v2].
  - eexists. split; [reflexivity |]. unfold pop_skip_state. cbn.
    repeat split; try assumption; try reflexivity.
  - apply collapse_pop_decide_nonkeys in Hr. destruct Hr as (H1 & H2 & Hne & _).
    pose proof (collapse_edge_ranked (cs_pbvh s) e v1 v2 (cs_deleted_verts s) Hrk H1 H2 Hne)
      as Hrk'.
    destruct (pbvh_bmesh_collapse_edge (cs_pbvh s) e v1 v2 (cs_deleted_verts s)) as [p' d'].
    eexists. split; [reflexivity |]. cbn.
    repeat split; try assumption; try reflexivity; discriminate.
Qed.

Lemma heap_pop_from_length (x : f32 * edge) (tl : HeapSimple) :
  length (snd (heap_pop_from x tl)) = length tl.
Proof.
  revert x. induction tl as [| y tl IH]; intros x; cbn [heap_pop_from]; [reflexivity |].
  specialize (IH y). destruct (heap_pop_from y tl) as [b r]. cbn [snd] in IH.
  destruct (f_lt (fst b) (fst x)); cbn [snd length]; [rewrite IH |]; reflexivity.
Qed.

Lemma BLI_heapsimple_pop_min_length (h : HeapSimple) (pr : edge) (rest : HeapSimple) :
  BLI_heapsimple_pop_min h = Some (pr, rest) -> length h = S (length rest).
Proof.
  destruct h as [| x tl]; cbn [BLI_heapsimple_pop_min]; [discriminate |].
  pose proof (heap_pop_from_length x tl) as Hl.
  destruct (heap_pop_from x tl) as [b r]. cbn [snd] in Hl.
  intros Heq. injection Heq as _ <-. cbn [length]. rewrite Hl. reflexivity.
Qed.

Lemma collapse_loop_spec `{Collaborators} (max_steps : Z) (fuel : nat) :
  forall s : collapse_state,
    chain_ranked (cs_deleted_verts s) ->
    (length (heap (q (cs_ctx s))) <= fuel)%nat ->
    exists s',
      collapse_loop fuel max_steps s = Some s'
      /\ (length (heap (q (cs_ctx s'))) <= length (heap (q (cs_ctx s))))%nat
      /\ Z.of_nat (length (heap (q (cs_ctx s)))) - Z.of_nat (length (heap (q (cs_ctx s'))))
         <= Z.max 0 (max_steps + 1 - cs_step s)
      /\ (cs_any_collapsed s' = false ->
          cs_any_collapsed s = false /\ cs_pbvh s' = cs_pbvh s).
Proof.
  induction fuel as [| n IH]; intros s Hrk Hlen.
  - destruct (heap (q (cs_ctx s))) as [| x tl] eqn:Hh; [| cbn [length] in Hlen; lia].
    exists s. cbn [collapse_loop]. rewrite Hh. cbn [BLI_heapsimple_pop_min length]. repeat split; try lia; intros; assumption.
  - cbn [collapse_loop].
    destruct (BLI_heapsimple_pop_min (heap (q (cs_ctx s)))) as [[pr rest] | ] eqn:Hpop.
    + apply BLI_heapsimple_pop_min_length in Hpop.
      destruct (max_steps <? cs_step s) eqn:Hms.
      * eexists. split; [reflexivity |]. cbn [cs_ctx cs_any_collapsed cs_pbvh].
        repeat split; try lia; intros; assumption.
      * apply Z.ltb_ge in Hms.
        destruct (collapse_pop_step_spec s pr rest Hrk)
          as (s1 & Hs1 & Hheap & Hstep & Hrk1 & Hany1).
        rewrite Hs1.
        destruct (IH s1 Hrk1) as (s' & Hs' & Hle & Hpops & Hany); [rewrite Hheap; lia |].
        exists s'. split; [exact Hs' |]. rewrite Hheap in Hle, Hpops. rewrite Hstep in Hpops.
        split; [lia |]. split; [lia |].
        intros Hf. destruct (Hany Hf) as [Hf1 Hp1]. destruct (Hany1 Hf1) as [Hf0 Hp0].
        split; [exact Hf0 | congruence].
    + exists s. repeat split; try lia; intros; assumption.
Qed.

(** X1.  The collapse pass always returns. It only takes entries off the heap, at
    most max(0, max_steps + 1) of them, and when it reports that nothing was
    collapsed the PBVH (mesh and node table) is exactly what it was before
    the pass. *)
Theorem collapse_pass_budget `{Collaborators} (c : EdgeQueueContext) (p : PBVH) (max_steps : Z) :
  exists (p' : PBVH) (c' : EdgeQueueContext) (any_collapsed : bool),
    pbvh_bmesh_collapse_short_edges c p max_steps = Some (p', c', any_collapsed)
    /\ (length (heap (q c')) <= length (heap (q c)))%nat
    /\ Z.of_nat (length (heap (q c))) - Z.of_nat (length (heap (q c'))) <= Z.max 0 (max_steps + 1)
    /\ (any_collapsed = false -> p' = p).
Proof.
  unfold pbvh_bmesh_collapse_short_edges.
  destruct (collapse_loop_spec max_steps (length (heap (q c))) (mkCollapseState p c ∅ false 0))
    as (s' & Hs' & Hle & Hpops & Hany).
  - apply chain_ranked_empty.
  - cbn [cs_ctx]. lia.
  - rewrite Hs'. exists (cs_pbvh s'), (cs_ctx s'), (cs_any_collapsed s').
    split; [reflexivity |]. cbn [cs_ctx cs_step] in Hle, Hpops.
    split; [exact Hle |].
    split; [replace (max_steps + 1) with (max_steps + 1 - 0) by lia; exact Hpops |].
    intros Hf. apply (Hany Hf).
Qed.

(** ** Frames of the bookkeeping functions *)

Lemma bm_node_update (p : PBVH) (ni : Z) (g : PBVHNode -> PBVHNode) :
  bm (node_update p ni g) = bm p.
Proof. unfold node_update. destruct (ni <? 0); reflexivity. Qed.

Lemma bm_node_flag_enable (p : PBVH) (ni flag : Z) : bm (node_flag_enable p ni flag) = bm p.
Proof. apply bm_node_update. Qed.

Lemma bm_node_flag_disable (p : PBVH) (ni flag : Z) : bm (node_flag_disable p ni flag) = bm p.
Proof. apply bm_node_update. Qed.

Lemma fmap_node_update {B : Type} (f : PBVHNode -> B) (h : B -> B) (p : PBVH) (ni : Z)
  (g : PBVHNode -> PBVHNode) :
  (forall n, f (g n) = h (f n)) ->
  f <$> nodes (node_update p ni g)
  = if ni <? 0 then f <$> nodes p else alter h (Z.to_nat ni) (f <$> nodes p).
Proof.
  intros Hfg. unfold node_update. destruct (ni <? 0); [reflexivity |].
  cbn [nodes set_nodes]. apply list_fmap_alter. apply Forall_forall. intros x _. apply Hfg.
Qed.

Lemma fmap_node_update_id {B : Type} (f : PBVHNode -> B) (p : PBVH) (ni : Z)
  (g : PBVHNode -> PBVHNode) :
  (forall n, f (g n) = f n) -> f <$> nodes (node_update p ni g) = f <$> nodes p.
Proof.
  intros Hfg. rewrite (fmap_node_update f id p ni g Hfg).
  destruct (ni <? 0); [reflexivity |]. apply list_alter_id. reflexivity.
Qed.

Lemma fmap_node_flag_enable {B : Type} (f : PBVHNode -> B) (p : PBVH) (ni flag : Z) :
  (forall n x, f (set_n_flag n x) = f n) ->
  f <$> nodes (node_flag_enable p ni flag) = f <$> nodes p.
Proof. intros Hf. apply fmap_node_update_id. intros n. apply Hf. Qed.

Lemma faces_set_n_flag (n : PBVHNode) (x : Z) : n_bm_faces (set_n_flag n x) = n_bm_faces n.
Proof. reflexivity. Qed.

Lemma verts_set_n_flag (n : PBVHNode) (x : Z) :
  n_bm_unique_verts (set_n_flag n x) = n_bm_unique_verts n.
Proof. reflexivity. Qed.

Lemma vert_remove_loop_frame (fs : list face) :
  forall (p : PBVH) (prev : Z),
    bm (vert_remove_loop p fs prev) = bm p
    /\ n_bm_faces <$> nodes (vert_remove_loop p fs prev) = n_bm_faces <$> nodes p
    /\ n_bm_unique_verts <$> nodes (vert_remove_loop p fs prev) = n_bm_unique_verts <$> nodes p.
Proof.
  induction fs as [| f fs IH]; intros p prev; cbn [vert_remove_loop]; [repeat split |].
  destruct (pbvh_bmesh_node_index_from_face p f =? DYNTOPO_NODE_NONE); [apply IH |].
  destruct (negb (prev =? pbvh_bmesh_node_index_from_face p f)); [| apply IH].
  destruct (IH (node_flag_enable p (pbvh_bmesh_node_index_from_face p f) vert_remove_updateflag)
              (pbvh_bmesh_node_index_from_face p f)) as (Hb & Hf & Hv).
  rewrite Hb, Hf, Hv, bm_node_flag_enable.
  rewrite (fmap_node_flag_enable n_bm_faces) by apply faces_set_n_flag.
  rewrite (fmap_node_flag_enable n_bm_unique_verts) by apply verts_set_n_flag.
  repeat split.
Qed.

Lemma list_alter_out {A : Type} (f : A -> A) (l : list A) (i : nat) :
  (length l <= i)%nat -> alter f i l = l.
Proof.
  intros Hi. apply list_eq. intros j. rewrite list_lookup_alter.
  destruct (decide (i = j)) as [<- | Hne]; [| reflexivity].
  rewrite (lookup_ge_None_2 l i Hi). reflexivity.
Qed.

Lemma node_at_None_alter {B : Type} (p : PBVH) (ni : Z) (h : B -> B) (l : list B) :
  length l = length (nodes p) -> node_at p ni = None ->
  (if ni <? 0 then l else alter h (Z.to_nat ni) l) = l.
Proof.
  intros Hl. unfold node_at. destruct (ni <? 0); [reflexivity |]. intros Hn.
  apply lookup_ge_None in Hn. apply list_alter_out. lia.
Qed.

(** [pbvh_bmesh_vert_remove] in terms of the mesh and of the tables of
    the leaves. *)
Lemma pbvh_bmesh_vert_remove_frame (p : PBVH) (v : vert) :
  bm (pbvh_bmesh_vert_remove p v)
  = vert_update (bm p) v (fun r => set_v_node r DYNTOPO_NODE_NONE)
  /\ n_bm_faces <$> nodes (pbvh_bmesh_vert_remove p v) = n_bm_faces <$> nodes p
  /\ n_bm_unique_verts <$> nodes (pbvh_bmesh_vert_remove p v)
     = if pbvh_bmesh_node_index_from_vert p v <? 0 then n_bm_unique_verts <$> nodes p
       else alter (tgset_remove v) (Z.to_nat (pbvh_bmesh_node_index_from_vert p v))
                  (n_bm_unique_verts <$> nodes p).
Proof.
  unfold pbvh_bmesh_vert_remove.
  set (cur := pbvh_bmesh_node_index_from_vert p v).
  set (p1 := match node_at p cur with
             | Some _ => node_flag_enable
                           (node_update p cur
                              (fun n => set_n_bm_unique_verts n (tgset_remove v (n_bm_unique_verts n))))
                           cur vert_remove_updateflag
             | None => p
             end).
  assert (H1 : bm p1 = bm p
               /\ n_bm_faces <$> nodes p1 = n_bm_faces <$> nodes p
               /\ n_bm_unique_verts <$> nodes p1
                  = if cur <? 0 then n_bm_unique_verts <$> nodes p
                    else alter (tgset_remove v) (Z.to_nat cur) (n_bm_unique_verts <$> nodes p)).
  { subst p1. destruct (node_at p cur) eqn:Hn.
    - rewrite bm_node_flag_enable, bm_node_update.
      rewrite (fmap_node_flag_enable n_bm_faces) by apply faces_set_n_flag.
      rewrite (fmap_node_flag_enable n_bm_unique_verts) by apply verts_set_n_flag.
      rewrite (fmap_node_update_id n_bm_faces) by reflexivity.
      rewrite (fmap_node_update n_bm_unique_verts (tgset_remove v)) by reflexivity.
      repeat split.
    - rewrite (node_at_None_alter p cur _ _ (length_fmap _ _) Hn). repeat split. }
  destruct H1 as (Hb & Hf & Hv).
  destruct (vert_remove_loop_frame
              (faces_of_vert (bm (pbvh_vert_update p1 v (fun r => set_v_node r DYNTOPO_NODE_NONE))) v)
              (pbvh_vert_update p1 v (fun r => set_v_node r DYNTOPO_NODE_NONE)) DYNTOPO_NODE_NONE)
    as (Hb' & Hf' & Hv').
  rewrite Hb', Hf', Hv'. unfold pbvh_vert_update. cbn [bm nodes set_bm].
  rewrite Hb, Hf, Hv. repeat split.
Qed.

Lemma fmap_lookup_transfer {B : Type} (f : PBVHNode -> B) (l l' : list PBVHNode) (L : list B)
  (i : nat) (n : PBVHNode) :
  f <$> l' = L -> length L = length l -> l !! i = Some n ->
  exists n', l' !! i = Some n' /\ L !! i = Some (f n').
Proof.
  intros HL Hlen Hn.
  assert (Hi : (i < length l')%nat).
  { apply lookup_lt_Some in Hn. rewrite <- (length_fmap f l'), HL, Hlen. exact Hn. }
  destruct (lookup_lt_is_Some_2 l' i Hi) as [n' Hn'].
  exists n'. split; [exact Hn' |]. rewrite <- HL, list_lookup_fmap, Hn'. reflexivity.
Qed.

Lemma tgset_remove_not_in (x : positive) (s : list positive) : ~ In x (tgset_remove x s).
Proof.
  unfold tgset_remove. intros Hin. apply filter_In in Hin. destruct Hin as [_ Hx].
  rewrite Pos.eqb_refl in Hx. discriminate.
Qed.

Lemma tgset_remove_in (x y : positive) (s : list positive) :
  In y (tgset_remove x s) <-> In y s /\ y <> x.
Proof.
  unfold tgset_remove. rewrite filter_In, negb_true_iff, Pos.eqb_neq. reflexivity.
Qed.

Lemma tgset_add_in (x y : positive) (s : list positive) :
  In y (tgset_add x s) <-> In y s \/ y = x.
Proof.
  unfold tgset_add. destruct (existsb (Pos.eqb x) s) eqn:Hex.
  - apply existsb_exists in Hex. destruct Hex as [z [Hz Hxz]]. apply Pos.eqb_eq in Hxz. subst z.
    split; [tauto |]. intros [Hy | ->]; assumption.
  - rewrite in_app_iff. cbn [In]. split; [intros [Hy | [<- | []]]; tauto | intros [Hy | ->]; tauto].
Qed.

Lemma vget_vert_update_eq (m : BMesh) (v : vert) (x : Z) :
  vget (vert_update m v (fun r => set_v_node r x)) v
  = match bm_verts m !! v with Some r => set_v_node r x | None => BMVert_blank end.
Proof.
  rewrite vget_vert_update. destruct (decide (v = v)) as [_ | Hne]; [reflexivity | congruence].
Qed.

Lemma vget_vert_update_ne (m : BMesh) (v w : vert) (g : BMVert -> BMVert) :
  w <> v -> vget (vert_update m v g) w = vget m w.
Proof.
  intros Hne. rewrite vget_vert_update.
  destruct (decide (v = w)) as [-> | _]; [congruence | reflexivity].
Qed.

(** X2.  pbvh_bmesh_vert_remove sets the owner of the vertex to DYNTOPO_NODE_NONE
    and takes the vertex out of the unique-vertex set of the node that owned
    it. Every other vertex, every edge and face, the face set of every node
    and the unique-vertex set of every other node stay as they were. *)
Theorem pbvh_bmesh_vert_remove_effect (p : PBVH) (v : vert) :
  v_node (vget (bm (pbvh_bmesh_vert_remove p v)) v) = DYNTOPO_NODE_NONE
  /\ (forall w, w <> v -> vget (bm (pbvh_bmesh_vert_remove p v)) w = vget (bm p) w)
  /\ bm_edges (bm (pbvh_bmesh_vert_remove p v)) = bm_edges (bm p)
  /\ bm_faces (bm (pbvh_bmesh_vert_remove p v)) = bm_faces (bm p)
  /\ forall (i : nat) (n : PBVHNode),
       nodes p !! i = Some n ->
       exists n', nodes (pbvh_bmesh_vert_remove p v) !! i = Some n'
                  /\ n_bm_faces n' = n_bm_faces n
                  /\ n_bm_unique_verts n'
                     = (if Z.of_nat i =? v_node (vget (bm p) v)
                        then tgset_remove v (n_bm_unique_verts n)
                        else n_bm_unique_verts n)
                  /\ (Z.of_nat i = v_node (vget (bm p) v) -> ~ In v (n_bm_unique_verts n')).
Proof.
  destruct (pbvh_bmesh_vert_remove_frame p v) as (Hb & Hf & Hv). rewrite Hb.
  split.
  { rewrite vget_vert_update_eq. destruct (bm_verts (bm p) !! v); reflexivity. }
  split; [intros w Hw; apply vget_vert_update_ne; exact Hw |].
  split; [reflexivity |]. split; [reflexivity |].
  intros i n Hn.
  destruct (fmap_lookup_transfer n_bm_faces (nodes p) _ _ i n Hf (length_fmap _ _) Hn)
    as (n' & Hn' & Hfi).
  exists n'. split; [exact Hn' |].
  rewrite list_lookup_fmap, Hn in Hfi. injection Hfi as Hfi. split; [congruence |].
  assert (Hvi : n_bm_unique_verts n'
                = if Z.of_nat i =? v_node (vget (bm p) v)
                  then tgset_remove v (n_bm_unique_verts n) else n_bm_unique_verts n).
  { assert (Hl : (n_bm_unique_verts <$> nodes (pbvh_bmesh_vert_remove p v)) !! i
                 = Some (n_bm_unique_verts n'))
      by (rewrite list_lookup_fmap, Hn'; reflexivity).
    rewrite Hv in Hl. unfold pbvh_bmesh_node_index_from_vert in Hl.
    destruct (v_node (vget (bm p) v) <? 0) eqn:Hneg.
    - rewrite list_lookup_fmap, Hn in Hl. injection Hl as <-.
      apply Z.ltb_lt in Hneg.
      replace (Z.of_nat i =? v_node (vget (bm p) v)) with false
        by (symmetry; apply Z.eqb_neq; lia).
      reflexivity.
    - apply Z.ltb_ge in Hneg. rewrite list_lookup_alter in Hl.
      destruct (decide (Z.to_nat (v_node (vget (bm p) v)) = i)) as [Heq | Hne].
      + rewrite Heq, list_lookup_fmap, Hn in Hl. cbn in Hl. injection Hl as <-.
        replace (Z.of_nat i =? v_node (vget (bm p) v)) with true
          by (symmetry; apply Z.eqb_eq; lia).
        reflexivity.
      + rewrite list_lookup_fmap, Hn in Hl. injection Hl as <-.
        replace (Z.of_nat i =? v_node (vget (bm p) v)) with false
          by (symmetry; apply Z.eqb_neq; lia).
        reflexivity. }
  split; [exact Hvi |]. intros Hi. rewrite Hvi.
  replace (Z.of_nat i =? v_node (vget (bm p) v)) with true by (symmetry; apply Z.eqb_eq; exact Hi).
  apply tgset_remove_not_in.
Qed.

Lemma pbvh_bmesh_vert_ownership_transfer_frame (p : PBVH) (new_owner : Z) (v : vert) :
  bm (pbvh_bmesh_vert_ownership_transfer p new_owner v)
  = vert_update (bm p) v (fun r => set_v_node r new_owner)
  /\ n_bm_faces <$> nodes (pbvh_bmesh_vert_ownership_transfer p new_owner v)
     = n_bm_faces <$> nodes p
  /\ n_bm_unique_verts <$> nodes (pbvh_bmesh_vert_ownership_transfer p new_owner v)
     = (fun l => if new_owner <? 0 then l else alter (tgset_add v) (Z.to_nat new_owner) l)
         (if pbvh_bmesh_node_index_from_vert p v <? 0 then n_bm_unique_verts <$> nodes p
          else alter (tgset_remove v) (Z.to_nat (pbvh_bmesh_node_index_from_vert p v))
                     (n_bm_unique_verts <$> nodes p)).
Proof.
  unfold pbvh_bmesh_vert_ownership_transfer.
  set (cur := pbvh_bmesh_node_index_from_vert p v).
  set (p1 := match node_at p cur with
             | Some _ =>
                 node_update (node_flag_enable p cur (Z.lor PBVH_UpdateDrawBuffers PBVH_UpdateBB))
                   cur (fun n => set_n_bm_unique_verts n (tgset_remove v (n_bm_unique_verts n)))
             | None => p
             end).
  assert (H1 : bm p1 = bm p
               /\ n_bm_faces <$> nodes p1 = n_bm_faces <$> nodes p
               /\ n_bm_unique_verts <$> nodes p1
                  = if cur <? 0 then n_bm_unique_verts <$> nodes p
                    else alter (tgset_remove v) (Z.to_nat cur) (n_bm_unique_verts <$> nodes p)).
  { subst p1. destruct (node_at p cur) eqn:Hn.
    - rewrite bm_node_update, bm_node_flag_enable.
      rewrite (fmap_node_update_id n_bm_faces) by reflexivity.
      rewrite (fmap_node_update n_bm_unique_verts (tgset_remove v)) by reflexivity.
      rewrite (fmap_node_flag_enable n_bm_faces) by apply faces_set_n_flag.
      rewrite (fmap_node_flag_enable n_bm_unique_verts) by apply verts_set_n_flag.
      repeat split.
    - rewrite (node_at_None_alter p cur _ _ (length_fmap _ _) Hn). repeat split. }
  destruct H1 as (Hb & Hf & Hv).
  rewrite bm_node_flag_enable, bm_node_update.
  rewrite (fmap_node_flag_enable n_bm_faces) by apply faces_set_n_flag.
  rewrite (fmap_node_flag_enable n_bm_unique_verts) by apply verts_set_n_flag.
  rewrite (fmap_node_update_id n_bm_faces) by reflexivity.
  rewrite (fmap_node_update n_bm_unique_verts (tgset_add v)) by reflexivity.
  unfold pbvh_vert_update. cbn [bm nodes set_bm]. rewrite Hb, Hf, Hv. repeat split.
Qed.

Lemma bm_edges_vert_update (m : BMesh) (v : vert) (g : BMVert -> BMVert) :
  bm_edges (vert_update m v g) = bm_edges m.
Proof. reflexivity. Qed.

Lemma bm_faces_vert_update (m : BMesh) (v : vert) (g : BMVert -> BMVert) :
  bm_faces (vert_update m v g) = bm_faces m.
Proof. reflexivity. Qed.

(** What a removal of a face from its leaf does to each corner. *)
Lemma face_remove_vert_frame (p : PBVH) (fi : Z) (b : bool) (v : vert) :
  bm_edges (bm (face_remove_vert p fi b v)) = bm_edges (bm p)
  /\ bm_faces (bm (face_remove_vert p fi b v)) = bm_faces (bm p)
  /\ n_bm_faces <$> nodes (face_remove_vert p fi b v) = n_bm_faces <$> nodes p.
Proof.
  unfold face_remove_vert.
  destruct (pbvh_bmesh_node_vert_use_count_is_equal p fi v 1); [| repeat split].
  destruct (pbvh_bmesh_node_index_from_vert p v =? fi); [| repeat split].
  destruct (pbvh_bmesh_vert_other_node_find p v) as [new_node | ].
  - destruct (pbvh_bmesh_vert_ownership_transfer_frame p new_node v) as (Hb & Hf & _).
    rewrite Hb, Hf. repeat split.
  - destruct (b && negb (BM_vert_face_count_is_equal (bm p) v 1)); [| repeat split].
    rewrite bm_node_flag_enable.
    rewrite (fmap_node_flag_enable n_bm_faces) by apply faces_set_n_flag.
    destruct (pbvh_bmesh_vert_remove_frame p v) as (Hb & Hf & _).
    rewrite Hb, Hf. repeat split.
Qed.

Lemma face_remove_verts_frame (fi : Z) (b : bool) (f : BMLoop -> vert) (ls : list BMLoop) :
  forall p : PBVH,
    bm_edges (bm (fold_left (fun p' l => face_remove_vert p' fi b (f l)) ls p)) = bm_edges (bm p)
    /\ bm_faces (bm (fold_left (fun p' l => face_remove_vert p' fi b (f l)) ls p))
       = bm_faces (bm p)
    /\ n_bm_faces <$> nodes (fold_left (fun p' l => face_remove_vert p' fi b (f l)) ls p)
       = n_bm_faces <$> nodes p.
Proof.
  induction ls as [| l ls IH]; intros p; cbn [fold_left]; [repeat split |].
  destruct (IH (face_remove_vert p fi b (f l))) as (He & Hf & Hn).
  destruct (face_remove_vert_frame p fi b (f l)) as (He' & Hf' & Hn').
  rewrite He, Hf, Hn, He', Hf', Hn'. repeat split.
Qed.

Lemma pbvh_bmesh_face_remove_frame (p : PBVH) (f : face) (cv eot : bool) (n : PBVHNode) :
  node_at p (f_node (fget (bm p) f)) = Some n ->
  flag_test (n_flag n) PBVH_Leaf = true ->
  bm_edges (bm (pbvh_bmesh_face_remove p f cv eot)) = bm_edges (bm p)
  /\ bm_faces (bm (pbvh_bmesh_face_remove p f cv eot))
     = map (fun pf => if Pos.eqb (fst pf) f
                      then (fst pf, set_f_node (snd pf) DYNTOPO_NODE_NONE) else pf)
           (bm_faces (bm p))
  /\ n_bm_faces <$> nodes (pbvh_bmesh_face_remove p f cv eot)
     = alter (tgset_remove f) (Z.to_nat (f_node (fget (bm p) f))) (n_bm_faces <$> nodes p).
Proof.
  intros Hn Hleaf. unfold pbvh_bmesh_face_remove, pbvh_bmesh_node_index_from_face.
  rewrite Hn, Hleaf. cbn [negb].
  set (fi := f_node (fget (bm p) f)) in *.
  assert (Hfi : (fi <? 0) = false).
  { unfold node_at in Hn. destruct (fi <? 0); [discriminate | reflexivity]. }
  set (p1 := if cv
             then fold_left (fun p' l => face_remove_vert p' fi eot (loop_v (bm p) l))
                            (face_loops (bm p) f) p
             else p).
  assert (H1 : bm_edges (bm p1) = bm_edges (bm p) /\ bm_faces (bm p1) = bm_faces (bm p)
               /\ n_bm_faces <$> nodes p1 = n_bm_faces <$> nodes p).
  { subst p1. destruct cv; [apply face_remove_verts_frame | repeat split]. }
  destruct H1 as (He & Hf & Hnf).
  rewrite bm_node_flag_enable.
  rewrite (fmap_node_flag_enable n_bm_faces) by apply faces_set_n_flag.
  cbn [bm nodes set_bm]. rewrite bm_node_update.
  rewrite (fmap_node_update n_bm_faces (tgset_remove f)) by reflexivity.
  rewrite Hfi, Hnf. unfold face_update. cbn [bm_edges bm_faces set_bm_faces].
  rewrite He, Hf. repeat split.
Qed.

Lemma lookup_alter_at {B : Type} (h : B -> B) (L : list B) (k : Z) (i : nat) (x : B) :
  L !! i = Some x ->
  (if k <? 0 then L else alter h (Z.to_nat k) L) !! i
  = Some (if Z.of_nat i =? k then h x else x).
Proof.
  intros Hx. destruct (k <? 0) eqn:Hneg.
  - apply Z.ltb_lt in Hneg.
    replace (Z.of_nat i =? k) with false by (symmetry; apply Z.eqb_neq; lia). exact Hx.
  - apply Z.ltb_ge in Hneg. rewrite list_lookup_alter.
    destruct (decide (Z.to_nat k = i)) as [Heq | Hne].
    + rewrite Heq, Hx. replace (Z.of_nat i =? k) with true by (symmetry; apply Z.eqb_eq; lia).
      reflexivity.
    + replace (Z.of_nat i =? k) with false by (symmetry; apply Z.eqb_neq; lia). exact Hx.
Qed.

Lemma length_alter_at {B : Type} (h : B -> B) (L : list B) (k : Z) :
  length (if k <? 0 then L else alter h (Z.to_nat k) L) = length L.
Proof. destruct (k <? 0); [reflexivity | apply length_alter]. Qed.

Lemma node_at_lookup (p : PBVH) (ni : Z) (n : PBVHNode) :
  node_at p ni = Some n <-> 0 <= ni /\ nodes p !! Z.to_nat ni = Some n.
Proof.
  unfold node_at. destruct (ni <? 0) eqn:Hneg.
  - apply Z.ltb_lt in Hneg. split; [discriminate | lia].
  - apply Z.ltb_ge in Hneg. tauto.
Qed.

(** X3.  When new_owner is a node of the tree and v is a vertex of the mesh,
    pbvh_bmesh_vert_ownership_transfer makes new_owner the owner of v and
    puts v into its unique-vertex set, takes v out of the unique-vertex set
    of the former owner, and leaves every other vertex, every edge and face,
    the face sets of all nodes and the vertex sets of the other nodes
    unchanged. *)
Theorem pbvh_bmesh_vert_ownership_transfer_effect (p : PBVH) (new_owner : Z) (v : vert)
  (n : PBVHNode) (r : BMVert) :
  node_at p new_owner = Some n ->
  bm_verts (bm p) !! v = Some r ->
  v_node (vget (bm (pbvh_bmesh_vert_ownership_transfer p new_owner v)) v) = new_owner
  /\ (forall w, w <> v ->
        vget (bm (pbvh_bmesh_vert_ownership_transfer p new_owner v)) w = vget (bm p) w)
  /\ bm_edges (bm (pbvh_bmesh_vert_ownership_transfer p new_owner v)) = bm_edges (bm p)
  /\ bm_faces (bm (pbvh_bmesh_vert_ownership_transfer p new_owner v)) = bm_faces (bm p)
  /\ (exists n', node_at (pbvh_bmesh_vert_ownership_transfer p new_owner v) new_owner = Some n'
                 /\ In v (n_bm_unique_verts n')
                 /\ n_bm_faces n' = n_bm_faces n)
  /\ (forall (i : nat) (m : PBVHNode),
        Z.of_nat i <> new_owner -> nodes p !! i = Some m ->
        exists m', nodes (pbvh_bmesh_vert_ownership_transfer p new_owner v) !! i = Some m'
                   /\ n_bm_faces m' = n_bm_faces m
                   /\ n_bm_unique_verts m'
                      = (if Z.of_nat i =? v_node r then tgset_remove v (n_bm_unique_verts m)
                         else n_bm_unique_verts m)).
Proof.
  intros Hn Hr.
  destruct (pbvh_bmesh_vert_ownership_transfer_frame p new_owner v) as (Hb & Hf & Hv).
  assert (Hcur : pbvh_bmesh_node_index_from_vert p v = v_node r).
  { unfold pbvh_bmesh_node_index_from_vert, vget. rewrite Hr. reflexivity. }
  rewrite Hcur in Hv. rewrite Hb.
  apply node_at_lookup in Hn. destruct Hn as [Hpos Hn].
  split; [rewrite vget_vert_update_eq, Hr; reflexivity |].
  split; [intros w Hw; apply vget_vert_update_ne; exact Hw |].
  split; [reflexivity |]. split; [reflexivity |].
  assert (Hpt : forall (i : nat) (m : PBVHNode),
             nodes p !! i = Some m ->
             exists m', nodes (pbvh_bmesh_vert_ownership_transfer p new_owner v) !! i = Some m'
                        /\ n_bm_faces m' = n_bm_faces m
                        /\ n_bm_unique_verts m'
                           = (if Z.of_nat i =? new_owner
                              then tgset_add v
                                     (if Z.of_nat i =? v_node r
                                      then tgset_remove v (n_bm_unique_verts m)
                                      else n_bm_unique_verts m)
                              else if Z.of_nat i =? v_node r
                                   then tgset_remove v (n_bm_unique_verts m)
                                   else n_bm_unique_verts m)).
  { intros i m Hm.
    destruct (fmap_lookup_transfer n_bm_faces (nodes p) _ _ i m Hf (length_fmap _ _) Hm)
      as (m' & Hm' & Hfi).
    exists m'. split; [exact Hm' |].
    rewrite list_lookup_fmap, Hm in Hfi. injection Hfi as Hfi. split; [congruence |].
    assert (Hl : (n_bm_unique_verts <$> nodes (pbvh_bmesh_vert_ownership_transfer p new_owner v))
                   !! i = Some (n_bm_unique_verts m'))
      by (rewrite list_lookup_fmap, Hm'; reflexivity).
    rewrite Hv in Hl.
    rewrite (lookup_alter_at (tgset_add v) _ new_owner i
               (if Z.of_nat i =? v_node r then tgset_remove v (n_bm_unique_verts m)
                else n_bm_unique_verts m)) in Hl.
    - injection Hl as <-. reflexivity.
    - apply lookup_alter_at. rewrite list_lookup_fmap, Hm. reflexivity. }
  split.
  - destruct (Hpt (Z.to_nat new_owner) n Hn) as (n' & Hn' & Hfn & Hvn).
    exists n'. split; [apply node_at_lookup; split; assumption |].
    split; [| exact Hfn]. rewrite Hvn.
    replace (Z.of_nat (Z.to_nat new_owner) =? new_owner) with true
      by (symmetry; apply Z.eqb_eq; lia).
    apply tgset_add_in. right. reflexivity.
  - intros i m Hi Hm. destruct (Hpt i m Hm) as (m' & Hm' & Hfm & Hvm).
    exists m'. split; [exact Hm' |]. split; [exact Hfm |]. rewrite Hvm.
    replace (Z.of_nat i =? new_owner) with false by (symmetry; apply Z.eqb_neq; exact Hi).
    reflexivity.
Qed.

Lemma face_find_map_node (f : face) (x : Z) (fs : list (face * BMFace)) (g : face) :
  face_find (map (fun pf => if Pos.eqb (fst pf) f then (fst pf, set_f_node (snd pf) x) else pf) fs) g
  = if Pos.eqb g f then option_map (fun r => set_f_node r x) (face_find fs g)
    else face_find fs g.
Proof.
  induction fs as [| [h r] fs IH]; cbn [map face_find fst snd].
  - destruct (Pos.eqb g f); reflexivity.
  - destruct (Pos.eqb h f) eqn:Hhf; cbn [face_find fst snd].
    + destruct (Pos.eqb h g) eqn:Hhg.
      * apply Pos.eqb_eq in Hhf, Hhg. subst. rewrite Pos.eqb_refl. reflexivity.
      * exact IH.
    + destruct (Pos.eqb h g) eqn:Hhg.
      * apply Pos.eqb_eq in Hhg. subst. rewrite Hhf. reflexivity.
      * exact IH.
Qed.

Lemma pbvh_bmesh_face_remove_fget (p : PBVH) (f : face) (cv eot : bool) (n : PBVHNode) :
  node_at p (f_node (fget (bm p) f)) = Some n ->
  flag_test (n_flag n) PBVH_Leaf = true ->
  forall g,
    fget (bm (pbvh_bmesh_face_remove p f cv eot)) g
    = if Pos.eqb g f
      then match face_find (bm_faces (bm p)) g with
           | Some r => set_f_node r DYNTOPO_NODE_NONE
           | None => BMFace_blank
           end
      else fget (bm p) g.
Proof.
  intros Hn Hleaf g.
  destruct (pbvh_bmesh_face_remove_frame p f cv eot n Hn Hleaf) as (_ & Hf & _).
  unfold fget. rewrite Hf, face_find_map_node.
  destruct (Pos.eqb g f); [| reflexivity].
  destruct (face_find (bm_faces (bm p)) g); reflexivity.
Qed.

(** X4.  When the node recorded on a face is a leaf of the tree,
    pbvh_bmesh_face_remove sets the face's node to DYNTOPO_NODE_NONE and
    takes the face out of that leaf's face set, which keeps all its other
    members. The corners of the face, every other face and every edge stay
    as they were. *)
Theorem pbvh_bmesh_face_remove_effect (p : PBVH) (f : face) (check_verts eot : bool)
  (n : PBVHNode) :
  node_at p (f_node (fget (bm p) f)) = Some n ->
  flag_test (n_flag n) PBVH_Leaf = true ->
  f_node (fget (bm (pbvh_bmesh_face_remove p f check_verts eot)) f) = DYNTOPO_NODE_NONE
  /\ f_verts (fget (bm (pbvh_bmesh_face_remove p f check_verts eot)) f) = f_verts (fget (bm p) f)
  /\ (forall g, g <> f ->
        fget (bm (pbvh_bmesh_face_remove p f check_verts eot)) g = fget (bm p) g)
  /\ bm_edges (bm (pbvh_bmesh_face_remove p f check_verts eot)) = bm_edges (bm p)
  /\ exists n', node_at (pbvh_bmesh_face_remove p f check_verts eot) (f_node (fget (bm p) f))
                = Some n'
                /\ ~ In f (n_bm_faces n')
                /\ forall g, g <> f -> (In g (n_bm_faces n') <-> In g (n_bm_faces n)).
Proof.
  intros Hn Hleaf.
  destruct (pbvh_bmesh_face_remove_frame p f check_verts eot n Hn Hleaf) as (He & Hf & Hnf).
  pose proof (pbvh_bmesh_face_remove_fget p f check_verts eot n Hn Hleaf) as Hfg.
  apply node_at_lookup in Hn. destruct Hn as [Hpos Hn].
  split.
  { rewrite Hfg, Pos.eqb_refl. destruct (face_find (bm_faces (bm p)) f); reflexivity. }
  split.
  { rewrite Hfg, Pos.eqb_refl. unfold fget.
    destruct (face_find (bm_faces (bm p)) f); reflexivity. }
  split.
  { intros g Hg. rewrite Hfg.
    replace (Pos.eqb g f) with false by (symmetry; apply Pos.eqb_neq; exact Hg). reflexivity. }
  split; [exact He |].
  destruct (fmap_lookup_transfer n_bm_faces (nodes p) _ _ (Z.to_nat (f_node (fget (bm p) f))) n
              Hnf (eq_trans (length_alter _ _ _) (length_fmap _ _)) Hn) as (n' & Hn' & Hfi).
  exists n'. split; [apply node_at_lookup; split; assumption |].
  rewrite list_lookup_alter in Hfi.
  destruct (decide (Z.to_nat (f_node (fget (bm p) f)) = Z.to_nat (f_node (fget (bm p) f))))
    as [_ | Hne]; [| congruence].
  rewrite list_lookup_fmap, Hn in Hfi. cbn in Hfi. injection Hfi as Hfi. rewrite <- Hfi.
  split; [apply tgset_remove_not_in |].
  intros g Hg. rewrite tgset_remove_in. tauto.
Qed.

(** X5.  pbvh_bmesh_face_remove changes nothing when the node recorded on the
    face is not a node of the tree or is not a leaf, and removing the same
    face a second time changes nothing more than the first removal did. *)
Theorem pbvh_bmesh_face_remove_twice (p : PBVH) (f : face) (cv eot cv' eot' : bool) :
  (node_at p (f_node (fget (bm p) f)) = None -> pbvh_bmesh_face_remove p f cv eot = p)
  /\ (forall n, node_at p (f_node (fget (bm p) f)) = Some n ->
                flag_test (n_flag n) PBVH_Leaf = false ->
                pbvh_bmesh_face_remove p f cv eot = p)
  /\ pbvh_bmesh_face_remove (pbvh_bmesh_face_remove p f cv eot) f cv' eot'
     = pbvh_bmesh_face_remove p f cv eot.
Proof.
  assert (Hnone : forall p0 c1 c2,
             node_at p0 (f_node (fget (bm p0) f)) = None ->
             pbvh_bmesh_face_remove p0 f c1 c2 = p0).
  { intros p0 c1 c2 H0. unfold pbvh_bmesh_face_remove, pbvh_bmesh_node_index_from_face.
    rewrite H0. reflexivity. }
  assert (Hnl : forall p0 c1 c2 n,
             node_at p0 (f_node (fget (bm p0) f)) = Some n ->
             flag_test (n_flag n) PBVH_Leaf = false ->
             pbvh_bmesh_face_remove p0 f c1 c2 = p0).
  { intros p0 c1 c2 n H0 Hl. unfold pbvh_bmesh_face_remove, pbvh_bmesh_node_index_from_face.
    rewrite H0, Hl. reflexivity. }
  split; [apply Hnone |]. split; [apply Hnl |].
  destruct (node_at p (f_node (fget (bm p) f))) as [n | ] eqn:Hn.
  - destruct (flag_test (n_flag n) PBVH_Leaf) eqn:Hleaf.
    + apply Hnone.
      rewrite (pbvh_bmesh_face_remove_fget p f cv eot n Hn Hleaf), Pos.eqb_refl.
      destruct (face_find (bm_faces (bm p)) f); reflexivity.
    + rewrite (Hnl p cv eot n Hn Hleaf). apply (Hnl p cv' eot' n Hn Hleaf).
  - rewrite (Hnone p cv eot Hn). apply (Hnone p cv' eot' Hn).
Qed.

Lemma use_count_loop_spec (m : BMesh) (ni : Z) (fs : list face) :
  forall count_max count : Z,
    count < count_max ->
    use_count_loop m ni fs count_max count
    = Z.min count_max
        (count + Z.of_nat (length (List.filter (fun f => f_node (fget m f) =? ni) fs))).
Proof.
  induction fs as [| f fs IH]; intros count_max count Hlt; cbn [use_count_loop List.filter].
  - cbn [length]. lia.
  - destruct (f_node (fget m f) =? ni); cbn [length].
    + destruct (count + 1 =? count_max) eqn:Heq.
      * apply Z.eqb_eq in Heq. lia.
      * apply Z.eqb_neq in Heq. rewrite IH by lia. lia.
    + apply IH. exact Hlt.
Qed.

(** X6.  For a positive count_max, pbvh_bmesh_node_vert_use_count_at_most returns
    the number of faces around the vertex that belong to the node, capped at
    count_max. For n >= 0, pbvh_bmesh_node_vert_use_count_is_equal is true
    exactly when that number of faces equals n. *)
Theorem pbvh_bmesh_node_vert_use_count_exact (p : PBVH) (ni : Z) (v : vert) :
  (forall count_max, 0 < count_max ->
     pbvh_bmesh_node_vert_use_count_at_most p ni v count_max
     = Z.min count_max
         (Z.of_nat (length (List.filter (fun f => f_node (fget (bm p) f) =? ni)
                                        (faces_of_vert (bm p) v)))))
  /\ (forall n, 0 <= n ->
        pbvh_bmesh_node_vert_use_count_is_equal p ni v n
        = (Z.of_nat (length (List.filter (fun f => f_node (fget (bm p) f) =? ni)
                                         (faces_of_vert (bm p) v))) =? n)).
Proof.
  assert (H1 : forall count_max, 0 < count_max ->
     pbvh_bmesh_node_vert_use_count_at_most p ni v count_max
     = Z.min count_max
         (Z.of_nat (length (List.filter (fun f => f_node (fget (bm p) f) =? ni)
                                        (faces_of_vert (bm p) v))))).
  { intros count_max Hpos. unfold pbvh_bmesh_node_vert_use_count_at_most.
    rewrite use_count_loop_spec by exact Hpos. reflexivity. }
  split; [exact H1 |].
  intros n Hn. unfold pbvh_bmesh_node_vert_use_count_is_equal. rewrite H1 by lia.
  set (k := Z.of_nat (length (List.filter (fun f => f_node (fget (bm p) f) =? ni)
                                          (faces_of_vert (bm p) v)))).
  destruct (k =? n) eqn:Hk.
  - apply Z.eqb_eq in Hk. apply Z.eqb_eq. lia.
  - apply Z.eqb_neq in Hk. apply Z.eqb_neq. lia.
Qed.

Lemma flag_test_lor (a b flag : Z) :
  flag_test (Z.lor a b) flag = flag_test a flag || flag_test b flag.
Proof.
  unfold flag_test. rewrite Z.land_lor_distr_l.
  destruct (Z.land a flag =? 0) eqn:Ha, (Z.land b flag =? 0) eqn:Hb; cbn [negb orb];
    rewrite ?negb_true_iff, ?negb_false_iff.
  - apply Z.eqb_eq in Ha, Hb. rewrite Ha, Hb. reflexivity.
  - apply Z.eqb_neq in Hb. apply Z.eqb_neq. intros H0. apply Z.lor_eq_0_iff in H0. tauto.
  - apply Z.eqb_neq in Ha. apply Z.eqb_neq. intros H0. apply Z.lor_eq_0_iff in H0. tauto.
  - apply Z.eqb_neq in Ha. apply Z.eqb_neq. intros H0. apply Z.lor_eq_0_iff in H0. tauto.
Qed.

Lemma find_app_one {A : Type} (f : A -> bool) (l : list A) (x : A) :
  find f (l ++ [x])
  = match find f l with Some y => Some y | None => if f x then Some x else None end.
Proof.
  induction l as [| y l IH]; cbn [app find]; [reflexivity |].
  destruct (f y); [reflexivity | exact IH].
Qed.

Lemma edge_is_refl_pair (a b : vert) (fl : Z) : edge_is (mkBMEdge a b fl) a b = true.
Proof. unfold edge_is. cbn [e_v1 e_v2]. rewrite !Pos.eqb_refl. reflexivity. Qed.

(** A look-up that finds an edge keeps finding it when edges are added
    at the end of the list. *)
Lemma BM_edge_exists_app (m : BMesh) (es : list BMEdge) (a b : vert) (e : edge) :
  BM_edge_exists m a b = Some e ->
  BM_edge_exists (set_bm_edges m (bm_edges m ++ es)) a b = Some e.
Proof.
  unfold BM_edge_exists. destruct (Pos.eqb a b); [discriminate |].
  cbn [bm_edges set_bm_edges].
  destruct (find (fun r => edge_is r a b) (bm_edges m)) as [r | ] eqn:Hf; [| discriminate].
  intros Heq.
  assert (Hfa : find (fun r => edge_is r a b) (bm_edges m ++ es) = Some r).
  { clear Heq. induction (bm_edges m) as [| y l IH]; [discriminate |].
    cbn [app find] in *. destruct (edge_is y a b); [exact Hf | apply IH; exact Hf]. }
  rewrite Hfa. exact Heq.
Qed.

Lemma bmesh_edge_create_log_spec (p : PBVH) (v1 v2 : vert) (e_example : option edge) :
  v1 <> v2 ->
  BM_edge_exists (bm (fst (bmesh_edge_create_log p v1 v2 e_example))) v1 v2
  = Some (snd (bmesh_edge_create_log p v1 v2 e_example))
  /\ (forall e0, BM_edge_exists (bm p) v1 v2 = Some e0 ->
                 bmesh_edge_create_log p v1 v2 e_example = (p, e0))
  /\ (BM_edge_exists (bm p) v1 v2 = None ->
      exists fl, bm_edges (bm (fst (bmesh_edge_create_log p v1 v2 e_example)))
                 = bm_edges (bm p) ++ [mkBMEdge v1 v2 fl])
  /\ (forall a b e0, BM_edge_exists (bm p) a b = Some e0 ->
        BM_edge_exists (bm (fst (bmesh_edge_create_log p v1 v2 e_example))) a b = Some e0)
  /\ bm_faces (bm (fst (bmesh_edge_create_log p v1 v2 e_example))) = bm_faces (bm p)
  /\ bm_verts (bm (fst (bmesh_edge_create_log p v1 v2 e_example))) = bm_verts (bm p)
  /\ nodes (fst (bmesh_edge_create_log p v1 v2 e_example)) = nodes p.
Proof.
  intros Hne. unfold bmesh_edge_create_log.
  destruct (BM_edge_exists (bm p) v1 v2) as [e | ] eqn:He; cbn [fst snd].
  - split; [exact He |]. split; [intros e0 H0; congruence |].
    split; [discriminate |]. repeat split. intros a b e0 H0. exact H0.
  - split.
    { unfold BM_edge_exists in *. apply Pos.eqb_neq in Hne. rewrite Hne in *.
      unfold BM_edge_create. cbn [bm set_bm bm_edges set_bm_edges].
      rewrite find_app_one.
      destruct (find (fun r => edge_is r v1 v2) (bm_edges (bm p))); [discriminate |].
      rewrite edge_is_refl_pair. reflexivity. }
    split; [discriminate |].
    split; [intros _; eexists; reflexivity |].
    split; [| repeat split].
    intros a b e0 H0. unfold BM_edge_create. cbn [bm set_bm].
    apply BM_edge_exists_app. exact H0.
Qed.

Lemma node_at_node_update (p : PBVH) (ni : Z) (g : PBVHNode -> PBVHNode) (k : Z) :
  node_at (node_update p ni g) k
  = if k =? ni then option_map g (node_at p k) else node_at p k.
Proof.
  unfold node_at, node_update.
  destruct (k <? 0) eqn:Hk.
  - destruct (ni <? 0); destruct (k =? ni); reflexivity.
  - apply Z.ltb_ge in Hk. destruct (ni <? 0) eqn:Hn.
    + apply Z.ltb_lt in Hn. replace (k =? ni) with false by (symmetry; apply Z.eqb_neq; lia).
      reflexivity.
    + apply Z.ltb_ge in Hn. cbn [nodes set_nodes]. rewrite list_lookup_alter.
      destruct (decide (Z.to_nat ni = Z.to_nat k)) as [Heq | Hne].
      * replace (k =? ni) with true by (symmetry; apply Z.eqb_eq; lia).
        rewrite Heq. reflexivity.
      * replace (k =? ni) with false by (symmetry; apply Z.eqb_neq; lia). reflexivity.
Qed.

Lemma node_at_set_bm (p : PBVH) (m : BMesh) (k : Z) : node_at (set_bm p m) k = node_at p k.
Proof. reflexivity. Qed.

Lemma face_find_app (fs : list (face * BMFace)) (f : face) (r : BMFace) (g : face) :
  face_find (fs ++ [(f, r)]) g
  = match face_find fs g with
    | Some x => Some x
    | None => if Pos.eqb f g then Some r else None
    end.
Proof.
  induction fs as [| [h x] fs IH]; cbn [app face_find]; [reflexivity |].
  destruct (Pos.eqb h g); [reflexivity | exact IH].
Qed.

Lemma face_find_face_update (m : BMesh) (f : face) (g : BMFace -> BMFace) (h : face) :
  face_find (bm_faces (face_update m f g)) h
  = if Pos.eqb h f then option_map g (face_find (bm_faces m) h) else face_find (bm_faces m) h.
Proof.
  unfold face_update. cbn [bm_faces set_bm_faces].
  induction (bm_faces m) as [| [k r] fs IH]; cbn [map face_find fst snd].
  - destruct (Pos.eqb h f); reflexivity.
  - destruct (Pos.eqb k f) eqn:Hkf; cbn [face_find fst snd].
    + destruct (Pos.eqb k h) eqn:Hkh.
      * apply Pos.eqb_eq in Hkf, Hkh. subst. rewrite Pos.eqb_refl. reflexivity.
      * exact IH.
    + destruct (Pos.eqb k h) eqn:Hkh.
      * apply Pos.eqb_eq in Hkh. subst. rewrite Hkf. reflexivity.
      * exact IH.
Qed.

Lemma fget_face_update (m : BMesh) (f : face) (g : BMFace -> BMFace) (h : face) :
  fget (face_update m f g) h
  = if Pos.eqb h f
    then match face_find (bm_faces m) h with Some r => g r | None => BMFace_blank end
    else fget m h.
Proof.
  unfold fget. rewrite face_find_face_update.
  destruct (Pos.eqb h f); [| reflexivity]. destruct (face_find (bm_faces m) h); reflexivity.
Qed.

(** [bm_edges_from_tri] only adds edges. *)
Lemma bm_edges_from_tri_frame (p : PBVH) (v_tri : list vert) :
  bm_faces (bm (fst (bm_edges_from_tri p v_tri))) = bm_faces (bm p)
  /\ bm_verts (bm (fst (bm_edges_from_tri p v_tri))) = bm_verts (bm p)
  /\ bm_next (bm (fst (bm_edges_from_tri p v_tri))) = bm_next (bm p)
  /\ nodes (fst (bm_edges_from_tri p v_tri)) = nodes p
  /\ (forall a b e, BM_edge_exists (bm p) a b = Some e ->
        BM_edge_exists (bm (fst (bm_edges_from_tri p v_tri))) a b = Some e).
Proof.
  unfold bm_edges_from_tri.
  assert (Hstep : forall (p0 : PBVH) (a b : vert),
             bm_faces (bm (fst (bmesh_edge_create_log p0 a b None))) = bm_faces (bm p0)
             /\ bm_verts (bm (fst (bmesh_edge_create_log p0 a b None))) = bm_verts (bm p0)
             /\ bm_next (bm (fst (bmesh_edge_create_log p0 a b None))) = bm_next (bm p0)
             /\ nodes (fst (bmesh_edge_create_log p0 a b None)) = nodes p0
             /\ (forall x y e, BM_edge_exists (bm p0) x y = Some e ->
                   BM_edge_exists (bm (fst (bmesh_edge_create_log p0 a b None))) x y = Some e)).
  { intros p0 a b. unfold bmesh_edge_create_log.
    destruct (BM_edge_exists (bm p0) a b); cbn [fst]; [repeat split; auto |].
    repeat split. intros x y e He. unfold BM_edge_create. cbn [bm set_bm].
    apply BM_edge_exists_app. exact He. }
  pose proof (Hstep p (tri_corner v_tri 0) (tri_corner v_tri 1)) as H1.
  destruct (bmesh_edge_create_log p (tri_corner v_tri 0) (tri_corner v_tri 1) None) as [p1 e0].
  pose proof (Hstep p1 (tri_corner v_tri 1) (tri_corner v_tri 2)) as H2.
  destruct (bmesh_edge_create_log p1 (tri_corner v_tri 1) (tri_corner v_tri 2) None) as [p2 e1].
  pose proof (Hstep p2 (tri_corner v_tri 2) (tri_corner v_tri 0)) as H3.
  destruct (bmesh_edge_create_log p2 (tri_corner v_tri 2) (tri_corner v_tri 0) None) as [p3 e2].
  cbn [fst] in *.
  destruct H1 as (A1 & B1 & C1 & D1 & E1), H2 as (A2 & B2 & C2 & D2 & E2),
    H3 as (A3 & B3 & C3 & D3 & E3).
  split; [congruence |]. split; [congruence |]. split; [congruence |]. split; [congruence |].
  intros a b e He. apply E3, E2, E1. exact He.
Qed.

(** After [bm_edges_from_tri] the three sides of a triangle with three
    different corners are edges of the mesh. *)
Lemma bm_edges_from_tri_sides (p : PBVH) (a b c : vert) :
  a <> b -> b <> c -> c <> a ->
  is_Some (BM_edge_exists (bm (fst (bm_edges_from_tri p [a; b; c]))) a b)
  /\ is_Some (BM_edge_exists (bm (fst (bm_edges_from_tri p [a; b; c]))) b c)
  /\ is_Some (BM_edge_exists (bm (fst (bm_edges_from_tri p [a; b; c]))) c a).
Proof.
  intros Hab Hbc Hca. unfold bm_edges_from_tri, tri_corner. cbn [nth].
  pose proof (bmesh_edge_create_log_spec p a b None Hab) as (H1 & _).
  destruct (bmesh_edge_create_log p a b None) as [p1 e0]. cbn [fst snd] in H1.
  pose proof (bmesh_edge_create_log_spec p1 b c None Hbc) as (H2 & _ & _ & S2 & _).
  destruct (bmesh_edge_create_log p1 b c None) as [p2 e1]. cbn [fst snd] in H2, S2.
  pose proof (bmesh_edge_create_log_spec p2 c a None Hca) as (H3 & _ & _ & S3 & _).
  destruct (bmesh_edge_create_log p2 c a None) as [p3 e2]. cbn [fst snd] in H3, S3.
  cbn [fst]. split; [| split].
  - exists e0. apply S3, S2. exact H1.
  - exists e1. apply S3. exact H2.
  - exists e2. exact H3.
Qed.

Lemma bm_faces_pbvh_vert_update (p : PBVH) (v : vert) (g : BMVert -> BMVert) :
  bm_faces (bm (pbvh_vert_update p v g)) = bm_faces (bm p).
Proof. reflexivity. Qed.

Lemma bm_edges_pbvh_vert_update (p : PBVH) (v : vert) (g : BMVert -> BMVert) :
  bm_edges (bm (pbvh_vert_update p v g)) = bm_edges (bm p).
Proof. reflexivity. Qed.

Lemma nodes_pbvh_vert_update (p : PBVH) (v : vert) (g : BMVert -> BMVert) :
  nodes (pbvh_vert_update p v g) = nodes p.
Proof. reflexivity. Qed.

Lemma node_at_pbvh_vert_update (p : PBVH) (v : vert) (g : BMVert -> BMVert) (k : Z) :
  node_at (pbvh_vert_update p v g) k = node_at p k.
Proof. reflexivity. Qed.

Lemma bm_faces_pbvh_mv_flag_enable (p : PBVH) (v : vert) (flag : Z) :
  bm_faces (bm (pbvh_mv_flag_enable p v flag)) = bm_faces (bm p).
Proof. reflexivity. Qed.

Lemma bm_edges_pbvh_mv_flag_enable (p : PBVH) (v : vert) (flag : Z) :
  bm_edges (bm (pbvh_mv_flag_enable p v flag)) = bm_edges (bm p).
Proof. reflexivity. Qed.

Lemma nodes_pbvh_mv_flag_enable (p : PBVH) (v : vert) (flag : Z) :
  nodes (pbvh_mv_flag_enable p v flag) = nodes p.
Proof. reflexivity. Qed.

Lemma node_at_pbvh_mv_flag_enable (p : PBVH) (v : vert) (flag : Z) (k : Z) :
  node_at (pbvh_mv_flag_enable p v flag) k = node_at p k.
Proof. reflexivity. Qed.

Lemma node_at_faces_flag_enable (p : PBVH) (ni flag k : Z) :
  option_map n_bm_faces (node_at (node_flag_enable p ni flag) k)
  = option_map n_bm_faces (node_at p k).
Proof.
  unfold node_flag_enable. rewrite node_at_node_update.
  destruct (k =? ni); [| reflexivity]. destruct (node_at p k); reflexivity.
Qed.

Lemma node_at_hidden_flag_enable (p : PBVH) (ni flag k : Z) :
  flag_test flag PBVH_FullyHidden = false ->
  option_map (fun n => flag_test (n_flag n) PBVH_FullyHidden)
             (node_at (node_flag_enable p ni flag) k)
  = option_map (fun n => flag_test (n_flag n) PBVH_FullyHidden) (node_at p k).
Proof.
  intros Hf. unfold node_flag_enable. rewrite node_at_node_update.
  destruct (k =? ni); [| reflexivity]. destruct (node_at p k) as [n | ]; [| reflexivity].
  cbn [option_map n_flag set_n_flag]. unfold flag_enable.
  rewrite flag_test_lor, Hf, orb_false_r. reflexivity.
Qed.

(** A leaf that is not fully hidden stays so under [face_create_vert],
    which keeps the mesh faces and the face tables. *)
Lemma face_create_vert_frame (ni : Z) (b : bool) (p : PBVH) (v : vert) :
  bm_faces (bm (face_create_vert ni b p v)) = bm_faces (bm p)
  /\ bm_edges (bm (face_create_vert ni b p v)) = bm_edges (bm p)
  /\ (forall k, option_map n_bm_faces (node_at (face_create_vert ni b p v) k)
                = option_map n_bm_faces (node_at p k))
  /\ (forall k, option_map (fun n => flag_test (n_flag n) PBVH_FullyHidden)
                           (node_at (face_create_vert ni b p v) k)
                = option_map (fun n => flag_test (n_flag n) PBVH_FullyHidden) (node_at p k)).
Proof.
  unfold face_create_vert.
  rewrite bm_faces_pbvh_mv_flag_enable, bm_edges_pbvh_mv_flag_enable.
  destruct (b && (pbvh_bmesh_node_index_from_vert p v =? DYNTOPO_NODE_NONE)).
  - rewrite bm_node_flag_enable, bm_faces_pbvh_vert_update, bm_edges_pbvh_vert_update,
      bm_node_update.
    split; [reflexivity |]. split; [reflexivity |].
    split; intros k; rewrite node_at_pbvh_mv_flag_enable.
    + rewrite node_at_faces_flag_enable, node_at_pbvh_vert_update, node_at_node_update.
      destruct (k =? ni); [| reflexivity]. destruct (node_at p k); reflexivity.
    + rewrite node_at_hidden_flag_enable by (vm_compute; reflexivity).
      rewrite node_at_pbvh_vert_update, node_at_node_update.
      destruct (k =? ni); [| reflexivity]. destruct (node_at p k); reflexivity.
  - repeat split.
Qed.

Lemma face_create_verts_frame (ni : Z) (b : bool) (vs : list vert) :
  forall p : PBVH,
    bm_faces (bm (fold_left (face_create_vert ni b) vs p)) = bm_faces (bm p)
    /\ bm_edges (bm (fold_left (face_create_vert ni b) vs p)) = bm_edges (bm p)
    /\ (forall k, option_map n_bm_faces (node_at (fold_left (face_create_vert ni b) vs p) k)
                  = option_map n_bm_faces (node_at p k))
    /\ (forall k, option_map (fun n => flag_test (n_flag n) PBVH_FullyHidden)
                             (node_at (fold_left (face_create_vert ni b) vs p) k)
                  = option_map (fun n => flag_test (n_flag n) PBVH_FullyHidden) (node_at p k)).
Proof.
  induction vs as [| v vs IH]; intros p; cbn [fold_left]; [repeat split |].
  destruct (IH (face_create_vert ni b p v)) as (A & B & C & D).
  destruct (face_create_vert_frame ni b p v) as (A' & B' & C' & D').
  split; [congruence |]. split; [congruence |].
  split; intros k; [rewrite C; apply C' | rewrite D; apply D'].
Qed.

Lemma BM_edge_exists_edges (m m' : BMesh) (a b : vert) :
  bm_edges m' = bm_edges m -> BM_edge_exists m' a b = BM_edge_exists m a b.
Proof. intros He. unfold BM_edge_exists. rewrite He. reflexivity. Qed.

(** [bmesh_face_create_edge_log]: the face added is numbered
    [bm_next], the faces before it are as they were, and edges are only
    added. *)
Lemma bmesh_face_create_edge_log_frame (p : PBVH) (v_tri : list vert) (have_e_tri : bool)
  (f_example : option face) :
  snd (bmesh_face_create_edge_log p v_tri have_e_tri f_example) = bm_next (bm p)
  /\ nodes (fst (bmesh_face_create_edge_log p v_tri have_e_tri f_example)) = nodes p
  /\ bm_edges (bm (fst (bmesh_face_create_edge_log p v_tri have_e_tri f_example)))
     = bm_edges (bm (if have_e_tri then p else fst (bm_edges_from_tri p v_tri)))
  /\ (forall g, g <> bm_next (bm p) ->
        face_find (bm_faces (bm (fst (bmesh_face_create_edge_log p v_tri have_e_tri f_example)))) g
        = face_find (bm_faces (bm p)) g)
  /\ (face_find (bm_faces (bm p)) (bm_next (bm p)) = None ->
      exists r, face_find
                  (bm_faces (bm (fst (bmesh_face_create_edge_log p v_tri have_e_tri f_example))))
                  (bm_next (bm p)) = Some r
                /\ f_verts r = v_tri).
Proof.
  unfold bmesh_face_create_edge_log.
  set (p1 := if have_e_tri then p else fst (bm_edges_from_tri p v_tri)).
  assert (H1 : bm_faces (bm p1) = bm_faces (bm p) /\ bm_next (bm p1) = bm_next (bm p)
               /\ nodes p1 = nodes p).
  { subst p1. destruct have_e_tri; [repeat split |].
    destruct (bm_edges_from_tri_frame p v_tri) as (A & _ & C & D & _). repeat split; assumption. }
  destruct H1 as (Hf & Hnx & Hn).
  unfold BM_face_create. rewrite Hnx.
  set (r := match f_example with
            | Some ex => mkBMFace v_tri (f_no (fget (bm p1) ex)) (f_hflag (fget (bm p1) ex))
                                  (f_node (fget (bm p1) ex)) 0
            | None => mkBMFace v_tri zero_v3 0 DYNTOPO_NODE_NONE 0
            end).
  assert (Hr : f_verts r = v_tri) by (subst r; destruct f_example; reflexivity).
  set (m := mkBMesh (bm_verts (bm p1)) (bm_edges (bm p1))
                    (bm_faces (bm p1) ++ [(bm_next (bm p), r)]) (Pos.succ (bm_next (bm p)))).
  cbn [fst snd bm set_bm nodes].
  split; [reflexivity |]. split; [exact Hn |].
  split; [destruct f_example; reflexivity |].
  split.
  - intros g Hg.
    assert (Hm : face_find (bm_faces m) g = face_find (bm_faces (bm p)) g).
    { subst m. cbn [bm_faces]. rewrite face_find_app, Hf.
      destruct (face_find (bm_faces (bm p)) g); [reflexivity |].
      replace (Pos.eqb (bm_next (bm p)) g) with false
        by (symmetry; apply Pos.eqb_neq; congruence).
      reflexivity. }
    destruct f_example; [| exact Hm].
    rewrite face_find_face_update.
    replace (Pos.eqb g (bm_next (bm p))) with false by (symmetry; apply Pos.eqb_neq; exact Hg).
    exact Hm.
  - intros Hfresh.
    assert (Hm : face_find (bm_faces m) (bm_next (bm p)) = Some r).
    { subst m. cbn [bm_faces]. rewrite face_find_app, Hf, Hfresh, Pos.eqb_refl. reflexivity. }
    destruct f_example as [ex | ].
    + rewrite face_find_face_update, Pos.eqb_refl, Hm. cbn [option_map].
      eexists. split; [reflexivity |]. exact Hr.
    + exists r. split; [exact Hm | exact Hr].
Qed.

Lemma pbvh_bmesh_face_create_spec (p : PBVH) (ni : Z) (v_tri : list vert) (have_e_tri : bool)
  (f_example : option face) (ensure_verts : bool) (n : PBVHNode) :
  node_at p ni = Some n ->
  face_find (bm_faces (bm p)) (bm_next (bm p)) = None ->
  snd (pbvh_bmesh_face_create p ni v_tri have_e_tri f_example ensure_verts) = bm_next (bm p)
  /\ f_verts (fget (bm (fst (pbvh_bmesh_face_create p ni v_tri have_e_tri f_example ensure_verts)))
                   (bm_next (bm p))) = v_tri
  /\ f_node (fget (bm (fst (pbvh_bmesh_face_create p ni v_tri have_e_tri f_example ensure_verts)))
                  (bm_next (bm p))) = ni
  /\ (forall g, g <> bm_next (bm p) ->
        fget (bm (fst (pbvh_bmesh_face_create p ni v_tri have_e_tri f_example ensure_verts))) g
        = fget (bm p) g)
  /\ (exists n',
        node_at (fst (pbvh_bmesh_face_create p ni v_tri have_e_tri f_example ensure_verts)) ni
        = Some n'
        /\ (forall g, In g (n_bm_faces n') <-> In g (n_bm_faces n) \/ g = bm_next (bm p))
        /\ flag_test (n_flag n') PBVH_FullyHidden = false)
  /\ bm_edges (bm (fst (pbvh_bmesh_face_create p ni v_tri have_e_tri f_example ensure_verts)))
     = bm_edges (bm (if have_e_tri then p else fst (bm_edges_from_tri p v_tri))).
Proof.
  intros Hn Hfresh. unfold pbvh_bmesh_face_create.
  destruct (bmesh_face_create_edge_log_frame p v_tri have_e_tri f_example)
    as (Hf & Hnodes & Hedges & Hold & Hnew).
  destruct (bmesh_face_create_edge_log p v_tri have_e_tri f_example) as [p1 f].
  cbn [fst snd] in *. subst f.
  set (p2 := node_update p1 ni
               (fun n0 => set_n_bm_faces n0 (tgset_add (bm_next (bm p)) (n_bm_faces n0)))).
  set (p3 := set_bm p2 (face_update (bm p2) (bm_next (bm p)) (fun r => set_f_node r ni))).
  set (p4 := node_flag_enable p3 ni
               (Z.lor (Z.lor (Z.lor PBVH_UpdateDrawBuffers PBVH_UpdateNormals) PBVH_UpdateTris)
                      PBVH_UpdateOtherVerts)).
  set (p5 := node_flag_disable p4 ni PBVH_FullyHidden).
  destruct (face_create_verts_frame ni ensure_verts v_tri p5) as (Ffaces & Fedges & Fnf & Fhid).
  assert (Hbm5 : bm p5 = face_update (bm p1) (bm_next (bm p)) (fun r => set_f_node r ni)).
  { subst p5 p4 p3 p2. rewrite bm_node_flag_disable, bm_node_flag_enable. cbn [bm set_bm].
    rewrite bm_node_update. reflexivity. }
  assert (Hfg : forall g,
             fget (bm (fold_left (face_create_vert ni ensure_verts) v_tri p5)) g
             = fget (face_update (bm p1) (bm_next (bm p)) (fun r => set_f_node r ni)) g).
  { intros g. unfold fget. rewrite Ffaces, Hbm5. reflexivity. }
  split; [reflexivity |].
  destruct (Hnew Hfresh) as (r & Hr & Hrv).
  split; [rewrite Hfg, fget_face_update, Pos.eqb_refl, Hr; exact Hrv |].
  split; [rewrite Hfg, fget_face_update, Pos.eqb_refl, Hr; reflexivity |].
  split.
  { intros g Hg. rewrite Hfg, fget_face_update.
    replace (Pos.eqb g (bm_next (bm p))) with false by (symmetry; apply Pos.eqb_neq; exact Hg).
    unfold fget. rewrite (Hold g Hg). reflexivity. }
  split.
  { assert (Hn1 : node_at p1 ni = Some n) by (unfold node_at in *; rewrite Hnodes; exact Hn).
    assert (Hn5 : node_at p5 ni
                  = Some (set_n_flag
                            (set_n_flag
                               (set_n_bm_faces n (tgset_add (bm_next (bm p)) (n_bm_faces n)))
                               (flag_enable (n_flag n)
                                  (Z.lor (Z.lor (Z.lor PBVH_UpdateDrawBuffers PBVH_UpdateNormals)
                                                PBVH_UpdateTris) PBVH_UpdateOtherVerts)))
                            (flag_disable
                               (flag_enable (n_flag n)
                                  (Z.lor (Z.lor (Z.lor PBVH_UpdateDrawBuffers PBVH_UpdateNormals)
                                                PBVH_UpdateTris) PBVH_UpdateOtherVerts))
                               PBVH_FullyHidden))).
    { subst p5 p4 p3 p2. unfold node_flag_disable, node_flag_enable.
      rewrite !node_at_node_update, Z.eqb_refl, node_at_set_bm, node_at_node_update, Z.eqb_refl,
        Hn1. reflexivity. }
    pose proof (Fnf ni) as Hfa. pose proof (Fhid ni) as Hhi. rewrite Hn5 in Hfa, Hhi.
    destruct (node_at (fold_left (face_create_vert ni ensure_verts) v_tri p5) ni) as [n' | ];
      [| discriminate].
    cbn [option_map n_bm_faces set_n_flag set_n_bm_faces n_flag] in Hfa, Hhi.
    injection Hfa as Hfa. injection Hhi as Hhi.
    exists n'. split; [reflexivity |]. split.
    - intros g. rewrite Hfa. rewrite tgset_add_in. reflexivity.
    - rewrite Hhi. apply flag_test_disable. }
  rewrite Fedges, Hbm5. exact Hedges.
Qed.

Lemma vert_e_edges (m m' : BMesh) (v : vert) :
  bm_edges m' = bm_edges m -> vert_e m' v = vert_e m v.
Proof. intros He. unfold vert_e, vert_edges. rewrite He. reflexivity. Qed.

Lemma pbvh_bmesh_face_remove_edges (p : PBVH) (f : face) (cv eot : bool) :
  bm_edges (bm (pbvh_bmesh_face_remove p f cv eot)) = bm_edges (bm p).
Proof.
  destruct (node_at p (f_node (fget (bm p) f))) as [n | ] eqn:Hn.
  - destruct (flag_test (n_flag n) PBVH_Leaf) eqn:Hleaf.
    + apply (pbvh_bmesh_face_remove_frame p f cv eot n Hn Hleaf).
    + unfold pbvh_bmesh_face_remove, pbvh_bmesh_node_index_from_face. rewrite Hn, Hleaf.
      reflexivity.
  - unfold pbvh_bmesh_face_remove, pbvh_bmesh_node_index_from_face. rewrite Hn. reflexivity.
Qed.

Lemma pbvh_bmesh_vert_remove_edges (p : PBVH) (v : vert) :
  bm_edges (bm (pbvh_bmesh_vert_remove p v)) = bm_edges (bm p).
Proof. destruct (pbvh_bmesh_vert_remove_frame p v) as (Hb & _). rewrite Hb. reflexivity. Qed.

(** The part of [cleanup_tessellate] before the new triangles keeps the
    edges, so a vertex that had an edge is killed at the end. *)
Lemma cleanup_tessellate_kills (p : PBVH) (n : Z) (v : vert) (val : Z) (ls : list BMLoop)
  (vs3 : vert) :
  is_Some (vert_e (bm p) v) ->
  bm_verts (bm (cleanup_tessellate p n v val ls vs3)) !! v = None.
Proof.
  intros [e0 He0]. unfold cleanup_tessellate.
  set (p0 := if v_node (vget (bm p) v) <? 0
             then fold_left
                    (fun p' f =>
                       let ni2 := f_node (fget (bm p') f) in
                       if negb (ni2 =? DYNTOPO_NODE_NONE)
                       then node_update p' ni2
                              (fun nd => set_n_bm_unique_verts nd
                                           (tgset_remove v (n_bm_unique_verts nd)))
                       else p')
                    (faces_of_vert (bm p) v) p
             else p).
  assert (H0 : bm_edges (bm p0) = bm_edges (bm p)).
  { subst p0. destruct (v_node (vget (bm p) v) <? 0); [| reflexivity].
    generalize (faces_of_vert (bm p) v). intros fs. revert p He0.
    induction fs as [| f fs IH]; intros p He0; cbn [fold_left]; [reflexivity |].
    cbv zeta. destruct (negb (f_node (fget (bm p) f) =? DYNTOPO_NODE_NONE)).
    - rewrite IH; [rewrite bm_node_update; reflexivity |].
      rewrite bm_node_update. exact He0.
    - apply IH. exact He0. }
  set (p1 := pbvh_bmesh_vert_remove p0 v).
  assert (H1 : bm_edges (bm p1) = bm_edges (bm p))
    by (subst p1; rewrite pbvh_bmesh_vert_remove_edges; exact H0).
  set (p2 := fold_left
               (fun p' f => if negb (f_node (fget (bm p') f) =? DYNTOPO_NODE_NONE)
                            then pbvh_bmesh_face_remove p' f true true else p')
               (faces_of_vert (bm p1) v) p1).
  assert (H2 : bm_edges (bm p2) = bm_edges (bm p)).
  { subst p2. rewrite <- H1. generalize (faces_of_vert (bm p1) v). intros fs. generalize p1.
    induction fs as [| f fs IH]; intros q0; cbn [fold_left]; [reflexivity |].
    rewrite IH. destruct (negb (f_node (fget (bm q0) f) =? DYNTOPO_NODE_NONE));
      [apply pbvh_bmesh_face_remove_edges | reflexivity]. }
  rewrite (vert_e_edges (bm p) (bm p2) v H2), He0.
  cbv zeta.
  destruct (negb (Pos.eqb _ _) && negb (Pos.eqb _ _) && negb (Pos.eqb _ _)).
  - destruct (pbvh_bmesh_face_create _ _ _ _ _ _) as [pa f].
    apply pbvh_kill_vert_gone.
  - apply pbvh_kill_vert_gone.
Qed.

(** X7.  When the valence cleanup reports a change for a vertex of its watch
    list, that vertex is gone from the mesh afterwards, and before the
    change it had an owner node, its squared distance to the centre was not
    at or above the squared radius, its valence was 3 or 4 once brought up
    to date, and it carried no boundary flag once its boundary flags were
    brought up to date. *)
Theorem cleanup_valence_vert_dissolves `{Collaborators} (p : PBVH) (center_ : vec3)
  (rsqr : f32) (v vs3 : vert) :
  snd (cleanup_valence_vert p center_ rsqr v vs3) = true ->
  bm_verts (bm (fst (cleanup_valence_vert p center_ rsqr v vs3))) !! v = None
  /\ v_node (vget (bm p) v) <> DYNTOPO_NODE_NONE
  /\ f_ge (len_squared_v3v3 (co (vget (bm p) v)) center_) rsqr = false
  /\ (mv_valence (vget (bm (BKE_pbvh_bmesh_check_valence (check_vert_fan_are_tris p v) v)) v) = 3
      \/ mv_valence (vget (bm (BKE_pbvh_bmesh_check_valence (check_vert_fan_are_tris p v) v)) v) = 4)
  /\ flag_test
       (mv_flag (vget (bm (pbvh_check_vert_boundary
                             (BKE_pbvh_bmesh_check_valence (check_vert_fan_are_tris p v) v) v)) v))
       DYNVERT_ALL_BOUNDARY = false.
Proof.
  unfold cleanup_valence_vert.
  destruct (v_node (vget (bm p) v) =? DYNTOPO_NODE_NONE) eqn:Hnone; [discriminate |].
  destruct (f_ge (len_squared_v3v3 (co (vget (bm p) v)) center_) rsqr) eqn:Hfar;
    [discriminate |].
  cbn [orb]. destruct (vert_e (bm p) v) as [e | ]; [| discriminate].
  set (p1 := BKE_pbvh_bmesh_check_valence (check_vert_fan_are_tris p v) v).
  cbv zeta.
  destruct (negb (mv_valence (vget (bm p1) v) =? 4) && negb (mv_valence (vget (bm p1) v) =? 3))
    eqn:Hval; [discriminate |].
  set (p2 := pbvh_check_vert_boundary p1 v).
  destruct (flag_test (mv_flag (vget (bm p2) v)) DYNVERT_ALL_BOUNDARY) eqn:Hb; [discriminate |].
  destruct (vert_e (bm p2) v) as [e0 | ] eqn:He0; [| discriminate].
  destruct (edge_l (bm p2) e0) as [l0 | ]; [| discriminate].
  destruct (fan_walk (bm p2) v (seq 0 (Z.to_nat (mv_valence (vget (bm p1) v))))
              (if Pos.eqb (loop_v (bm p2) l0) v then l0 else loop_next (bm p2) l0) [] false)
    as [ls bad].
  destruct bad; [discriminate |]. cbn [fst snd]. intros _.
  split; [apply cleanup_tessellate_kills; rewrite He0; eexists; reflexivity |].
  split; [apply Z.eqb_neq; exact Hnone |]. split; [reflexivity |].
  split; [| reflexivity].
  apply andb_false_iff in Hval. rewrite !negb_false_iff, !Z.eqb_eq in Hval. tauto.
Qed.

Lemma cleanup_valence_vert_dissolves_witness :
  bm_verts (bm (fst fan_cleaned)) !! 5%positive = None
  /\ is_Some (bm_verts (bm fan_pbvh) !! 5%positive).
Proof.
  split.
  - apply (@cleanup_valence_vert_dissolves plain_collaborators fan_pbvh zero_v3 (f32_lit 100 0)
             5%positive 5%positive).
    vm_compute. reflexivity.
  - vm_compute. eexists. reflexivity.
Defined.

(** X8.  bm_vert_hash_lookup_chain returns the vertex itself when it is not a key
    of the deleted-vertex map, the null pointer when it maps to the null
    pointer, and the replacement when it maps to a vertex that is not a key.
    Any vertex the lookup returns is not a key of the map, so resolving it
    again returns the same vertex. *)
Theorem bm_vert_hash_lookup_chain_resolves (d : deleted_map) (v : vert) :
  (d !! v = None -> bm_vert_hash_lookup_chain d v = Some (Some v))
  /\ (d !! v = Some None -> bm_vert_hash_lookup_chain d v = Some None)
  /\ (forall w, d !! v = Some (Some w) -> d !! w = None ->
                bm_vert_hash_lookup_chain d v = Some (Some w))
  /\ (forall w, bm_vert_hash_lookup_chain d v = Some (Some w) ->
                d !! w = None /\ bm_vert_hash_lookup_chain d w = Some (Some w)).
Proof.
  unfold bm_vert_hash_lookup_chain.
  split; [intros Hv; cbn [lookup_chain_loop]; rewrite Hv; reflexivity |].
  split; [intros Hv; cbn [lookup_chain_loop]; rewrite Hv; reflexivity |].
  split.
  - intros w Hv Hw. cbn [lookup_chain_loop]. rewrite Hv.
    destruct (size d) as [| k] eqn:Hsz.
    + apply map_size_empty_inv in Hsz. subst d. unfold deleted_map in *.
      rewrite lookup_empty in Hv. discriminate.
    + cbn [lookup_chain_loop]. rewrite Hw. reflexivity.
  - intros w Hw. pose proof (lookup_chain_nonkey _ _ _ _ Hw) as Hnone.
    split; [exact Hnone |]. cbn [lookup_chain_loop]. rewrite Hnone. reflexivity.
Qed.

Lemma bm_vert_hash_lookup_chain_resolves_witness :
  bm_vert_hash_lookup_chain (<[2%positive := Some 1%positive]> (<[3%positive := Some 2%positive]> ∅))
    3%positive = Some (Some 1%positive)
  /\ (<[2%positive := Some 1%positive]> (<[3%positive := Some 2%positive]> ∅) : deleted_map)
       !! 1%positive = None.
Proof.
  assert (Hw : bm_vert_hash_lookup_chain
                 (<[2%positive := Some 1%positive]> (<[3%positive := Some 2%positive]> ∅))
                 3%positive = Some (Some 1%positive)) by (vm_compute; reflexivity).
  split; [exact Hw |].
  apply (bm_vert_hash_lookup_chain_resolves
           (<[2%positive := Some 1%positive]> (<[3%positive := Some 2%positive]> ∅))
           3%positive).
  exact Hw.
Defined.

(** X9.  If the deleted-vertex map has no cycle and the two distinct end points
    of the edge are not keys of it, then after pbvh_bmesh_collapse_edge the
    map still has no cycle and bm_vert_hash_lookup_chain ends on every
    vertex. *)
Theorem collapse_edge_keeps_chains_finite `{Collaborators} (p : PBVH) (e : edge) (v1 v2 : vert)
  (d : deleted_map) :
  chain_ranked d -> d !! v1 = None -> d !! v2 = None -> v1 <> v2 ->
  chain_ranked (snd (pbvh_bmesh_collapse_edge p e v1 v2 d))
  /\ forall v, is_Some (bm_vert_hash_lookup_chain (snd (pbvh_bmesh_collapse_edge p e v1 v2 d)) v).
Proof.
  intros Hrk H1 H2 Hne.
  pose proof (collapse_edge_ranked p e v1 v2 d Hrk H1 H2 Hne) as Hrk'.
  split; [exact Hrk' |]. intros v. apply chain_ranked_total. exact Hrk'.
Qed.

Lemma collapse_edge_keeps_chains_finite_witness :
  is_Some (bm_vert_hash_lookup_chain
             (snd (@pbvh_bmesh_collapse_edge plain_collaborators tri_pbvh (1%positive, 2%positive)
                     1%positive 2%positive ∅)) 2%positive).
Proof.
  apply (@collapse_edge_keeps_chains_finite plain_collaborators tri_pbvh (1%positive, 2%positive)
           1%positive 2%positive ∅).
  - apply chain_ranked_empty.
  - reflexivity.
  - reflexivity.
  - discriminate.
Defined.

Lemma flag_test_enable (x flag : Z) : flag <> 0 -> flag_test (flag_enable x flag) flag = true.
Proof.
  intros Hf. unfold flag_enable. apply flag_test_lor_r.
  unfold flag_test. rewrite Z.land_diag. apply negb_true_iff, Z.eqb_neq. exact Hf.
Qed.

Lemma edge_queue_insert_val34_vert_eq (p : PBVH) (c : EdgeQueueContext) (v : vert) :
  edge_queue_insert_val34_vert p c v
  = if val34_marked p v then (p, c)
    else (pbvh_mv_flag_enable p v DYNVERT_VALENCE_TEMP, set_val34_verts c (val34_verts c ++ [v])).
Proof. reflexivity. Qed.

(** X10.  If the watch list of low-valence vertices has no duplicate and lists
    exactly the vertices flagged DYNVERT_VALENCE_TEMP, then
    edge_queue_insert_val34_vert on a vertex of the mesh keeps both facts,
    the vertex is in the list afterwards, and inserting it a second time
    changes nothing. *)
Theorem edge_queue_insert_val34_vert_once (p : PBVH) (c : EdgeQueueContext) (v : vert) :
  val34_inv (p, c) ->
  is_Some (bm_verts (bm p) !! v) ->
  val34_inv (edge_queue_insert_val34_vert p c v)
  /\ In v (val34_verts (snd (edge_queue_insert_val34_vert p c v)))
  /\ edge_queue_insert_val34_vert (fst (edge_queue_insert_val34_vert p c v))
       (snd (edge_queue_insert_val34_vert p c v)) v
     = edge_queue_insert_val34_vert p c v.
Proof.
  intros [Hnd Hiff] [r Hr]. cbn [fst snd] in *.
  assert (Hmark : forall w,
             val34_marked (pbvh_mv_flag_enable p v DYNVERT_VALENCE_TEMP) w
             = if Pos.eqb w v then true else val34_marked p w).
  { intros w. unfold val34_marked, pbvh_mv_flag_enable, mv_flag_enable. cbn [bm set_bm].
    rewrite vget_vert_update. destruct (decide (v = w)) as [<- | Hne].
    - rewrite Pos.eqb_refl, Hr. cbn [mv_flag set_mv_flag].
      apply flag_test_enable. vm_compute. discriminate.
    - replace (Pos.eqb w v) with false by (symmetry; apply Pos.eqb_neq; congruence).
      reflexivity. }
  rewrite (edge_queue_insert_val34_vert_eq p c v).
  destruct (val34_marked p v) eqn:Hv; cbn [fst snd].
  - split; [split; assumption |]. split; [apply Hiff; exact Hv |].
    rewrite edge_queue_insert_val34_vert_eq, Hv. reflexivity.
  - assert (Hnin : ~ In v (val34_verts c)).
    { intros Hin. apply Hiff in Hin. congruence. }
    split; [| split].
    + split; cbn [fst snd].
      * cbn [val34_verts set_val34_verts]. apply NoDup_app. split; [exact Hnd |].
        split; [| apply NoDup_singleton].
        intros x Hx Hx'. apply list_elem_of_In in Hx, Hx'. cbn [In] in Hx'.
        destruct Hx' as [<- | []]. contradiction.
      * intros w. cbn [val34_verts set_val34_verts]. rewrite Hmark, in_app_iff. cbn [In].
        destruct (Pos.eqb w v) eqn:Hwv.
        -- apply Pos.eqb_eq in Hwv. subst w. tauto.
        -- apply Pos.eqb_neq in Hwv. rewrite Hiff. split; [tauto |].
           intros [Hw | [Hw | []]]; [exact Hw | congruence].
    + cbn [val34_verts set_val34_verts]. rewrite in_app_iff. right. left. reflexivity.
    + rewrite edge_queue_insert_val34_vert_eq, Hmark, Pos.eqb_refl. reflexivity.
Qed.

Lemma edge_queue_insert_val34_vert_once_witness :
  In 1%positive
     (val34_verts (snd (edge_queue_insert_val34_vert tri_pbvh (eq_ctx_init None 0) 1%positive)))
  /\ NoDup (val34_verts
              (snd (edge_queue_insert_val34_vert tri_pbvh (eq_ctx_init None 0) 1%positive))).
Proof.
  destruct (edge_queue_insert_val34_vert_once tri_pbvh (eq_ctx_init None 0) 1%positive)
    as ([Hnd _] & Hin & _).
  - split; [apply NoDup_nil; exact I |].
    intros v. split; [| intros []].
    unfold val34_marked, tri_pbvh, tri_mesh, vget. cbn [fst snd bm bm_verts].
    destruct (decide (v = 1%positive)) as [-> | H1]; [vm_compute; discriminate |].
    destruct (decide (v = 2%positive)) as [-> | H2]; [vm_compute; discriminate |].
    destruct (decide (v = 3%positive)) as [-> | H3]; [vm_compute; discriminate |].
    rewrite !lookup_insert_ne, lookup_empty by congruence. vm_compute. discriminate.
  - vm_compute. eexists. reflexivity.
  - split; assumption.
Defined.

Lemma untag_val34_fold (vs : list vert) :
  forall (p : PBVH) (w : vert),
    val34_marked
      (fold_left
         (fun p' v => pbvh_vert_update p' v
                        (fun r => set_mv_flag r (flag_disable (mv_flag r) DYNVERT_VALENCE_TEMP)))
         vs p) w
    = if existsb (Pos.eqb w) vs then false else val34_marked p w.
Proof.
  induction vs as [| v vs IH]; intros p w; cbn [fold_left existsb]; [reflexivity |].
  rewrite IH. destruct (existsb (Pos.eqb w) vs); [rewrite orb_true_r; reflexivity |].
  rewrite orb_false_r. unfold val34_marked, pbvh_vert_update. cbn [bm set_bm].
  rewrite vget_vert_update. destruct (decide (v = w)) as [<- | Hne].
  - rewrite Pos.eqb_refl. destruct (bm_verts (bm p) !! v) as [r | ].
    + cbn [mv_flag set_mv_flag]. apply flag_test_disable.
    + vm_compute. reflexivity.
  - replace (Pos.eqb w v) with false by (symmetry; apply Pos.eqb_neq; congruence).
    reflexivity.
Qed.

Lemma untag_val34_frame (vs : list vert) :
  forall p : PBVH,
    bm_edges (bm (fold_left
                    (fun p' v => pbvh_vert_update p' v
                                   (fun r => set_mv_flag r
                                               (flag_disable (mv_flag r) DYNVERT_VALENCE_TEMP)))
                    vs p)) = bm_edges (bm p)
    /\ bm_faces (bm (fold_left
                       (fun p' v => pbvh_vert_update p' v
                                      (fun r => set_mv_flag r
                                                  (flag_disable (mv_flag r) DYNVERT_VALENCE_TEMP)))
                       vs p)) = bm_faces (bm p)
    /\ nodes (fold_left
                (fun p' v => pbvh_vert_update p' v
                               (fun r => set_mv_flag r
                                           (flag_disable (mv_flag r) DYNVERT_VALENCE_TEMP)))
                vs p) = nodes p.
Proof.
  induction vs as [| v vs IH]; intros p; cbn [fold_left]; [repeat split |].
  destruct (IH (pbvh_vert_update p v
                  (fun r => set_mv_flag r (flag_disable (mv_flag r) DYNVERT_VALENCE_TEMP))))
    as (A & B & C).
  rewrite A, B, C. repeat split.
Qed.

(** X11.  If every vertex flagged DYNVERT_VALENCE_TEMP is in the watch list, the
    untag loop at the end of BKE_pbvh_bmesh_update_topology leaves no vertex
    with that flag, and it changes no edge, no face and no node. *)
Theorem untag_val34_verts_clears (c : EdgeQueueContext) (p : PBVH) :
  (forall v, val34_marked p v = true -> In v (val34_verts c)) ->
  (forall v, val34_marked (untag_val34_verts c p) v = false)
  /\ bm_edges (bm (untag_val34_verts c p)) = bm_edges (bm p)
  /\ bm_faces (bm (untag_val34_verts c p)) = bm_faces (bm p)
  /\ nodes (untag_val34_verts c p) = nodes p.
Proof.
  intros Hsub. unfold untag_val34_verts. split; [| apply untag_val34_frame].
  intros v. rewrite untag_val34_fold.
  destruct (existsb (Pos.eqb v) (val34_verts c)) eqn:Hex; [reflexivity |].
  destruct (val34_marked p v) eqn:Hm; [| reflexivity].
  apply Hsub in Hm. assert (Ht : existsb (Pos.eqb v) (val34_verts c) = true).
  { apply existsb_exists. exists v. split; [exact Hm | apply Pos.eqb_refl]. }
  congruence.
Qed.

Lemma untag_val34_verts_clears_witness :
  val34_marked (pbvh_mv_flag_enable tri_pbvh 1%positive DYNVERT_VALENCE_TEMP) 1%positive = true
  /\ val34_marked
       (untag_val34_verts (set_val34_verts (eq_ctx_init None 0) [1%positive])
          (pbvh_mv_flag_enable tri_pbvh 1%positive DYNVERT_VALENCE_TEMP)) 1%positive = false.
Proof.
  split; [vm_compute; reflexivity |].
  apply (untag_val34_verts_clears (set_val34_verts (eq_ctx_init None 0) [1%positive])
           (pbvh_mv_flag_enable tri_pbvh 1%positive DYNVERT_VALENCE_TEMP)).
  intros v. cbn [val34_verts set_val34_verts In].
  destruct (decide (v = 1%positive)) as [-> | H1]; [intros _; left; reflexivity |].
  unfold val34_marked, pbvh_mv_flag_enable, mv_flag_enable. cbn [bm set_bm].
  rewrite vget_vert_update_ne by exact H1.
  unfold tri_pbvh, tri_mesh, vget. cbn [bm bm_verts].
  destruct (decide (v = 2%positive)) as [-> | H2]; [vm_compute; discriminate |].
  destruct (decide (v = 3%positive)) as [-> | H3]; [vm_compute; discriminate |].
  rewrite !lookup_insert_ne, lookup_empty by congruence. vm_compute. discriminate.
Defined.








Lemma queue_tasks_none (p : PBVH) :
  (forall i n, nodes p !! i = Some n -> topology_leaf n = false) -> queue_tasks p = [].
Proof.
  intros Hno. unfold queue_tasks.
  assert (Hf : List.filter (fun i => match nodes p !! i with
                                     | Some n => topology_leaf n
                                     | None => false
                                     end) (seq 0 (length (nodes p))) = []).
  { generalize (seq 0 (length (nodes p))). intros l.
    induction l as [| i l IH]; cbn [List.filter]; [reflexivity |].
    destruct (nodes p !! i) as [n | ] eqn:Hn; [rewrite (Hno i n Hn) |]; exact IH. }
  rewrite Hf. reflexivity.
Qed.

(** X12.  When no node of the tree is a leaf that is marked PBVH_UpdateTopology
    and not fully hidden, short_edge_queue_create returns an empty heap with
    the mesh, the edge count and the watch list unchanged, and the collapse
    phase of BKE_pbvh_bmesh_update_topology returns the PBVH unchanged and
    reports no modification. *)
Theorem update_topology_collapse_no_leaf `{Collaborators} (c : EdgeQueueContext) (p : PBVH)
  (center_ view_normal_ : vec3) (radius : f32) (use_frontface use_projected_ : bool) :
  (forall i n, nodes p !! i = Some n -> topology_leaf n = false) ->
  exists c',
    short_edge_queue_create c p center_ view_normal_ radius use_frontface use_projected_
    = Some (p, c')
    /\ heap (q c') = [] /\ totedge c' = totedge c /\ val34_verts c' = val34_verts c
    /\ update_topology_collapse c p center_ view_normal_ radius use_frontface use_projected_
       = Some (p, c', false).
Proof.
  intros Hno. unfold update_topology_collapse, short_edge_queue_create. cbv zeta.
  rewrite (queue_tasks_none p Hno). cbn [run_tasks fold_left].
  eexists. split; [reflexivity |]. split; [reflexivity |]. split; [reflexivity |].
  split; [reflexivity |].
  unfold pbvh_bmesh_collapse_short_edges. cbn [q set_q heap edge_queue_init length].
  cbn [collapse_loop cs_ctx q set_q heap edge_queue_init BLI_heapsimple_pop_min].
  reflexivity.
Qed.

Lemma update_topology_collapse_no_leaf_witness :
  exists c',
    @update_topology_collapse plain_collaborators (eq_ctx_init None 0)
      (set_nodes tri_pbvh [mkPBVHNode PBVH_Leaf [1%positive] [1%positive; 2%positive; 3%positive]])
      zero_v3 (v3_of_Z 0 0 1) (f32_lit 10 0) false false
    = Some (set_nodes tri_pbvh
              [mkPBVHNode PBVH_Leaf [1%positive] [1%positive; 2%positive; 3%positive]],
            c', false).
Proof.
  destruct (@update_topology_collapse_no_leaf plain_collaborators (eq_ctx_init None 0)
              (set_nodes tri_pbvh
                 [mkPBVHNode PBVH_Leaf [1%positive] [1%positive; 2%positive; 3%positive]])
              zero_v3 (v3_of_Z 0 0 1) (f32_lit 10 0) false false) as (c' & _ & _ & _ & _ & Hc).
  - intros i n. destruct i as [| i]; cbn.
    + intros Hn. injection Hn as <-. vm_compute. reflexivity.
    + discriminate.
  - exists c'. exact Hc.
Defined.

Lemma splitmap_rows_sound (k : nat) :
  (k < 43)%nat ->
  0 <= splitmap_at (Z.of_nat k) 0 ->
  (4 <= Z.to_nat (splitmap_at (Z.of_nat k) 0) <= 6)%nat
  /\ Z.of_nat k < 2 ^ splitmap_at (Z.of_nat k) 0
  /\ length (mask_bits (Z.of_nat k) (Z.to_nat (splitmap_at (Z.of_nat k) 0)))
     = (Z.to_nat (splitmap_at (Z.of_nat k) 0) - 3)%nat
  /\ no_adjacent_bits (Z.of_nat k) (Z.to_nat (splitmap_at (Z.of_nat k) 0)) = true
  /\ map (fun j => splitmap_at (Z.of_nat k) (S j)) (seq 0 (Z.to_nat (splitmap_at (Z.of_nat k) 0)))
     = clip_row (Z.of_nat k) (Z.to_nat (splitmap_at (Z.of_nat k) 0)).
Proof.
  intros Hk.
  do 43 (destruct k as [| k];
         [intros Hpos;
          first [exfalso; apply Hpos; vm_compute; reflexivity
                | split; [vm_compute; lia |];
                  split; [vm_compute; reflexivity |];
                  split; [vm_compute; reflexivity |];
                  split; vm_compute; reflexivity] |]).
  lia.
Qed.

Lemma splitmap_rows_complete (n k : nat) :
  (4 <= n <= 6)%nat ->
  Z.of_nat k < 2 ^ Z.of_nat n ->
  length (mask_bits (Z.of_nat k) n) = (n - 3)%nat ->
  no_adjacent_bits (Z.of_nat k) n = true ->
  Z.of_nat k < splitmap_size /\ splitmap_at (Z.of_nat k) 0 = Z.of_nat n.
Proof.
  intros Hn.
  assert (Hcases : n = 4%nat \/ n = 5%nat \/ n = 6%nat) by lia.
  destruct Hcases as [-> | [-> | ->]]; intros Hk.
  - do 16 (destruct k as [| k];
           [intros Hc Ha; vm_compute in Hc; vm_compute in Ha;
            first [discriminate | split; vm_compute; reflexivity] |]).
    exfalso. change (2 ^ Z.of_nat 4) with 16 in Hk. lia.
  - do 32 (destruct k as [| k];
           [intros Hc Ha; vm_compute in Hc; vm_compute in Ha;
            first [discriminate | split; vm_compute; reflexivity] |]).
    exfalso. change (2 ^ Z.of_nat 5) with 32 in Hk. lia.
  - do 64 (destruct k as [| k];
           [intros Hc Ha; vm_compute in Hc; vm_compute in Ha;
            first [discriminate | split; vm_compute; reflexivity] |]).
    exfalso. change (2 ^ Z.of_nat 6) with 64 in Hk. lia.
Qed.

Lemma splitmap_sound (mask : Z) (n : nat) :
  0 <= mask < splitmap_size -> splitmap_at mask 0 = Z.of_nat n ->
  (4 <= n <= 6)%nat
  /\ mask < 2 ^ Z.of_nat n
  /\ length (mask_bits mask n) = (n - 3)%nat
  /\ no_adjacent_bits mask n = true
  /\ map (fun j => splitmap_at mask (S j)) (seq 0 n) = clip_row mask n.
Proof.
  intros Hm Hn. unfold splitmap_size in Hm.
  assert (Hk : (Z.to_nat mask < 43)%nat) by lia.
  assert (Hpos : 0 <= splitmap_at (Z.of_nat (Z.to_nat mask)) 0)
    by (rewrite Z2Nat.id by lia; rewrite Hn; lia).
  pose proof (splitmap_rows_sound (Z.to_nat mask) Hk Hpos) as Hs.
  rewrite Z2Nat.id in Hs by lia. rewrite Hn, Nat2Z.id in Hs. exact Hs.
Qed.

(** X13.  A row of splitmap holds a pattern exactly for the corner masks of faces
    of 4, 5 or 6 corners in which n - 3 corners are marked and no two
    neighbouring corners are both marked. The pattern of such a row joins
    each marked corner j to corner (j + 2) mod n and has -1 at every other
    corner. *)
Theorem splitmap_table_sound_complete :
  (forall (mask : Z) (n : nat),
      0 <= mask < splitmap_size -> splitmap_at mask 0 = Z.of_nat n ->
      (4 <= n <= 6)%nat
      /\ mask < 2 ^ Z.of_nat n
      /\ length (mask_bits mask n) = (n - 3)%nat
      /\ no_adjacent_bits mask n = true
      /\ map (fun j => splitmap_at mask (S j)) (seq 0 n) = clip_row mask n)
  /\ (forall (mask : Z) (n : nat),
         (4 <= n <= 6)%nat -> 0 <= mask < 2 ^ Z.of_nat n ->
         length (mask_bits mask n) = (n - 3)%nat ->
         no_adjacent_bits mask n = true ->
         mask < splitmap_size /\ splitmap_at mask 0 = Z.of_nat n).
Proof.
  split.
  - intros mask n Hm Hn. apply splitmap_sound; assumption.
  - intros mask n Hn Hm Hc Ha.
    pose proof (splitmap_rows_complete n (Z.to_nat mask) Hn) as Hs.
    rewrite Z2Nat.id in Hs by lia. apply Hs; [lia | exact Hc | exact Ha].
Qed.

Lemma splitmap_table_sound_complete_witness :
  length (mask_bits 42 6) = 3%nat
  /\ map (fun j => splitmap_at 42 (S j)) (seq 0 6) = [-1; 3; -1; 5; -1; 1]
  /\ splitmap_at 21 0 = 6.
Proof.
  destruct splitmap_table_sound_complete as [Hsound Hcomplete].
  destruct (Hsound 42 6%nat) as (_ & _ & Hbits & _ & Hrow);
    [vm_compute; split; [discriminate | reflexivity] | vm_compute; reflexivity |].
  split; [exact Hbits |]. split; [rewrite Hrow; vm_compute; reflexivity |].
  apply (Hcomplete 21 6%nat);
    [lia | vm_compute; split; [discriminate | reflexivity]
     | vm_compute; reflexivity | vm_compute; reflexivity].
Defined.

Lemma tag_mask_nonneg (tags : list bool) :
  forall j mask : Z, 0 <= j -> 0 <= mask -> 0 <= tag_mask j tags mask.
Proof.
  induction tags as [| t tl IH]; intros j mask Hj Hm; cbn [tag_mask]; [exact Hm |].
  apply IH; [lia |]. destruct t; [| exact Hm].
  apply Z.lor_nonneg. split; [exact Hm |]. apply Z.shiftl_nonneg. lia.
Qed.

Lemma clip_cuts (mask : Z) (n : nat) (l : list nat) (g : nat -> Z) :
  map g l = map (fun j => if Z.testbit mask (Z.of_nat j)
                          then Z.of_nat (Nat.modulo (j + 2) n) else -1) l ->
  List.filter (fun jc : nat * Z => negb (snd jc <? 0)) (map (fun j => (j, g j)) l)
  = map (fun j => (j, Z.of_nat (Nat.modulo (j + 2) n)))
        (List.filter (fun j => Z.testbit mask (Z.of_nat j)) l).
Proof.
  induction l as [| j l IH]; cbn [map List.filter]; [reflexivity |].
  intros Heq. injection Heq as Hj Hl. cbn [snd]. rewrite Hj.
  destruct (Z.testbit mask (Z.of_nat j)).
  - replace (Z.of_nat (Nat.modulo (j + 2) n) <? 0) with false
      by (symmetry; apply Z.ltb_ge; lia).
    cbn [negb map]. rewrite (IH Hl). reflexivity.
  - cbn [negb]. change (-1 <? 0) with true. cbn [negb]. apply IH. exact Hl.
Qed.

(** X14.  When the last loop of pbvh_split_edges finds a pattern for a face, the
    mask is the mask of the face's tagged corners, the face has 4, 5 or 6
    corners, no two neighbouring corners are both tagged, and the cuts asked
    for are one per tagged corner j, from corner j to corner (j + 2) mod
    len, so len - 3 cuts in all. *)
Theorem split_face_lookup_clips (m : BMesh) (f : face) (mask n : Z) (cuts : list (nat * Z)) :
  split_face_lookup m f = SplitPattern mask n cuts ->
  mask = split_vert_mask m f
  /\ n = Z.of_nat (face_len m f)
  /\ (4 <= face_len m f <= 6)%nat
  /\ cuts = map (fun j => (j, Z.of_nat (Nat.modulo (j + 2) (face_len m f))))
                (mask_bits mask (face_len m f))
  /\ length cuts = (face_len m f - 3)%nat
  /\ no_adjacent_bits mask (face_len m f) = true.
Proof.
  unfold split_face_lookup. cbv zeta.
  destruct (splitmap_size <=? split_vert_mask m f) eqn:Hsz; [discriminate |].
  destruct (splitmap_at (split_vert_mask m f) 0 <? 0) eqn:Hneg; [discriminate |].
  destruct (splitmap_at (split_vert_mask m f) 0 =? Z.of_nat (face_len m f)) eqn:Hlen;
    cbn [negb]; [| discriminate].
  intros Heq. injection Heq as <- <- <-.
  apply Z.leb_gt in Hsz. apply Z.eqb_eq in Hlen.
  assert (Hnn : 0 <= split_vert_mask m f)
    by (unfold split_vert_mask; apply tag_mask_nonneg; lia).
  destruct (splitmap_sound (split_vert_mask m f) (face_len m f) (conj Hnn Hsz) Hlen)
    as (Hn & _ & Hbits & Hadj & Hrow).
  split; [reflexivity |]. split; [exact Hlen |]. split; [exact Hn |].
  assert (Hcuts : List.filter (fun jc : nat * Z => negb (snd jc <? 0))
                    (map (fun j => (j, splitmap_at (split_vert_mask m f) (S j)))
                         (seq 0 (Z.to_nat (splitmap_at (split_vert_mask m f) 0))))
                  = map (fun j => (j, Z.of_nat (Nat.modulo (j + 2) (face_len m f))))
                        (mask_bits (split_vert_mask m f) (face_len m f))).
  { rewrite Hlen, Nat2Z.id. apply clip_cuts. exact Hrow. }
  split; [exact Hcuts |]. split; [| exact Hadj].
  rewrite Hcuts, length_map. exact Hbits.
Qed.

Lemma split_face_lookup_clips_witness :
  split_face_lookup (bm (fst tri_split_all)) 1%positive
  = SplitPattern 42 6 [(1%nat, 3); (3%nat, 5); (5%nat, 1)]
  /\ face_len (bm (fst tri_split_all)) 1%positive = 6%nat
  /\ mask_bits 42 (face_len (bm (fst tri_split_all)) 1%positive) = [1%nat; 3%nat; 5%nat].
Proof.
  assert (Hl : split_face_lookup (bm (fst tri_split_all)) 1%positive
               = SplitPattern 42 6 [(1%nat, 3); (3%nat, 5); (5%nat, 1)])
    by (vm_compute; reflexivity).
  split; [exact Hl |].
  destruct (split_face_lookup_clips (bm (fst tri_split_all)) 1%positive 42 6
              [(1%nat, 3); (3%nat, 5); (5%nat, 1)] Hl) as (_ & Hn & _).
  split; [lia |]. vm_compute. reflexivity.
Defined.

Lemma bits_below_pow2 (a n : Z) :
  0 <= a -> 0 <= n -> (forall i, n <= i -> Z.testbit a i = false) -> a < 2 ^ n.
Proof.
  intros Ha Hn Hbits. destruct (Z.lt_ge_cases a (2 ^ n)) as [Hlt | Hge]; [exact Hlt |].
  assert (Hpos : 0 < a) by (pose proof (Z.pow_pos_nonneg 2 n); lia).
  assert (Hlog : n <= Z.log2 a) by (apply Z.log2_le_pow2; lia).
  pose proof (Z.bit_log2 a Hpos) as Hb. rewrite (Hbits _ Hlog) in Hb. discriminate.
Qed.

Lemma tag_mask_range (tags : list bool) :
  0 <= tag_mask 0 tags 0 < 2 ^ Z.of_nat (length tags).
Proof.
  split; [apply tag_mask_nonneg; lia |].
  apply bits_below_pow2; [apply tag_mask_nonneg; lia | lia |].
  intros i Hi. rewrite tag_mask_testbit by lia. rewrite Z.testbit_0_l. cbn [orb].
  replace (i <? 0 + Z.of_nat (length tags)) with false by (symmetry; apply Z.ltb_ge; lia).
  rewrite andb_false_r. reflexivity.
Qed.

Lemma length_face_loops (m : BMesh) (f : face) : length (face_loops m f) = face_len m f.
Proof. unfold face_loops. rewrite length_map, length_seq. reflexivity. Qed.

(** X15.  The mask pbvh_split_edges builds over the sides of a face has bit j set
    exactly when j is below the face's length and the j-th side's edge
    carries SPLIT_TAG, so it lies in [0, 2^len) and in [0, 7] for a
    triangle. Storing it writes the mask into the face's index field and
    leaves the face's corners and node as they were. *)
Theorem split_edge_mask_range (p : PBVH) (f : face) :
  0 <= split_edge_mask (bm p) f < 2 ^ Z.of_nat (face_len (bm p) f)
  /\ (forall j : nat,
        Z.testbit (split_edge_mask (bm p) f) (Z.of_nat j)
        = if (j <? face_len (bm p) f)%nat
          then flag_test (e_hflag (eget (bm p) (loop_e (bm p) (mkBMLoop f j)))) SPLIT_TAG
          else false)
  /\ (face_len (bm p) f = 3%nat -> 0 <= split_edge_mask (bm p) f <= 7)
  /\ (forall r, face_find (bm_faces (bm p)) f = Some r ->
        f_index (fget (bm (split_store_edge_mask p f)) f) = split_edge_mask (bm p) f
        /\ f_verts (fget (bm (split_store_edge_mask p f)) f) = f_verts r
        /\ f_node (fget (bm (split_store_edge_mask p f)) f) = f_node r).
Proof.
  assert (Hrange : 0 <= split_edge_mask (bm p) f < 2 ^ Z.of_nat (face_len (bm p) f)).
  { unfold split_edge_mask.
    pose proof (tag_mask_range
                  (map (fun l => flag_test (e_hflag (eget (bm p) (loop_e (bm p) l))) SPLIT_TAG)
                       (face_loops (bm p) f))) as Hr.
    rewrite length_map, length_face_loops in Hr. exact Hr. }
  split; [exact Hrange |]. split; [| split].
  - intros j. unfold split_edge_mask.
    rewrite tag_mask_testbit by lia. rewrite Z.testbit_0_l. cbn [orb].
    rewrite length_map, length_face_loops, Z.sub_0_r, Nat2Z.id, Z.add_0_l.
    replace (0 <=? Z.of_nat j) with true by (symmetry; apply Z.leb_le; lia). cbn [andb].
    destruct (j <? face_len (bm p) f)%nat eqn:Hj.
    + apply Nat.ltb_lt in Hj.
      replace (Z.of_nat j <? Z.of_nat (face_len (bm p) f)) with true
        by (symmetry; apply Z.ltb_lt; lia).
      cbn [andb].
      rewrite (nth_indep _ false
                 (flag_test (e_hflag (eget (bm p) (loop_e (bm p) (mkBMLoop f 0)))) SPLIT_TAG))
        by (rewrite length_map, length_face_loops; exact Hj).
      rewrite (map_nth (fun l => flag_test (e_hflag (eget (bm p) (loop_e (bm p) l))) SPLIT_TAG)
                 (face_loops (bm p) f) (mkBMLoop f 0) j).
      unfold face_loops.
      rewrite (map_nth (mkBMLoop f) (seq 0 (face_len (bm p) f)) 0%nat j).
      rewrite seq_nth by exact Hj. reflexivity.
    + apply Nat.ltb_ge in Hj.
      replace (Z.of_nat j <? Z.of_nat (face_len (bm p) f)) with false
        by (symmetry; apply Z.ltb_ge; lia).
      reflexivity.
  - intros H3. rewrite H3 in Hrange. change (2 ^ Z.of_nat 3) with 8 in Hrange. lia.
  - intros r Hr. unfold split_store_edge_mask. cbn [bm set_bm].
    rewrite fget_face_update, Pos.eqb_refl, Hr. cbn [f_index f_verts f_node].
    repeat split.
Qed.

Lemma split_edge_mask_range_witness :
  0 <= split_edge_mask (bm tri_pbvh) 1%positive <= 7
  /\ f_index (fget (bm (split_store_edge_mask tri_pbvh 1%positive)) 1%positive)
     = split_edge_mask (bm tri_pbvh) 1%positive.
Proof.
  destruct (split_edge_mask_range tri_pbvh 1%positive) as (_ & _ & Htri & Hstore).
  split; [apply Htri; vm_compute; reflexivity |].
  apply (Hstore (mkBMFace [1%positive; 2%positive; 3%positive] (v3_of_Z 0 0 1) 0 0 0)).
  vm_compute. reflexivity.
Defined.

Lemma heap_pop_from_in (x : f32 * edge) (tl : HeapSimple) :
  In (fst (heap_pop_from x tl)) (x :: tl)
  /\ forall y, In y (snd (heap_pop_from x tl)) -> In y (x :: tl).
Proof.
  revert x. induction tl as [| y tl IH]; intros x; cbn [heap_pop_from fst snd].
  - split; [left; reflexivity | intros y []].
  - destruct (IH y) as [Hb Hr]. destruct (heap_pop_from y tl) as [b r]. cbn [fst snd] in *.
    destruct (f_lt (fst b) (fst x)); cbn [fst snd].
    + split; [right; exact Hb |]. intros z [<- | Hz]; [left; reflexivity | right; apply Hr; exact Hz].
    + split; [left; reflexivity |]. intros z Hz. right. exact Hz.
Qed.

Lemma BLI_heapsimple_pop_min_in (h : HeapSimple) (pr : edge) (rest : HeapSimple) :
  BLI_heapsimple_pop_min h = Some (pr, rest) ->
  In pr (map snd h) /\ forall y, In y rest -> In y h.
Proof.
  destruct h as [| x tl]; cbn [BLI_heapsimple_pop_min]; [discriminate |].
  pose proof (heap_pop_from_in x tl) as [Hb Hr].
  destruct (heap_pop_from x tl) as [b r]. cbn [fst snd] in *.
  intros Heq. injection Heq as <- <-. split; [apply in_map; exact Hb | exact Hr].
Qed.

Lemma subdivide_collect_loop_spec (p : PBVH) (max_steps : Z) (fuel : nat) :
  forall s : subdivide_state,
    (length (ss_heap s) <= fuel)%nat ->
    exists s',
      subdivide_collect_loop fuel p max_steps s = Some s'
      /\ (length (ss_heap s') <= length (ss_heap s))%nat
      /\ Z.of_nat (length (ss_heap s)) - Z.of_nat (length (ss_heap s'))
         <= Z.max 0 (max_steps + 1 - ss_step s)
      /\ (exists added,
             ss_edges s' = ss_edges s ++ added
             /\ Z.of_nat (length added)
                <= Z.of_nat (length (ss_heap s)) - Z.of_nat (length (ss_heap s'))
             /\ (forall e, In e added ->
                   exists pr, In pr (map snd (ss_heap s))
                              /\ BM_edge_exists (bm p) (fst pr) (snd pr) = Some e
                              /\ v_node (vget (bm p) (fst e)) <> DYNTOPO_NODE_NONE
                              /\ v_node (vget (bm p) (snd e)) <> DYNTOPO_NODE_NONE)
             /\ ss_any_subdivided s'
                = ss_any_subdivided s || negb (Nat.eqb (length added) 0)).
Proof.
  induction fuel as [| n IH]; intros s Hlen.
  - destruct (ss_heap s) as [| x tl] eqn:Hh; [| cbn [length] in Hlen; lia].
    exists s. cbn [subdivide_collect_loop]. rewrite Hh. cbn [BLI_heapsimple_pop_min length].
    split; [reflexivity |]. split; [lia |]. split; [lia |].
    exists []. rewrite app_nil_r, orb_false_r. cbn [length].
    repeat split; try lia. intros e [].
  - cbn [subdivide_collect_loop].
    destruct (BLI_heapsimple_pop_min (ss_heap s)) as [[pr rest] | ] eqn:Hpop.
    + pose proof (BLI_heapsimple_pop_min_length _ _ _ Hpop) as Hl.
      pose proof (BLI_heapsimple_pop_min_in _ _ _ Hpop) as [Hin Hrest].
      destruct (max_steps <? ss_step s) eqn:Hms.
      * eexists. split; [reflexivity |]. cbn [ss_heap ss_edges ss_any_subdivided].
        split; [lia |]. split; [lia |].
        exists []. rewrite app_nil_r, orb_false_r. cbn [length].
        repeat split; try lia. intros e [].
      * apply Z.ltb_ge in Hms.
        assert (Hsub : forall y, In y (map snd rest) -> In y (map snd (ss_heap s))).
        { intros y Hy. apply in_map_iff in Hy. destruct Hy as [z [<- Hz]].
          apply in_map. apply Hrest. exact Hz. }
        destruct (subdivide_pop_decide p pr) as [e | ] eqn:Hdec.
        -- destruct (IH (mkSubdivideState rest (ss_edges s ++ [e]) true (ss_step s + 1)))
             as (s' & Hs' & Hle & Hpops & added & Hadd & Hcnt & Hall & Hany);
             [cbn [ss_heap]; lia |].
           cbn [ss_heap ss_edges ss_any_subdivided ss_step] in *.
           exists s'. split; [exact Hs' |]. split; [lia |]. split; [lia |].
           exists (e :: added). split; [rewrite Hadd, <- app_assoc; reflexivity |].
           split; [cbn [length]; lia |]. split.
           ++ intros e' [<- | He'].
              ** exists pr. split; [exact Hin |]. unfold subdivide_pop_decide in Hdec.
                 destruct (BM_edge_exists (bm p) (fst pr) (snd pr)) as [e0 | ];
                   [| discriminate].
                 destruct ((v_node (vget (bm p) (fst e0)) =? DYNTOPO_NODE_NONE)
                           || (v_node (vget (bm p) (snd e0)) =? DYNTOPO_NODE_NONE)) eqn:Hn;
                   [discriminate |].
                 injection Hdec as <-. apply orb_false_iff in Hn.
                 rewrite !Z.eqb_neq in Hn. tauto.
              ** destruct (Hall e' He') as (pr' & Hpr' & Hrest').
                 exists pr'. split; [apply Hsub; exact Hpr' | exact Hrest'].
           ++ rewrite Hany. cbn [length Nat.eqb negb]. rewrite orb_true_r. reflexivity.
        -- destruct (IH (mkSubdivideState rest (ss_edges s) (ss_any_subdivided s)
                           (ss_step s + 1)))
             as (s' & Hs' & Hle & Hpops & added & Hadd & Hcnt & Hall & Hany);
             [cbn [ss_heap]; lia |].
           cbn [ss_heap ss_edges ss_any_subdivided ss_step] in *.
           exists s'. split; [exact Hs' |]. split; [lia |]. split; [lia |].
           exists added. split; [exact Hadd |]. split; [lia |]. split; [| exact Hany].
           intros e' He'. destruct (Hall e' He') as (pr' & Hpr' & Hrest').
           exists pr'. split; [apply Hsub; exact Hpr' | exact Hrest'].
    + exists s. split; [reflexivity |]. split; [lia |]. split; [lia |].
      exists []. rewrite app_nil_r, orb_false_r. cbn [length].
      repeat split; try lia. intros e [].
Qed.

(** X16.  The loop of pbvh_bmesh_subdivide_long_edges always ends. It takes at
    most max(0, max_steps + 1) entries off the heap and collects at most one
    edge per entry taken; every collected edge is the mesh edge between the
    two vertices of a heap entry and has two end points with an owner node;
    the function returns true exactly when it collected an edge. *)
Theorem pbvh_bmesh_subdivide_collect_spec (c : EdgeQueueContext) (p : PBVH) (max_steps : Z) :
  exists s,
    pbvh_bmesh_subdivide_collect c p max_steps = Some s
    /\ (length (ss_heap s) <= length (heap (q c)))%nat
    /\ Z.of_nat (length (ss_edges s))
       <= Z.of_nat (length (heap (q c))) - Z.of_nat (length (ss_heap s))
       <= Z.max 0 (max_steps + 1)
    /\ (forall e, In e (ss_edges s) ->
          exists pr, In pr (map snd (heap (q c)))
                     /\ BM_edge_exists (bm p) (fst pr) (snd pr) = Some e
                     /\ v_node (vget (bm p) (fst e)) <> DYNTOPO_NODE_NONE
                     /\ v_node (vget (bm p) (snd e)) <> DYNTOPO_NODE_NONE)
    /\ (ss_any_subdivided s = true <-> ss_edges s <> []).
Proof.
  unfold pbvh_bmesh_subdivide_collect.
  destruct (subdivide_collect_loop_spec p max_steps (length (heap (q c)))
              (mkSubdivideState (heap (q c)) [] false 0))
    as (s & Hs & Hle & Hpops & added & Hadd & Hcnt & Hall & Hany); [cbn [ss_heap]; lia |].
  cbn [ss_heap ss_edges ss_any_subdivided ss_step] in *.
  exists s. split; [exact Hs |]. split; [exact Hle |]. rewrite Hadd.
  split; [split; [exact Hcnt | replace (max_steps + 1) with (max_steps + 1 - 0) by lia;
                               exact Hpops] |].
  split; [exact Hall |]. rewrite Hany. cbn [orb].
  destruct added as [| a l]; cbn [length Nat.eqb negb app].
  - split; [discriminate | intros Hne; exfalso; apply Hne; reflexivity].
  - split; [intros _; discriminate | reflexivity].
Qed.

(** X17.  For two distinct vertices, bmesh_edge_create_log returns an edge that
    exists between them afterwards. When the edge existed already it is
    returned and nothing changes; otherwise exactly one edge (v1, v2) is
    appended to the mesh. Every edge that existed is still found, and the
    faces, the vertices and the nodes are unchanged. *)
Theorem bmesh_edge_create_log_effect (p : PBVH) (v1 v2 : vert) (e_example : option edge) :
  v1 <> v2 ->
  BM_edge_exists (bm (fst (bmesh_edge_create_log p v1 v2 e_example))) v1 v2
  = Some (snd (bmesh_edge_create_log p v1 v2 e_example))
  /\ (forall e0, BM_edge_exists (bm p) v1 v2 = Some e0 ->
                 bmesh_edge_create_log p v1 v2 e_example = (p, e0))
  /\ (BM_edge_exists (bm p) v1 v2 = None ->
      exists fl, bm_edges (bm (fst (bmesh_edge_create_log p v1 v2 e_example)))
                 = bm_edges (bm p) ++ [mkBMEdge v1 v2 fl])
  /\ (forall a b e0, BM_edge_exists (bm p) a b = Some e0 ->
        BM_edge_exists (bm (fst (bmesh_edge_create_log p v1 v2 e_example))) a b = Some e0)
  /\ bm_faces (bm (fst (bmesh_edge_create_log p v1 v2 e_example))) = bm_faces (bm p)
  /\ bm_verts (bm (fst (bmesh_edge_create_log p v1 v2 e_example))) = bm_verts (bm p)
  /\ nodes (fst (bmesh_edge_create_log p v1 v2 e_example)) = nodes p.
Proof. intros Hne. apply bmesh_edge_create_log_spec. exact Hne. Qed.

Lemma bmesh_edge_create_log_effect_witness :
  BM_edge_exists (bm tri_pbvh) 1%positive 4%positive = None
  /\ BM_edge_exists (bm (fst (bmesh_edge_create_log tri_pbvh 1%positive 4%positive None)))
       1%positive 4%positive
     = Some (snd (bmesh_edge_create_log tri_pbvh 1%positive 4%positive None))
  /\ bmesh_edge_create_log tri_pbvh 2%positive 1%positive None
     = (tri_pbvh, (1%positive, 2%positive)).
Proof.
  split; [vm_compute; reflexivity |]. split.
  - destruct (bmesh_edge_create_log_effect tri_pbvh 1%positive 4%positive None) as (Hex & _);
      [discriminate |].
    exact Hex.
  - destruct (bmesh_edge_create_log_effect tri_pbvh 2%positive 1%positive None) as (_ & Hsame & _);
      [discriminate |].
    apply Hsame. vm_compute. reflexivity.
Defined.

(** X18.  Called without an edge array for a node of the tree and three pairwise
    distinct vertices, on a mesh whose next free id names no face,
    pbvh_bmesh_face_create returns a new face with those three corners in
    order, recorded on the node and added to the node's face set, and the
    node is no longer PBVH_FullyHidden. The three sides of the face exist as
    edges afterwards, every other face is as before and every edge that
    existed is still found. *)
Theorem pbvh_bmesh_face_create_effect (p : PBVH) (ni : Z) (a b c : vert)
  (f_example : option face) (ensure_verts : bool) (n : PBVHNode) :
  node_at p ni = Some n ->
  face_find (bm_faces (bm p)) (bm_next (bm p)) = None ->
  a <> b -> b <> c -> c <> a ->
  snd (pbvh_bmesh_face_create p ni [a; b; c] false f_example ensure_verts) = bm_next (bm p)
  /\ f_verts (fget (bm (fst (pbvh_bmesh_face_create p ni [a; b; c] false f_example ensure_verts)))
                   (bm_next (bm p))) = [a; b; c]
  /\ f_node (fget (bm (fst (pbvh_bmesh_face_create p ni [a; b; c] false f_example ensure_verts)))
                  (bm_next (bm p))) = ni
  /\ (forall g, g <> bm_next (bm p) ->
        fget (bm (fst (pbvh_bmesh_face_create p ni [a; b; c] false f_example ensure_verts))) g
        = fget (bm p) g)
  /\ (exists n',
        node_at (fst (pbvh_bmesh_face_create p ni [a; b; c] false f_example ensure_verts)) ni
        = Some n'
        /\ (forall g, In g (n_bm_faces n') <-> In g (n_bm_faces n) \/ g = bm_next (bm p))
        /\ flag_test (n_flag n') PBVH_FullyHidden = false)
  /\ is_Some (BM_edge_exists
                (bm (fst (pbvh_bmesh_face_create p ni [a; b; c] false f_example ensure_verts))) a b)
  /\ is_Some (BM_edge_exists
                (bm (fst (pbvh_bmesh_face_create p ni [a; b; c] false f_example ensure_verts))) b c)
  /\ is_Some (BM_edge_exists
                (bm (fst (pbvh_bmesh_face_create p ni [a; b; c] false f_example ensure_verts))) c a)
  /\ (forall x y e, BM_edge_exists (bm p) x y = Some e ->
        BM_edge_exists
          (bm (fst (pbvh_bmesh_face_create p ni [a; b; c] false f_example ensure_verts))) x y
        = Some e).
Proof.
  intros Hn Hfresh Hab Hbc Hca.
  destruct (pbvh_bmesh_face_create_spec p ni [a; b; c] false f_example ensure_verts n Hn Hfresh)
    as (H1 & H2 & H3 & H4 & H5 & H6).
  split; [exact H1 |]. split; [exact H2 |]. split; [exact H3 |]. split; [exact H4 |].
  split; [exact H5 |].
  destruct (bm_edges_from_tri_sides p a b c Hab Hbc Hca) as (Sab & Sbc & Sca).
  destruct (bm_edges_from_tri_frame p [a; b; c]) as (_ & _ & _ & _ & Hkeep).
  rewrite !(BM_edge_exists_edges _ _ _ _ H6).
  split; [exact Sab |]. split; [exact Sbc |]. split; [exact Sca |].
  intros x y e He. rewrite (BM_edge_exists_edges _ _ _ _ H6). apply Hkeep. exact He.
Qed.

Lemma pbvh_bmesh_face_create_effect_witness :
  f_verts (fget (bm (fst (pbvh_bmesh_face_create tri_pbvh 0 [1%positive; 3%positive; 4%positive]
                            false None false))) 4%positive)
  = [1%positive; 3%positive; 4%positive]
  /\ is_Some (BM_edge_exists
                (bm (fst (pbvh_bmesh_face_create tri_pbvh 0 [1%positive; 3%positive; 4%positive]
                            false None false))) 3%positive 4%positive).
Proof.
  destruct (pbvh_bmesh_face_create_effect tri_pbvh 0 1%positive 3%positive 4%positive None false
              (leaf_of [1%positive] [1%positive; 2%positive; 3%positive]))
    as (_ & Hv & _ & _ & _ & _ & He & _);
    [reflexivity | reflexivity | discriminate | discriminate | discriminate |].
  split; [exact Hv | exact He].
Defined.

Lemma pbvh_bmesh_vert_ownership_transfer_effect_witness :
  v_node (vget (bm (pbvh_bmesh_vert_ownership_transfer hidden_leaf_pbvh 1 2%positive)) 2%positive)
  = 1.
Proof.
  apply (pbvh_bmesh_vert_ownership_transfer_effect hidden_leaf_pbvh 1 2%positive
           (mkPBVHNode (Z.lor (Z.lor PBVH_Leaf PBVH_UpdateTopology) PBVH_FullyHidden) [] [])
           (vert_at (quarters 1 0 0) 2)).
  - reflexivity.
  - vm_compute. reflexivity.
Defined.

Lemma pbvh_bmesh_face_remove_effect_witness :
  f_node (fget (bm (pbvh_bmesh_face_remove tri_pbvh 1%positive true true)) 1%positive)
  = DYNTOPO_NODE_NONE.
Proof.
  apply (pbvh_bmesh_face_remove_effect tri_pbvh 1%positive true true
           (leaf_of [1%positive] [1%positive; 2%positive; 3%positive])).
  - vm_compute. reflexivity.
  - vm_compute. reflexivity.
Defined.

Lemma pbvh_bmesh_face_remove_twice_witness :
  pbvh_bmesh_face_remove tri_pbvh 7%positive true true = tri_pbvh.
Proof.
  destruct (pbvh_bmesh_face_remove_twice tri_pbvh 7%positive true true true true)
    as (Hnone & _ & _).
  apply Hnone. vm_compute. reflexivity.
Defined.

Lemma pbvh_bmesh_node_vert_use_count_exact_witness :
  pbvh_bmesh_node_vert_use_count_at_most seam_pbvh 0 2%positive 2 = 2
  /\ pbvh_bmesh_node_vert_use_count_is_equal seam_pbvh 0 2%positive 4 = true.
Proof.
  destruct (pbvh_bmesh_node_vert_use_count_exact seam_pbvh 0 2%positive) as [Hmost Heq].
  split.
  - rewrite Hmost by lia. vm_compute. reflexivity.
  - rewrite Heq by lia. vm_compute. reflexivity.
Defined.

(* ---------------------------------------------------------------------- *)
(** ** The scans return *)

Lemma fold_opt_inv {A S : Type} (I : S -> Prop) (f : S -> A -> option S) (l : list A) :
  forall s, I s ->
    (forall s0 x, In x l -> I s0 -> exists s', f s0 x = Some s' /\ I s') ->
    exists s', fold_opt f l s = Some s' /\ I s'.
Proof.
  induction l as [|x tl IH]; intros s Hs Hstep.
  - exists s. split; [reflexivity | exact Hs].
  - cbn [fold_opt].
    destruct (Hstep s x (or_introl eq_refl) Hs) as (s1 & E1 & H1).
    rewrite E1. apply IH; [exact H1 |].
    intros s0 y Hy. apply Hstep. right. exact Hy.
Qed.

Lemma fold_left_inv {A S : Type} (I : S -> Prop) (f : S -> A -> S) (l : list A) :
  forall s, I s -> (forall s0 x, In x l -> I s0 -> I (f s0 x)) -> I (fold_left f l s).
Proof.
  induction l as [|x tl IH]; intros s Hs Hstep.
  - exact Hs.
  - cbn [fold_left]. apply IH.
    + apply Hstep; [left; reflexivity | exact Hs].
    + intros s0 y Hy. apply Hstep. right. exact Hy.
Qed.

Lemma forallb_pointwise {A : Type} (f g : A -> bool) (l : list A) :
  (forall x, f x = g x) -> forallb f l = forallb g l.
Proof.
  intros H. induction l as [|x tl IH]; [reflexivity |].
  cbn [forallb]. rewrite H, IH. reflexivity.
Qed.

Lemma find_pointwise {A : Type} (f g : A -> bool) (l : list A) :
  (forall x, f x = g x) -> find f l = find g l.
Proof.
  intros H. induction l as [|x tl IH]; [reflexivity |].
  cbn [find]. rewrite H, IH. reflexivity.
Qed.

Lemma edge_is_key (r : BMEdge) (a b : vert) :
  edge_is r a b = edge_eqb (edge_key r) (a, b).
Proof. reflexivity. Qed.

Lemma find_edge_key_topo (a b : vert) (es es' : list BMEdge) :
  map edge_key es' = map edge_key es ->
  option_map edge_key (find (fun e => edge_is e a b) es')
  = option_map edge_key (find (fun e => edge_is e a b) es).
Proof.
  revert es'. induction es as [|r tl IH]; intros [|r' tl'] H; try discriminate; [reflexivity |].
  cbn [map] in H.
  assert (Hk : edge_key r' = edge_key r) by congruence.
  assert (Ht : map edge_key tl' = map edge_key tl) by congruence.
  cbn [find]. rewrite !edge_is_key, Hk.
  destruct (edge_eqb (edge_key r) (a, b)).
  - cbn [option_map]. rewrite Hk. reflexivity.
  - apply IH. exact Ht.
Qed.

Section Topology.
Variables m m' : BMesh.
Hypothesis Ht : same_topology m m'.

Lemma BM_edge_exists_topo (a b : vert) : BM_edge_exists m' a b = BM_edge_exists m a b.
Proof.
  unfold BM_edge_exists. destruct (Pos.eqb a b); [reflexivity |].
  apply find_edge_key_topo. apply Ht.
Qed.

Lemma fget_topo (f : face) : fget m' f = fget m f.
Proof. unfold fget. destruct Ht as [Hf _]. rewrite Hf. reflexivity. Qed.

Lemma face_len_topo (f : face) : face_len m' f = face_len m f.
Proof. unfold face_len. rewrite fget_topo. reflexivity. Qed.

Lemma loop_v_topo (l : BMLoop) : loop_v m' l = loop_v m l.
Proof. unfold loop_v. rewrite fget_topo. reflexivity. Qed.

Lemma loop_next_topo (l : BMLoop) : loop_next m' l = loop_next m l.
Proof. unfold loop_next. rewrite face_len_topo. reflexivity. Qed.

Lemma loop_prev_topo (l : BMLoop) : loop_prev m' l = loop_prev m l.
Proof. unfold loop_prev. rewrite face_len_topo. reflexivity. Qed.

Lemma loop_e_topo (l : BMLoop) : loop_e m' l = loop_e m l.
Proof.
  unfold loop_e. rewrite loop_next_topo, !loop_v_topo, BM_edge_exists_topo. reflexivity.
Qed.

Lemma face_loops_topo (f : face) : face_loops m' f = face_loops m f.
Proof. unfold face_loops. rewrite face_len_topo. reflexivity. Qed.

Lemma edge_loops_topo (e : edge) : edge_loops m' e = edge_loops m e.
Proof.
  unfold edge_loops. destruct Ht as [Hf _]. rewrite Hf.
  apply flat_map_ext. intros fr. rewrite face_loops_topo.
  apply List.filter_ext. intros l. rewrite loop_e_topo. reflexivity.
Qed.

Lemma radial_next_topo (l : BMLoop) : radial_next m' l = radial_next m l.
Proof. unfold radial_next. rewrite loop_e_topo, edge_loops_topo. reflexivity. Qed.

Lemma radial_others_topo (l : BMLoop) : radial_others m' l = radial_others m l.
Proof. unfold radial_others. rewrite loop_e_topo, edge_loops_topo. reflexivity. Qed.

Lemma loop_valid_topo (l : BMLoop) : loop_valid m l -> loop_valid m' l.
Proof. unfold loop_valid. rewrite face_len_topo. exact (fun H => H). Qed.

Lemma sides_have_edges_topo : sides_have_edges m' = sides_have_edges m.
Proof.
  unfold sides_have_edges. destruct Ht as [Hf _]. rewrite Hf.
  apply forallb_pointwise. intros fr. rewrite face_loops_topo.
  apply forallb_pointwise. intros l. unfold loop_has_edge.
  rewrite loop_next_topo, !loop_v_topo, BM_edge_exists_topo. reflexivity.
Qed.

Lemma length_edges_topo : length (bm_edges m') = length (bm_edges m).
Proof.
  destruct Ht as (_ & He & _).
  rewrite <- (length_map edge_key (bm_edges m')), He. apply length_map.
Qed.
End Topology.

Lemma same_topology_refl (m : BMesh) : same_topology m m.
Proof. repeat split. Qed.

Lemma same_topology_trans (a b c : BMesh) :
  same_topology a b -> same_topology b c -> same_topology a c.
Proof. intros (H1 & H2 & H3) (H4 & H5 & H6). repeat split; congruence. Qed.

Lemma same_topology_sym (a b : BMesh) : same_topology a b -> same_topology b a.
Proof. intros (H1 & H2 & H3). repeat split; congruence. Qed.

Lemma edge_update_topo (m : BMesh) (e : edge) (x : Z -> Z) :
  same_topology m (edge_update m e (fun r => set_e_hflag r (x (e_hflag r)))).
Proof.
  split; [reflexivity |]. split; [| reflexivity].
  unfold edge_update. cbn [bm_edges set_bm_edges].
  rewrite map_map. apply map_ext. intros r.
  destruct (edge_is r (fst e) (snd e)); reflexivity.
Qed.

(** Loops of the mesh stay loops of the mesh along the walks. *)
Lemma loop_valid_next (m : BMesh) (l : BMLoop) : loop_valid m l -> loop_valid m (loop_next m l).
Proof.
  unfold loop_valid, loop_next. cbn [l_f l_i]. intros H.
  apply Nat.mod_upper_bound. lia.
Qed.

Lemma loop_valid_prev (m : BMesh) (l : BMLoop) : loop_valid m l -> loop_valid m (loop_prev m l).
Proof.
  unfold loop_valid, loop_prev. cbn [l_f l_i]. intros H.
  apply Nat.mod_upper_bound. lia.
Qed.

Lemma loop_valid_face_loops (m : BMesh) (f : face) (l : BMLoop) :
  In l (face_loops m f) -> loop_valid m l.
Proof.
  unfold face_loops, loop_valid. rewrite in_map_iff. intros (i & <- & Hi).
  apply in_seq in Hi. cbn [l_f l_i]. lia.
Qed.

Lemma loop_valid_edge_loops (m : BMesh) (e : edge) (l : BMLoop) :
  In l (edge_loops m e) -> loop_valid m l.
Proof.
  unfold edge_loops. rewrite in_flat_map. intros (fr & _ & Hl).
  apply filter_In in Hl. eapply loop_valid_face_loops, Hl.
Qed.

Lemma cyc_after_in {A : Type} (eqb : A -> A -> bool) (x first : A) (l : list A) :
  cyc_after eqb x first l = x \/ cyc_after eqb x first l = first
  \/ In (cyc_after eqb x first l) l.
Proof.
  induction l as [|y tl IH]; cbn [cyc_after]; [left; reflexivity |].
  destruct (eqb y x).
  - destruct tl as [|z tl']; [right; left; reflexivity |].
    right; right; right; left; reflexivity.
  - destruct IH as [H | [H | H]]; [left | right; left | right; right; right]; exact H.
Qed.

Lemma loop_valid_radial_next (m : BMesh) (l : BMLoop) :
  loop_valid m l -> loop_valid m (radial_next m l).
Proof.
  intros Hl. unfold radial_next.
  destruct (cyc_after_in loop_eqb l
              (default l (head (edge_loops m (loop_e m l)))) (edge_loops m (loop_e m l)))
    as [H | [H | H]].
  - rewrite H. exact Hl.
  - rewrite H. destruct (edge_loops m (loop_e m l)) as [|y tl] eqn:E; [exact Hl |].
    cbn [head default]. apply (loop_valid_edge_loops m (loop_e m l)). rewrite E. left; reflexivity.
  - exact (loop_valid_edge_loops _ _ _ H).
Qed.

Lemma split_at_loop_incl (x : BMLoop) (l : list BMLoop) (y : BMLoop) :
  In y (fst (split_at_loop x l)) \/ In y (snd (split_at_loop x l)) -> In y l.
Proof.
  induction l as [|z tl IH]; cbn [split_at_loop].
  - cbn [fst snd In]. tauto.
  - destruct (loop_eqb z x).
    + cbn [fst snd]. intros [[] | H]. right. exact H.
    + destruct (split_at_loop x tl) as [a b]. cbn [fst snd] in *.
      intros [[H | H] | H].
      * left. exact H.
      * right. apply IH. left. exact H.
      * right. apply IH. right. exact H.
Qed.

Lemma loop_valid_radial_others (m : BMesh) (l_end l : BMLoop) :
  In l (radial_others m l_end) -> loop_valid m l.
Proof.
  unfold radial_others. intros H.
  apply (loop_valid_edge_loops m (loop_e m l_end)).
  apply (split_at_loop_incl l_end).
  destruct (split_at_loop l_end (edge_loops m (loop_e m l_end))) as [a b].
  cbn [fst snd]. apply in_app_or in H. tauto.
Qed.

(** On a well-formed mesh the edge of a loop is an edge of the list. *)
Lemma edge_is_same_pair (r : BMEdge) (a b : vert) (r' : BMEdge) :
  edge_is r a b = true -> edge_is r' (e_v1 r) (e_v2 r) = edge_is r' a b.
Proof.
  unfold edge_is. intros H. apply orb_true_iff in H.
  destruct H as [H | H]; apply andb_true_iff in H; destruct H as [H1 H2];
    apply Pos.eqb_eq in H1, H2; rewrite H1, H2.
  - reflexivity.
  - apply orb_comm.
Qed.

Lemma face_find_In (fs : list (face * BMFace)) (f : face) (r : BMFace) :
  face_find fs f = Some r -> In (f, r) fs.
Proof.
  induction fs as [|[g r'] tl IH]; cbn [face_find]; [discriminate |].
  destruct (Pos.eqb_spec g f) as [-> | Hne].
  - intros [= ->]. left. reflexivity.
  - intros H. right. apply IH. exact H.
Qed.

Lemma loop_valid_has_edge (m : BMesh) (l : BMLoop) :
  sides_have_edges m = true -> loop_valid m l -> loop_has_edge m l = true.
Proof.
  unfold sides_have_edges, loop_valid. intros Hs Hv.
  assert (Hf : exists r, face_find (bm_faces m) (l_f l) = Some r).
  { unfold face_len, fget in Hv.
    destruct (face_find (bm_faces m) (l_f l)) as [r|]; [exists r; reflexivity |].
    cbn in Hv. lia. }
  destruct Hf as [r Ef].
  rewrite forallb_forall in Hs. specialize (Hs _ (face_find_In _ _ _ Ef)).
  cbn [fst] in Hs. rewrite forallb_forall in Hs. apply Hs.
  unfold face_loops. apply in_map_iff. exists (l_i l).
  split; [destruct l; reflexivity | apply in_seq; lia].
Qed.

Lemma loop_e_found (m : BMesh) (l : BMLoop) :
  loop_has_edge m l = true ->
  exists r, find (fun r => edge_is r (fst (loop_e m l)) (snd (loop_e m l))) (bm_edges m) = Some r
            /\ edge_key r = loop_e m l.
Proof.
  unfold loop_has_edge, loop_e.
  generalize (loop_v m l) (loop_v m (loop_next m l)). intros a b.
  unfold BM_edge_exists. destruct (Pos.eqb a b); [discriminate |].
  destruct (find (fun e => edge_is e a b) (bm_edges m)) as [r|] eqn:Ef; [| discriminate].
  intros _. cbn [option_map default]. exists r. split; [| reflexivity].
  cbn [edge_key fst snd]. rewrite <- Ef. apply find_pointwise. intros r'.
  apply edge_is_same_pair. apply find_some in Ef. apply Ef.
Qed.

(** Tagging an edge. *)
Lemma BM_ELEM_TAG_nonzero : BM_ELEM_TAG <> 0.
Proof. discriminate. Qed.

Lemma tag_count_le (e : edge) (es : list BMEdge) :
  (length (List.filter (fun r => negb (flag_test (e_hflag r) BM_ELEM_TAG))
             (map (fun r => if edge_is r (fst e) (snd e) then tag_edge_record r else r) es))
   <= length (List.filter (fun r => negb (flag_test (e_hflag r) BM_ELEM_TAG)) es))%nat.
Proof.
  induction es as [|r tl IH]; [reflexivity |].
  cbn [map List.filter]. destruct (edge_is r (fst e) (snd e)).
  - unfold tag_edge_record at 1. cbn [e_hflag set_e_hflag].
    rewrite (flag_test_enable _ _ BM_ELEM_TAG_nonzero). cbn [negb].
    destruct (negb (flag_test (e_hflag r) BM_ELEM_TAG)); cbn [length]; lia.
  - destruct (negb (flag_test (e_hflag r) BM_ELEM_TAG)); cbn [length]; lia.
Qed.

Lemma tag_count_lt (e : edge) (es : list BMEdge) (r0 : BMEdge) :
  find (fun r => edge_is r (fst e) (snd e)) es = Some r0 ->
  flag_test (e_hflag r0) BM_ELEM_TAG = false ->
  (length (List.filter (fun r => negb (flag_test (e_hflag r) BM_ELEM_TAG))
             (map (fun r => if edge_is r (fst e) (snd e) then tag_edge_record r else r) es))
   < length (List.filter (fun r => negb (flag_test (e_hflag r) BM_ELEM_TAG)) es))%nat.
Proof.
  induction es as [|r tl IH]; [discriminate |].
  cbn [map List.filter find]. destruct (edge_is r (fst e) (snd e)).
  - intros [= ->] Hu. unfold tag_edge_record at 1. cbn [e_hflag set_e_hflag].
    rewrite (flag_test_enable _ _ BM_ELEM_TAG_nonzero), Hu. cbn [negb length].
    pose proof (tag_count_le e tl). lia.
  - intros Hf Hu. specialize (IH Hf Hu).
    destruct (negb (flag_test (e_hflag r) BM_ELEM_TAG)); cbn [length]; lia.
Qed.

Lemma find_map_keys (h : BMEdge -> BMEdge) (a b : vert) (es : list BMEdge) :
  (forall r, edge_key (h r) = edge_key r) ->
  find (fun r => edge_is r a b) (map h es) = option_map h (find (fun r => edge_is r a b) es).
Proof.
  intros Hh. induction es as [|r tl IH]; [reflexivity |].
  cbn [map find]. rewrite (edge_is_key (h r)), Hh, <- edge_is_key.
  destruct (edge_is r a b); [reflexivity | exact IH].
Qed.

Lemma tag_if_key (e : edge) (r : BMEdge) :
  edge_key (if edge_is r (fst e) (snd e) then tag_edge_record r else r) = edge_key r.
Proof. destruct (edge_is r (fst e) (snd e)); reflexivity. Qed.

Lemma edge_tagged_after_tag (m : BMesh) (e e' : edge) :
  edge_tagged m e' = true -> edge_tagged (edge_update m e tag_edge_record) e' = true.
Proof.
  unfold edge_tagged, eget, edge_update. cbn [bm_edges set_bm_edges].
  rewrite (find_map_keys _ _ _ _ (tag_if_key e)).
  destruct (find (fun r => edge_is r (fst e') (snd e')) (bm_edges m)) as [r|];
    cbn [option_map default]; [| exact (fun H => H)].
  destruct (edge_is r (fst e) (snd e)); [| exact (fun H => H)].
  unfold tag_edge_record. cbn [e_hflag set_e_hflag]. apply flag_test_lor_l.
Qed.

Lemma edge_tagged_self (m : BMesh) (e : edge) (r0 : BMEdge) :
  find (fun r => edge_is r (fst e) (snd e)) (bm_edges m) = Some r0 ->
  edge_tagged (edge_update m e tag_edge_record) e = true.
Proof.
  intros Hf. unfold edge_tagged, eget, edge_update. cbn [bm_edges set_bm_edges].
  rewrite (find_map_keys _ _ _ _ (tag_if_key e)), Hf. cbn [option_map default].
  apply find_some in Hf. destruct Hf as [_ Hf]. rewrite Hf.
  unfold tag_edge_record. cbn [e_hflag set_e_hflag].
  apply flag_test_enable, BM_ELEM_TAG_nonzero.
Qed.

Lemma NoDup_snoc {A : Type} (l : list A) (x : A) :
  NoDup l -> ~ In x l -> NoDup (l ++ [x]).
Proof.
  intros Hnd Hx. apply NoDup_app. split; [exact Hnd |]. split; [| apply NoDup_singleton].
  intros y Hy Hy'. apply list_elem_of_singleton in Hy'. subst y.
  apply list_elem_of_In in Hy. exact (Hx Hy).
Qed.

Lemma scan_post_refl (p0 : PBVH) (k : nat) (st : scan_state) :
  scan_inv p0 k st -> scan_post p0 k st st.
Proof. intros H. split; [exact H |]. repeat split. Qed.

Lemma scan_inv_weaken (p0 : PBVH) (k k' : nat) (st : scan_state) :
  (k <= k')%nat -> scan_inv p0 k st -> scan_inv p0 k' st.
Proof.
  intros Hk (H1 & H2 & H3 & H4 & H5).
  split; [exact H1 |]. split; [exact H2 |]. split; [lia |]. split; [exact H4 | exact H5].
Qed.

Lemma scan_post_trans (p0 : PBVH) (k : nat) (a b c : scan_state) :
  scan_post p0 k a b -> scan_post p0 k b c -> scan_post p0 k a c.
Proof.
  intros (_ & Hv & Hn & Hl) (Hi & Hv' & Hn' & Hl').
  split; [exact Hi |]. repeat split; congruence.
Qed.

Lemma edge_thread_data_insert_inv (p0 : PBVH) (k : nat) (st : scan_state) (l : BMLoop) :
  sides_have_edges (bm p0) = true ->
  scan_inv p0 k st -> loop_valid (bm p0) l ->
  edge_tagged (bm (fst st)) (loop_e (bm (fst st)) l) = false ->
  (1 <= k)%nat
  /\ scan_post p0 (k - 1) st (edge_thread_data_insert st (loop_e (bm (fst st)) l)).
Proof.
  intros Hwf (Ht & Hn & Hk & Hnd & Hed) Hv Hu.
  destruct st as [p td]. cbn [fst snd] in *.
  assert (Hhas : loop_has_edge (bm p) l = true).
  { apply loop_valid_has_edge.
    - rewrite (sides_have_edges_topo _ _ Ht). exact Hwf.
    - apply (loop_valid_topo _ _ Ht). exact Hv. }
  destruct (loop_e_found _ _ Hhas) as (r0 & Hfind & Hkey).
  set (e := loop_e (bm p) l) in *.
  assert (Hu0 : flag_test (e_hflag r0) BM_ELEM_TAG = false).
  { unfold edge_tagged, eget in Hu. rewrite Hfind in Hu. exact Hu. }
  pose proof (tag_count_lt e (bm_edges (bm p)) r0 Hfind Hu0) as Hlt.
  unfold edge_thread_data_insert. fold tag_edge_record.
  change (fun r : BMEdge => set_e_hflag r (flag_enable (e_hflag r) BM_ELEM_TAG))
    with tag_edge_record.
  split; [unfold untagged_edges in Hk; lia |].
  split; [| cbn [fst snd bm set_bm bm_verts edge_update set_bm_edges td_node td_val34_verts];
            repeat split].
  unfold scan_inv. cbn [fst snd bm set_bm nodes td_edges].
  split.
  { apply (same_topology_trans _ _ _ Ht).
    apply (edge_update_topo (bm p) e (fun x => flag_enable x BM_ELEM_TAG)). }
  split; [exact Hn |].
  split.
  { unfold untagged_edges, edge_update. cbn [bm_edges set_bm_edges].
    unfold untagged_edges in Hk. lia. }
  split.
  { apply NoDup_snoc; [exact Hnd |].
    intros Hx. destruct (Hed _ Hx) as [Htag _]. congruence. }
  intros x Hx. apply in_app_or in Hx. destruct Hx as [Hx | [<- | []]].
  - destruct (Hed _ Hx) as [Htag Hin]. split; [| exact Hin].
    apply edge_tagged_after_tag. exact Htag.
  - split; [exact (edge_tagged_self _ _ _ Hfind) |].
    destruct Ht as (_ & Hkeys & _). rewrite <- Hkeys, <- Hkey.
    apply in_map. apply find_some in Hfind. apply Hfind.
Qed.

(** The nested calls of the two recursive scans. *)
Ltac scan_rec_step IH Hwf :=
  match goal with
  | [ Hinv : scan_inv ?p0 ?k ?st, Hv : loop_valid (bm ?p0) ?l_edge |- _ ] =>
      fold (edge_tagged (bm (fst st)) (loop_e (bm (fst st)) l_edge));
      destruct (edge_tagged (bm (fst st)) (loop_e (bm (fst st)) l_edge)) eqn:Etag;
      [ exists st; split; [reflexivity | apply scan_post_refl; exact Hinv] |];
      match goal with
      | [ |- context [if ?b then Some st else _] ] =>
          destruct b;
          [ exists st; split; [reflexivity | apply scan_post_refl; exact Hinv] |]
      end;
      destruct (edge_thread_data_insert_inv p0 k st l_edge Hwf Hinv Hv Etag) as [Hk1 Hpost1];
      assert (Hweak : forall s, scan_post p0 (k - 1) st s -> scan_post p0 k st s)
        by (intros s (Hi & Hrest); split;
            [apply (scan_inv_weaken p0 (k - 1) k); [lia | exact Hi] | exact Hrest]);
      set (st1 := edge_thread_data_insert st (loop_e (bm (fst st)) l_edge)) in *;
      match goal with
      | [ |- context [if ?b then Some st1 else _] ] =>
          destruct b; [ exists st1; split; [reflexivity | apply Hweak; exact Hpost1] |]
      end;
      match goal with
      | [ |- exists st', fold_opt ?f ?l ?s = Some st' /\ _ ] =>
          destruct (fold_opt_inv (fun s => scan_post p0 (k - 1) st s) f l s Hpost1)
            as (s' & Es' & Hs');
          [| exists s'; split; [exact Es' | apply Hweak; exact Hs'] ]
      end;
      let s0 := fresh "s0" in let l_iter := fresh "l_iter" in
      let Hin := fresh "Hin" in let Hs0 := fresh "Hs0" in
      intros s0 l_iter Hin Hs0;
      assert (Hvi : loop_valid (bm p0) l_iter)
        by (destruct Hinv as (Ht & _);
            rewrite (radial_others_topo _ _ Ht) in Hin;
            exact (loop_valid_radial_others _ _ _ Hin));
      match goal with
      | [ |- exists st', fold_opt ?f ?l ?s = Some st' /\ _ ] =>
          apply (fold_opt_inv (fun s => scan_post p0 (k - 1) st s) f l s Hs0)
      end;
      let s2 := fresh "s2" in let l_adj := fresh "l_adj" in
      let Hin2 := fresh "Hin2" in let Hs2 := fresh "Hs2" in
      intros s2 l_adj Hin2 Hs2;
      assert (Hva : loop_valid (bm p0) l_adj)
        by (destruct Hinv as (Ht & _);
            destruct Hin2 as [<- | [<- | []]];
            [ rewrite (loop_next_topo _ _ Ht); apply loop_valid_next; exact Hvi
            | rewrite (loop_prev_topo _ _ Ht); apply loop_valid_prev; exact Hvi ]);
      match goal with
      | [ |- context [if ?b then _ else Some s2] ] =>
          destruct b; [| exists s2; split; [reflexivity | exact Hs2] ]
      end;
      match goal with
      | [ |- exists st', ?rec _ _ _ (radial_next ?m' l_adj) _ ?a ?b ?d = Some st' /\ _ ] =>
          destruct (IH (k - 1)%nat s2 (radial_next m' l_adj) l_adj a b d) as (s3 & Es3 & Hs3);
          [ apply Hs2
          | destruct Hs2 as ((Ht2 & _) & _);
            rewrite (radial_next_topo _ _ Ht2); apply loop_valid_radial_next; exact Hva
          | lia
          | exists s3; split; [exact Es3 | exact (scan_post_trans _ _ _ _ _ Hs2 Hs3)] ]
      end
  end.

Lemma short_edge_queue_edge_add_recursive_2_total (c : EdgeQueueContext) (p0 : PBVH) :
  sides_have_edges (bm p0) = true ->
  forall fuel k st l_edge l_end len_sq limit_len depth,
    scan_inv p0 k st -> loop_valid (bm p0) l_edge -> (k < fuel)%nat ->
    exists st',
      short_edge_queue_edge_add_recursive_2 fuel c st l_edge l_end len_sq limit_len depth
      = Some st'
      /\ scan_post p0 k st st'.
Proof.
  intros Hwf. induction fuel as [|fuel IH];
    intros k st l_edge l_end len_sq limit_len depth Hinv Hv Hk; [lia |].
  cbn [short_edge_queue_edge_add_recursive_2].
  scan_rec_step IH Hwf.
Qed.

Lemma long_edge_queue_edge_add_recursive_2_total (c : EdgeQueueContext) (p0 : PBVH) :
  sides_have_edges (bm p0) = true ->
  forall fuel k st l_edge l_end len_sq limit_len depth,
    scan_inv p0 k st -> loop_valid (bm p0) l_edge -> (k < fuel)%nat ->
    exists st',
      long_edge_queue_edge_add_recursive_2 fuel c st l_edge l_end len_sq limit_len depth
      = Some st'
      /\ scan_post p0 k st st'.
Proof.
  intros Hwf. induction fuel as [|fuel IH];
    intros k st l_edge l_end len_sq limit_len depth Hinv Hv Hk; [lia |].
  cbn [long_edge_queue_edge_add_recursive_2].
  scan_rec_step IH Hwf.
Qed.

Lemma scan_fuel_bound (p0 : PBVH) (k : nat) (st : scan_state) :
  scan_inv p0 k st -> (untagged_edges (bm (fst st)) < scan_fuel (fst st))%nat.
Proof.
  intros _. unfold scan_fuel, untagged_edges.
  pose proof (List.filter_length_le
                (fun r => negb (flag_test (e_hflag r) BM_ELEM_TAG)) (bm_edges (bm (fst st)))).
  lia.
Qed.

Lemma scan_inv_count (p0 : PBVH) (k : nat) (st : scan_state) :
  scan_inv p0 k st -> scan_inv p0 (untagged_edges (bm (fst st))) st.
Proof.
  intros (H1 & H2 & H3 & H4 & H5).
  split; [exact H1 |]. split; [exact H2 |]. split; [lia |]. split; [exact H4 | exact H5].
Qed.

Lemma scan_post_count (p0 : PBVH) (k : nat) (st st' : scan_state) :
  scan_inv p0 k st -> scan_post p0 (untagged_edges (bm (fst st))) st st' ->
  scan_post p0 k st st'.
Proof.
  intros (_ & _ & H3 & _) (Hi & Hrest). split; [| exact Hrest].
  apply (scan_inv_weaken p0 (untagged_edges (bm (fst st))) k); [exact H3 | exact Hi].
Qed.

(** The loops of the collapse scan. *)
Lemma short_edge_queue_task_loop_total (c : EdgeQueueContext) (p0 : PBVH) (k : nat)
  (s : scan_state) (l_iter : BMLoop) :
  sides_have_edges (bm p0) = true ->
  scan_inv p0 k s -> loop_valid (bm p0) l_iter ->
  exists s', short_edge_queue_task_loop c s l_iter = Some s' /\ scan_post p0 k s s'.
Proof.
  intros Hwf Hinv Hv. unfold short_edge_queue_task_loop.
  destruct (f_eq _ _); [exists s; split; [reflexivity | apply scan_post_refl; exact Hinv] |].
  destruct (f_lt _ _); [| exists s; split; [reflexivity | apply scan_post_refl; exact Hinv]].
  destruct (short_edge_queue_edge_add_recursive_2_total c p0 Hwf (scan_fuel (fst s))
              (untagged_edges (bm (fst s))) s (radial_next (bm (fst s)) l_iter) l_iter
              (f32_div (calc_weighted_edge_collapse (bm (fst s))
                          (fst (loop_e (bm (fst s)) l_iter)) (snd (loop_e (bm (fst s)) l_iter)))
                       (f32_mul (maskcb_get (bm (fst s)) c (loop_e (bm (fst s)) l_iter))
                                (maskcb_get (bm (fst s)) c (loop_e (bm (fst s)) l_iter))))
              (limit_len (q c)) 0) as (s' & Es' & Hs').
  - exact (scan_inv_count _ _ _ Hinv).
  - destruct Hinv as (Ht & _). rewrite (radial_next_topo _ _ Ht).
    apply loop_valid_radial_next. exact Hv.
  - exact (scan_fuel_bound _ _ _ Hinv).
  - exists s'. split; [exact Es' | exact (scan_post_count _ _ _ _ Hinv Hs')].
Qed.

Lemma short_edge_queue_task_face_total (C : Collaborators) (c : EdgeQueueContext) (p0 : PBVH)
  (k : nat) (s0 s : scan_state) (f : face) :
  sides_have_edges (bm p0) = true ->
  scan_post p0 k s0 s ->
  exists s', short_edge_queue_task_face c s f = Some s' /\ scan_post p0 k s0 s'.
Proof.
  intros Hwf Hs. unfold short_edge_queue_task_face.
  destruct (_ && _); [exists s; split; [reflexivity | exact Hs] |].
  destruct (edge_queue_tri_in_range _ _ _); [| exists s; split; [reflexivity | exact Hs]].
  apply (fold_opt_inv (fun x => scan_post p0 k s0 x)); [exact Hs |].
  intros x l Hl Hx.
  destruct (short_edge_queue_task_loop_total c p0 k x l Hwf) as (x' & Ex' & Hx').
  - apply Hx.
  - destruct Hs as ((Ht & _) & _). rewrite (face_loops_topo _ _ Ht) in Hl.
    exact (loop_valid_face_loops _ _ _ Hl).
  - exists x'. split; [exact Ex' | exact (scan_post_trans _ _ _ _ _ Hx Hx')].
Qed.

(** The first loop of a task clears tags and nothing else. *)
Lemma clear_face_edge_tags_frame (p : PBVH) (f : face) :
  same_topology (bm p) (bm (clear_face_edge_tags p f))
  /\ nodes (clear_face_edge_tags p f) = nodes p
  /\ bm_verts (bm (clear_face_edge_tags p f)) = bm_verts (bm p).
Proof.
  unfold clear_face_edge_tags.
  apply (fold_left_inv (fun p' => same_topology (bm p) (bm p') /\ nodes p' = nodes p
                                  /\ bm_verts (bm p') = bm_verts (bm p))).
  - split; [apply same_topology_refl | split; reflexivity].
  - intros p' l _ (Ht & Hn & Hv). cbn [bm set_bm nodes].
    split; [| split; [exact Hn | exact Hv]].
    apply (same_topology_trans _ _ _ Ht).
    apply (edge_update_topo (bm p') _ (fun x => flag_disable x BM_ELEM_TAG)).
Qed.

Lemma clear_tags_frame (p : PBVH) (fs : list face) :
  same_topology (bm p) (bm (fold_left clear_face_edge_tags fs p))
  /\ nodes (fold_left clear_face_edge_tags fs p) = nodes p
  /\ bm_verts (bm (fold_left clear_face_edge_tags fs p)) = bm_verts (bm p).
Proof.
  apply (fold_left_inv (fun p' => same_topology (bm p) (bm p') /\ nodes p' = nodes p
                                  /\ bm_verts (bm p') = bm_verts (bm p))).
  - split; [apply same_topology_refl | split; reflexivity].
  - intros p' f _ (Ht & Hn & Hv).
    destruct (clear_face_edge_tags_frame p' f) as (Ht' & Hn' & Hv').
    split; [exact (same_topology_trans _ _ _ Ht Ht') | split; congruence].
Qed.

Lemma scan_inv_start (p p1 : PBVH) (td : EdgeQueueThreadData) :
  same_topology (bm p) (bm p1) -> nodes p1 = nodes p -> td_edges td = [] ->
  scan_inv p (length (bm_edges (bm p))) (p1, td).
Proof.
  intros Ht Hn Htd. unfold scan_inv. cbn [fst snd].
  split; [exact Ht |]. split; [exact Hn |]. split.
  { unfold untagged_edges. rewrite <- (length_edges_topo _ _ Ht). apply List.filter_length_le. }
  rewrite Htd. split; [apply NoDup_nil_2 | intros e []].
Qed.

Lemma short_edge_queue_task_cb_total (C : Collaborators) (c : EdgeQueueContext) (p : PBVH)
  (td : EdgeQueueThreadData) :
  sides_have_edges (bm p) = true -> td_edges td = [] ->
  exists st', short_edge_queue_task_cb c (p, td) = Some st'
    /\ scan_inv p (length (bm_edges (bm p))) st'
    /\ bm_verts (bm (fst st')) = bm_verts (bm p)
    /\ td_node (snd st') = td_node td
    /\ td_val34_verts (snd st') = td_val34_verts td.
Proof.
  intros Hwf Htd. unfold short_edge_queue_task_cb.
  destruct (clear_tags_frame p (node_faces p (td_node td))) as (Ht & Hn & Hv).
  set (p1 := fold_left clear_face_edge_tags (node_faces p (td_node td)) p) in *.
  pose proof (scan_inv_start p p1 td Ht Hn Htd) as Hinv.
  destruct (fold_opt_inv (fun x => scan_post p (length (bm_edges (bm p))) (p1, td) x)
              (short_edge_queue_task_face c) (node_faces p (td_node td)) (p1, td))
    as (st' & Est' & Hst').
  - apply scan_post_refl. exact Hinv.
  - intros x f _ Hx. apply (short_edge_queue_task_face_total C c p _ (p1, td) x f Hwf Hx).
  - exists st'. split; [exact Est' |]. destruct Hst' as (Hi & Hv' & Hn' & Hl').
    cbn [fst snd] in *. split; [exact Hi |]. split; [congruence |].
    split; [exact Hn' | exact Hl'].
Qed.

(** The loops of the subdivide scan.  The smoothing step moves a vertex
    and touches neither edges, faces nor leaves. *)
Lemma pbvh_check_vert_boundary_frame (C : Collaborators) (p : PBVH) (v : vert) :
  bm_edges (bm (pbvh_check_vert_boundary p v)) = bm_edges (bm p)
  /\ bm_faces (bm (pbvh_check_vert_boundary p v)) = bm_faces (bm p)
  /\ nodes (pbvh_check_vert_boundary p v) = nodes p.
Proof.
  unfold pbvh_check_vert_boundary.
  destruct (flag_test _ _); repeat split.
Qed.

Lemma surface_smooth_v_safe_frame (C : Collaborators) (p : PBVH) (v : vert) :
  bm_edges (bm (surface_smooth_v_safe p v)) = bm_edges (bm p)
  /\ bm_faces (bm (surface_smooth_v_safe p v)) = bm_faces (bm p)
  /\ nodes (surface_smooth_v_safe p v) = nodes p.
Proof.
  unfold surface_smooth_v_safe.
  destruct (vert_e (bm p) v); [| repeat split].
  destruct (flag_test _ DYNVERT_SMOOTH_CORNER); [apply pbvh_check_vert_boundary_frame |].
  destruct (fold_left _ _ _) as [acc tot].
  destruct (f_eq tot f32_zero); [apply pbvh_check_vert_boundary_frame |].
  destruct (pbvh_check_vert_boundary_frame C p v) as (He & Hf & Hn).
  repeat split; assumption.
Qed.

Lemma pbvh_check_vert_boundary_next (C : Collaborators) (p : PBVH) (v : vert) :
  bm_next (bm (pbvh_check_vert_boundary p v)) = bm_next (bm p).
Proof. unfold pbvh_check_vert_boundary. destruct (flag_test _ _); reflexivity. Qed.

Lemma surface_smooth_v_safe_next (C : Collaborators) (p : PBVH) (v : vert) :
  bm_next (bm (surface_smooth_v_safe p v)) = bm_next (bm p).
Proof.
  unfold surface_smooth_v_safe.
  destruct (vert_e (bm p) v); [| reflexivity].
  destruct (flag_test _ DYNVERT_SMOOTH_CORNER); [apply pbvh_check_vert_boundary_next |].
  destruct (fold_left _ _ _) as [acc tot].
  destruct (f_eq tot f32_zero); apply pbvh_check_vert_boundary_next.
Qed.

Lemma scan_inv_edges (p0 : PBVH) (k : nat) (p p' : PBVH) (td td' : EdgeQueueThreadData) :
  bm_edges (bm p') = bm_edges (bm p) -> bm_faces (bm p') = bm_faces (bm p) ->
  bm_next (bm p') = bm_next (bm p) ->
  nodes p' = nodes p -> td_edges td' = td_edges td ->
  scan_inv p0 k (p, td) -> scan_inv p0 k (p', td').
Proof.
  intros He Hf Hx Hn Htd (H1 & H2 & H3 & H4 & H5). unfold scan_inv in *. cbn [fst snd] in *.
  split.
  { destruct H1 as (Ha & Hb & Hc). repeat split; congruence. }
  split; [congruence |].
  split; [unfold untagged_edges in *; rewrite He; exact H3 |].
  rewrite Htd. split; [exact H4 |].
  intros e Hin. destruct (H5 e Hin) as [Ha Hb]. split; [| exact Hb].
  unfold edge_tagged, eget in *. rewrite He. exact Ha.
Qed.

Lemma long_edge_queue_task_loop_total (C : Collaborators) (c : EdgeQueueContext) (seed : Z)
  (p0 : PBVH) (k : nat) (s : long_scan_state) (l_iter : BMLoop) :
  sides_have_edges (bm p0) = true ->
  scan_inv p0 k (fst s) -> loop_valid (bm p0) l_iter ->
  exists s', long_edge_queue_task_loop c seed s l_iter = Some s'
             /\ scan_inv p0 k (fst s') /\ td_node (snd (fst s')) = td_node (snd (fst s)).
Proof.
  intros Hwf Hinv Hv. destruct s as [[p td] drawn]. cbn [fst snd] in *.
  unfold long_edge_queue_task_loop. cbv zeta.
  match goal with
  | [ |- context [long_edge_queue_edge_add_recursive_2 _ c (?P1, ?TD1) _ _ _ _ _] ] =>
      set (p1 := P1) in *; set (td1 := TD1) in *
  end.
  assert (Hp1 : bm_edges (bm p1) = bm_edges (bm p) /\ bm_faces (bm p1) = bm_faces (bm p)
                /\ nodes p1 = nodes p).
  { subst p1. destruct (f_gt _ _); [apply surface_smooth_v_safe_frame | repeat split]. }
  assert (Htd1 : td_edges td1 = td_edges td /\ td_node td1 = td_node td).
  { subst td1. destruct (_ || _); split; reflexivity. }
  assert (Hx1 : bm_next (bm p1) = bm_next (bm p)).
  { subst p1. destruct (f_gt _ _); [apply surface_smooth_v_safe_next | reflexivity]. }
  destruct Hp1 as (He & Hf & Hn). destruct Htd1 as (Hte & Htn).
  pose proof (scan_inv_edges p0 k p p1 td td1 He Hf Hx1 Hn Hte Hinv) as Hinv1.
  destruct (f_gt _ (limit_len_squared (q c))).
  - match goal with
    | [ |- context [long_edge_queue_edge_add_recursive_2 ?fu c ?st ?le ?ln ?a ?b ?d] ] =>
        destruct (long_edge_queue_edge_add_recursive_2_total c p0 Hwf fu
                    (untagged_edges (bm p1)) st le ln a b d) as (s' & Es' & Hs')
    end.
    + exact (scan_inv_count _ _ _ Hinv1).
    + destruct Hinv1 as (Ht & _). cbn [fst] in Ht. rewrite (radial_next_topo _ _ Ht).
      apply loop_valid_radial_next. exact Hv.
    + exact (scan_fuel_bound _ _ _ Hinv1).
    + rewrite Es'. destruct s' as [p2 td2].
      exists (p2, td2, S drawn). split; [reflexivity |]. cbn [fst snd].
      pose proof (scan_post_count _ _ _ _ Hinv1 Hs') as (Hi & _ & Hnode & _).
      cbn [fst snd] in *. split; [exact Hi | congruence].
  - exists (p1, td1, S drawn). split; [reflexivity |]. cbn [fst snd].
    split; [exact Hinv1 | exact Htn].
Qed.

Lemma long_edge_queue_task_face_total (C : Collaborators) (c : EdgeQueueContext) (seed : Z)
  (p0 : PBVH) (k : nat) (ni : Z) (s : long_scan_state) (f : face) :
  sides_have_edges (bm p0) = true ->
  scan_inv p0 k (fst s) /\ td_node (snd (fst s)) = ni ->
  exists s', long_edge_queue_task_face c seed s f = Some s'
             /\ scan_inv p0 k (fst s') /\ td_node (snd (fst s')) = ni.
Proof.
  intros Hwf Hs. unfold long_edge_queue_task_face.
  destruct (_ && _); [exists s; split; [reflexivity | exact Hs] |].
  destruct (edge_queue_tri_in_range _ _ _); [| exists s; split; [reflexivity | exact Hs]].
  apply (fold_opt_inv (fun x => scan_inv p0 k (fst x) /\ td_node (snd (fst x)) = ni));
    [exact Hs |].
  intros x l Hl [Hx Hxn].
  destruct (long_edge_queue_task_loop_total C c seed p0 k x l Hwf Hx) as (x' & Ex' & Hx' & Hn').
  - destruct Hs as ((Ht & _) & _). rewrite (face_loops_topo _ _ Ht) in Hl.
    exact (loop_valid_face_loops _ _ _ Hl).
  - exists x'. split; [exact Ex' |]. split; [exact Hx' |].
    exact (eq_trans Hn' Hxn).
Qed.

Lemma long_edge_queue_task_cb_total (C : Collaborators) (c : EdgeQueueContext) (seed : Z)
  (p : PBVH) (td : EdgeQueueThreadData) :
  sides_have_edges (bm p) = true -> td_edges td = [] ->
  exists st', long_edge_queue_task_cb c seed (p, td) = Some st'
    /\ scan_inv p (length (bm_edges (bm p))) st'
    /\ td_node (snd st') = td_node td.
Proof.
  intros Hwf Htd. unfold long_edge_queue_task_cb.
  destruct (clear_tags_frame p (node_faces p (td_node td))) as (Ht & Hn & Hv).
  set (p1 := fold_left clear_face_edge_tags (node_faces p (td_node td)) p) in *.
  pose proof (scan_inv_start p p1 td Ht Hn Htd) as Hinv.
  destruct (fold_opt_inv
              (fun x => scan_inv p (length (bm_edges (bm p))) (fst x)
                        /\ td_node (snd (fst x)) = td_node td)
              (long_edge_queue_task_face c seed) (node_faces p (td_node td)) (p1, td, O))
    as (st' & Est' & Hst' & Hnode).
  - split; [exact Hinv | reflexivity].
  - intros x f _ Hx. apply (long_edge_queue_task_face_total C c seed p _ _ x f Hwf Hx).
  - exists (fst st'). split; [| split; [exact Hst' | exact Hnode]].
    exact (f_equal (option_map fst) Est').
Qed.

(** The tasks of a queue, one after the other. *)
Lemma sides_have_edges_scan (p0 : PBVH) (k : nat) (st : scan_state) :
  scan_inv p0 k st -> sides_have_edges (bm (fst st)) = sides_have_edges (bm p0).
Proof. intros (Ht & _). apply sides_have_edges_topo. exact Ht. Qed.

Lemma run_tasks_total (task : nat -> scan_state -> option scan_state) :
  (forall i p td, sides_have_edges (bm p) = true -> td_edges td = [] ->
     exists st', task i (p, td) = Some st' /\ scan_inv p (length (bm_edges (bm p))) st') ->
  forall tds i p,
    sides_have_edges (bm p) = true -> Forall (fun td => td_edges td = []) tds ->
    exists p' r, run_tasks task i p tds = Some (p', r)
      /\ same_topology (bm p) (bm p') /\ nodes p' = nodes p
      /\ length r = length tds
      /\ Forall (fun td => NoDup (td_edges td)
                           /\ forall e, In e (td_edges td) ->
                                        In e (map edge_key (bm_edges (bm p)))) r.
Proof.
  intros Htask. induction tds as [|td tl IH]; intros i p Hwf Hall.
  - exists p, []. split; [reflexivity |]. split; [apply same_topology_refl |].
    split; [reflexivity |]. split; [reflexivity | constructor].
  - cbn [run_tasks].
    apply Forall_cons in Hall. destruct Hall as [Htd Hall].
    destruct (Htask i p td Hwf Htd) as ([p1 td1] & E1 & Hinv1). rewrite E1.
    pose proof Hinv1 as (Ht1 & Hn1 & _ & Hnd1 & Hed1). cbn [fst snd] in *.
    destruct (IH (S i) p1) as (p2 & r & E2 & Ht2 & Hn2 & Hlen & Hr).
    + rewrite (sides_have_edges_topo _ _ Ht1). exact Hwf.
    + exact Hall.
    + rewrite E2. exists p2, (td1 :: r). split; [reflexivity |].
      split; [exact (same_topology_trans _ _ _ Ht1 Ht2) |].
      split; [congruence |].
      split; [cbn [length]; congruence |].
      apply Forall_cons. split.
      * split; [exact Hnd1 |]. intros e He. apply (Hed1 e He).
      * destruct Ht1 as (_ & Hk1 & _). eapply Forall_impl; [exact Hr |].
        intros x [Hx1 Hx2]. cbn beta in *. split; [exact Hx1 |].
        intros e He. rewrite <- Hk1. apply Hx2. exact He.
Qed.

Lemma queue_tasks_fresh (p : PBVH) : Forall (fun td => td_edges td = []) (queue_tasks p).
Proof.
  unfold queue_tasks. apply Forall_forall. intros td Hin.
  apply list_elem_of_In, in_map_iff in Hin. destruct Hin as (i & <- & _). reflexivity.
Qed.

(** The merge loops put only collected edges into the queue. *)
Lemma edge_queue_insert_elems (m : BMesh) (c : EdgeQueueContext) (e : edge) (w : f32)
  (x : edge) :
  In x (elems (q (edge_queue_insert m c e w))) -> In x (elems (q c)) \/ x = e.
Proof.
  unfold edge_queue_insert. destruct (_ || _); cbn [q elems]; [| tauto].
  intros H. apply in_app_or in H. destruct H as [H | [H | []]]; [left | right]; congruence.
Qed.

Lemma short_edge_queue_merge_edge_inv (C : Collaborators) (p : PBVH) (keys : list edge)
  (st : merge_state) (e : edge) :
  In e keys ->
  same_topology (bm p) (bm (fst st)) /\ nodes (fst st) = nodes p
  /\ (forall x, In x (elems (q (snd st))) -> In x keys) ->
  same_topology (bm p) (bm (fst (short_edge_queue_merge_edge st e)))
  /\ nodes (fst (short_edge_queue_merge_edge st e)) = nodes p
  /\ (forall x, In x (elems (q (snd (short_edge_queue_merge_edge st e)))) -> In x keys).
Proof.
  intros He (Ht & Hn & Hq). destruct st as [p0 c]. cbn [fst snd] in *.
  unfold short_edge_queue_merge_edge.
  destruct (pbvh_check_vert_boundary_frame C p0 (fst e)) as (He1 & Hf1 & Hn1).
  destruct (pbvh_check_vert_boundary_frame C (pbvh_check_vert_boundary p0 (fst e)) (snd e))
    as (He2 & Hf2 & Hn2).
  pose proof (pbvh_check_vert_boundary_next C p0 (fst e)) as Hx1.
  pose proof (pbvh_check_vert_boundary_next C (pbvh_check_vert_boundary p0 (fst e)) (snd e))
    as Hx2.
  set (p2 := pbvh_check_vert_boundary (pbvh_check_vert_boundary p0 (fst e)) (snd e)) in *.
  assert (Ht2 : same_topology (bm p) (bm p2)).
  { destruct Ht as (Ha & Hb & Hc). repeat split; congruence. }
  assert (Hn2' : nodes p2 = nodes p) by congruence.
  destruct (_ || _); [cbn [fst snd]; split; [exact Ht2 | split; [exact Hn2' | exact Hq]] |].
  destruct (negb _); [cbn [fst snd]; split; [exact Ht2 | split; [exact Hn2' | exact Hq]] |].
  cbn [fst snd bm set_bm nodes]. split; [| split; [exact Hn2' |]].
  - apply (same_topology_trans _ _ _ Ht2).
    apply (edge_update_topo (bm p2) e (fun x => flag_disable x BM_ELEM_TAG)).
  - intros x Hx. apply edge_queue_insert_elems in Hx. destruct Hx as [Hx | ->];
      [apply Hq; exact Hx | exact He].
Qed.


Lemma pbvh_bmesh_collapse_short_edges_total (C : Collaborators) (c : EdgeQueueContext)
  (p : PBVH) (max_steps : Z) :
  exists r, pbvh_bmesh_collapse_short_edges c p max_steps = Some r.
Proof.
  unfold pbvh_bmesh_collapse_short_edges.
  destruct (collapse_loop_spec max_steps (length (heap (q c))) (mkCollapseState p c ∅ false 0))
    as (s' & Hs' & _).
  - apply chain_ranked_empty.
  - cbn [cs_ctx]. lia.
  - rewrite Hs'. eexists. reflexivity.
Qed.

Lemma short_edge_queue_create_total (C : Collaborators) (c : EdgeQueueContext) (p : PBVH)
  (center_ view_normal_ : vec3) (radius : f32) (use_frontface use_projected_ : bool) :
  sides_have_edges (bm p) = true ->
  exists st,
    short_edge_queue_create c p center_ view_normal_ radius use_frontface use_projected_
    = Some st
    /\ same_topology (bm p) (bm (fst st)) /\ nodes (fst st) = nodes p
    /\ (forall e, In e (elems (q (snd st))) -> In e (map edge_key (bm_edges (bm p)))).
Proof.
  intros Hwf. unfold short_edge_queue_create. cbv zeta.
  match goal with
  | [ |- context [run_tasks ?task 0%nat p (queue_tasks p)] ] =>
      destruct (run_tasks_total task) with (tds := queue_tasks p) (i := 0%nat) (p := p)
        as (p1 & tds & E & Ht & Hn & _ & Hall)
  end.
  - intros i p' td Hwf' Htd. cbn beta.
    match goal with
    | [ |- exists st', short_edge_queue_task_cb ?cc _ = _ /\ _ ] =>
        destruct (short_edge_queue_task_cb_total C cc p' td Hwf' Htd) as (st' & E & Hinv & _)
    end.
    exists st'. split; [exact E | exact Hinv].
  - exact Hwf.
  - apply queue_tasks_fresh.
  - rewrite E. eexists. split; [reflexivity |].
    match goal with
    | [ |- context [fold_left ?f tds ?s0] ] =>
        apply (fold_left_inv
                 (fun st => same_topology (bm p) (bm (fst st)) /\ nodes (fst st) = nodes p
                            /\ (forall e, In e (elems (q (snd st))) ->
                                          In e (map edge_key (bm_edges (bm p)))))
                 f tds s0)
    end.
    + cbn [fst snd]. split; [exact Ht |]. split; [exact Hn |]. intros e [].
    + intros st td Htd Hst. rewrite Forall_forall in Hall.
      apply list_elem_of_In in Htd. destruct (Hall td Htd) as [_ Hkeys].
      apply (fold_left_inv
               (fun st => same_topology (bm p) (bm (fst st)) /\ nodes (fst st) = nodes p
                          /\ (forall e, In e (elems (q (snd st))) ->
                                        In e (map edge_key (bm_edges (bm p))))));
        [exact Hst |].
      intros st0 e He Hst0.
      apply (short_edge_queue_merge_edge_inv C p _ st0 e (Hkeys e He) Hst0).
Qed.


(** X19.  On a mesh in which every side of every face has its edge, the scan of
    one node for the collapse queue and the scan for the subdivide queue
    (with their recursive walks over neighbouring faces) both return. They
    keep the faces, the end points of the edges and the nodes, collect no
    edge twice, and every collected edge is an edge of the mesh that carries
    BM_ELEM_TAG afterwards. *)
Theorem edge_queue_scan_tasks_return (C : Collaborators) (c : EdgeQueueContext) (seed : Z)
  (p : PBVH) (ni : Z) :
  sides_have_edges (bm p) = true ->
  (exists p' td',
     short_edge_queue_task_cb c (p, mkEdgeQueueThreadData ni [] []) = Some (p', td')
     /\ bm_faces (bm p') = bm_faces (bm p)
     /\ map edge_key (bm_edges (bm p')) = map edge_key (bm_edges (bm p))
     /\ bm_verts (bm p') = bm_verts (bm p)
     /\ nodes p' = nodes p
     /\ td_val34_verts td' = []
     /\ NoDup (td_edges td')
     /\ forall e, In e (td_edges td') ->
                  In e (map edge_key (bm_edges (bm p))) /\ edge_tagged (bm p') e = true)
  /\ (exists p' td',
        long_edge_queue_task_cb c seed (p, mkEdgeQueueThreadData ni [] []) = Some (p', td')
        /\ bm_faces (bm p') = bm_faces (bm p)
        /\ map edge_key (bm_edges (bm p')) = map edge_key (bm_edges (bm p))
        /\ nodes p' = nodes p
        /\ NoDup (td_edges td')
        /\ forall e, In e (td_edges td') ->
                     In e (map edge_key (bm_edges (bm p))) /\ edge_tagged (bm p') e = true).
Proof.
  intros Hwf. split.
  - destruct (short_edge_queue_task_cb_total C c p (mkEdgeQueueThreadData ni [] []) Hwf eq_refl)
      as ([p' td'] & E & ((Hf & Hk & _) & Hn & _ & Hnd & Hed) & Hv & _ & Hl).
    cbn [fst snd] in *. exists p', td'.
    split; [exact E |]. split; [exact Hf |]. split; [exact Hk |]. split; [exact Hv |].
    split; [exact Hn |]. split; [exact Hl |]. split; [exact Hnd |].
    intros e He. destruct (Hed e He) as [Ha Hb]. split; [exact Hb | exact Ha].
  - destruct (long_edge_queue_task_cb_total C c seed p (mkEdgeQueueThreadData ni [] []) Hwf
                eq_refl)
      as ([p' td'] & E & ((Hf & Hk & _) & Hn & _ & Hnd & Hed) & _).
    cbn [fst snd] in *. exists p', td'.
    split; [exact E |]. split; [exact Hf |]. split; [exact Hk |].
    split; [exact Hn |]. split; [exact Hnd |].
    intros e He. destruct (Hed e He) as [Ha Hb]. split; [exact Hb | exact Ha].
Qed.

Lemma edge_queue_scan_tasks_return_witness :
  exists p' td',
    @short_edge_queue_task_cb plain_collaborators tri_ctx
      (tri_pbvh, mkEdgeQueueThreadData 0 [] []) = Some (p', td')
    /\ NoDup (td_edges td').
Proof.
  destruct (edge_queue_scan_tasks_return plain_collaborators tri_ctx 0 tri_pbvh 0)
    as [(p' & td' & E & _ & _ & _ & _ & _ & Hnd & _) _]; [reflexivity |].
  exists p', td'. split; [exact E | exact Hnd].
Defined.



(* ---------------------------------------------------------------------- *)
(** ** The vertices a collapse removes *)

Lemma vdom_set_bm (p : PBVH) (m : BMesh) :
  bm_verts m = bm_verts (bm p) -> vdom (set_bm p m) = vdom p.
Proof. intros H. unfold vdom. cbn [bm set_bm]. rewrite H. reflexivity. Qed.

Lemma vdom_bm (p p' : PBVH) : bm p' = bm p -> vdom p' = vdom p.
Proof. intros H. unfold vdom. rewrite H. reflexivity. Qed.

Lemma vdom_node_update (p : PBVH) (ni : Z) (g : PBVHNode -> PBVHNode) :
  vdom (node_update p ni g) = vdom p.
Proof. apply vdom_bm, bm_node_update. Qed.

Lemma vdom_node_flag_enable (p : PBVH) (ni flag : Z) : vdom (node_flag_enable p ni flag) = vdom p.
Proof. apply vdom_node_update. Qed.

Lemma vdom_node_flag_disable (p : PBVH) (ni flag : Z) :
  vdom (node_flag_disable p ni flag) = vdom p.
Proof. apply vdom_node_update. Qed.

Lemma vdom_vert_update (p : PBVH) (v : vert) (g : BMVert -> BMVert) :
  vdom (pbvh_vert_update p v g) = vdom p.
Proof.
  unfold vdom, pbvh_vert_update, vert_update. cbn [bm set_bm bm_verts set_bm_verts].
  apply dom_alter_L.
Qed.

Lemma vdom_mv_flag_enable (p : PBVH) (v : vert) (flag : Z) :
  vdom (pbvh_mv_flag_enable p v flag) = vdom p.
Proof. apply (vdom_vert_update p v). Qed.

Lemma vdom_fold_left {A : Type} (f : PBVH -> A -> PBVH) (l : list A) :
  (forall s x, vdom (f s x) = vdom s) -> forall s, vdom (fold_left f l s) = vdom s.
Proof.
  intros Hf. induction l as [|x tl IH]; intros s; [reflexivity |].
  cbn [fold_left]. rewrite IH. apply Hf.
Qed.

Lemma bm_verts_face_kills (fs : list face) (m : BMesh) :
  bm_verts (fold_left BM_face_kill fs m) = bm_verts m.
Proof.
  revert m. induction fs as [|f tl IH]; intros m; [reflexivity |].
  cbn [fold_left]. rewrite IH. reflexivity.
Qed.

Lemma bm_verts_edge_kill (m : BMesh) (e : edge) : bm_verts (BM_edge_kill m e) = bm_verts m.
Proof.
  unfold BM_edge_kill. cbn [bm_verts set_bm_edges]. apply bm_verts_face_kills.
Qed.

Lemma bm_verts_edge_kills (es : list edge) (m : BMesh) :
  bm_verts (fold_left BM_edge_kill es m) = bm_verts m.
Proof.
  revert m. induction es as [|e tl IH]; intros m; [reflexivity |].
  cbn [fold_left]. rewrite IH. apply bm_verts_edge_kill.
Qed.

Lemma vdom_kill_vert (p : PBVH) (v : vert) : vdom (pbvh_kill_vert p v) = vdom p ∖ {[v]}.
Proof.
  unfold vdom, pbvh_kill_vert, BM_vert_kill. cbn [bm set_bm bm_verts set_bm_verts].
  rewrite dom_delete_L, bm_verts_edge_kills. reflexivity.
Qed.

Lemma vdom_vert_remove (p : PBVH) (v : vert) : vdom (pbvh_bmesh_vert_remove p v) = vdom p.
Proof.
  destruct (pbvh_bmesh_vert_remove_frame p v) as (Hb & _).
  unfold vdom. rewrite Hb. unfold vert_update. cbn [bm_verts set_bm_verts]. apply dom_alter_L.
Qed.

Lemma vdom_ownership_transfer (p : PBVH) (ni : Z) (v : vert) :
  vdom (pbvh_bmesh_vert_ownership_transfer p ni v) = vdom p.
Proof.
  destruct (pbvh_bmesh_vert_ownership_transfer_frame p ni v) as (Hb & _).
  unfold vdom. rewrite Hb. unfold vert_update. cbn [bm_verts set_bm_verts]. apply dom_alter_L.
Qed.

Lemma vdom_face_remove_vert (p : PBVH) (fi : Z) (b : bool) (v : vert) :
  vdom (face_remove_vert p fi b v) = vdom p.
Proof.
  unfold face_remove_vert.
  destruct (pbvh_bmesh_node_vert_use_count_is_equal p fi v 1); [| reflexivity].
  destruct (_ =? fi); [| reflexivity].
  destruct (pbvh_bmesh_vert_other_node_find p v); [apply vdom_ownership_transfer |].
  destruct (_ && _); [| reflexivity].
  rewrite vdom_node_flag_enable. apply vdom_vert_remove.
Qed.

Lemma vdom_face_remove (p : PBVH) (f : face) (cv eot : bool) :
  vdom (pbvh_bmesh_face_remove p f cv eot) = vdom p.
Proof.
  unfold pbvh_bmesh_face_remove.
  destruct (node_at p _); [| reflexivity].
  destruct (negb _); [reflexivity |].
  rewrite vdom_node_flag_enable, vdom_set_bm by reflexivity.
  rewrite vdom_node_update.
  destruct cv; [| reflexivity].
  apply vdom_fold_left. intros s l. apply vdom_face_remove_vert.
Qed.

Lemma vdom_edge_create_log (p : PBVH) (a b : vert) (ex : option edge) :
  vdom (fst (bmesh_edge_create_log p a b ex)) = vdom p.
Proof.
  unfold bmesh_edge_create_log. destruct (BM_edge_exists (bm p) a b); reflexivity.
Qed.

Lemma vdom_edges_from_tri (p : PBVH) (v_tri : list vert) :
  vdom (fst (bm_edges_from_tri p v_tri)) = vdom p.
Proof.
  unfold bm_edges_from_tri.
  pose proof (vdom_edge_create_log p (tri_corner v_tri 0) (tri_corner v_tri 1) None) as H1.
  destruct (bmesh_edge_create_log p (tri_corner v_tri 0) (tri_corner v_tri 1) None) as [p1 e0].
  pose proof (vdom_edge_create_log p1 (tri_corner v_tri 1) (tri_corner v_tri 2) None) as H2.
  destruct (bmesh_edge_create_log p1 (tri_corner v_tri 1) (tri_corner v_tri 2) None) as [p2 e1].
  pose proof (vdom_edge_create_log p2 (tri_corner v_tri 2) (tri_corner v_tri 0) None) as H3.
  destruct (bmesh_edge_create_log p2 (tri_corner v_tri 2) (tri_corner v_tri 0) None) as [p3 e2].
  cbn [fst] in *. congruence.
Qed.

Lemma vdom_edges_from_tri_example (p : PBVH) (v_tri : list vert) (e_tri : list edge) :
  vdom (fst (bm_edges_from_tri_example p v_tri e_tri)) = vdom p.
Proof.
  unfold bm_edges_from_tri_example.
  pose proof (vdom_edge_create_log p (tri_corner v_tri 0) (tri_corner v_tri 1)
                (e_tri !! 0%nat)) as H1.
  destruct (bmesh_edge_create_log p (tri_corner v_tri 0) (tri_corner v_tri 1) (e_tri !! 0%nat))
    as [p1 e0].
  pose proof (vdom_edge_create_log p1 (tri_corner v_tri 1) (tri_corner v_tri 2)
                (e_tri !! 1%nat)) as H2.
  destruct (bmesh_edge_create_log p1 (tri_corner v_tri 1) (tri_corner v_tri 2) (e_tri !! 1%nat))
    as [p2 e1].
  pose proof (vdom_edge_create_log p2 (tri_corner v_tri 2) (tri_corner v_tri 0)
                (e_tri !! 2%nat)) as H3.
  destruct (bmesh_edge_create_log p2 (tri_corner v_tri 2) (tri_corner v_tri 0) (e_tri !! 2%nat))
    as [p3 e2].
  cbn [fst] in *. congruence.
Qed.

Lemma vdom_face_create_edge_log (p : PBVH) (v_tri : list vert) (b : bool) (ex : option face) :
  vdom (fst (bmesh_face_create_edge_log p v_tri b ex)) = vdom p.
Proof.
  unfold bmesh_face_create_edge_log.
  assert (H1 : vdom (if b then p else fst (bm_edges_from_tri p v_tri)) = vdom p)
    by (destruct b; [reflexivity | apply vdom_edges_from_tri]).
  set (p1 := if b then p else fst (bm_edges_from_tri p v_tri)) in *.
  unfold BM_face_create. cbn [fst]. rewrite <- H1.
  destruct ex; reflexivity.
Qed.

Lemma vdom_face_create_vert (ni : Z) (b : bool) (p : PBVH) (v : vert) :
  vdom (face_create_vert ni b p v) = vdom p.
Proof.
  unfold face_create_vert. rewrite vdom_mv_flag_enable.
  destruct (_ && _); [| reflexivity].
  rewrite vdom_node_flag_enable, vdom_vert_update. apply vdom_node_update.
Qed.

Lemma vdom_face_create (p : PBVH) (ni : Z) (v_tri : list vert) (b : bool) (ex : option face)
  (ev : bool) :
  vdom (fst (pbvh_bmesh_face_create p ni v_tri b ex ev)) = vdom p.
Proof.
  unfold pbvh_bmesh_face_create.
  pose proof (vdom_face_create_edge_log p v_tri b ex) as H1.
  destruct (bmesh_face_create_edge_log p v_tri b ex) as [p1 f]. cbn [fst] in *.
  rewrite (vdom_fold_left (face_create_vert ni ev) v_tri (vdom_face_create_vert ni ev)).
  rewrite vdom_node_flag_disable, vdom_node_flag_enable, vdom_set_bm by reflexivity.
  rewrite vdom_node_update. exact H1.
Qed.

Lemma vdom_copy_facedata (p : PBVH) (a b : face) : vdom (pbvh_bmesh_copy_facedata p a b) = vdom p.
Proof. unfold pbvh_bmesh_copy_facedata. apply vdom_set_bm. reflexivity. Qed.

Lemma vdom_remove_adjacent (p : PBVH) (e : edge) (f : face) :
  vdom (collapse_remove_adjacent p e f) = vdom p.
Proof.
  unfold collapse_remove_adjacent. cbv zeta.
  rewrite vdom_set_bm by reflexivity. rewrite vdom_face_remove.
  rewrite vdom_fold_left by (intros s l; apply vdom_set_bm; reflexivity).
  apply vdom_fold_left. intros s l. apply vdom_mv_flag_enable.
Qed.

Lemma vdom_remove_adjacent_all (fuel : nat) (e : edge) :
  forall p, vdom (collapse_remove_adjacent_all fuel p e) = vdom p.
Proof.
  induction fuel as [|n IH]; intros p; [reflexivity |].
  cbn [collapse_remove_adjacent_all]. destruct (edge_l (bm p) e); [| reflexivity].
  rewrite IH. apply vdom_remove_adjacent.
Qed.

Lemma vdom_rewrite_loop (v_del v_conn : vert) (st : PBVH * list face) (l : BMLoop) :
  vdom (fst (collapse_rewrite_loop v_del v_conn st l)) = vdom (fst st).
Proof.
  destruct st as [p fs]. unfold collapse_rewrite_loop. cbv zeta. cbn [fst].
  destruct (bm_face_exists_tri_from_loop_vert _ _ _).
  - destruct (existsb _ _); reflexivity.
  - match goal with
    | [ |- context [bm_edges_from_tri ?pp ?tt] ] =>
        pose proof (vdom_edges_from_tri pp tt) as H2;
        destruct (bm_edges_from_tri pp tt) as [p2 e_tri]
    end.
    match goal with
    | [ |- context [bm_edges_from_tri_example ?pp ?tt ?ee] ] =>
        pose proof (vdom_edges_from_tri_example pp tt ee) as H3;
        destruct (bm_edges_from_tri_example pp tt ee) as [p3 e3]
    end.
    match goal with
    | [ |- context [pbvh_bmesh_face_create ?pp ?ni ?tt ?b ?ex ?ev] ] =>
        pose proof (vdom_face_create pp ni tt b ex ev) as H4;
        destruct (pbvh_bmesh_face_create pp ni tt b ex ev) as [p4 f2]
    end.
    cbn [fst] in *. rewrite vdom_copy_facedata, H4, H3, H2.
    rewrite !vdom_mv_flag_enable. reflexivity.
Qed.

Lemma vdom_rewrite_loops (v_del v_conn : vert) (ls : list BMLoop) :
  forall st, vdom (fst (fold_left (collapse_rewrite_loop v_del v_conn) ls st)) = vdom (fst st).
Proof.
  induction ls as [|l tl IH]; intros st; [reflexivity |].
  cbn [fold_left]. rewrite IH. apply vdom_rewrite_loop.
Qed.

Lemma vdom_rewrite (p : PBVH) (e : edge) (v_del v_conn : vert) :
  vdom (fst (collapse_rewrite p e v_del v_conn)) = vdom p.
Proof.
  unfold collapse_rewrite. cbv zeta. rewrite vdom_rewrite_loops. cbn [fst].
  rewrite vdom_fold_left by (intros s l; apply vdom_mv_flag_enable).
  rewrite vdom_fold_left by (intros s l; apply vdom_mv_flag_enable).
  rewrite vdom_set_bm by apply bm_verts_edge_kill.
  rewrite vdom_remove_adjacent_all, vdom_vert_remove, vdom_vert_update.
  unfold CustomData_bmesh_interp_vert. apply vdom_vert_update.
Qed.

Lemma kills_recorded_vdom (V0 D0 : gset vert) (p p' : PBVH) (d : deleted_map) :
  vdom p' = vdom p -> kills_recorded V0 D0 p d -> kills_recorded V0 D0 p' d.
Proof. unfold kills_recorded. intros ->. exact (fun H => H). Qed.

Lemma kills_recorded_kill (V0 D0 : gset vert) (p p' : PBVH) (d : deleted_map) (v : vert)
  (x : option vert) :
  vdom p' = vdom p ∖ {[v]} -> kills_recorded V0 D0 p d ->
  kills_recorded V0 D0 p' (<[v := x]> d).
Proof.
  unfold kills_recorded, deleted_map. intros -> (H1 & H2 & H3 & H4).
  rewrite dom_insert_L.
  split.
  { intros w Hw. apply elem_of_difference in Hw. apply H1, Hw. }
  split.
  { intros w Hw. apply elem_of_difference in Hw. destruct Hw as [Hw0 Hw].
    destruct (decide (w = v)) as [-> | Hne].
    - apply elem_of_union_l, elem_of_singleton. reflexivity.
    - apply elem_of_union_r. apply H2. apply elem_of_difference. split; [exact Hw0 |].
      intros Hin. apply Hw. apply elem_of_difference. split; [exact Hin |].
      intros Hs. apply elem_of_singleton in Hs. exact (Hne Hs). }
  split.
  { intros w Hw. apply elem_of_union_r, H3, Hw. }
  intros w Hw Hw0 Hin. apply elem_of_difference in Hin. destruct Hin as [Hin Hnv].
  apply elem_of_union in Hw. destruct Hw as [Hw | Hw]; [exact (Hnv Hw) |].
  exact (H4 w Hw Hw0 Hin).
Qed.

Lemma collapse_delete_orphan_records (V0 D0 : gset vert) (v_del : vert)
  (s : PBVH * deleted_map * option vert) (v : vert) :
  kills_recorded V0 D0 (fst (fst s)) (snd (fst s)) ->
  kills_recorded V0 D0 (fst (fst (collapse_delete_orphan v_del s v)))
                 (snd (fst (collapse_delete_orphan v_del s v))).
Proof.
  destruct s as [[p d] vc]. unfold collapse_delete_orphan. cbn [fst snd].
  destruct (_ && _); cbn [fst snd]; [| exact (fun H => H)].
  apply kills_recorded_kill. rewrite vdom_kill_vert, vdom_vert_remove. reflexivity.
Qed.

Lemma collapse_delete_orphans_records (V0 D0 : gset vert) (v_del : vert) (vs : list vert) :
  forall s, kills_recorded V0 D0 (fst (fst s)) (snd (fst s)) ->
            kills_recorded V0 D0 (fst (fst (fold_left (collapse_delete_orphan v_del) vs s)))
                           (snd (fst (fold_left (collapse_delete_orphan v_del) vs s))).
Proof.
  induction vs as [|v tl IH]; intros s Hs; [exact Hs |].
  cbn [fold_left]. apply IH. apply collapse_delete_orphan_records. exact Hs.
Qed.

Lemma collapse_delete_face_records (V0 D0 : gset vert) (v_del : vert)
  (s : PBVH * deleted_map * option vert) (f : face) :
  kills_recorded V0 D0 (fst (fst s)) (snd (fst s)) ->
  kills_recorded V0 D0 (fst (fst (collapse_delete_face v_del s f)))
                 (snd (fst (collapse_delete_face v_del s f))).
Proof.
  destruct s as [[p d] vc]. unfold collapse_delete_face. cbv zeta. cbn [fst snd]. intros Hs.
  apply collapse_delete_orphans_records. cbn [fst snd].
  refine (kills_recorded_vdom V0 D0 p _ d _ Hs).
  rewrite vdom_fold_left.
  - rewrite vdom_set_bm by reflexivity. rewrite vdom_face_remove.
    apply vdom_fold_left. intros s l. apply vdom_mv_flag_enable.
  - intros s e. destruct (BM_edge_is_wire (bm s) e); [| reflexivity].
    apply vdom_set_bm, bm_verts_edge_kill.
Qed.

Lemma collapse_delete_faces_records (V0 D0 : gset vert) (v_del : vert) (fs : list face) :
  forall s, kills_recorded V0 D0 (fst (fst s)) (snd (fst s)) ->
            kills_recorded V0 D0 (fst (fst (fold_left (collapse_delete_face v_del) fs s)))
                           (snd (fst (fold_left (collapse_delete_face v_del) fs s))).
Proof.
  induction fs as [|f tl IH]; intros s Hs; [exact Hs |].
  cbn [fold_left]. apply IH. apply collapse_delete_face_records. exact Hs.
Qed.

Lemma kills_recorded_start (p : PBVH) (d : deleted_map) : kills_recorded (vdom p) (dom d) p d.
Proof.
  unfold kills_recorded. split; [reflexivity |]. split.
  - intros v Hv. apply elem_of_difference in Hv. destruct Hv as [Hv Hn]. destruct (Hn Hv).
  - split; [reflexivity |]. intros v Hv Hn. destruct (Hn Hv).
Qed.

Lemma collapse_finish_records (V0 D0 : gset vert) (p9 : PBVH) (d1 : deleted_map)
  (vc : option vert) (v_del : vert) :
  kills_recorded V0 D0 p9 d1 ->
  kills_recorded V0 D0 (fst (collapse_finish p9 d1 vc v_del))
                 (snd (collapse_finish p9 d1 vc v_del)).
Proof.
  intros Hs. unfold collapse_finish. cbv zeta. cbn [fst snd].
  apply (kills_recorded_kill V0 D0 p9); [| exact Hs].
  rewrite vdom_kill_vert. f_equal.
  destruct vc as [w|]; [| reflexivity].
  rewrite vdom_mv_flag_enable.
  rewrite vdom_fold_left
    by (intros s l; rewrite vdom_node_flag_enable; apply vdom_mv_flag_enable).
  apply vdom_vert_update.
Qed.

Lemma collapse_body_records (p : PBVH) (e : edge) (v_del v_conn : vert) (d : deleted_map) :
  kills_recorded (vdom p) (dom d) (fst (pbvh_bmesh_collapse_edge_body p e v_del v_conn d))
                 (snd (pbvh_bmesh_collapse_edge_body p e v_del v_conn d)).
Proof.
  unfold pbvh_bmesh_collapse_edge_body.
  pose proof (vdom_rewrite p e v_del v_conn) as H8.
  destruct (collapse_rewrite p e v_del v_conn) as [p8 deleted_faces]. cbn [fst] in H8.
  pose proof (collapse_delete_faces_records (vdom p) (dom d) v_del deleted_faces
                (p8, d, Some v_conn)) as H9.
  destruct (fold_left (collapse_delete_face v_del) deleted_faces (p8, d, Some v_conn))
    as [[p9 d1] vc].
  cbn [fst snd] in H9. apply collapse_finish_records. apply H9.
  apply (kills_recorded_vdom _ _ p); [exact H8 | apply kills_recorded_start].
Qed.

(** X21.  After its opening statements (the triangulation of the two fans and the
    refresh of the original data), pbvh_bmesh_collapse_edge creates no
    vertex, and every vertex it removes from the mesh becomes a key of the
    deleted-vertex map. The map loses no key, and every key the call adds is
    a vertex that is no longer in the mesh. *)
Theorem collapse_edge_records_kills (C : Collaborators) (p : PBVH) (e : edge) (v1 v2 : vert)
  (d : deleted_map) :
  vdom (fst (pbvh_bmesh_collapse_edge p e v1 v2 d)) ⊆ vdom (collapse_prelude p e)
  /\ vdom (collapse_prelude p e) ∖ vdom (fst (pbvh_bmesh_collapse_edge p e v1 v2 d))
     ⊆ dom (snd (pbvh_bmesh_collapse_edge p e v1 v2 d))
  /\ dom d ⊆ dom (snd (pbvh_bmesh_collapse_edge p e v1 v2 d))
  /\ (forall v, v ∈ dom (snd (pbvh_bmesh_collapse_edge p e v1 v2 d)) -> v ∉ dom d ->
                v ∉ vdom (fst (pbvh_bmesh_collapse_edge p e v1 v2 d))).
Proof.
  change (kills_recorded (vdom (collapse_prelude p e)) (dom d)
            (fst (pbvh_bmesh_collapse_edge p e v1 v2 d))
            (snd (pbvh_bmesh_collapse_edge p e v1 v2 d))).
  unfold pbvh_bmesh_collapse_edge. cbv zeta.
  destruct (_ && _); [apply kills_recorded_start |].
  destruct (collapse_choose (bm (collapse_prelude p e)) v1 v2) as [v_del v_conn].
  apply collapse_body_records.
Qed.

(* ---------------------------------------------------------------------- *)
(** ** The smoothing step of the subdivide scan *)

Lemma vget_pbvh_vert_update_ne (p : PBVH) (v w : vert) (g : BMVert -> BMVert) :
  w <> v -> vget (bm (pbvh_vert_update p v g)) w = vget (bm p) w.
Proof.
  intros Hne. unfold pbvh_vert_update. cbn [bm set_bm]. rewrite vget_vert_update.
  destruct (decide (v = w)) as [-> | _]; [destruct (Hne eq_refl) | reflexivity].
Qed.

Lemma vget_pbvh_vert_update_eq (p : PBVH) (v : vert) (g : BMVert -> BMVert) :
  g BMVert_blank = BMVert_blank \/ bm_verts (bm p) !! v <> None ->
  vget (bm (pbvh_vert_update p v g)) v = g (vget (bm p) v).
Proof.
  intros Hg. unfold pbvh_vert_update. cbn [bm set_bm]. rewrite vget_vert_update.
  destruct (decide (v = v)) as [_ | Hne]; [| destruct (Hne eq_refl)].
  unfold vget. destruct (bm_verts (bm p) !! v) as [r|]; [reflexivity |].
  cbn [default]. destruct Hg as [Hg | Hg]; [symmetry; exact Hg | destruct (Hg eq_refl)].
Qed.

Lemma pbvh_check_vert_boundary_vget (C : Collaborators) (p : PBVH) (v w : vert) :
  co (vget (bm (pbvh_check_vert_boundary p v)) w) = co (vget (bm p) w)
  /\ no (vget (bm (pbvh_check_vert_boundary p v)) w) = no (vget (bm p) w)
  /\ v_hflag (vget (bm (pbvh_check_vert_boundary p v)) w) = v_hflag (vget (bm p) w)
  /\ v_mask (vget (bm (pbvh_check_vert_boundary p v)) w) = v_mask (vget (bm p) w)
  /\ v_node (vget (bm (pbvh_check_vert_boundary p v)) w) = v_node (vget (bm p) w)
  /\ mv_valence (vget (bm (pbvh_check_vert_boundary p v)) w) = mv_valence (vget (bm p) w)
  /\ (w <> v -> vget (bm (pbvh_check_vert_boundary p v)) w = vget (bm p) w).
Proof.
  unfold pbvh_check_vert_boundary.
  destruct (flag_test _ _); [| repeat split; reflexivity].
  unfold pbvh_vert_update. cbn [bm set_bm]. rewrite vget_vert_update.
  destruct (decide (v = w)) as [-> | Hne].
  - unfold vget. destruct (bm_verts (bm p) !! w) as [r|]; cbn [default];
      repeat split; try reflexivity; intros H; destruct (H eq_refl).
  - repeat split; reflexivity.
Qed.

(** X22.  surface_smooth_v_safe changes no edge, no face, no node and no vertex
    other than the one it is called on; of that vertex it keeps the normal,
    the paint mask and the owner. It changes nothing at all when the vertex
    has no edge, and it leaves the position as it was when the vertex ends
    up with one of the DYNVERT_SMOOTH_CORNER flags. *)
Theorem surface_smooth_v_safe_effect (C : Collaborators) (p : PBVH) (v : vert) :
  bm_edges (bm (surface_smooth_v_safe p v)) = bm_edges (bm p)
  /\ bm_faces (bm (surface_smooth_v_safe p v)) = bm_faces (bm p)
  /\ nodes (surface_smooth_v_safe p v) = nodes p
  /\ (forall w, w <> v -> vget (bm (surface_smooth_v_safe p v)) w = vget (bm p) w)
  /\ no (vget (bm (surface_smooth_v_safe p v)) v) = no (vget (bm p) v)
  /\ v_mask (vget (bm (surface_smooth_v_safe p v)) v) = v_mask (vget (bm p) v)
  /\ v_node (vget (bm (surface_smooth_v_safe p v)) v) = v_node (vget (bm p) v)
  /\ (vert_e (bm p) v = None -> surface_smooth_v_safe p v = p)
  /\ (flag_test (mv_flag (vget (bm (surface_smooth_v_safe p v)) v)) DYNVERT_SMOOTH_CORNER = true ->
      co (vget (bm (surface_smooth_v_safe p v)) v) = co (vget (bm p) v)).
Proof.
  destruct (surface_smooth_v_safe_frame C p v) as (He & Hf & Hn).
  split; [exact He |]. split; [exact Hf |]. split; [exact Hn |].
  unfold surface_smooth_v_safe.
  destruct (vert_e (bm p) v) as [e0|]; [| repeat split; reflexivity].
  pose proof (pbvh_check_vert_boundary_vget C p v) as Hb.
  set (p1 := pbvh_check_vert_boundary p v) in *.
  destruct (flag_test (mv_flag (vget (bm p1) v)) DYNVERT_SMOOTH_CORNER) eqn:Hc.
  { split; [intros w Hw; apply (Hb w); exact Hw |].
    destruct (Hb v) as (H1 & H2 & H3 & H4 & H5 & H6 & _).
    split; [exact H2 |]. split; [exact H4 |]. split; [exact H5 |].
    split; [discriminate |]. intros _. exact H1. }
  destruct (fold_left _ _ _) as [acc tot].
  destruct (f_eq tot f32_zero).
  { split; [intros w Hw; apply (Hb w); exact Hw |].
    destruct (Hb v) as (H1 & H2 & H3 & H4 & H5 & H6 & _).
    split; [exact H2 |]. split; [exact H4 |]. split; [exact H5 |].
    split; [discriminate |]. intros _. exact H1. }
  split.
  { intros w Hw. rewrite vget_pbvh_vert_update_ne by exact Hw. apply (Hb w). exact Hw. }
  destruct (Hb v) as (H1 & H2 & H3 & H4 & H5 & H6 & _).
  unfold pbvh_vert_update. cbn [bm set_bm]. rewrite vget_vert_update.
  destruct (decide (v = v)) as [_ | Hne]; [| destruct (Hne eq_refl)].
  unfold vget in *. destruct (bm_verts (bm p1) !! v) as [r|]; cbn [default] in *.
  - cbn [no v_mask v_node mv_flag set_co co].
    split; [exact H2 |]. split; [exact H4 |]. split; [exact H5 |].
    split; [discriminate |]. intros Hc'.
    pose proof (eq_trans (eq_sym Hc) Hc') as Habs. discriminate Habs.
  - split; [exact H2 |]. split; [exact H4 |]. split; [exact H5 |].
    split; [discriminate |]. intros _. exact H1.
Qed.

(* ---------------------------------------------------------------------- *)
(** ** The loops of the bulk split *)

Lemma SPLIT_TAG_nonzero : SPLIT_TAG <> 0.
Proof. discriminate. Qed.

Lemma face_find_update_flag (fs : list (face * BMFace)) (f g : face) (x : Z -> Z) :
  face_find (map (fun pf => if Pos.eqb (fst pf) f
                            then (fst pf, set_f_hflag (snd pf) (x (f_hflag (snd pf))))
                            else pf) fs) g
  = option_map (fun r => if Pos.eqb g f then set_f_hflag r (x (f_hflag r)) else r)
               (face_find fs g).
Proof.
  induction fs as [|[h r] tl IH]; [reflexivity |].
  cbn [map fst snd]. destruct (Pos.eqb_spec h f) as [-> | Hne]; cbn [face_find].
  - destruct (Pos.eqb_spec f g) as [<- | Hfg].
    + cbn [option_map]. rewrite Pos.eqb_refl. reflexivity.
    + exact IH.
  - destruct (Pos.eqb_spec h g) as [<- | Hhg].
    + cbn [option_map]. destruct (Pos.eqb_spec h f) as [E | _]; [destruct (Hne E) | reflexivity].
    + exact IH.
Qed.

Lemma face_shape_update_flag (fs : list (face * BMFace)) (f : face) (x : Z -> Z) :
  map (fun pf => (fst pf, f_verts (snd pf)))
      (map (fun pf => if Pos.eqb (fst pf) f
                      then (fst pf, set_f_hflag (snd pf) (x (f_hflag (snd pf))))
                      else pf) fs)
  = map (fun pf => (fst pf, f_verts (snd pf))) fs.
Proof.
  rewrite map_map. apply map_ext. intros [h r]. cbn [fst snd].
  destruct (Pos.eqb h f); reflexivity.
Qed.

Lemma split_tag_face_step (s : PBVH * list face) (l : BMLoop) :
  let s' := if negb (flag_test (f_hflag (fget (bm (fst s)) (l_f l))) SPLIT_TAG)
            then (set_bm (fst s)
                    (face_update (bm (fst s)) (l_f l)
                       (fun r => set_f_hflag r (flag_enable (f_hflag r) SPLIT_TAG))),
                  snd s ++ [l_f l])
            else s in
  face_find (bm_faces (bm (fst s))) (l_f l) <> None ->
  NoDup (snd s) ->
  (forall f, In f (snd s) -> flag_test (f_hflag (fget (bm (fst s)) f)) SPLIT_TAG = true) ->
  NoDup (snd s')
  /\ (forall f, In f (snd s') -> flag_test (f_hflag (fget (bm (fst s')) f)) SPLIT_TAG = true)
  /\ bm_verts (bm (fst s')) = bm_verts (bm (fst s))
  /\ bm_edges (bm (fst s')) = bm_edges (bm (fst s))
  /\ map (fun pf => (fst pf, f_verts (snd pf))) (bm_faces (bm (fst s')))
     = map (fun pf => (fst pf, f_verts (snd pf))) (bm_faces (bm (fst s)))
  /\ nodes (fst s') = nodes (fst s)
  /\ (forall f, In f (snd s) -> In f (snd s')).
Proof.
  cbv zeta. intros Hex Hnd Htag.
  destruct (flag_test (f_hflag (fget (bm (fst s)) (l_f l))) SPLIT_TAG) eqn:Ef; cbn [negb].
  - repeat split; try assumption; try reflexivity. intros f Hf. exact Hf.
  - cbn [fst snd bm set_bm].
    assert (Hfg : forall g,
               fget (face_update (bm (fst s)) (l_f l)
                       (fun r => set_f_hflag r (flag_enable (f_hflag r) SPLIT_TAG))) g
               = if Pos.eqb g (l_f l)
                 then match face_find (bm_faces (bm (fst s))) g with
                      | Some r => set_f_hflag r (flag_enable (f_hflag r) SPLIT_TAG)
                      | None => BMFace_blank
                      end
                 else fget (bm (fst s)) g).
    { intros g. unfold fget, face_update. cbn [bm_faces set_bm_faces].
      rewrite (face_find_update_flag _ _ _ (fun x => flag_enable x SPLIT_TAG)).
      destruct (face_find (bm_faces (bm (fst s))) g) as [r|]; cbn [option_map default];
        destruct (Pos.eqb g (l_f l)); reflexivity. }
    split.
    { apply NoDup_snoc; [exact Hnd |]. intros Hin. rewrite (Htag _ Hin) in Ef. discriminate. }
    split.
    { intros f Hf. rewrite Hfg. apply in_app_or in Hf.
      destruct (Pos.eqb_spec f (l_f l)) as [-> | Hne].
      - destruct (face_find (bm_faces (bm (fst s))) (l_f l)) as [r|]; [| destruct (Hex eq_refl)].
        cbn [f_hflag set_f_hflag]. apply flag_test_enable, SPLIT_TAG_nonzero.
      - destruct Hf as [Hf | [Hf | []]]; [apply Htag; exact Hf | destruct (Hne (eq_sym Hf))]. }
    split; [reflexivity |]. split; [reflexivity |].
    split.
    { unfold face_update. cbn [bm_faces set_bm_faces].
      apply (face_shape_update_flag _ _ (fun x => flag_enable x SPLIT_TAG)). }
    split; [reflexivity |].
    intros f Hf. apply in_or_app. left. exact Hf.
Qed.

Lemma face_find_shape (fs fs' : list (face * BMFace)) (g : face) :
  map (fun pf => (fst pf, f_verts (snd pf))) fs'
  = map (fun pf => (fst pf, f_verts (snd pf))) fs ->
  option_map f_verts (face_find fs' g) = option_map f_verts (face_find fs g).
Proof.
  revert fs'. induction fs as [|[h r] tl IH]; intros [|[h' r'] tl'] H; try discriminate;
    [reflexivity |].
  cbn [map fst snd] in H.
  assert (Hh : h' = h) by congruence.
  assert (Hr : f_verts r' = f_verts r) by congruence.
  assert (Ht : map (fun pf => (fst pf, f_verts (snd pf))) tl'
               = map (fun pf => (fst pf, f_verts (snd pf))) tl) by congruence.
  subst h'. cbn [face_find]. destruct (Pos.eqb h g).
  - cbn [option_map]. rewrite Hr. reflexivity.
  - apply IH. exact Ht.
Qed.

Lemma loop_valid_face_find (m : BMesh) (l : BMLoop) :
  loop_valid m l -> face_find (bm_faces m) (l_f l) <> None.
Proof.
  unfold loop_valid, face_len, fget. intros Hv Hn. rewrite Hn in Hv. cbn in Hv. lia.
Qed.

(** X23.  The loop of pbvh_split_edges that collects the faces around the edges to
    split lists no face twice; every listed face is a face of the mesh and
    carries SPLIT_TAG afterwards. The loop changes no vertex, no end point
    of an edge, no corner of a face and no node. *)
Theorem split_tag_edges_collect_once (p : PBVH) (edges : list edge) :
  NoDup (snd (fold_left split_tag_edge edges (p, [])))
  /\ (forall f, In f (snd (fold_left split_tag_edge edges (p, []))) ->
        flag_test (f_hflag (fget (bm (fst (fold_left split_tag_edge edges (p, [])))) f))
                  SPLIT_TAG = true
        /\ face_find (bm_faces (bm p)) f <> None)
  /\ bm_verts (bm (fst (fold_left split_tag_edge edges (p, [])))) = bm_verts (bm p)
  /\ map edge_key (bm_edges (bm (fst (fold_left split_tag_edge edges (p, [])))))
     = map edge_key (bm_edges (bm p))
  /\ map (fun pf => (fst pf, f_verts (snd pf)))
         (bm_faces (bm (fst (fold_left split_tag_edge edges (p, [])))))
     = map (fun pf => (fst pf, f_verts (snd pf))) (bm_faces (bm p))
  /\ nodes (fst (fold_left split_tag_edge edges (p, []))) = nodes p.
Proof.
  set (I := fun s : PBVH * list face =>
              NoDup (snd s)
              /\ (forall f, In f (snd s) ->
                    flag_test (f_hflag (fget (bm (fst s)) f)) SPLIT_TAG = true
                    /\ face_find (bm_faces (bm p)) f <> None)
              /\ bm_verts (bm (fst s)) = bm_verts (bm p)
              /\ map edge_key (bm_edges (bm (fst s))) = map edge_key (bm_edges (bm p))
              /\ map (fun pf => (fst pf, f_verts (snd pf))) (bm_faces (bm (fst s)))
                 = map (fun pf => (fst pf, f_verts (snd pf))) (bm_faces (bm p))
              /\ nodes (fst s) = nodes p).
  change (I (fold_left split_tag_edge edges (p, []))).
  apply fold_left_inv.
  { unfold I. cbn [fst snd]. split; [apply NoDup_nil_2 |]. split; [intros f [] |].
    repeat split; reflexivity. }
  intros [p0 faces] e _ (Hnd & Htag & Hv & Hk & Hs & Hn). cbn [fst snd] in *.
  unfold split_tag_edge.
  set (p1 := set_bm p0 (edge_update (bm p0) e
                          (fun r => set_e_hflag r (flag_enable (e_hflag r) SPLIT_TAG)))).
  assert (Hk1 : map edge_key (bm_edges (bm p1)) = map edge_key (bm_edges (bm p0))).
  { apply (edge_update_topo (bm p0) e (fun x => flag_enable x SPLIT_TAG)). }
  apply (fold_left_inv
           (fun s : PBVH * list face =>
              I s
              /\ map (fun pf => (fst pf, f_verts (snd pf))) (bm_faces (bm (fst s)))
                 = map (fun pf => (fst pf, f_verts (snd pf))) (bm_faces (bm p1)))).
  - unfold I. cbn [fst snd]. split; [| reflexivity].
    split; [exact Hnd |]. split; [exact Htag |]. split; [exact Hv |].
    split; [congruence |]. split; [exact Hs | exact Hn].
  - intros s l Hl ((Hnd' & Htag' & Hv' & Hk' & Hs' & Hn') & Hs1).
    assert (Hex : face_find (bm_faces (bm (fst s))) (l_f l) <> None).
    { pose proof (loop_valid_face_find _ _ (loop_valid_edge_loops _ _ _ Hl)) as Hex1.
      pose proof (face_find_shape _ _ (l_f l) Hs1) as Hsh.
      intros Hnone. rewrite Hnone in Hsh. cbn [option_map] in Hsh.
      destruct (face_find (bm_faces (bm p1)) (l_f l)); [discriminate | exact (Hex1 eq_refl)]. }
    assert (Hexp : face_find (bm_faces (bm p)) (l_f l) <> None).
    { pose proof (face_find_shape _ _ (l_f l) Hs') as Hsh.
      intros Hnone. rewrite Hnone in Hsh. cbn [option_map] in Hsh.
      destruct (face_find (bm_faces (bm (fst s))) (l_f l)); [discriminate | exact (Hex eq_refl)]. }
    destruct (split_tag_face_step s l Hex Hnd' (fun f Hf => proj1 (Htag' f Hf)))
      as (A1 & A2 & A3 & A4 & A5 & A6 & A7).
    match goal with
    | [ |- I ?s' /\ _ ] => set (s1 := s') in *
    end.
    split; [| congruence].
    split; [exact A1 |]. split.
    { intros f Hf. split; [exact (A2 f Hf) |].
      assert (Hcase : In f (snd s) \/ f = l_f l).
      { subst s1. destruct (negb _); [| left; exact Hf].
        cbn [snd] in Hf. apply in_app_or in Hf. destruct Hf as [Hf | [Hf | []]];
          [left; exact Hf | right; symmetry; exact Hf]. }
      destruct Hcase as [Hin | ->]; [exact (proj2 (Htag' f Hin)) | exact Hexp]. }
    split; [congruence |]. split; [congruence |]. split; congruence.
Qed.

Lemma check_origdata_guarded_same (p : PBVH) (v : vert) :
  same_but_origdata p
    (if negb (mv_stroke_id (vget (bm p) v) =? stroke_id p)
     then BKE_pbvh_bmesh_check_origdata p v (stroke_id p) else p)
  /\ stroke_id (if negb (mv_stroke_id (vget (bm p) v) =? stroke_id p)
                then BKE_pbvh_bmesh_check_origdata p v (stroke_id p) else p) = stroke_id p
  /\ bm_next (bm (if negb (mv_stroke_id (vget (bm p) v) =? stroke_id p)
                  then BKE_pbvh_bmesh_check_origdata p v (stroke_id p) else p))
     = bm_next (bm p).
Proof.
  destruct (negb _).
  - split; [apply check_origdata_same |].
    unfold BKE_pbvh_bmesh_check_origdata. destruct (_ =? _); split; reflexivity.
  - split; [apply same_but_origdata_refl | split; reflexivity].
Qed.

(** X24.  In the splitting loop of pbvh_split_edges an edge without SPLIT_TAG is
    passed over and nothing changes. For a tagged edge one new vertex is
    made: it sits at the midpoint of the two end points, carries SPLIT_TAG
    and the current stroke id, and its owner is either DYNTOPO_NODE_NONE or
    a leaf whose unique-vertex set holds it. *)
Theorem split_do_edge_midpoint (p : PBVH) (e : edge) :
  (flag_test (e_hflag (eget (bm p) e)) SPLIT_TAG = false -> split_do_edge p e = p)
  /\ (flag_test (e_hflag (eget (bm p) e)) SPLIT_TAG = true ->
      bm_verts (bm (split_do_edge p e)) !! bm_next (bm p) <> None
      /\ bm_next (bm (split_do_edge p e)) = Pos.succ (bm_next (bm p))
      /\ co (vget (bm (split_do_edge p e)) (bm_next (bm p)))
         = mid_v3_v3v3 (co (vget (bm p) (fst e))) (co (vget (bm p) (snd e)))
      /\ flag_test (v_hflag (vget (bm (split_do_edge p e)) (bm_next (bm p)))) SPLIT_TAG = true
      /\ mv_stroke_id (vget (bm (split_do_edge p e)) (bm_next (bm p))) = stroke_id p
      /\ (v_node (vget (bm (split_do_edge p e)) (bm_next (bm p))) = DYNTOPO_NODE_NONE
          \/ exists n,
               node_at (split_do_edge p e)
                       (v_node (vget (bm (split_do_edge p e)) (bm_next (bm p)))) = Some n
               /\ flag_test (n_flag n) PBVH_Leaf = true
               /\ In (bm_next (bm p)) (n_bm_unique_verts n))).
Proof.
  split.
  { intros Hu. unfold split_do_edge. rewrite Hu. reflexivity. }
  intros Ht. unfold split_do_edge. rewrite Ht. cbn [negb]. cbv zeta.
  set (p0 := set_bm p (edge_update (bm p) e
                         (fun r => set_e_hflag r (flag_disable (e_hflag r) SPLIT_TAG)))).
  destruct (check_origdata_guarded_same p0 (fst e)) as (S1 & T1 & N1).
  set (p1 := if negb (mv_stroke_id (vget (bm p0) (fst e)) =? stroke_id p0)
             then BKE_pbvh_bmesh_check_origdata p0 (fst e) (stroke_id p0) else p0) in *.
  destruct (check_origdata_guarded_same p1 (snd e)) as (S2 & T2 & N2).
  set (p2 := if negb (mv_stroke_id (vget (bm p1) (snd e)) =? stroke_id p1)
             then BKE_pbvh_bmesh_check_origdata p1 (snd e) (stroke_id p1) else p1) in *.
  assert (Hnext : bm_next (bm p2) = bm_next (bm p)) by (rewrite N2, N1; reflexivity).
  assert (Hsid : stroke_id p2 = stroke_id p) by (rewrite T2, T1; reflexivity).
  assert (Hco : forall v, co (vget (bm p2) v) = co (vget (bm p) v)).
  { intros v. destruct S2 as (_ & _ & _ & H2). destruct S1 as (_ & _ & _ & H1).
    destruct (H2 v) as (_ & -> & _). destruct (H1 v) as (_ & -> & _). reflexivity. }
  unfold BM_log_edge_split_do. cbv zeta. rewrite Hnext.
  set (nv := bm_next (bm p)).
  match goal with
  | [ |- context [pbvh_vert_update (set_bm p2 (mkBMesh (<[nv := ?r]> _) ?es ?fs _)) nv ?g] ] =>
      set (r0 := r); set (edges' := es); set (faces' := fs); set (g0 := g)
  end.
  set (p3 := pbvh_vert_update
               (set_bm p2 (mkBMesh (<[nv := r0]> (bm_verts (bm p2))) edges' faces' (Pos.succ nv)))
               nv g0).
  assert (Hv3 : bm_verts (bm p3) !! nv = Some (g0 r0)).
  { subst p3. unfold pbvh_vert_update, vert_update.
    cbn [bm set_bm bm_verts set_bm_verts]. rewrite lookup_alter_eq, lookup_insert_eq.
    reflexivity. }
  assert (Hn3 : bm_next (bm p3) = Pos.succ nv) by reflexivity.
  assert (Hg3 : vget (bm p3) nv = g0 r0) by exact (f_equal (default BMVert_blank) Hv3).
  assert (Hbase :
            bm_verts (bm p3) !! nv <> None
            /\ bm_next (bm p3) = Pos.succ nv
            /\ co (vget (bm p3) nv)
               = mid_v3_v3v3 (co (vget (bm p) (fst e))) (co (vget (bm p) (snd e)))
            /\ flag_test (v_hflag (vget (bm p3) nv)) SPLIT_TAG = true
            /\ mv_stroke_id (vget (bm p3) nv) = stroke_id p
            /\ v_node (vget (bm p3) nv) = DYNTOPO_NODE_NONE).
  { split; [rewrite Hv3; discriminate |]. split; [exact Hn3 |].
    rewrite Hg3. subst g0 r0.
    cbn [co v_hflag mv_stroke_id v_node].
    split; [rewrite !Hco; reflexivity |].
    split; [apply flag_test_enable, SPLIT_TAG_nonzero |].
    split; [exact Hsid | reflexivity]. }
  assert (Hkeep : (bm_verts (bm p3) !! nv <> None
                   /\ bm_next (bm p3) = Pos.succ nv
                   /\ co (vget (bm p3) nv)
                      = mid_v3_v3v3 (co (vget (bm p) (fst e))) (co (vget (bm p) (snd e)))
                   /\ flag_test (v_hflag (vget (bm p3) nv)) SPLIT_TAG = true
                   /\ mv_stroke_id (vget (bm p3) nv) = stroke_id p
                   /\ (v_node (vget (bm p3) nv) = DYNTOPO_NODE_NONE
                       \/ exists n, node_at p3 (v_node (vget (bm p3) nv)) = Some n
                                    /\ flag_test (n_flag n) PBVH_Leaf = true
                                    /\ In nv (n_bm_unique_verts n)))).
  { destruct Hbase as (B1 & B2 & B3 & B4 & B5 & B6).
    repeat (split; [assumption |]). left. exact B6. }
  match goal with
  | [ |- context [if negb (?x =? DYNTOPO_NODE_NONE) then _ else p3] ] => set (ni := x)
  end.
  destruct (negb (ni =? DYNTOPO_NODE_NONE)) eqn:Hni; [| exact Hkeep].
  destruct (node_at p3 ni) as [nd|] eqn:Hnd; [| exact Hkeep].
  destruct (negb (flag_test (n_flag nd) PBVH_Leaf)) eqn:Hleaf; [exact Hkeep |].
  apply negb_false_iff in Hleaf.
  destruct Hbase as (B1 & B2 & B3 & B4 & B5 & B6).
  set (gn := fun n' : PBVHNode => set_n_bm_unique_verts n' (tgset_add nv (n_bm_unique_verts n'))).
  set (p4 := node_update (node_flag_enable p3 ni node_updateflag) ni gn).
  assert (Hbm4 : bm p4 = bm p3).
  { subst p4. rewrite bm_node_update. apply bm_node_flag_enable. }
  assert (Hv4 : bm_verts (bm (pbvh_vert_update p4 nv (fun r => set_v_node r ni))) !! nv
                = Some (set_v_node (g0 r0) ni)).
  { unfold pbvh_vert_update, vert_update. cbn [bm set_bm bm_verts set_bm_verts].
    rewrite lookup_alter_eq, Hbm4, Hv3. reflexivity. }
  assert (Hg4 : vget (bm (pbvh_vert_update p4 nv (fun r => set_v_node r ni))) nv
                = set_v_node (g0 r0) ni) by exact (f_equal (default BMVert_blank) Hv4).
  split; [rewrite Hv4; discriminate |].
  split; [cbn [pbvh_vert_update bm set_bm vert_update bm_next set_bm_verts];
          rewrite Hbm4; exact Hn3 |].
  rewrite Hg4. rewrite Hg3 in B3, B4, B5.
  cbn [co v_hflag mv_stroke_id v_node set_v_node].
  split; [exact B3 |]. split; [exact B4 |]. split; [exact B5 |].
  right.
  assert (Hpos : 0 <= ni).
  { unfold node_at in Hnd. destruct (ni <? 0) eqn:E; [discriminate | apply Z.ltb_ge; exact E]. }
  unfold pbvh_vert_update. rewrite node_at_set_bm. subst p4.
  rewrite (node_at_node_update _ ni gn ni), Z.eqb_refl.
  unfold node_flag_enable. rewrite (node_at_node_update _ ni _ ni), Z.eqb_refl, Hnd.
  cbn [option_map]. eexists. split; [reflexivity |].
  subst gn. cbn [n_flag set_n_bm_unique_verts set_n_flag n_bm_unique_verts].
  split; [apply flag_test_lor_l; exact Hleaf | apply tgset_add_in; right; reflexivity].
Qed.

(* ---------------------------------------------------------------------- *)
(** ** A collapse keeps a triangle mesh a triangle mesh *)

Lemma fget_verts_shape (m m' : BMesh) (g : face) :
  fshape m' = fshape m -> f_verts (fget m' g) = f_verts (fget m g).
Proof.
  intros H. unfold fget. pose proof (face_find_shape _ _ g H) as Hs.
  destruct (face_find (bm_faces m') g), (face_find (bm_faces m) g);
    cbn [option_map from_option id] in *; congruence.
Qed.

Lemma face_find_None_shape (m m' : BMesh) (g : face) :
  fshape m' = fshape m ->
  (face_find (bm_faces m') g = None <-> face_find (bm_faces m) g = None).
Proof.
  intros H. pose proof (face_find_shape _ _ g H) as Hs.
  destruct (face_find (bm_faces m') g), (face_find (bm_faces m) g);
    cbn [option_map] in *; split; congruence.
Qed.

Lemma has_edge_keys (m m' : BMesh) (a b : vert) :
  ekeys m' = ekeys m -> has_edge m' a b = has_edge m a b.
Proof.
  intros H. unfold has_edge, BM_edge_exists. destruct (Pos.eqb a b); [reflexivity |].
  rewrite (find_edge_key_topo a b _ _ H). reflexivity.
Qed.

Lemma tri_ok_skel (m m' : BMesh) (g : face) :
  skel m' = skel m -> tri_ok m' g = tri_ok m g.
Proof.
  unfold skel. intros H.
  assert (Hf : fshape m' = fshape m) by congruence.
  assert (He : ekeys m' = ekeys m) by congruence.
  assert (Hn : bm_next m' = bm_next m) by congruence.
  unfold tri_ok. rewrite (fget_verts_shape _ _ g Hf), Hn.
  destruct (f_verts (fget m g)) as [|a [|b [|c [|d tl]]]]; try reflexivity.
  rewrite !(has_edge_keys _ _ _ _ He). reflexivity.
Qed.

Lemma forallb_map_fst {B : Type} (f : face -> bool) (l : list (face * B)) :
  forallb (fun pf => f (fst pf)) l = forallb f (map fst l).
Proof. induction l as [|x tl IH]; [reflexivity |]. cbn [forallb map]. rewrite IH. reflexivity. Qed.

Lemma map_fst_fshape (m : BMesh) : map fst (fshape m) = map fst (bm_faces m).
Proof. unfold fshape. rewrite map_map. reflexivity. Qed.

Lemma tri_mesh_ok_skel (m m' : BMesh) : skel m' = skel m -> tri_mesh_ok m' = tri_mesh_ok m.
Proof.
  intros H. unfold tri_mesh_ok. rewrite !forallb_map_fst, <- !map_fst_fshape.
  assert (Hf : fshape m' = fshape m) by (unfold skel in H; congruence).
  rewrite Hf. apply forallb_pointwise. intros g. apply tri_ok_skel. exact H.
Qed.

(** The faces the mesh can reach by name. *)
Lemma face_find_Some_In (fs : list (face * BMFace)) (g : face) :
  face_find fs g <> None <-> In g (map fst fs).
Proof.
  induction fs as [|[h r] tl IH]; cbn [face_find map fst In].
  - split; [intros H; destruct (H eq_refl) | intros []].
  - destruct (Pos.eqb_spec h g) as [-> | Hne].
    + split; [intros _; left; reflexivity | discriminate].
    + rewrite IH. split; [intros H; right; exact H | intros [H | H]; [destruct (Hne H) | exact H]].
Qed.

Lemma tri_mesh_ok_iff (m : BMesh) :
  tri_mesh_ok m = true <-> forall g, face_find (bm_faces m) g <> None -> tri_ok m g = true.
Proof.
  unfold tri_mesh_ok. rewrite forallb_map_fst, forallb_forall. split.
  - intros H g Hg. apply H. apply face_find_Some_In. exact Hg.
  - intros H g Hg. apply H. apply face_find_Some_In. exact Hg.
Qed.

Lemma tri_ok_inv (m : BMesh) (g : face) :
  tri_ok m g = true ->
  exists a b c, f_verts (fget m g) = [a; b; c]
    /\ a <> b /\ b <> c /\ c <> a
    /\ has_edge m a b = true /\ has_edge m b c = true /\ has_edge m c a = true
    /\ (g < bm_next m)%positive.
Proof.
  unfold tri_ok. intros H. apply andb_true_iff in H. destruct H as [H Hlt].
  destruct (f_verts (fget m g)) as [|a [|b [|c [|d tl]]]]; try discriminate.
  repeat (apply andb_true_iff in H; destruct H as [H ?]).
  exists a, b, c. split; [reflexivity |].
  repeat match goal with
         | [ Hn : negb (Pos.eqb _ _) = true |- _ ] =>
             apply negb_true_iff, Pos.eqb_neq in Hn
         end.
  apply Pos.ltb_lt in Hlt. repeat split; assumption.
Qed.

Lemma tri_ok_intro (m : BMesh) (g : face) (a b c : vert) :
  f_verts (fget m g) = [a; b; c] ->
  a <> b -> b <> c -> c <> a ->
  has_edge m a b = true -> has_edge m b c = true -> has_edge m c a = true ->
  (g < bm_next m)%positive ->
  tri_ok m g = true.
Proof.
  intros Hv Hab Hbc Hca H1 H2 H3 Hlt. unfold tri_ok. rewrite Hv, H1, H2, H3.
  apply Pos.eqb_neq in Hab, Hbc, Hca. rewrite Hab, Hbc, Hca.
  apply Pos.ltb_lt in Hlt. rewrite Hlt. reflexivity.
Qed.

(** A triangle mesh has an edge on every side of every face. *)
Lemma tri_ok_loops (m : BMesh) (g : face) :
  tri_ok m g = true -> forallb (loop_has_edge m) (face_loops m g) = true.
Proof.
  intros H. destruct (tri_ok_inv m g H) as (a & b & c & Hv & _ & _ & _ & H1 & H2 & H3 & _).
  unfold face_loops, face_len. rewrite Hv. cbn [length seq map forallb].
  unfold loop_has_edge, loop_v, loop_next, face_len. cbn [l_f l_i]. rewrite Hv.
  cbn [length nth Nat.add Nat.modulo Nat.divmod fst snd Nat.sub].
  unfold has_edge in H1, H2, H3.
  destruct (BM_edge_exists m a b); [| discriminate].
  destruct (BM_edge_exists m b c); [| discriminate].
  destruct (BM_edge_exists m c a); [| discriminate].
  reflexivity.
Qed.

Lemma tri_mesh_ok_sides (m : BMesh) : tri_mesh_ok m = true -> sides_have_edges m = true.
Proof.
  unfold tri_mesh_ok, sides_have_edges. rewrite !forallb_forall.
  intros H pf Hpf. apply tri_ok_loops. apply H. exact Hpf.
Qed.

(** Removing faces, keeping the edges of what is left, keeps a
    triangle mesh. *)
Lemma tri_mesh_ok_step (m m' : BMesh) :
  tri_mesh_ok m = true ->
  (forall g, face_find (bm_faces m') g <> None ->
             face_find (bm_faces m) g <> None /\ f_verts (fget m' g) = f_verts (fget m g)) ->
  (forall g a b, face_find (bm_faces m') g <> None ->
                 In a (f_verts (fget m g)) -> In b (f_verts (fget m g)) ->
                 has_edge m a b = true -> has_edge m' a b = true) ->
  (bm_next m <= bm_next m')%positive ->
  tri_mesh_ok m' = true.
Proof.
  intros Hok Hf He Hn. apply tri_mesh_ok_iff. intros g Hg.
  destruct (Hf g Hg) as [Hg0 Hv].
  pose proof (proj1 (tri_mesh_ok_iff m) Hok g Hg0) as Ht.
  destruct (tri_ok_inv m g Ht) as (a & b & c & Hv0 & Hab & Hbc & Hca & H1 & H2 & H3 & Hlt).
  apply (tri_ok_intro m' g a b c); try assumption.
  - rewrite Hv. exact Hv0.
  - apply (He g); [exact Hg | rewrite Hv0; cbn; tauto | rewrite Hv0; cbn; tauto | exact H1].
  - apply (He g); [exact Hg | rewrite Hv0; cbn; tauto | rewrite Hv0; cbn; tauto | exact H2].
  - apply (He g); [exact Hg | rewrite Hv0; cbn; tauto | rewrite Hv0; cbn; tauto | exact H3].
  - lia.
Qed.

Lemma face_find_filter_ne (fs : list (face * BMFace)) (f g : face) :
  face_find (List.filter (fun p => negb (Pos.eqb (fst p) f)) fs) g
  = if Pos.eqb g f then None else face_find fs g.
Proof.
  induction fs as [|[h r] tl IH]; cbn [List.filter face_find fst].
  - destruct (Pos.eqb g f); reflexivity.
  - destruct (Pos.eqb h f) eqn:Hhf; cbn [negb].
    + rewrite IH. destruct (Pos.eqb g f) eqn:Hgf; [reflexivity |].
      apply Pos.eqb_eq in Hhf. subst h. rewrite (Pos.eqb_sym f g), Hgf. reflexivity.
    + cbn [face_find]. destruct (Pos.eqb h g) eqn:Hhg; [| exact IH].
      apply Pos.eqb_eq in Hhg. subst h. rewrite Hhf. reflexivity.
Qed.

Lemma face_find_face_kill (m : BMesh) (f g : face) :
  face_find (bm_faces (BM_face_kill m f)) g
  = if Pos.eqb g f then None else face_find (bm_faces m) g.
Proof. unfold BM_face_kill. cbn [bm_faces set_bm_faces]. apply face_find_filter_ne. Qed.

Lemma face_find_face_kills (fs : list face) :
  forall (m : BMesh) (g : face),
    face_find (bm_faces (fold_left BM_face_kill fs m)) g
    = if existsb (Pos.eqb g) fs then None else face_find (bm_faces m) g.
Proof.
  induction fs as [|f tl IH]; intros m g; [reflexivity |].
  cbn [fold_left existsb]. rewrite IH, face_find_face_kill.
  destruct (Pos.eqb g f); cbn [orb]; [destruct (existsb (Pos.eqb g) tl); reflexivity |].
  reflexivity.
Qed.

Lemma bm_edges_face_kills (fs : list face) (m : BMesh) :
  bm_edges (fold_left BM_face_kill fs m) = bm_edges m.
Proof.
  revert m. induction fs as [|f tl IH]; intros m; [reflexivity |].
  cbn [fold_left]. rewrite IH. reflexivity.
Qed.

Lemma bm_next_face_kills (fs : list face) (m : BMesh) :
  bm_next (fold_left BM_face_kill fs m) = bm_next m.
Proof.
  revert m. induction fs as [|f tl IH]; intros m; [reflexivity |].
  cbn [fold_left]. rewrite IH. reflexivity.
Qed.

Lemma fget_of_find (m m' : BMesh) (g : face) :
  face_find (bm_faces m') g = face_find (bm_faces m) g -> fget m' g = fget m g.
Proof. intros H. unfold fget. rewrite H. reflexivity. Qed.

Lemma tri_mesh_ok_face_kill (m : BMesh) (f : face) :
  tri_mesh_ok m = true -> tri_mesh_ok (BM_face_kill m f) = true.
Proof.
  intros Hok. apply (tri_mesh_ok_step m); [exact Hok | | | reflexivity].
  - intros g Hg. rewrite face_find_face_kill in Hg.
    destruct (Pos.eqb g f) eqn:E; [destruct (Hg eq_refl) |].
    split; [exact Hg |]. f_equal. apply fget_of_find.
    rewrite face_find_face_kill, E. reflexivity.
  - intros g a b _ _ _ H. exact H.
Qed.

(** The sides of a triangle are the edges between its corners. *)
Lemma BM_edge_exists_sym (m : BMesh) (a b : vert) : BM_edge_exists m a b = BM_edge_exists m b a.
Proof.
  unfold BM_edge_exists. rewrite (Pos.eqb_sym a b). destruct (Pos.eqb b a); [reflexivity |].
  f_equal. apply find_pointwise. intros r. unfold edge_is. apply orb_comm.
Qed.

Lemma tri_side_loop (m : BMesh) (g : face) (a b : vert) (e' : edge) :
  tri_ok m g = true ->
  In a (f_verts (fget m g)) -> In b (f_verts (fget m g)) -> a <> b ->
  BM_edge_exists m a b = Some e' ->
  exists l, In l (face_loops m g) /\ loop_e m l = e'.
Proof.
  intros Ht Ha Hb Hab He.
  destruct (tri_ok_inv m g Ht) as (x & y & z & Hv & _).
  assert (Hl : forall i u w, (i < 3)%nat ->
             nth i [x; y; z] 1%positive = u ->
             nth (Nat.modulo (i + 1) 3) [x; y; z] 1%positive = w ->
             BM_edge_exists m u w = Some e' ->
             exists l, In l (face_loops m g) /\ loop_e m l = e').
  { intros i u w Hi Hu Hw Huw. exists (mkBMLoop g i). split.
    - unfold face_loops, face_len. rewrite Hv. apply in_map, in_seq. cbn [length]. lia.
    - unfold loop_e, loop_v, loop_next, face_len. cbn [l_f l_i]. rewrite Hv.
      cbn [length]. rewrite Hu, Hw, Huw. reflexivity. }
  rewrite Hv in Ha, Hb. cbn [In] in Ha, Hb.
  pose proof (BM_edge_exists_sym m a b) as Hsym. rewrite He in Hsym. symmetry in Hsym.
  destruct Ha as [<- | [<- | [<- | []]]]; destruct Hb as [<- | [<- | [<- | []]]];
    try (destruct (Hab eq_refl)).
  - apply (Hl 0%nat x y); [lia | reflexivity | reflexivity | exact He].
  - apply (Hl 2%nat z x); [lia | reflexivity | reflexivity | exact Hsym].
  - apply (Hl 0%nat x y); [lia | reflexivity | reflexivity | exact Hsym].
  - apply (Hl 1%nat y z); [lia | reflexivity | reflexivity | exact He].
  - apply (Hl 2%nat z x); [lia | reflexivity | reflexivity | exact He].
  - apply (Hl 1%nat y z); [lia | reflexivity | reflexivity | exact Hsym].
Qed.

Lemma edge_loops_intro (m : BMesh) (e : edge) (g : face) (l : BMLoop) :
  face_find (bm_faces m) g <> None -> In l (face_loops m g) ->
  edge_eqb (loop_e m l) e = true -> In l (edge_loops m e).
Proof.
  intros Hg Hl He. unfold edge_loops. apply in_flat_map.
  apply face_find_Some_In, in_map_iff in Hg. destruct Hg as (pf & Hfst & Hpf).
  exists pf. split; [exact Hpf |]. rewrite Hfst. apply filter_In. split; [exact Hl | exact He].
Qed.

Lemma face_loops_l_f (m : BMesh) (g : face) (l : BMLoop) : In l (face_loops m g) -> l_f l = g.
Proof. unfold face_loops. rewrite in_map_iff. intros (i & <- & _). reflexivity. Qed.

Lemma find_filter_keep {A : Type} (P Q : A -> bool) (l : list A) (x : A) :
  find P l = Some x -> Q x = true -> find P (List.filter Q l) = Some x.
Proof.
  induction l as [|h tl IH]; [discriminate |].
  cbn [find List.filter]. destruct (P h) eqn:Ph.
  - intros [= ->] Hq. rewrite Hq. cbn [find]. rewrite Ph. reflexivity.
  - intros Hf Hq. destruct (Q h); [cbn [find]; rewrite Ph |]; apply IH; assumption.
Qed.

Lemma existsb_eqb_In (g : face) (fs : list face) : existsb (Pos.eqb g) fs = true <-> In g fs.
Proof.
  rewrite existsb_exists. split.
  - intros (x & Hx & E). apply Pos.eqb_eq in E. subst. exact Hx.
  - intros H. exists g. split; [exact H | apply Pos.eqb_refl].
Qed.

Lemma tri_mesh_ok_edge_kill (m : BMesh) (e : edge) :
  tri_mesh_ok m = true -> tri_mesh_ok (BM_edge_kill m e) = true.
Proof.
  intros Hok. apply (tri_mesh_ok_step m); [exact Hok | | | ].
  - intros g Hg. unfold BM_edge_kill in Hg. cbn [bm_faces set_bm_edges] in Hg.
    rewrite face_find_face_kills in Hg.
    destruct (existsb (Pos.eqb g) (map l_f (edge_loops m e))) eqn:E; [destruct (Hg eq_refl) |].
    split; [exact Hg |]. f_equal. apply fget_of_find.
    unfold BM_edge_kill. cbn [bm_faces set_bm_edges]. rewrite face_find_face_kills, E.
    reflexivity.
  - intros g a b Hg Ha Hb Hab.
    unfold BM_edge_kill in Hg. cbn [bm_faces set_bm_edges] in Hg.
    rewrite face_find_face_kills in Hg.
    destruct (existsb (Pos.eqb g) (map l_f (edge_loops m e))) eqn:E; [destruct (Hg eq_refl) |].
    pose proof (proj1 (tri_mesh_ok_iff m) Hok g Hg) as Ht.
    unfold has_edge in Hab |- *.
    destruct (BM_edge_exists m a b) as [e'|] eqn:Hex; [| discriminate].
    assert (Hne : a <> b).
    { intros ->. unfold BM_edge_exists in Hex. rewrite Pos.eqb_refl in Hex. discriminate. }
    destruct (tri_side_loop m g a b e' Ht Ha Hb Hne Hex) as (l & Hl & Hle).
    assert (Hnot : edge_eqb e' e = false).
    { destruct (edge_eqb e' e) eqn:Heq; [| reflexivity].
      assert (Hin : In g (map l_f (edge_loops m e))).
      { apply in_map_iff. exists l. split; [exact (face_loops_l_f _ _ _ Hl) |].
        apply (edge_loops_intro m e g l Hg Hl). rewrite Hle. exact Heq. }
      apply existsb_eqb_In in Hin. congruence. }
    unfold BM_edge_exists in Hex |- *. apply Pos.eqb_neq in Hne. rewrite Hne in *.
    unfold BM_edge_kill. cbn [bm_edges set_bm_edges]. rewrite bm_edges_face_kills.
    destruct (find (fun r => edge_is r a b) (bm_edges m)) as [r'|] eqn:Hf; [| discriminate].
    cbn [option_map] in Hex. injection Hex as <-.
    rewrite (find_filter_keep _ (fun r => negb (edge_is r (fst e) (snd e))) _ r' Hf).
    + reflexivity.
    + rewrite edge_is_key. destruct e as [e1 e2]. cbn [fst snd]. rewrite Hnot. reflexivity.
  - unfold BM_edge_kill. cbn [bm_next set_bm_edges]. rewrite bm_next_face_kills. reflexivity.
Qed.

Lemma tri_mesh_ok_edge_kills (es : list edge) :
  forall m, tri_mesh_ok m = true -> tri_mesh_ok (fold_left BM_edge_kill es m) = true.
Proof.
  induction es as [|e tl IH]; intros m H; [exact H |].
  cbn [fold_left]. apply IH, tri_mesh_ok_edge_kill, H.
Qed.

Lemma tri_mesh_ok_vert_kill (m : BMesh) (v : vert) :
  tri_mesh_ok m = true -> tri_mesh_ok (BM_vert_kill m v) = true.
Proof.
  intros H. unfold BM_vert_kill.
  rewrite (tri_mesh_ok_skel (fold_left BM_edge_kill (vert_edges m v) m)) by reflexivity.
  apply tri_mesh_ok_edge_kills, H.
Qed.

(** Adding an edge, adding a triangle. *)
Lemma has_edge_create (p : PBVH) (x y : vert) (ex : option edge) (a b : vert) :
  has_edge (bm (fst (bmesh_edge_create_log p x y ex))) a b
  = has_edge (bm p) a b || (negb (Pos.eqb a b) && edge_is_pair x y a b).
Proof.
  unfold bmesh_edge_create_log.
  destruct (BM_edge_exists (bm p) x y) as [e0|] eqn:Hxy; cbn [fst].
  - destruct (negb (Pos.eqb a b) && edge_is_pair x y a b) eqn:Hhit;
      [| rewrite orb_false_r; reflexivity].
    apply andb_true_iff in Hhit. destruct Hhit as [Hab Hpair].
    rewrite orb_true_r. unfold has_edge.
    assert (Heq : BM_edge_exists (bm p) a b = BM_edge_exists (bm p) x y).
    { unfold BM_edge_exists in *. apply negb_true_iff in Hab. rewrite Hab.
      destruct (Pos.eqb x y); [discriminate |]. f_equal. apply find_pointwise. intros r.
      symmetry. apply (edge_is_same_pair (mkBMEdge x y 0) a b r). exact Hpair. }
    rewrite Heq, Hxy. reflexivity.
  - unfold has_edge, BM_edge_exists, BM_edge_create. cbn [bm set_bm bm_edges set_bm_edges].
    destruct (Pos.eqb a b); cbn [negb andb]; [reflexivity |].
    rewrite find_app_one.
    destruct (find (fun e => edge_is e a b) (bm_edges (bm p))); cbn [option_map orb];
      [reflexivity |].
    unfold edge_is at 1. cbn [e_v1 e_v2]. unfold edge_is_pair.
    destruct (_ || _); reflexivity.
Qed.

Lemma edge_create_frame (p : PBVH) (x y : vert) (ex : option edge) :
  bm_faces (bm (fst (bmesh_edge_create_log p x y ex))) = bm_faces (bm p)
  /\ bm_next (bm (fst (bmesh_edge_create_log p x y ex))) = bm_next (bm p).
Proof.
  unfold bmesh_edge_create_log. destruct (BM_edge_exists (bm p) x y); split; reflexivity.
Qed.

Lemma tri_mesh_ok_more_edges (m m' : BMesh) :
  bm_faces m' = bm_faces m -> bm_next m' = bm_next m ->
  (forall a b, has_edge m a b = true -> has_edge m' a b = true) ->
  tri_mesh_ok m = true -> tri_mesh_ok m' = true.
Proof.
  intros Hf Hn He Hok. apply (tri_mesh_ok_step m); [exact Hok | | | rewrite Hn; reflexivity].
  - intros g Hg. rewrite Hf in Hg. split; [exact Hg |]. unfold fget. rewrite Hf. reflexivity.
  - intros g a b _ _ _. apply He.
Qed.

Lemma has_edge_from_tri (p : PBVH) (t0 t1 t2 a b : vert) :
  has_edge (bm (fst (bm_edges_from_tri p [t0; t1; t2]))) a b
  = has_edge (bm p) a b
    || (negb (Pos.eqb a b)
        && (edge_is_pair t0 t1 a b || edge_is_pair t1 t2 a b || edge_is_pair t2 t0 a b)).
Proof.
  unfold bm_edges_from_tri, tri_corner. cbn [nth].
  pose proof (has_edge_create p t0 t1 None a b) as H1.
  destruct (bmesh_edge_create_log p t0 t1 None) as [p1 e0]. cbn [fst] in H1.
  pose proof (has_edge_create p1 t1 t2 None a b) as H2.
  destruct (bmesh_edge_create_log p1 t1 t2 None) as [p2 e1]. cbn [fst] in H2.
  pose proof (has_edge_create p2 t2 t0 None a b) as H3.
  destruct (bmesh_edge_create_log p2 t2 t0 None) as [p3 e2]. cbn [fst] in H3 |- *.
  rewrite H3, H2, H1. destruct (has_edge (bm p) a b), (negb (Pos.eqb a b)),
    (edge_is_pair t0 t1 a b), (edge_is_pair t1 t2 a b), (edge_is_pair t2 t0 a b); reflexivity.
Qed.

Lemma has_edge_from_tri_example (p : PBVH) (t0 t1 t2 : vert) (e_tri : list edge) (a b : vert) :
  has_edge (bm (fst (bm_edges_from_tri_example p [t0; t1; t2] e_tri))) a b
  = has_edge (bm p) a b
    || (negb (Pos.eqb a b)
        && (edge_is_pair t0 t1 a b || edge_is_pair t1 t2 a b || edge_is_pair t2 t0 a b)).
Proof.
  unfold bm_edges_from_tri_example, tri_corner. cbn [nth].
  pose proof (has_edge_create p t0 t1 (e_tri !! 0%nat) a b) as H1.
  destruct (bmesh_edge_create_log p t0 t1 (e_tri !! 0%nat)) as [p1 e0]. cbn [fst] in H1.
  pose proof (has_edge_create p1 t1 t2 (e_tri !! 1%nat) a b) as H2.
  destruct (bmesh_edge_create_log p1 t1 t2 (e_tri !! 1%nat)) as [p2 e1]. cbn [fst] in H2.
  pose proof (has_edge_create p2 t2 t0 (e_tri !! 2%nat) a b) as H3.
  destruct (bmesh_edge_create_log p2 t2 t0 (e_tri !! 2%nat)) as [p3 e2]. cbn [fst] in H3 |- *.
  rewrite H3, H2, H1. destruct (has_edge (bm p) a b), (negb (Pos.eqb a b)),
    (edge_is_pair t0 t1 a b), (edge_is_pair t1 t2 a b), (edge_is_pair t2 t0 a b); reflexivity.
Qed.

Lemma from_tri_frame (p : PBVH) (v_tri : list vert) :
  bm_faces (bm (fst (bm_edges_from_tri p v_tri))) = bm_faces (bm p)
  /\ bm_next (bm (fst (bm_edges_from_tri p v_tri))) = bm_next (bm p).
Proof.
  destruct (bm_edges_from_tri_frame p v_tri) as (H1 & _ & H3 & _). split; assumption.
Qed.

Lemma from_tri_example_frame (p : PBVH) (v_tri : list vert) (e_tri : list edge) :
  bm_faces (bm (fst (bm_edges_from_tri_example p v_tri e_tri))) = bm_faces (bm p)
  /\ bm_next (bm (fst (bm_edges_from_tri_example p v_tri e_tri))) = bm_next (bm p).
Proof.
  unfold bm_edges_from_tri_example.
  destruct (edge_create_frame p (tri_corner v_tri 0) (tri_corner v_tri 1) (e_tri !! 0%nat))
    as [F1 N1].
  destruct (bmesh_edge_create_log p (tri_corner v_tri 0) (tri_corner v_tri 1) (e_tri !! 0%nat))
    as [p1 e0].
  destruct (edge_create_frame p1 (tri_corner v_tri 1) (tri_corner v_tri 2) (e_tri !! 1%nat))
    as [F2 N2].
  destruct (bmesh_edge_create_log p1 (tri_corner v_tri 1) (tri_corner v_tri 2) (e_tri !! 1%nat))
    as [p2 e1].
  destruct (edge_create_frame p2 (tri_corner v_tri 2) (tri_corner v_tri 0) (e_tri !! 2%nat))
    as [F3 N3].
  destruct (bmesh_edge_create_log p2 (tri_corner v_tri 2) (tri_corner v_tri 0) (e_tri !! 2%nat))
    as [p3 e2].
  cbn [fst] in *. split; congruence.
Qed.

Lemma face_find_fresh (m : BMesh) :
  tri_mesh_ok m = true -> face_find (bm_faces m) (bm_next m) = None.
Proof.
  intros Hok. destruct (face_find (bm_faces m) (bm_next m)) as [r|] eqn:E; [| reflexivity].
  assert (Hne : face_find (bm_faces m) (bm_next m) <> None) by (rewrite E; discriminate).
  pose proof (proj1 (tri_mesh_ok_iff m) Hok _ Hne) as Ht.
  destruct (tri_ok_inv _ _ Ht) as (a & b & c & _ & _ & _ & _ & _ & _ & _ & Hlt). lia.
Qed.

Lemma tri_mesh_ok_face_create (m : BMesh) (a b c : vert) (ex : option face) :
  tri_mesh_ok m = true ->
  a <> b -> b <> c -> c <> a ->
  has_edge m a b = true -> has_edge m b c = true -> has_edge m c a = true ->
  tri_mesh_ok (fst (BM_face_create m [a; b; c] ex)) = true.
Proof.
  intros Hok Hab Hbc Hca H1 H2 H3. apply tri_mesh_ok_iff. intros g Hg.
  pose proof (face_find_fresh m Hok) as Hfresh.
  unfold BM_face_create in *. cbn [fst bm_faces] in *.
  set (r := match ex with
            | Some ex0 => mkBMFace [a; b; c] (f_no (fget m ex0)) (f_hflag (fget m ex0))
                                   (f_node (fget m ex0)) 0
            | None => mkBMFace [a; b; c] zero_v3 0 DYNTOPO_NODE_NONE 0
            end) in *.
  assert (Hr : f_verts r = [a; b; c]) by (subst r; destruct ex; reflexivity).
  rewrite face_find_app in Hg.
  set (m' := mkBMesh (bm_verts m) (bm_edges m) (bm_faces m ++ [(bm_next m, r)])
                     (Pos.succ (bm_next m))).
  assert (He : forall x y, has_edge m' x y = has_edge m x y) by reflexivity.
  destruct (face_find (bm_faces m) g) as [x|] eqn:Efind.
  - assert (Hne : face_find (bm_faces m) g <> None) by (rewrite Efind; discriminate).
    pose proof (proj1 (tri_mesh_ok_iff m) Hok g Hne) as Ht.
    destruct (tri_ok_inv m g Ht) as (a0 & b0 & c0 & Hv & D1 & D2 & D3 & E1 & E2 & E3 & Hlt).
    apply (tri_ok_intro m' g a0 b0 c0); try assumption; try (rewrite He; assumption).
    + unfold fget in *. subst m'. cbn [bm_faces]. rewrite face_find_app, Efind.
      rewrite Efind in Hv. exact Hv.
    + subst m'. cbn [bm_next]. lia.
  - destruct (Pos.eqb_spec (bm_next m) g) as [<- | Hne]; [| destruct (Hg eq_refl)].
    apply (tri_ok_intro m' (bm_next m) a b c); try assumption; try (rewrite He; assumption).
    + unfold fget. subst m'. cbn [bm_faces]. rewrite face_find_app, Efind, Pos.eqb_refl.
      exact Hr.
    + subst m'. cbn [bm_next]. lia.
Qed.

(** Flags, vertex data and leaves are outside the skeleton. *)
Lemma skel_edge_update (m : BMesh) (e : edge) (g : BMEdge -> BMEdge) :
  (forall r, edge_key (g r) = edge_key r) -> skel (edge_update m e g) = skel m.
Proof.
  intros Hg. unfold skel, ekeys, edge_update. cbn [bm_edges set_bm_edges].
  f_equal. f_equal. rewrite map_map. apply map_ext. intros r.
  destruct (edge_is r (fst e) (snd e)); [apply Hg | reflexivity].
Qed.

Lemma skel_face_update (m : BMesh) (f : face) (g : BMFace -> BMFace) :
  (forall r, f_verts (g r) = f_verts r) -> skel (face_update m f g) = skel m.
Proof.
  intros Hg. unfold skel, fshape, face_update. cbn [bm_faces set_bm_faces].
  f_equal. f_equal. rewrite map_map. apply map_ext. intros [h r]. cbn [fst snd].
  destruct (Pos.eqb h f); cbn [fst snd]; [rewrite Hg |]; reflexivity.
Qed.

Lemma skel_vert_update (p : PBVH) (v : vert) (g : BMVert -> BMVert) :
  skel (bm (pbvh_vert_update p v g)) = skel (bm p).
Proof. reflexivity. Qed.

Lemma skel_mv_flag_enable (p : PBVH) (v : vert) (flag : Z) :
  skel (bm (pbvh_mv_flag_enable p v flag)) = skel (bm p).
Proof. reflexivity. Qed.

Lemma skel_node_update (p : PBVH) (ni : Z) (g : PBVHNode -> PBVHNode) :
  skel (bm (node_update p ni g)) = skel (bm p).
Proof. rewrite bm_node_update. reflexivity. Qed.

Lemma skel_node_flag_enable (p : PBVH) (ni flag : Z) :
  skel (bm (node_flag_enable p ni flag)) = skel (bm p).
Proof. apply skel_node_update. Qed.

Lemma skel_node_flag_disable (p : PBVH) (ni flag : Z) :
  skel (bm (node_flag_disable p ni flag)) = skel (bm p).
Proof. apply skel_node_update. Qed.

Lemma skel_fold_left {A : Type} (f : PBVH -> A -> PBVH) (l : list A) :
  (forall s x, skel (bm (f s x)) = skel (bm s)) ->
  forall s, skel (bm (fold_left f l s)) = skel (bm s).
Proof.
  intros Hf. induction l as [|x tl IH]; intros s; [reflexivity |].
  cbn [fold_left]. rewrite IH. apply Hf.
Qed.

Lemma skel_vert_remove (p : PBVH) (v : vert) :
  skel (bm (pbvh_bmesh_vert_remove p v)) = skel (bm p).
Proof. destruct (pbvh_bmesh_vert_remove_frame p v) as (Hb & _). rewrite Hb. reflexivity. Qed.

Lemma skel_ownership_transfer (p : PBVH) (ni : Z) (v : vert) :
  skel (bm (pbvh_bmesh_vert_ownership_transfer p ni v)) = skel (bm p).
Proof.
  destruct (pbvh_bmesh_vert_ownership_transfer_frame p ni v) as (Hb & _). rewrite Hb.
  reflexivity.
Qed.

Lemma skel_face_remove_vert (p : PBVH) (fi : Z) (b : bool) (v : vert) :
  skel (bm (face_remove_vert p fi b v)) = skel (bm p).
Proof.
  unfold face_remove_vert.
  destruct (pbvh_bmesh_node_vert_use_count_is_equal p fi v 1); [| reflexivity].
  destruct (_ =? fi); [| reflexivity].
  destruct (pbvh_bmesh_vert_other_node_find p v); [apply skel_ownership_transfer |].
  destruct (_ && _); [| reflexivity].
  rewrite skel_node_flag_enable. apply skel_vert_remove.
Qed.

Lemma skel_face_remove (p : PBVH) (f : face) (cv eot : bool) :
  skel (bm (pbvh_bmesh_face_remove p f cv eot)) = skel (bm p).
Proof.
  unfold pbvh_bmesh_face_remove.
  destruct (node_at p _); [| reflexivity].
  destruct (negb _); [reflexivity |].
  rewrite skel_node_flag_enable. cbn [bm set_bm].
  rewrite skel_face_update by reflexivity. rewrite skel_node_update.
  destruct cv; [| reflexivity].
  apply skel_fold_left. intros s l. apply skel_face_remove_vert.
Qed.

Lemma skel_face_create_vert (ni : Z) (b : bool) (p : PBVH) (v : vert) :
  skel (bm (face_create_vert ni b p v)) = skel (bm p).
Proof.
  unfold face_create_vert. rewrite skel_mv_flag_enable.
  destruct (_ && _); [| reflexivity].
  rewrite skel_node_flag_enable, skel_vert_update. apply skel_node_update.
Qed.

Lemma tri_mesh_ok_pskel (p p' : PBVH) :
  skel (bm p') = skel (bm p) -> tri_mesh_ok (bm p) = true -> tri_mesh_ok (bm p') = true.
Proof. intros H Hok. rewrite (tri_mesh_ok_skel _ _ H). exact Hok. Qed.

Lemma has_edge_skel (m m' : BMesh) (a b : vert) :
  skel m' = skel m -> has_edge m' a b = has_edge m a b.
Proof. intros H. apply has_edge_keys. unfold skel in H. congruence. Qed.

Lemma fget_verts_skel (m m' : BMesh) (g : face) :
  skel m' = skel m -> f_verts (fget m' g) = f_verts (fget m g).
Proof. intros H. apply fget_verts_shape. unfold skel in H. congruence. Qed.

Lemma face_find_None_skel (m m' : BMesh) (g : face) :
  skel m' = skel m ->
  (face_find (bm_faces m') g = None <-> face_find (bm_faces m) g = None).
Proof. intros H. apply face_find_None_shape. unfold skel in H. congruence. Qed.

(** The steps of the collapse that remove things. *)
Lemma tok_remove_adjacent (p : PBVH) (e : edge) (f : face) :
  tri_mesh_ok (bm p) = true -> tri_mesh_ok (bm (collapse_remove_adjacent p e f)) = true.
Proof.
  intros Hok. unfold collapse_remove_adjacent. cbv zeta. cbn [bm set_bm].
  apply tri_mesh_ok_face_kill. apply (tri_mesh_ok_pskel p); [| exact Hok].
  rewrite skel_face_remove.
  rewrite skel_fold_left
    by (intros s l; cbn [bm set_bm]; apply skel_edge_update; reflexivity).
  apply skel_fold_left. intros s l. apply skel_mv_flag_enable.
Qed.

Lemma has_edge_face_kill (m : BMesh) (f : face) (a b : vert) :
  has_edge (BM_face_kill m f) a b = has_edge m a b.
Proof. reflexivity. Qed.

Lemma has_edge_remove_adjacent (p : PBVH) (e : edge) (f : face) (a b : vert) :
  has_edge (bm (collapse_remove_adjacent p e f)) a b = has_edge (bm p) a b.
Proof.
  unfold collapse_remove_adjacent. cbv zeta. cbn [bm set_bm]. rewrite has_edge_face_kill.
  apply has_edge_skel.
  rewrite skel_face_remove.
  rewrite skel_fold_left
    by (intros s l; cbn [bm set_bm]; apply skel_edge_update; reflexivity).
  apply skel_fold_left. intros s l. apply skel_mv_flag_enable.
Qed.

Lemma tok_remove_adjacent_all (fuel : nat) (e : edge) :
  forall p, tri_mesh_ok (bm p) = true ->
            tri_mesh_ok (bm (collapse_remove_adjacent_all fuel p e)) = true.
Proof.
  induction fuel as [|n IH]; intros p Hok; [exact Hok |].
  cbn [collapse_remove_adjacent_all]. destruct (edge_l (bm p) e); [| exact Hok].
  apply IH, tok_remove_adjacent, Hok.
Qed.

Lemma has_edge_edge_kill_self (m : BMesh) (e : edge) (a b : vert) :
  edge_eqb (a, b) e = true -> has_edge (BM_edge_kill m e) a b = false.
Proof.
  intros Hab. unfold has_edge, BM_edge_exists, BM_edge_kill. cbn [bm_edges set_bm_edges].
  destruct (Pos.eqb a b); [reflexivity |].
  rewrite bm_edges_face_kills.
  destruct (find (fun r => edge_is r a b)
              (List.filter (fun r => negb (edge_is r (fst e) (snd e))) (bm_edges m)))
    as [r|] eqn:Hf; [| reflexivity].
  apply find_some in Hf. destruct Hf as [Hin Hr]. apply filter_In in Hin.
  destruct Hin as [_ Hk]. apply negb_true_iff in Hk.
  assert (Hsame : edge_is r (fst e) (snd e) = edge_is r a b).
  { unfold edge_eqb in Hab. cbn [fst snd] in Hab. unfold edge_is.
    apply orb_true_iff in Hab. destruct Hab as [H | H]; apply andb_true_iff in H;
      destruct H as [H1 H2]; apply Pos.eqb_eq in H1, H2; rewrite <- H1, <- H2;
      [reflexivity | apply orb_comm]. }
  congruence.
Qed.

Lemma tok_kill_vert (p : PBVH) (v : vert) :
  tri_mesh_ok (bm p) = true -> tri_mesh_ok (bm (pbvh_kill_vert p v)) = true.
Proof. intros H. unfold pbvh_kill_vert. cbn [bm set_bm]. apply tri_mesh_ok_vert_kill, H. Qed.

Lemma tok_delete_orphan (v_del : vert) (s : PBVH * deleted_map * option vert) (v : vert) :
  tri_mesh_ok (bm (fst (fst s))) = true ->
  tri_mesh_ok (bm (fst (fst (collapse_delete_orphan v_del s v)))) = true.
Proof.
  destruct s as [[p d] vc]. unfold collapse_delete_orphan. cbn [fst].
  destruct (_ && _); cbn [fst]; [| exact (fun H => H)].
  intros H. apply tok_kill_vert. apply (tri_mesh_ok_pskel p); [apply skel_vert_remove | exact H].
Qed.

Lemma tok_delete_orphans (v_del : vert) (vs : list vert) :
  forall s, tri_mesh_ok (bm (fst (fst s))) = true ->
            tri_mesh_ok (bm (fst (fst (fold_left (collapse_delete_orphan v_del) vs s)))) = true.
Proof.
  induction vs as [|v tl IH]; intros s Hs; [exact Hs |].
  cbn [fold_left]. apply IH, tok_delete_orphan, Hs.
Qed.

Lemma tok_delete_face (v_del : vert) (s : PBVH * deleted_map * option vert) (f : face) :
  tri_mesh_ok (bm (fst (fst s))) = true ->
  tri_mesh_ok (bm (fst (fst (collapse_delete_face v_del s f)))) = true.
Proof.
  destruct s as [[p d] vc]. unfold collapse_delete_face. cbv zeta. cbn [fst]. intros Hs.
  apply tok_delete_orphans. cbn [fst].
  apply (fold_left_inv (fun p' => tri_mesh_ok (bm p') = true)).
  - cbn [bm set_bm]. apply tri_mesh_ok_face_kill.
    refine (tri_mesh_ok_pskel p _ _ Hs).
    rewrite skel_face_remove. apply skel_fold_left. intros s l. apply skel_mv_flag_enable.
  - intros p' e _ Hp'. destruct (BM_edge_is_wire (bm p') e); [| exact Hp'].
    cbn [bm set_bm]. apply tri_mesh_ok_edge_kill, Hp'.
Qed.

Lemma tok_delete_faces (v_del : vert) (fs : list face) :
  forall s, tri_mesh_ok (bm (fst (fst s))) = true ->
            tri_mesh_ok (bm (fst (fst (fold_left (collapse_delete_face v_del) fs s)))) = true.
Proof.
  induction fs as [|f tl IH]; intros s Hs; [exact Hs |].
  cbn [fold_left]. apply IH, tok_delete_face, Hs.
Qed.

Lemma tok_finish (p9 : PBVH) (d1 : deleted_map) (vc : option vert) (v_del : vert) :
  tri_mesh_ok (bm p9) = true ->
  tri_mesh_ok (bm (fst (collapse_finish p9 d1 vc v_del))) = true.
Proof.
  intros H. unfold collapse_finish. cbv zeta. cbn [fst]. apply tok_kill_vert.
  refine (tri_mesh_ok_pskel p9 _ _ H).
  destruct vc as [w|]; [| reflexivity].
  rewrite skel_mv_flag_enable.
  rewrite skel_fold_left
    by (intros s l; rewrite skel_node_flag_enable; apply skel_mv_flag_enable).
  apply skel_vert_update.
Qed.

(** On a triangle mesh the fan check finds nothing to triangulate. *)
Lemma faces_of_vert_exist (m : BMesh) (v : vert) (f : face) :
  In f (faces_of_vert m v) -> face_find (bm_faces m) f <> None.
Proof.
  unfold faces_of_vert, loops_of_vert. rewrite in_map_iff. intros (l & <- & Hl).
  apply in_flat_map in Hl. destruct Hl as (e & _ & Hl). apply filter_In in Hl.
  destruct Hl as [Hl _]. apply loop_valid_face_find. exact (loop_valid_edge_loops _ _ _ Hl).
Qed.

Lemma check_face_is_tri_ok (C : Collaborators) (p : PBVH) (f : face) :
  tri_mesh_ok (bm p) = true -> face_find (bm_faces (bm p)) f <> None ->
  check_face_is_tri p f = p.
Proof.
  intros Hok Hf. unfold check_face_is_tri, face_len.
  destruct (tri_ok_inv _ _ (proj1 (tri_mesh_ok_iff _) Hok f Hf)) as (a & b & c & Hv & _).
  rewrite Hv. reflexivity.
Qed.

Lemma skel_check_vert_fan_are_tris (C : Collaborators) (p : PBVH) (v : vert) :
  tri_mesh_ok (bm p) = true -> skel (bm (check_vert_fan_are_tris p v)) = skel (bm p).
Proof.
  intros Hok. unfold check_vert_fan_are_tris.
  destruct (negb _); [reflexivity |]. cbv zeta.
  set (p2 := set_bm _ _).
  assert (H2 : skel (bm p2) = skel (bm p)).
  { subst p2. cbn [bm set_bm]. unfold mv_flag_disable.
    change (skel (vert_update ?m ?w ?g)) with (skel m).
    apply skel_fold_left. intros s f. apply skel_fold_left. intros s' l.
    apply skel_mv_flag_enable. }
  assert (Hfold : forall fs, (forall f, In f fs -> face_find (bm_faces (bm p)) f <> None) ->
                             fold_left check_face_is_tri fs p2 = p2).
  { induction fs as [|f tl IH]; intros Hall; [reflexivity |].
    cbn [fold_left]. rewrite check_face_is_tri_ok.
    - apply IH. intros g Hg. apply Hall. right. exact Hg.
    - rewrite (tri_mesh_ok_skel _ _ H2). exact Hok.
    - intros Hn. apply (face_find_None_skel _ _ f H2) in Hn. apply (Hall f); [left; reflexivity |].
      exact Hn. }
  rewrite Hfold; [exact H2 |].
  intros f Hf. exact (faces_of_vert_exist _ _ _ Hf).
Qed.

Lemma skel_check_origdata (p : PBVH) (v : vert) (sid : Z) :
  skel (bm (BKE_pbvh_bmesh_check_origdata p v sid)) = skel (bm p).
Proof. unfold BKE_pbvh_bmesh_check_origdata. destruct (_ =? sid); reflexivity. Qed.

Lemma skel_collapse_prelude (C : Collaborators) (p : PBVH) (e : edge) :
  tri_mesh_ok (bm p) = true -> skel (bm (collapse_prelude p e)) = skel (bm p).
Proof.
  intros Hok. unfold collapse_prelude. cbv zeta.
  rewrite !skel_check_origdata.
  rewrite skel_check_vert_fan_are_tris.
  - apply skel_check_vert_fan_are_tris. exact Hok.
  - rewrite (tri_mesh_ok_skel _ _ (skel_check_vert_fan_are_tris C p (fst e) Hok)). exact Hok.
Qed.

(** The loop that rebuilds the faces of [v_del] on [v_conn]. *)
Lemma skel_face_create_true (p : PBVH) (ni : Z) (v_tri : list vert) (ex : option face)
  (ev : bool) :
  skel (bm (fst (pbvh_bmesh_face_create p ni v_tri true ex ev)))
  = skel (fst (BM_face_create (bm p) v_tri ex)).
Proof.
  unfold pbvh_bmesh_face_create, bmesh_face_create_edge_log.
  destruct (BM_face_create (bm p) v_tri ex) as [m f]. cbn [fst].
  rewrite (skel_fold_left _ _ (skel_face_create_vert ni ev)).
  rewrite skel_node_flag_disable, skel_node_flag_enable. cbn [bm set_bm].
  rewrite skel_face_update by reflexivity. rewrite skel_node_update. cbn [bm set_bm].
  destruct ex; [apply skel_face_update; reflexivity | reflexivity].
Qed.

Lemma loops_of_vert_facts (m : BMesh) (v : vert) (l : BMLoop) :
  In l (loops_of_vert m v) -> loop_valid m l /\ loop_v m l = v.
Proof.
  unfold loops_of_vert. intros Hl. apply in_flat_map in Hl. destruct Hl as (e & _ & Hl).
  apply filter_In in Hl. destruct Hl as [Hl Hv]. apply Pos.eqb_eq in Hv.
  split; [exact (loop_valid_edge_loops _ _ _ Hl) | exact Hv].
Qed.

Lemma has_edge_sym (m : BMesh) (a b : vert) : has_edge m a b = has_edge m b a.
Proof. unfold has_edge. rewrite BM_edge_exists_sym. reflexivity. Qed.

Lemma tri_loop_corners (m : BMesh) (l : BMLoop) :
  tri_ok m (l_f l) = true -> loop_valid m l ->
  loop_v m l <> loop_v m (loop_next m l)
  /\ loop_v m (loop_next m l) <> loop_v m (loop_prev m l)
  /\ loop_v m (loop_prev m l) <> loop_v m l
  /\ has_edge m (loop_v m l) (loop_v m (loop_next m l)) = true
  /\ has_edge m (loop_v m (loop_prev m l)) (loop_v m l) = true.
Proof.
  intros Ht Hv.
  destruct (tri_ok_inv m _ Ht) as (x & y & z & Hf & Hxy & Hyz & Hzx & E1 & E2 & E3 & _).
  unfold loop_valid, face_len in Hv. rewrite Hf in Hv. cbn [length] in Hv.
  unfold loop_v, loop_next, loop_prev, face_len. cbn [l_f l_i]. rewrite Hf. cbn [length].
  destruct l as [g i]. cbn [l_i] in *.
  destruct i as [|[|[|i]]]; [| | | lia];
    cbn [Nat.add Nat.sub Nat.modulo Nat.divmod fst snd nth];
    repeat split; try assumption; try congruence.
Qed.

Lemma fget_face_create_old (m : BMesh) (vs : list vert) (ex : option face) (g : face) :
  face_find (bm_faces m) g <> None ->
  face_find (bm_faces (fst (BM_face_create m vs ex))) g = face_find (bm_faces m) g.
Proof.
  intros Hg. unfold BM_face_create. cbn [fst bm_faces]. rewrite face_find_app.
  destruct (face_find (bm_faces m) g); [reflexivity | destruct (Hg eq_refl)].
Qed.

Lemma collapse_rewrite_inv_skel (m7 : BMesh) (v_del v_conn : vert) (p p' : PBVH) :
  skel (bm p') = skel (bm p) ->
  collapse_rewrite_inv m7 v_del v_conn p -> collapse_rewrite_inv m7 v_del v_conn p'.
Proof.
  intros Hs (J1 & J2 & J3). split; [exact (tri_mesh_ok_pskel _ _ Hs J1) |].
  split; [rewrite (has_edge_skel _ _ _ _ Hs); exact J2 |].
  intros g Hg. destruct (J3 g Hg) as [Hf Hv]. split.
  - intros Hn. apply (face_find_None_skel _ _ g Hs) in Hn. exact (Hf Hn).
  - rewrite (fget_verts_skel _ _ g Hs). exact Hv.
Qed.

Lemma edge_is_pair_false (x y a b : vert) :
  (x <> a \/ y <> b) -> (x <> b \/ y <> a) -> edge_is_pair x y a b = false.
Proof.
  intros H1 H2. unfold edge_is_pair.
  destruct (Pos.eqb_spec x a), (Pos.eqb_spec y b), (Pos.eqb_spec x b), (Pos.eqb_spec y a);
    cbn [andb orb]; try reflexivity; exfalso; tauto.
Qed.

Lemma edge_is_pair_refl (x y : vert) : edge_is_pair x y x y = true.
Proof. unfold edge_is_pair. rewrite !Pos.eqb_refl. reflexivity. Qed.

Lemma collapse_rewrite_loop_inv (m7 : BMesh) (v_del v_conn : vert) (st : PBVH * list face)
  (l : BMLoop) :
  v_del <> v_conn ->
  collapse_rewrite_inv m7 v_del v_conn (fst st) ->
  loop_valid m7 l -> loop_v m7 l = v_del ->
  collapse_rewrite_inv m7 v_del v_conn (fst (collapse_rewrite_loop v_del v_conn st l)).
Proof.
  intros Hdc HJ Hval Hlv. destruct st as [p dfs]. cbn [fst] in HJ.
  unfold collapse_rewrite_loop. cbv zeta. cbn [fst].
  destruct (bm_face_exists_tri_from_loop_vert (bm p) (loop_next (bm p) l) v_conn).
  { destruct (existsb _ _); exact HJ. }
  pose proof HJ as (J1 & J2 & J3).
  pose proof (loop_valid_face_find _ _ Hval) as Hf7.
  destruct (J3 _ Hf7) as [Hf Hverts].
  assert (Hval' : loop_valid (bm p) l).
  { unfold loop_valid, face_len in *. rewrite Hverts. exact Hval. }
  assert (Hlv' : loop_v (bm p) l = v_del).
  { unfold loop_v in *. rewrite Hverts. exact Hlv. }
  pose proof (tri_loop_corners (bm p) l (proj1 (tri_mesh_ok_iff _) J1 _ Hf) Hval')
    as (C1 & C2 & C3 & E1 & E3).
  rewrite Hlv' in C1, C3, E1, E3.
  set (vn := loop_v (bm p) (loop_next (bm p) l)) in *.
  set (vp := loop_v (bm p) (loop_prev (bm p) l)) in *.
  assert (Hcn : v_conn <> vn).
  { intros E. rewrite <- E in E1. congruence. }
  assert (Hcp : v_conn <> vp).
  { intros E. rewrite <- E in E3. rewrite has_edge_sym in E3. congruence. }
  set (mark := Z.lor (Z.lor DYNVERT_NEED_BOUNDARY DYNVERT_NEED_DISK_SORT)
                     DYNVERT_NEED_TRIANGULATE).
  set (p1 := pbvh_mv_flag_enable (pbvh_mv_flag_enable p vn mark) vp mark).
  assert (Hs1 : skel (bm p1) = skel (bm p)) by reflexivity.
  pose proof (fun a b => has_edge_from_tri p1 v_del vn vp a b) as Hh2.
  destruct (from_tri_frame p1 [v_del; vn; vp]) as [F2 N2].
  destruct (bm_edges_from_tri p1 [v_del; vn; vp]) as [p2 e_tri]. cbn [fst] in Hh2, F2, N2.
  pose proof (fun a b => has_edge_from_tri_example p2 v_conn vn vp e_tri a b) as Hh3.
  destruct (from_tri_example_frame p2 [v_conn; vn; vp] e_tri) as [F3 N3].
  destruct (bm_edges_from_tri_example p2 [v_conn; vn; vp] e_tri) as [p3 e3].
  cbn [fst] in Hh3, F3, N3.
  pose proof (skel_face_create_true p3 (pbvh_bmesh_node_index_from_face p1 (l_f l))
                [v_conn; vn; vp] (Some (l_f l)) false) as Hs4.
  destruct (pbvh_bmesh_face_create p3 (pbvh_bmesh_node_index_from_face p1 (l_f l))
              [v_conn; vn; vp] true (Some (l_f l)) false) as [p4 f2].
  cbn [fst] in Hs4 |- *.
  assert (Hs5 : skel (bm (pbvh_bmesh_copy_facedata p4 f2 (l_f l)))
                = skel (fst (BM_face_create (bm p3) [v_conn; vn; vp] (Some (l_f l))))).
  { unfold pbvh_bmesh_copy_facedata. cbn [bm set_bm].
    rewrite skel_face_update by reflexivity. exact Hs4. }
  assert (Hok1 : tri_mesh_ok (bm p1) = true) by exact J1.
  assert (Hok3 : tri_mesh_ok (bm p3) = true).
  { apply (tri_mesh_ok_more_edges (bm p2)); [exact F3 | exact N3 | |].
    - intros a b Hab. rewrite Hh3, Hab. reflexivity.
    - apply (tri_mesh_ok_more_edges (bm p1)); [exact F2 | exact N2 | | exact Hok1].
      intros a b Hab. rewrite Hh2, Hab. reflexivity. }
  assert (Hh : forall a b,
             has_edge (bm p3) a b
             = has_edge (bm p) a b
               || (negb (Pos.eqb a b)
                   && (edge_is_pair v_del vn a b || edge_is_pair vn vp a b
                       || edge_is_pair vp v_del a b))
               || (negb (Pos.eqb a b)
                   && (edge_is_pair v_conn vn a b || edge_is_pair vn vp a b
                       || edge_is_pair vp v_conn a b))).
  { intros a b. rewrite Hh3, Hh2. reflexivity. }
  assert (Hneq : forall a b : vert, a <> b -> negb (Pos.eqb a b) = true).
  { intros a b Hab. apply negb_true_iff, Pos.eqb_neq. exact Hab. }
  set (m3' := fst (BM_face_create (bm p3) [v_conn; vn; vp] (Some (l_f l)))) in *.
  assert (Hok3' : tri_mesh_ok m3' = true).
  { apply tri_mesh_ok_face_create; try assumption.
    - congruence.
    - rewrite Hh, (Hneq _ _ Hcn), edge_is_pair_refl. cbn [andb orb]. apply orb_true_r.
    - rewrite Hh, (Hneq _ _ C2), edge_is_pair_refl. cbn [andb orb].
      rewrite !orb_true_r. reflexivity.
    - assert (Hpc : vp <> v_conn) by congruence.
      rewrite Hh, (Hneq _ _ Hpc), edge_is_pair_refl. cbn [andb orb].
      rewrite !orb_true_r. reflexivity. }
  split; [rewrite (tri_mesh_ok_skel _ _ Hs5); exact Hok3' |].
  split.
  { rewrite (has_edge_skel _ _ _ _ Hs5).
    change (has_edge m3' v_del v_conn) with (has_edge (bm p3) v_del v_conn).
    rewrite Hh, J2.
    rewrite !edge_is_pair_false;
      try solve [ left; congruence | right; congruence ].
    cbn [orb]. rewrite !andb_false_r. reflexivity. }
  intros g Hg. destruct (J3 g Hg) as [Hfg Hvg].
  assert (Hf3 : face_find (bm_faces (bm p3)) g = face_find (bm_faces (bm p)) g).
  { rewrite F3, F2. reflexivity. }
  assert (Hf3' : face_find (bm_faces m3') g = face_find (bm_faces (bm p)) g).
  { subst m3'. rewrite fget_face_create_old; [exact Hf3 | rewrite Hf3; exact Hfg]. }
  split.
  - intros Hn. apply (face_find_None_skel _ _ g Hs5) in Hn. rewrite Hf3' in Hn. exact (Hfg Hn).
  - rewrite (fget_verts_skel _ _ g Hs5). rewrite (fget_of_find _ _ g Hf3'). exact Hvg.
Qed.

Lemma edge_eqb_swap (a b : vert) (e : edge) : edge_eqb (b, a) e = edge_eqb (a, b) e.
Proof.
  unfold edge_eqb. cbn [fst snd].
  rewrite orb_comm, (andb_comm (Pos.eqb b (snd e))), (andb_comm (Pos.eqb b (fst e))).
  reflexivity.
Qed.

Lemma BM_edge_exists_eqb (m : BMesh) (a b : vert) (e : edge) :
  BM_edge_exists m a b = Some e -> a <> b /\ edge_eqb (a, b) e = true.
Proof.
  unfold BM_edge_exists. destruct (Pos.eqb a b) eqn:Hab; [discriminate |].
  destruct (find (fun r => edge_is r a b) (bm_edges m)) as [r|] eqn:Hf; [| discriminate].
  intros [= <-]. split; [apply Pos.eqb_neq; exact Hab |].
  apply find_some in Hf. destruct Hf as [_ Hr].
  unfold edge_is in Hr. unfold edge_eqb, edge_key. cbn [fst snd].
  rewrite (Pos.eqb_sym a (e_v1 r)), (Pos.eqb_sym b (e_v2 r)),
    (Pos.eqb_sym a (e_v2 r)), (Pos.eqb_sym b (e_v1 r)).
  apply orb_true_iff in Hr. apply orb_true_iff.
  destruct Hr as [Hr | Hr]; [left; exact Hr | right].
  apply andb_true_iff in Hr. apply andb_true_iff. tauto.
Qed.

Lemma tok_collapse_rewrite (p : PBVH) (e : edge) (v_del v_conn : vert) :
  tri_mesh_ok (bm p) = true -> v_del <> v_conn -> edge_eqb (v_del, v_conn) e = true ->
  tri_mesh_ok (bm (fst (collapse_rewrite p e v_del v_conn))) = true.
Proof.
  intros Hok Hne He. unfold collapse_rewrite. cbv zeta.
  match goal with
  | [ |- context [fold_left (collapse_rewrite_loop v_del v_conn) (loops_of_vert (bm ?P7) v_del)
                            (?P7, [])] ] => set (p7 := P7)
  end.
  match goal with
  | [ p7 := fold_left _ _ (fold_left _ _ (set_bm ?P4 (BM_edge_kill (bm ?P4) e))) |- _ ] =>
      set (p4 := P4) in *
  end.
  assert (Hok4 : tri_mesh_ok (bm p4) = true).
  { subst p4. apply tok_remove_adjacent_all.
    refine (tri_mesh_ok_pskel p _ _ Hok). rewrite skel_vert_remove. reflexivity. }
  assert (Hs7 : skel (bm p7) = skel (BM_edge_kill (bm p4) e)).
  { subst p7.
    rewrite skel_fold_left by (intros s l; apply skel_mv_flag_enable).
    rewrite skel_fold_left by (intros s l; apply skel_mv_flag_enable). reflexivity. }
  assert (HJ : collapse_rewrite_inv (bm p7) v_del v_conn p7).
  { split; [rewrite (tri_mesh_ok_skel _ _ Hs7); apply tri_mesh_ok_edge_kill; exact Hok4 |].
    split; [rewrite (has_edge_skel _ _ _ _ Hs7); apply has_edge_edge_kill_self; exact He |].
    intros g Hg. split; [exact Hg | reflexivity]. }
  apply (fold_left_inv
           (fun st : PBVH * list face => collapse_rewrite_inv (bm p7) v_del v_conn (fst st))
           (collapse_rewrite_loop v_del v_conn) (loops_of_vert (bm p7) v_del) (p7, [])).
  - exact HJ.
  - intros st l Hl Hst. destruct (loops_of_vert_facts _ _ _ Hl) as [Hv Hlv].
    apply collapse_rewrite_loop_inv; assumption.
Qed.

Lemma tok_collapse_body (p : PBVH) (e : edge) (v_del v_conn : vert) (d : deleted_map) :
  tri_mesh_ok (bm p) = true -> v_del <> v_conn -> edge_eqb (v_del, v_conn) e = true ->
  tri_mesh_ok (bm (fst (pbvh_bmesh_collapse_edge_body p e v_del v_conn d))) = true.
Proof.
  intros Hok Hne He. unfold pbvh_bmesh_collapse_edge_body.
  pose proof (tok_collapse_rewrite p e v_del v_conn Hok Hne He) as H8.
  destruct (collapse_rewrite p e v_del v_conn) as [p8 deleted_faces]. cbn [fst] in H8.
  pose proof (tok_delete_faces v_del deleted_faces (p8, d, Some v_conn) H8) as H9.
  destruct (fold_left (collapse_delete_face v_del) deleted_faces (p8, d, Some v_conn))
    as [[p9 d1] vc].
  cbn [fst] in H9. apply tok_finish. exact H9.
Qed.

Lemma tok_collapse_edge (C : Collaborators) (p : PBVH) (e : edge) (v1 v2 : vert)
  (d : deleted_map) :
  tri_mesh_ok (bm p) = true -> BM_edge_exists (bm p) v1 v2 = Some e ->
  tri_mesh_ok (bm (fst (pbvh_bmesh_collapse_edge p e v1 v2 d))) = true.
Proof.
  intros Hok Hex. destruct (BM_edge_exists_eqb _ _ _ _ Hex) as [Hne He].
  pose proof (skel_collapse_prelude C p e Hok) as Hs.
  assert (Hok4 : tri_mesh_ok (bm (collapse_prelude p e)) = true)
    by (rewrite (tri_mesh_ok_skel _ _ Hs); exact Hok).
  unfold pbvh_bmesh_collapse_edge. cbv zeta.
  destruct (_ && _); [exact Hok4 |].
  unfold collapse_choose. destruct (f_lt _ _).
  - apply tok_collapse_body; [exact Hok4 | exact Hne | exact He].
  - apply tok_collapse_body; [exact Hok4 | congruence | rewrite edge_eqb_swap; exact He].
Qed.

Lemma tok_collapse_pop_step (C : Collaborators) (s s' : collapse_state) (pr : edge)
  (rest : HeapSimple) :
  tri_mesh_ok (bm (cs_pbvh s)) = true -> collapse_pop_step s pr rest = Some s' ->
  tri_mesh_ok (bm (cs_pbvh s')) = true.
Proof.
  intros Hok. unfold collapse_pop_step. cbv zeta.
  destruct (collapse_pop_decide _ _ _ _) as [[|e v1 v2]|] eqn:Hd; [| | discriminate].
  - intros [= <-]. exact Hok.
  - apply collapse_pop_decide_nonkeys in Hd. destruct Hd as (_ & _ & _ & Hex).
    pose proof (tok_collapse_edge C (cs_pbvh s) e v1 v2 (cs_deleted_verts s) Hok Hex) as H.
    destruct (pbvh_bmesh_collapse_edge (cs_pbvh s) e v1 v2 (cs_deleted_verts s)) as [p' d'].
    intros [= <-]. exact H.
Qed.

Lemma tok_collapse_loop (C : Collaborators) (max_steps : Z) (fuel : nat) :
  forall s s', tri_mesh_ok (bm (cs_pbvh s)) = true ->
               collapse_loop fuel max_steps s = Some s' ->
               tri_mesh_ok (bm (cs_pbvh s')) = true.
Proof.
  induction fuel as [|n IH]; intros s s' Hok; cbn [collapse_loop];
    destruct (BLI_heapsimple_pop_min (heap (q (cs_ctx s)))) as [[pr rest]|];
    try (intros [= <-]; exact Hok);
    destruct (max_steps <? cs_step s); try (intros [= <-]; exact Hok); try discriminate.
  destruct (collapse_pop_step s pr rest) as [s1|] eqn:E1; [| discriminate].
  apply IH. exact (tok_collapse_pop_step C s s1 pr rest Hok E1).
Qed.

(** X25.  If every face of the mesh is a triangle with three distinct corners, its
    three sides exist as edges and its id is below the next free id, and e
    is the edge between v1 and v2, then the same holds of the mesh after
    pbvh_bmesh_collapse_edge; in particular every side of every face still
    has its edge. *)
Theorem collapse_edge_keeps_triangles (C : Collaborators) (p : PBVH) (e : edge) (v1 v2 : vert)
  (d : deleted_map) :
  tri_mesh_ok (bm p) = true -> BM_edge_exists (bm p) v1 v2 = Some e ->
  tri_mesh_ok (bm (fst (pbvh_bmesh_collapse_edge p e v1 v2 d))) = true
  /\ sides_have_edges (bm (fst (pbvh_bmesh_collapse_edge p e v1 v2 d))) = true.
Proof.
  intros Hok Hex. pose proof (tok_collapse_edge C p e v1 v2 d Hok Hex) as H.
  split; [exact H | apply tri_mesh_ok_sides; exact H].
Qed.

Lemma collapse_edge_keeps_triangles_witness :
  tri_mesh_ok (bm (fst (@pbvh_bmesh_collapse_edge plain_collaborators seam_pbvh
                          (2%positive, 5%positive) 2%positive 5%positive ∅))) = true.
Proof.
  apply (collapse_edge_keeps_triangles plain_collaborators seam_pbvh (2%positive, 5%positive)
           2%positive 5%positive ∅).
  - vm_compute. reflexivity.
  - vm_compute. reflexivity.
Defined.

(* ---------------------------------------------------------------------- *)
(** ** The collapse phase of the driver on a triangle mesh *)

Lemma same_topology_skel (m m' : BMesh) : same_topology m m' -> skel m' = skel m.
Proof. intros (Hf & Hk & Hn). unfold skel, fshape, ekeys. rewrite Hf, Hk, Hn. reflexivity. Qed.

(** X26.  If every face of the mesh is a triangle with three distinct corners, its
    three sides exist as edges and its id is below the next free id, the
    collapse phase of BKE_pbvh_bmesh_update_topology (queue creation
    followed by the collapse pass) returns, and the mesh it leaves has the
    same property. *)
Theorem update_topology_collapse_keeps_triangles (C : Collaborators) (c : EdgeQueueContext)
  (p : PBVH) (center_ view_normal_ : vec3) (radius : f32) (use_frontface use_projected_ : bool) :
  tri_mesh_ok (bm p) = true ->
  exists p' c' modified,
    update_topology_collapse c p center_ view_normal_ radius use_frontface use_projected_
    = Some (p', c', modified)
    /\ tri_mesh_ok (bm p') = true
    /\ sides_have_edges (bm p') = true.
Proof.
  intros Hok.
  destruct (short_edge_queue_create_total C c p center_ view_normal_ radius use_frontface
              use_projected_ (tri_mesh_ok_sides _ Hok)) as ([p1 c1] & E & Ht & _).
  cbn [fst] in Ht.
  assert (Hok1 : tri_mesh_ok (bm p1) = true)
    by (rewrite (tri_mesh_ok_skel _ _ (same_topology_skel _ _ Ht)); exact Hok).
  unfold update_topology_collapse. rewrite E.
  unfold pbvh_bmesh_collapse_short_edges.
  set (steps := collapse_max_steps (collapse_ratio c1 (bm_min_edge_len p1))).
  destruct (collapse_loop_spec steps (length (heap (q c1))) (mkCollapseState p1 c1 ∅ false 0))
    as (s' & Hs' & _).
  - apply chain_ranked_empty.
  - cbn [cs_ctx]. lia.
  - pose proof (tok_collapse_loop C steps _ (mkCollapseState p1 c1 ∅ false 0) s' Hok1 Hs')
      as Hok'.
    rewrite Hs'. exists (cs_pbvh s'), (cs_ctx s'), (cs_any_collapsed s').
    split; [reflexivity |]. split; [exact Hok' | apply tri_mesh_ok_sides; exact Hok'].
Qed.

Lemma update_topology_collapse_keeps_triangles_witness :
  exists p' c' modified,
    @update_topology_collapse plain_collaborators tri_ctx tri_pbvh zero_v3 (v3_of_Z 0 0 1)
      (f32_lit 10 0) false false = Some (p', c', modified)
    /\ tri_mesh_ok (bm p') = true
    /\ sides_have_edges (bm p') = true.
Proof.
  apply (update_topology_collapse_keeps_triangles plain_collaborators tri_ctx tri_pbvh zero_v3
           (v3_of_Z 0 0 1) (f32_lit 10 0) false false).
  vm_compute. reflexivity.
Defined.

(** Building the subdivide queue on a triangle mesh. *)
Lemma skel_update_valence (p : PBVH) (v : vert) :
  skel (bm (BKE_pbvh_bmesh_update_valence p v)) = skel (bm p).
Proof. reflexivity. Qed.

Lemma skel_edge_queue_insert_val34_vert (p : PBVH) (c : EdgeQueueContext) (v : vert) :
  skel (bm (fst (edge_queue_insert_val34_vert p c v))) = skel (bm p).
Proof. unfold edge_queue_insert_val34_vert. destruct (flag_test _ _); reflexivity. Qed.

Lemma nodes_check_vert_fan_are_tris (C : Collaborators) (p : PBVH) (v : vert) :
  tri_mesh_ok (bm p) = true -> nodes (check_vert_fan_are_tris p v) = nodes p.
Proof.
  intros Hok. unfold check_vert_fan_are_tris.
  destruct (negb _); [reflexivity |]. cbv zeta.
  set (p2 := set_bm _ _).
  assert (H2 : skel (bm p2) = skel (bm p) /\ nodes p2 = nodes p).
  { subst p2. cbn [bm set_bm nodes]. unfold mv_flag_disable.
    change (skel (vert_update ?m ?w ?g)) with (skel m).
    apply (fold_left_inv (fun s => skel (bm s) = skel (bm p) /\ nodes s = nodes p));
      [split; reflexivity |].
    intros s f _ Hs.
    apply (fold_left_inv (fun s => skel (bm s) = skel (bm p) /\ nodes s = nodes p));
      [exact Hs |].
    intros s' l _ Hs'. exact Hs'. }
  destruct H2 as [H2 N2].
  assert (Hfold : forall fs, (forall f, In f fs -> face_find (bm_faces (bm p)) f <> None) ->
                             fold_left check_face_is_tri fs p2 = p2).
  { induction fs as [|f tl IH]; intros Hall; [reflexivity |].
    cbn [fold_left]. rewrite check_face_is_tri_ok.
    - apply IH. intros g Hg. apply Hall. right. exact Hg.
    - rewrite (tri_mesh_ok_skel _ _ H2). exact Hok.
    - intros Hn. apply (face_find_None_skel _ _ f H2) in Hn. apply (Hall f); [left; reflexivity |].
      exact Hn. }
  rewrite Hfold; [exact N2 |].
  intros f Hf. exact (faces_of_vert_exist _ _ _ Hf).
Qed.

Lemma long_edge_queue_merge_vert_skel (st : merge_state) (v : vert) :
  skel (bm (fst (long_edge_queue_merge_vert st v))) = skel (bm (fst st))
  /\ nodes (fst (long_edge_queue_merge_vert st v)) = nodes (fst st).
Proof.
  destruct st as [p c]. unfold long_edge_queue_merge_vert, edge_queue_insert_val34_vert.
  cbn [fst].
  repeat match goal with
         | [ |- context [if ?b then _ else _] ] => destruct b
         end;
    split; reflexivity.
Qed.

Lemma long_edge_queue_merge_edge_skel (C : Collaborators) (st : merge_state) (e : edge) :
  tri_mesh_ok (bm (fst st)) = true ->
  skel (bm (fst (long_edge_queue_merge_edge st e))) = skel (bm (fst st))
  /\ nodes (fst (long_edge_queue_merge_edge st e)) = nodes (fst st).
Proof.
  destruct st as [p c]. cbn [fst]. intros Hok.
  unfold long_edge_queue_merge_edge. cbv zeta. cbn [fst].
  match goal with
  | [ |- context [check_vert_fan_are_tris (check_vert_fan_are_tris ?P4 (fst e)) (snd e)] ] =>
      set (p4 := P4)
  end.
  assert (H4 : skel (bm p4) = skel (bm p) /\ nodes p4 = nodes p).
  { subst p4.
    repeat match goal with
           | [ |- context [if ?b then _ else _] ] => destruct b
           end;
      cbn [fst snd];
      unfold edge_queue_insert_val34_vert;
      repeat match goal with
             | [ |- context [if ?b then _ else _] ] => destruct b
             end;
      cbn [fst snd bm set_bm nodes pbvh_mv_flag_enable BKE_pbvh_bmesh_update_valence
             pbvh_vert_update];
      (split; [| reflexivity]);
      change (skel (mv_flag_enable ?m ?w ?g)) with (skel m);
      repeat change (skel (vert_update ?m ?w ?g)) with (skel m);
      repeat change (skel (mv_flag_enable ?m ?w ?g)) with (skel m);
      apply (skel_edge_update (bm p) e); reflexivity. }
  destruct H4 as [H4 N4].
  assert (Hok4 : tri_mesh_ok (bm p4) = true) by (rewrite (tri_mesh_ok_skel _ _ H4); exact Hok).
  pose proof (skel_check_vert_fan_are_tris C p4 (fst e) Hok4) as H5.
  pose proof (nodes_check_vert_fan_are_tris C p4 (fst e) Hok4) as N5.
  assert (Hok5 : tri_mesh_ok (bm (check_vert_fan_are_tris p4 (fst e))) = true)
    by (rewrite (tri_mesh_ok_skel _ _ H5); exact Hok4).
  rewrite (skel_check_vert_fan_are_tris C _ (snd e) Hok5), H5, H4.
  rewrite (nodes_check_vert_fan_are_tris C _ (snd e) Hok5), N5, N4.
  split; reflexivity.
Qed.

(** X27.  If every face of the mesh is a triangle with three distinct corners, its
    three sides exist as edges and its id is below the next free id,
    long_edge_queue_create returns and keeps the faces with their corners,
    the end points of the edges and the nodes, so the mesh is still such a
    triangle mesh when the subdivide pass starts. *)
Theorem long_edge_queue_create_keeps_mesh (C : Collaborators) (c : EdgeQueueContext) (p : PBVH)
  (center_ view_normal_ : vec3) (radius : f32) (use_frontface use_projected_ : bool)
  (seed : Z) :
  tri_mesh_ok (bm p) = true ->
  exists st,
    long_edge_queue_create c p center_ view_normal_ radius use_frontface use_projected_ seed
    = Some st
    /\ fshape (bm (fst st)) = fshape (bm p)
    /\ ekeys (bm (fst st)) = ekeys (bm p)
    /\ nodes (fst st) = nodes p
    /\ tri_mesh_ok (bm (fst st)) = true.
Proof.
  intros Hok. pose proof (tri_mesh_ok_sides _ Hok) as Hwf.
  assert (Hgoal : exists st,
             long_edge_queue_create c p center_ view_normal_ radius use_frontface
               use_projected_ seed = Some st
             /\ skel (bm (fst st)) = skel (bm p) /\ nodes (fst st) = nodes p).
  { unfold long_edge_queue_create. cbv zeta.
    match goal with
    | [ |- context [run_tasks ?task 0%nat p (queue_tasks p)] ] =>
        destruct (run_tasks_total task) with (tds := queue_tasks p) (i := 0%nat) (p := p)
          as (p1 & tds & E & Ht & Hn & _)
    end.
    - intros i p' td Hwf' Htd. cbn beta.
      match goal with
      | [ |- exists st', long_edge_queue_task_cb ?cc _ _ = _ /\ _ ] =>
          destruct (long_edge_queue_task_cb_total C cc (seed + Z.of_nat i) p' td Hwf' Htd)
            as (st' & E & Hinv & _)
      end.
      exists st'. split; [exact E | exact Hinv].
    - exact Hwf.
    - apply queue_tasks_fresh.
    - rewrite E. eexists. split; [reflexivity |].
      match goal with
      | [ |- context [fold_left ?f tds ?s0] ] =>
          apply (fold_left_inv
                   (fun st : merge_state =>
                      skel (bm (fst st)) = skel (bm p) /\ nodes (fst st) = nodes p)
                   f tds s0)
      end.
      + cbn [fst]. split; [apply same_topology_skel; exact Ht | exact Hn].
      + intros st td _ Hst.
        apply (fold_left_inv
                 (fun st : merge_state =>
                    skel (bm (fst st)) = skel (bm p) /\ nodes (fst st) = nodes p)).
        * apply (fold_left_inv
                   (fun st : merge_state =>
                      skel (bm (fst st)) = skel (bm p) /\ nodes (fst st) = nodes p));
            [exact Hst |].
          intros st0 v _ [Hs0 Hn0].
          destruct (long_edge_queue_merge_vert_skel st0 v) as [Hs1 Hn1].
          split; congruence.
        * intros st0 e _ [Hs0 Hn0].
          destruct (long_edge_queue_merge_edge_skel C st0 e) as [Hs1 Hn1].
          { rewrite (tri_mesh_ok_skel _ _ Hs0). exact Hok. }
          split; congruence. }
  destruct Hgoal as (st & E & Hs & Hn). exists st.
  split; [exact E |].
  split; [unfold skel in Hs; congruence |].
  split; [unfold skel in Hs; congruence |].
  split; [exact Hn |]. rewrite (tri_mesh_ok_skel _ _ Hs). exact Hok.
Qed.

Lemma long_edge_queue_create_keeps_mesh_witness :
  exists st,
    @long_edge_queue_create plain_collaborators tri_ctx seam_pbvh zero_v3 (v3_of_Z 0 0 1)
      (f32_lit 10 0) false false 0 = Some st
    /\ fshape (bm (fst st)) = fshape (bm seam_pbvh)
    /\ ekeys (bm (fst st)) = ekeys (bm seam_pbvh)
    /\ nodes (fst st) = nodes seam_pbvh
    /\ tri_mesh_ok (bm (fst st)) = true.
Proof.
  apply (long_edge_queue_create_keeps_mesh plain_collaborators tri_ctx seam_pbvh zero_v3
           (v3_of_Z 0 0 1) (f32_lit 10 0) false false 0).
  vm_compute. reflexivity.
Defined.
